(* ===== verification/_CoqProject ===== *)
-Q . S2P
Prelude.v
RustStd.v
Utf8.v
Float64.v
Text.v
Telemetry.v
Backend.v
Runtime.v
Routing.v
Circuit.v
Health.v
Selection.v
Disk.v
BackendState.v
Control.v
Fences.v
Leases.v
Drain.v
Usage.v
Keys.v
Auth.v
Http.v
Timestamp.v
Logging.v
Proxy.v
AuditTrail.v
Public.v
Pipeline.v
InFlight.v
Register.v
Logs.v
Summary.v
LogText.v
Terminal.v
Manage.v
ControlClient.v
Workers.v
BackendCli.v
BackendManage.v
Explorer.v
Socket.v
Boot.v
Life.v
Serve.v
Main.v
