(* ===== verification/Prelude.v ===== *)
(** * A verified model of mistralrs_proxy

    mistralrs_proxy is an authenticating reverse proxy in front of several
    inference servers.  A request is authenticated against a file of key
    digests, admitted to an audit log, sent to the backend under least
    pressure, and streamed back while its token counts are read out of the
    response; operators drain, disable and reactivate backends while it runs.
    This library translates that program from [src/src/] into executable
    definitions and proves what makes it correct.

    ** The parts and their files

    - this file: integers of a fixed width, results and panics, the state
      monad [M], comparators and stable sorting, maps walked in any order,
      tactics and hints; [RustStd.v] and [Utf8.v] are the parts of Rust's
      standard library the program's text code uses, [Float64.v] its
      floating point (IEEE binary64, over Stdlib's [SpecFloat]), [Http.v] what
      it uses of the [http] crate;
    - [Telemetry.v]: [telemetry.rs], the Prometheus text parser and the
      least-pressure score;
    - [Backend.v]: [backend.rs], the lease gate of a backend (leases, modes,
      drain waits) and the registry of all of them;
    - [Runtime.v]: [runtime.rs], the validated configuration, its publication
      and its reload;
    - [Routing.v]: [routing.rs], readiness, telemetry, circuit breakers,
      selection, status; its theorems are in [Circuit.v] (the breaker),
      [Health.v] (readiness and telemetry records) and [Selection.v] (choice,
      reservation, status reports); [Workers.v]: the two
      workers of [routing.rs], their rounds and what they make of a page;
    - [Disk.v], [BackendState.v]: [backend_state.rs], the durable fences: the
      file of drained and disabled backends, replaced atomically, on a disk
      where every call can fail;
    - [Control.v]: [control.rs], the operator's plane: drain operations and
      their task, activate, disable, reload; its theorems are in [Fences.v]
      (gate, record and disk agree) and [Drain.v] (what a certified drain
      means, and that the detailed operations refine an abstract drain);
    - [Usage.v]: [usage.rs], the byte-at-a-time token sniffer, against a scan of
      the whole body;
    - [Keys.v], [Auth.v]: [keys.rs] and [auth.rs], the key file, the index,
      authentication and registration at run time; [Register.v]: [register.rs],
      registration over HTTP;
    - [Timestamp.v], [Logging.v]: [logging.rs], the audit log: records, admission,
      the bounded channel, the guards and the writer; [AuditTrail.v] runs any number
      of handlers interleaved with the writer and shows that every admitted
      request is recorded exactly once and that the channel never overflows;
    - [Public.v]: which paths of the public listener reach which handler;
      [Proxy.v]: [proxy.rs], the request pipeline; [Pipeline.v] shows that its
      handler follows the protocol of [AuditTrail.v] and reaches a backend only for a
      request that is admitted and authenticated;
    - [Logs.v], [Summary.v], [LogText.v]: [logs.rs], the log read back: [Tail]
      over a file that another process writes, rotates and truncates, the summary,
      and its text with standard output failing anywhere; [Text.v] is what
      [format!] does with widths and precisions;
    - [Terminal.v]: [render.rs] and the key presses of the terminal views;
      [Manage.v]: [manage.rs], [key create] and the key manager; [Explorer.v]:
      [logs/tui.rs], the log explorer over [Tail];
    - [ControlClient.v]: the control client of [backend_cli.rs] and the routes of
      [control.rs]: a request of the client against the handler it reaches;
      [BackendCli.v]: the [backend] commands of [backend_cli.rs] over the class
      [ControlApi], which the client implements; [BackendManage.v]:
      [backend_manage.rs], the live manager over the same class;
    - [Socket.v]: the path of the control socket, which [control.rs] binds and
      [main.rs] owns, among other processes; [Boot.v]: [main.rs], the start of
      the server from its files, which puts together the parsed configuration, the
      stored fences, the log, the routing state and the control plane; [Serve.v]:
      [main.rs], the accept loops, their connections and the order of the end;
      [Main.v]: the commands of [config.rs], the dispatch on them and [run] from
      the first file to the exit status;
    - [Leases.v], [InFlight.v], [Life.v]: the components together.  [Leases.v] counts
      the leases every operation takes, keeps or gives back and says what each does to
      the file of fences; [InFlight.v] is the server with all its requests in
      flight, the operators and the drain tasks, in any order; [Life.v] is the
      server's whole life, kills at any moment and restarts from its files
      included.

    ** How the model reads the code

    A struct is a record and an enum an inductive type with the source's names
    (a prefix where two share one).  A function that returns [Result] returns
    [result] or [fallible] (which may also panic); one that mutates a state
    [S] is in [M S], whose runs end in [Done] or [Panicked] and leave the state
    as it was at a panic, because every lock of the program recovers a poisoned
    mutex.  An [Arc] shared by several owners is the one copy in the state; a
    guard or lease is a value whose [Drop] is an explicit action.  What a lock
    protects is updated in one action; actions of different threads are
    interleaved by step relations ([circuit_step], [audit_step], the steps of
    [Drain.v] and [Fences.v], [server_step] of [InFlight.v], [life_step] of [Life.v]) and invariants are proved by induction on them.
    Every comment that begins with a path under [src/] names the lines the
    definition after it translates.

    Instants and durations are nanoseconds in [N], wall-clock times
    milliseconds; [u32], [u64] and [usize] are [N] with the width's overflow
    written out (checked, saturating, wrapping, or a panic; a plain operator that overflows is a
    panic, as where overflow is checked: the release profile of [Cargo.toml] would wrap).  Text is [string],
    or its bytes where the code scans.

    Code that is not under [src/] is a parameter, with what the program relies
    on as the laws of a class: [UriOps]/[UriLaws], [HeaderOps]/[HeaderLaws],
    [JsonOps]/[JsonLaws] (serde_json), [WireOps]/[WireLaws] (the JSON of the
    control messages), [AxumOps]/[AxumLaws] (path segments and queries),
    [KeyCrypto]/[KeyCryptoLaws] (SHA-256, base64, constant-time comparison).  Each has a concrete instance, with
    which the witnesses evaluate.

    Loops are structural; where the source's loop is not (trimming, scanning,
    decoding), the fuel is the length of the input, and the lemmas about it
    show that it is enough.

    ** What the theorems show

    Leases: a drain that reports zero saw no request in flight, none is lost
    and none released twice ([drain_wait_sound], [lease_conservation],
    [drain_wait_progress]); in the whole server the leases of a gate are at every
    moment the requests that hold one ([leases_are_requests]).  Selection: the backend chosen is eligible, of
    least pressure, and reserved ([select_spec], [reserve_spec],
    [statuses_agree]).  Circuits: one unanswered trial at a time, recovery
    ([circuit_invariant], [circuit_recovery]).  Health: hysteresis, and a late
    scrape never overwrites a newer one.  Telemetry: the parser equals a
    reference reading of the page, and reads back what a server renders.
    Configuration and reload: a file is accepted exactly when it is valid, and what
    is published is what it says ([parse_valid]); a refused reload
    changes nothing.  Fences and drains: the gates and the fences in memory
    agree in every state, and so does the file for every backend but at most
    one, whose last update was answered with an error; a crash while the file is written leaves
    the old state or the new one ([fences_agree], [set_mode_crash]).  A certified drain had its
    evidence, gathered by the telemetry worker after the drain began
    ([drain_certified], [worker_evidence], [drains_refine]); from
    that confirmation on no request is sent to that backend, through kills and restarts, until an
    operator asks for it ([safe_to_stop_lasts]).  Keys: authentication accepts exactly the enabled keys on file;
    registration publishes only what it saved.  Audit: exactly one record per
    admitted request, bounded memory, fail-closed admission, correct dates.
    Proxy: hop-by-hop headers stop, the rest goes through, the path is joined
    right, and nothing reaches a backend unaudited or unauthenticated.  Log
    commands: a tail reads every complete line once, the summary is its reference
    definition, the explorer shows the log as it grows and keeps the request that a key
    selected highlighted while it is shown; the first row, which no key selected, is not kept
    ([tail_follows], [summary_spec], [explorer_follows], [explorer_coherent]).
    Operator's commands: what the client returns is what the handler returned
    ([client_reaches]); a [drain] that succeeds completed that backend's drain and
    one with a deadline ends ([drain_exit_safe], [drain_ends]); the live manager
    drains only after the question was answered ([manager_asks]); the key manager
    never saves a file without an administrator ([manager_safe]).  The server itself: it
    takes over and gives up the control socket without harming another server's
    ([socket_ownership]); one that comes back has every gate as it was left and drains again
    what was draining ([restart_restores], over [boot_spec]); no accepted connection is lost, a shutdown ends, and
    the log is joined after everything that writes to it ([serve_accounts],
    [serve_ends], [wind_down_order]); however the server ends, its exit status
    says how and its control socket is gone ([serve_exit]).

    ** Not modelled

    TLS, timers, signals, threads and what tokio and hyper do with a task and a
    connection: a scheduler's choice is an event ([Serve.Event]), a call to the
    system an input that may be an error.  The HTTP client, clap's reading of the arguments
    into the options of [config.rs], what [ratatui] makes of a frame, log lines on
    the terminal, and the libraries above.
    Printing always succeeds, but for [LogText.v]'s standard output.  The
    [Relaxed]/[AcqRel] orderings of the atomics are not distinguished: each atomic
    access is one step. *)

From Stdlib Require Export Lia Ascii String.
From stdpp Require Export base option list gmap strings fin_maps sorting.
From coqutil Require Export Datatypes.RecordSetters.

Export TriangleBracketNotations.

Create HintDb proxy.

Declare Scope proxy_scope.
Delimit Scope proxy_scope with proxy.

(** ** Tactics shared by the development *)

(** Case analysis on every [match] and [if] of the goal and the hypotheses. *)
Ltac cases :=
  repeat (simplify_eq/=; first [case_match | case_decide]); simplify_eq/=.

(** Boolean comparisons on [N] as propositions. *)
Ltac nbool :=
  repeat match goal with
    | H : (_ =? _)%N = true |- _ => apply N.eqb_eq in H
    | H : (_ =? _)%N = false |- _ => apply N.eqb_neq in H
    | H : (_ <=? _)%N = true |- _ => apply N.leb_le in H
    | H : (_ <=? _)%N = false |- _ => apply N.leb_gt in H
    | H : (_ <? _)%N = true |- _ => apply N.ltb_lt in H
    | H : (_ <? _)%N = false |- _ => apply N.ltb_ge in H
    | H : _ && _ = true |- _ => apply andb_true_iff in H as [? ?]
    | H : _ || _ = false |- _ => apply orb_false_iff in H as [? ?]
    | H : negb _ = true |- _ => apply negb_true_iff in H
    | H : negb _ = false |- _ => apply negb_false_iff in H
    end.

(** Reduce a record update, a projection of one, or a monadic step. *)
Ltac rsimpl := unfold constant in *; simpl in *.

(** [lia] with division and remainder by a constant. *)
Ltac lia_div := zify; Z.to_euclidean_division_equations; lia.

(** ** Machine integers

    [u32], [u64] and [usize] (64-bit targets) are [N]; the operations of the
    source that can overflow are written out with the width's maximum.  An
    unsigned [saturating_sub] is [N.sub]. *)

Definition U32_MAX : N := 4294967295.
Definition U64_MAX : N := 18446744073709551615.
Definition USIZE_MAX : N := U64_MAX.

Definition checked_add (max a b : N) : option N :=
  if (a + b <=? max)%N then Some (a + b)%N else None.

(** Unsigned subtraction: [None] below zero. *)
Definition checked_sub (a b : N) : option N := if (b <=? a)%N then Some (a - b)%N else None.

Definition saturating_add (max a b : N) : N := N.min max (a + b).

Definition wrapping_add (max a b : N) : N := ((a + b) mod (max + 1))%N.

Lemma checked_add_Some max a b c :
  checked_add max a b = Some c ↔ c = (a + b)%N ∧ (c ≤ max)%N.
Proof. unfold checked_add. case_match; nbool; naive_solver lia. Qed.

Lemma checked_add_None max a b :
  checked_add max a b = None ↔ (max < a + b)%N.
Proof. unfold checked_add. case_match; nbool; naive_solver lia. Qed.

Lemma saturating_add_le max a b : (saturating_add max a b ≤ max)%N.
Proof. unfold saturating_add. lia. Qed.

(** ** Results, panics and state

    [result] is Rust's [Result]; [outcome] says whether a function returned or
    panicked; [M S A] is a function that mutates a state [S] and may panic
    part-way, leaving the state as it was at the panic (every lock of the
    program recovers a poisoned mutex with [into_inner], so that state is seen
    by the next caller). *)

Inductive result (E A : Type) : Type :=
| Ok (a : A)
| Err (e : E).
Arguments Ok {E A} a.
Arguments Err {E A} e.

Inductive outcome (A : Type) : Type :=
| Done (a : A)
| Panicked.
Arguments Done {A} a.
Arguments Panicked {A}.

#[export] Instance result_mret E : MRet (result E) := λ A a, Ok a.
#[export] Instance result_mbind E : MBind (result E) := λ A B f r,
  match r with Ok a => f a | Err e => Err e end.

Definition map_err {E F A} (f : E → F) (r : result E A) : result F A :=
  match r with Ok a => Ok a | Err e => Err (f e) end.

Definition ok_or {E A} (o : option A) (e : E) : result E A :=
  match o with Some a => Ok a | None => Err e end.

Definition is_ok {E A} (r : result E A) : bool :=
  match r with Ok _ => true | Err _ => false end.

Definition result_ok {E A} (r : result E A) : option A :=
  match r with Ok a => Some a | Err _ => None end.

Lemma result_bind_Ok {E A B} (r : result E A) (f : A → result E B) b :
  r ≫= f = Ok b ↔ ∃ a, r = Ok a ∧ f a = Ok b.
Proof. destruct r; cbn; naive_solver. Qed.

Lemma ok_or_Ok {E A} (o : option A) (e : E) a : ok_or o e = Ok a ↔ o = Some a.
Proof. destruct o; cbn; naive_solver. Qed.

Lemma map_err_Ok {E F A} (f : E → F) (r : result E A) a :
  map_err f r = Ok a ↔ r = Ok a.
Proof. destruct r; cbn; naive_solver. Qed.

(** A pure function that returns a [result] or panics. *)
Definition fallible (E A : Type) : Type := outcome (result E A).

#[export] Instance fallible_mret E : MRet (fallible E) := λ A a, Done (Ok a).
#[export] Instance fallible_mbind E : MBind (fallible E) := λ A B f r,
  match r with
  | Done (Ok a) => f a
  | Done (Err e) => Done (Err e)
  | Panicked => Panicked
  end.

Definition lift_result {E A} (r : result E A) : fallible E A := Done r.

(** State passing with panics. *)
Definition M (S A : Type) : Type := S → outcome A * S.

#[export] Instance M_mret S : MRet (M S) := λ A a s, (Done a, s).
#[export] Instance M_mbind S : MBind (M S) := λ A B f m s,
  match m s with
  | (Done a, s') => f a s'
  | (Panicked, s') => (Panicked, s')
  end.

Definition get_state {S} : M S S := λ s, (Done s, s).
Definition gets {S A} (f : S → A) : M S A := λ s, (Done (f s), s).
Definition modify {S} (f : S → S) : M S () := λ s, (Done (), f s).
Definition panic {S A} : M S A := λ s, (Panicked, s).

(** [Option::expect]: the value, or a panic. *)
Definition expect {S A} (o : option A) : M S A :=
  match o with Some a => mret a | None => panic end.

Lemma M_bind_Done {S A B} (m : M S A) (f : A → M S B) s b s' :
  (m ≫= f) s = (Done b, s') ↔ ∃ a s1, m s = (Done a, s1) ∧ f a s1 = (Done b, s').
Proof.
  unfold mbind, M_mbind. destruct (m s) as [[a|] s1]; naive_solver.
Qed.

(** Hoare triples over [M]: from a state with [P], a run that returns ends in
    [Q]; a run that panics ends in [R]. *)
Definition triple {S A} (P : S → Prop) (m : M S A)
    (Q : A → S → Prop) (R : S → Prop) : Prop :=
  ∀ s, P s → match m s with
             | (Done a, s') => Q a s'
             | (Panicked, s') => R s'
             end.

Lemma triple_bind {S A B} P (m : M S A) (f : A → M S B) Q' Q R :
  triple P m Q' R → (∀ a, triple (Q' a) (f a) Q R) → triple P (m ≫= f) Q R.
Proof.
  intros Hm Hf s Hs. specialize (Hm s Hs). unfold mbind, M_mbind.
  destruct (m s) as [[a|] s1]; [by apply Hf | done].
Qed.

(** ** Orderings

    [Ordering] is [comparison]; a [Comparator] is a total preorder given by a
    three-way comparison, which is what [sort_by] asks of its closure. *)

Class Comparator {A} (cmp : A → A → comparison) : Prop := {
  cmp_opp : ∀ x y, cmp y x = CompOpp (cmp x y);
  cmp_trans : ∀ x y z, cmp x y ≠ Gt → cmp y z ≠ Gt → cmp x z ≠ Gt;
}.
Arguments cmp_opp {A} cmp {_} x y.
Arguments cmp_trans {A} cmp {_} x y z.

(** [Ordering::then_with]. *)
Definition then_with (c : comparison) (d : comparison) : comparison :=
  match c with Eq => d | _ => c end.

(** [Ordering::reverse], as [right.cmp(left)] produces it. *)
Definition flip_cmp {A} (cmp : A → A → comparison) : A → A → comparison :=
  λ x y, cmp y x.

Section Comparators.
Context {A : Type}.
Implicit Types (cmp : A → A → comparison).

Lemma cmp_refl cmp `{!Comparator cmp} x : cmp x x = Eq.
Proof. pose proof (cmp_opp cmp x x) as H. by destruct (cmp x x). Qed.

Lemma cmp_le_total cmp `{!Comparator cmp} x y : cmp x y ≠ Gt ∨ cmp y x ≠ Gt.
Proof. rewrite (cmp_opp cmp x y). destruct (cmp x y); naive_solver. Qed.

(** Equal elements compare alike with everything else. *)
Lemma cmp_Eq_l cmp `{!Comparator cmp} x y z : cmp x y = Eq → cmp x z = cmp y z.
Proof.
  intros Hxy. assert (cmp y x = Eq) as Hyx by by rewrite (cmp_opp cmp x y), Hxy.
  assert (∀ a b, cmp a b = Eq → cmp b a = Eq) as Hsym.
  { intros a b Hab. by rewrite (cmp_opp cmp a b), Hab. }
  assert (∀ a b c, cmp a b = Eq → cmp b c ≠ Gt → cmp a c ≠ Gt) as Hle.
  { intros a b c Hab. apply (cmp_trans cmp). by rewrite Hab. }
  assert (∀ a b c, cmp a b = Eq → cmp b c ≠ Lt → cmp a c ≠ Lt) as Hge.
  { intros a b c Hab Hbc Hac. apply Hbc.
    destruct (cmp b c) eqn:E; [|done|].
    - exfalso. assert (cmp c a = Gt) as Hca by by rewrite (cmp_opp cmp a c), Hac.
      apply (cmp_trans cmp c b a); [by rewrite (Hsym _ _ E)|by rewrite (Hsym _ _ Hab)|done].
    - exfalso. assert (cmp c b = Lt) as Hcb by by rewrite (cmp_opp cmp b c), E.
      assert (cmp c a = Gt) as Hca by by rewrite (cmp_opp cmp a c), Hac.
      apply (cmp_trans cmp c b a); [by rewrite Hcb|by rewrite (Hsym _ _ Hab)|done]. }
  pose proof (Hle x y z Hxy); pose proof (Hge x y z Hxy).
  pose proof (Hle y x z Hyx); pose proof (Hge y x z Hyx).
  destruct (cmp x z), (cmp y z); naive_solver.
Qed.

#[export] Instance flip_Comparator cmp `{!Comparator cmp} : Comparator (flip_cmp cmp).
Proof.
  split; unfold flip_cmp.
  - intros x y. apply (cmp_opp cmp).
  - intros x y z H1 H2. by apply (cmp_trans cmp z y x).
Qed.

#[export] Instance then_with_Comparator cmp cmp'
  `{!Comparator cmp} `{!Comparator cmp'} :
  Comparator (λ x y, then_with (cmp x y) (cmp' x y)).
Proof.
  split.
  - intros x y. rewrite (cmp_opp cmp x y), (cmp_opp cmp' x y).
    by destruct (cmp x y).
  - intros x y z Hxy Hyz.
    destruct (cmp x y) eqn:Exy; simpl in Hxy; [|clear Hxy|done].
    + rewrite (cmp_Eq_l cmp x y z Exy).
      destruct (cmp y z); simpl in *; [|done|done]. by apply (cmp_trans cmp' x y z).
    + assert (cmp x z = Lt) as ->; [|done].
      destruct (cmp x z) eqn:Exz; [| done |].
      * exfalso. assert (cmp y z = Gt) as Hz.
        { rewrite (cmp_opp cmp z y). rewrite <- (cmp_Eq_l cmp x z y Exz), Exy. done. }
        by rewrite Hz in Hyz.
      * exfalso. apply (cmp_trans cmp x y z); [by rewrite Exy| |done].
        by destruct (cmp y z).
Qed.
End Comparators.

(** A comparator pulled back along a projection. *)
#[export] Instance on_Comparator {A B} (f : B → A) (cmp : A → A → comparison)
  `{!Comparator cmp} : Comparator (λ x y, cmp (f x) (f y)).
Proof.
  split; [intros x y; apply (cmp_opp cmp) | intros x y z; apply (cmp_trans cmp)].
Qed.

#[export] Instance N_Comparator : Comparator N.compare.
Proof.
  split; [apply N.compare_antisym|].
  intros x y z H1 H2. rewrite N.compare_le_iff in *. lia.
Qed.

#[export] Instance Z_Comparator : Comparator Z.compare.
Proof.
  split; [intros; apply Z.compare_antisym|].
  intros x y z H1 H2. rewrite Z.compare_le_iff in *. lia.
Qed.

(** [Ord for str] compares the bytes lexicographically: [String.compare]. *)
#[export] Instance string_Comparator : Comparator String.compare.
Proof.
  split; [intros; apply String.compare_antisym|].
  intros x. induction x as [|a x IH]; intros [|b y] [|c z]; simpl; try done.
  unfold Ascii.compare.
  intros H1 H2.
  destruct (N_of_ascii a ?= N_of_ascii b)%N eqn:E1; [| |done];
  destruct (N_of_ascii b ?= N_of_ascii c)%N eqn:E2; try done;
  rewrite ?N.compare_eq_iff, ?N.compare_lt_iff in *;
  destruct (N_of_ascii a ?= N_of_ascii c)%N eqn:E3; try done;
  rewrite ?N.compare_eq_iff, ?N.compare_lt_iff, ?N.compare_gt_iff in *; try lia.
  by apply (IH y z).
Qed.

Lemma string_compare_Eq s t : String.compare s t = Eq ↔ s = t.
Proof. split; [apply String.compare_eq_iff|intros ->; apply cmp_refl, _]. Qed.

(** ** Stable sorting

    [sort_by] is [slice::sort_by]: stable, ascending for the comparator. *)

Section SortBy.
Context {A : Type} (cmp : A → A → comparison).

Fixpoint insert_by (x : A) (l : list A) : list A :=
  match l with
  | [] => [x]
  | y :: l' => match cmp x y with
               | Gt => y :: insert_by x l'
               | _ => x :: y :: l'
               end
  end.

Definition sort_by (l : list A) : list A := foldr insert_by [] l.

Lemma insert_by_perm x l : insert_by x l ≡ₚ x :: l.
Proof.
  induction l as [|y l IH]; simpl; [done|].
  destruct (cmp x y); [done|done|]. rewrite IH. constructor.
Qed.

Lemma sort_by_perm l : sort_by l ≡ₚ l.
Proof.
  induction l as [|x l IH]; simpl; [done|]. by rewrite insert_by_perm, IH.
Qed.

Lemma sort_by_elem_of l x : x ∈ sort_by l ↔ x ∈ l.
Proof. by rewrite sort_by_perm. Qed.

Lemma sort_by_length l : length (sort_by l) = length l.
Proof. apply Permutation_length, sort_by_perm. Qed.

Definition cmp_le (x y : A) : Prop := cmp x y ≠ Gt.

Context `{!Comparator cmp}.

Lemma insert_by_sorted x l :
  StronglySorted cmp_le l → StronglySorted cmp_le (insert_by x l).
Proof.
  induction 1 as [|y l Hl IH Hy]; simpl; [repeat constructor|].
  assert (∀ c, cmp x y = c → c ≠ Gt → StronglySorted cmp_le (x :: y :: l)) as Hle.
  { intros c <- Hc. constructor; [by constructor|].
    constructor; [done|]. eapply Forall_impl; [exact Hy|].
    intros z Hz. by apply (cmp_trans cmp x y z). }
  destruct (cmp x y) eqn:E; [by apply (Hle Eq)|by apply (Hle Lt)|].
  constructor; [done|]. rewrite insert_by_perm. constructor; [|done].
  unfold cmp_le. rewrite (cmp_opp cmp x y), E. done.
Qed.

Lemma sort_by_sorted l : StronglySorted cmp_le (sort_by l).
Proof. induction l; simpl; [constructor|by apply insert_by_sorted]. Qed.

(** The first element of a sorted list is a minimum of it. *)
Lemma sort_by_head l x l' :
  sort_by l = x :: l' → x ∈ l ∧ ∀ y, y ∈ l → cmp_le x y.
Proof.
  intros E. pose proof (sort_by_sorted l) as Hs. rewrite E in Hs.
  inversion Hs as [|? ? _ Hx]; subst. split.
  - apply sort_by_elem_of. rewrite E. left.
  - intros y Hy. apply sort_by_elem_of in Hy. rewrite E in Hy.
    apply elem_of_cons in Hy as [->|Hy].
    + unfold cmp_le. by rewrite cmp_refl by apply _.
    + by apply (proj1 (Forall_forall _ _) Hx).
Qed.

(** When equal elements are the same, the sorted list is determined by the
    elements alone: the order the input is enumerated in is immaterial. *)
Lemma sort_by_unique l1 l2 :
  (∀ x y, x ∈ l1 → y ∈ l1 → cmp x y = Eq → x = y) →
  l1 ≡ₚ l2 → sort_by l1 = sort_by l2.
Proof.
  intros Heq Hp.
  assert (∀ l, sort_by l ≡ₚ l) as Hs by apply sort_by_perm.
  assert (sort_by l1 ≡ₚ sort_by l2) as Hp' by by rewrite !Hs.
  assert (∀ x y, x ∈ sort_by l1 → y ∈ sort_by l1 → cmp x y = Eq → x = y) as Heq'.
  { intros x y Hx Hy. apply Heq; by apply sort_by_elem_of. }
  pose proof (sort_by_sorted l1) as H1. pose proof (sort_by_sorted l2) as H2.
  revert Hp' Heq' H1 H2. generalize (sort_by l1) (sort_by l2).
  clear -Comparator0.
  intros l. induction l as [|x l IH]; intros k Hp Heq H1 H2.
  { by apply Permutation_nil in Hp. }
  destruct k as [|y k]; [by apply Permutation_length in Hp|].
  inversion H1 as [|? ? Hl Hx]; inversion H2 as [|? ? Hk Hy]; subst.
  assert (x = y) as ->.
  { assert (x ∈ y :: k) as Hxk by (rewrite <- Hp; left).
    assert (y ∈ x :: l) as Hyl by (rewrite Hp; left).
    apply elem_of_cons in Hxk as [->|Hxk]; [done|].
    apply elem_of_cons in Hyl as [->|Hyl]; [done|].
    apply Heq; [left|by right|].
    pose proof (proj1 (Forall_forall _ _) Hx y Hyl) as Hxy.
    pose proof (proj1 (Forall_forall _ _) Hy x Hxk) as Hyx.
    unfold cmp_le in *. rewrite (cmp_opp cmp x y) in Hyx. by destruct (cmp x y). }
  f_equal. apply IH; [by apply Permutation_cons_inv in Hp| |done|done].
  intros a b Ha Hb. apply Heq; by right.
Qed.
End SortBy.

(** ** Lists *)

(** The longest prefix of elements with [p], and the rest: what the scanning
    loops [while p(bytes[cursor]) { cursor += 1 }] compute. *)
Fixpoint span {A} (p : A → bool) (l : list A) : list A * list A :=
  match l with
  | [] => ([], [])
  | x :: l' => if p x then let '(a, b) := span p l' in (x :: a, b) else ([], l)
  end.

Lemma span_app {A} (p : A → bool) l a b : span p l = (a, b) → l = a ++ b.
Proof.
  revert a b. induction l as [|x l IH]; intros a b; simpl; [naive_solver|].
  destruct (p x); [|naive_solver]. destruct (span p l) as [a' b'].
  intros [= <- <-]. simpl. f_equal. by apply IH.
Qed.

Lemma span_Forall {A} (p : A → bool) l a b :
  span p l = (a, b) → Forall (λ x, p x = true) a.
Proof.
  revert a b. induction l as [|x l IH]; intros a b; simpl.
  { intros [= <- <-]. constructor. }
  destruct (p x) eqn:E; [|intros [= <- <-]; constructor].
  destruct (span p l) as [a' b']. intros [= <- <-].
  constructor; [done|]. by eapply IH.
Qed.

(** A prefix of [p]s followed by a non-[p] (or nothing) is the span. *)
Lemma span_stop {A} (p : A → bool) a b :
  Forall (λ x, p x = true) a →
  match b with [] => True | x :: _ => p x = false end →
  span p (a ++ b) = (a, b).
Proof.
  induction 1 as [|x a Hx Ha IH]; intros Hb; simpl.
  - destruct b as [|x b]; simpl; [done|]. by rewrite Hb.
  - by rewrite Hx, (IH Hb).
Qed.

(** The length of the longest prefix of elements with [p]. *)
Definition run_of {A} (p : A → bool) (l : list A) : N := N.of_nat (length (span p l).1).

Lemma run_of_cons {A} (p : A → bool) x l :
  run_of p (x :: l) = if p x then (run_of p l + 1)%N else 0%N.
Proof. unfold run_of. simpl. destruct (p x); [|done]. destruct (span p l). simpl. lia. Qed.

Lemma StronglySorted_app_inv {A} (R : A → A → Prop) l1 l2 :
  StronglySorted R (l1 ++ l2) → StronglySorted R l1 ∧ StronglySorted R l2.
Proof.
  induction l1 as [|x l1 IH]; simpl; [split; [constructor|done]|].
  inversion_clear 1 as [|? ? H1 H2]. apply Forall_app in H2 as [? ?].
  destruct (IH H1). split; [by constructor|done].
Qed.

(** Monadic iteration in list order. *)
Fixpoint for_each {S A} (l : list A) (f : A → M S ()) : M S () :=
  match l with
  | [] => mret ()
  | x :: l' => f x ;; for_each l' f
  end.

Lemma for_each_app {S A} (l k : list A) (f : A → M S ()) s s1 :
  for_each l f s = (Done (), s1) → for_each (l ++ k) f s = for_each k f s1.
Proof.
  revert s. induction l as [|x l IH]; intros s; simpl; [by intros [= ->]|].
  unfold mbind, M_mbind. destruct (f x s) as [[[]|] s2]; [apply IH|done].
Qed.

(** An invariant of the list processed so far. *)
Lemma for_each_snoc_inv {S A} (P : list A → S → Prop) (f : A → M S ()) s0 :
  P [] s0 →
  (∀ l x s, P l s → ∃ s', f x s = (Done (), s') ∧ P (l ++ [x]) s') →
  ∀ l, ∃ s, for_each l f s0 = (Done (), s) ∧ P l s.
Proof.
  intros H0 Hstep l. induction l as [|x l IH] using rev_ind; [by exists s0|].
  destruct IH as (s & Hrun & Hs). destruct (Hstep l x s Hs) as (s' & Hx & Hs').
  exists s'. split; [|done]. rewrite (for_each_app _ _ _ _ s) by done.
  simpl. unfold mbind, M_mbind. by rewrite Hx.
Qed.

Lemma for_each_inv {S A} (P : S → Prop) (l : list A) (f : A → M S ()) :
  (∀ x, x ∈ l → triple P (f x) (λ _, P) P) → triple P (for_each l f) (λ _, P) P.
Proof.
  induction l as [|x l IH]; intros Hf; simpl; [by intros s Hs|].
  apply (triple_bind _ _ _ (λ _, P)); [apply Hf; left|].
  intros _. apply IH. intros y Hy. apply Hf. by right.
Qed.

Lemma foldl_ext_in {A B} (f g : A → B → A) l a :
  (∀ a b, b ∈ l → f a b = g a b) → foldl f a l = foldl g a l.
Proof.
  revert a. induction l as [|b l IH]; intros a H; simpl; [done|].
  rewrite H by left. apply IH. intros a' b' Hb. apply H. by right.
Qed.

(** A loop over distinct keys whose rounds rewrite the entry of their key alone,
    from what the entry was, and fold into an accumulator: every order of the
    same keys yields the same map. *)
Lemma for_each_pointwise {V R} (step : string → M (gmap string V * R) ())
    (f : string → option V → option V) (g : string → option V → R → R)
    (ok : string → option V → Prop) (l : list string) (m : gmap string V) (r : R) :
  (∀ x m r, ok x (m !! x) → ∃ m', step x (m, r) = (Done (), (m', g x (m !! x) r))
     ∧ ∀ i, m' !! i = if decide (i = x) then f x (m !! x) else m !! i) →
  NoDup l → (∀ x, x ∈ l → ok x (m !! x)) →
  ∃ m', for_each l step (m, r) = (Done (), (m', foldl (λ r x, g x (m !! x) r) r l))
    ∧ ∀ i, m' !! i = if decide (i ∈ l) then f i (m !! i) else m !! i.
Proof.
  intros Hstep Hnd. revert m r. induction Hnd as [|x l Hx Hnd IH]; intros m r Hok.
  { exists m. split; [done|]. intros i. by rewrite decide_False by apply not_elem_of_nil. }
  destruct (Hstep x m r) as (m1 & Hrun & Hm1); [apply Hok; left|].
  assert (∀ i, i ∈ l → m1 !! i = m !! i) as Hsame.
  { intros i Hi. rewrite Hm1. case_decide; [by subst|done]. }
  destruct (IH m1 (g x (m !! x) r)) as (m' & Hrun' & Hm').
  { intros i Hi. rewrite Hsame by done. apply Hok. by right. }
  exists m'. split.
  - cbn [for_each]. unfold mbind, M_mbind. rewrite Hrun, Hrun'. cbn [foldl].
    rewrite (foldl_ext_in (λ r x, g x (m1 !! x) r) (λ r x, g x (m !! x) r)); [done|].
    intros r' y Hy. by rewrite Hsame.
  - intros i. rewrite Hm', Hm1. destruct (decide (i = x)) as [->|Hne].
    + rewrite decide_False by done. by rewrite decide_True by left.
    + destruct (decide (i ∈ l)); [by rewrite decide_True by by right|].
      rewrite decide_False; [done|]. by rewrite not_elem_of_cons.
Qed.

(** The same without an accumulator. *)
Lemma for_each_entries {V} (step : string → M (gmap string V) ())
    (f : string → option V → option V) (ok : string → option V → Prop)
    (l : list string) (m : gmap string V) :
  (∀ x m, ok x (m !! x) → ∃ m', step x m = (Done (), m')
     ∧ ∀ i, m' !! i = if decide (i = x) then f x (m !! x) else m !! i) →
  NoDup l → (∀ x, x ∈ l → ok x (m !! x)) →
  ∃ m', for_each l step m = (Done (), m')
    ∧ ∀ i, m' !! i = if decide (i ∈ l) then f i (m !! i) else m !! i.
Proof.
  intros Hstep Hnd Hok.
  set (step' := λ x '(m, u), let '(o, m') := step x m in (o, (m', u)) : outcome () * (gmap string V * ())).
  destruct (for_each_pointwise step' f (λ _ _ u, u) ok l m ()) as (m' & Hrun & Hm');
    [|done|done|].
  { intros x m1 [] Hx. destruct (Hstep x m1 Hx) as (m2 & Hr & Hm2).
    exists m2. unfold step'. by rewrite Hr. }
  exists m'. split; [|done]. clear -Hrun. revert m m' Hrun.
  induction l as [|x l IH]; intros m m'; cbn [for_each foldl]; [by intros [= <-]|].
  unfold mbind, M_mbind. unfold step' at 1. destruct (step x m) as [[[]|] m1]; [|done].
  intros H. apply IH. rewrite <- H. by destruct (foldl _ _ _).
Qed.

(** [collect] into a map: the entries of a list with distinct keys. *)
Lemma foldl_insert_lookup {A V} (key : A → string) (val : A → V) (f : gmap string V → A → gmap string V)
    (l : list A) (m : gmap string V) id v :
  (∀ m x, f m x = <[key x := val x]> m) → NoDup (key <$> l) →
  foldl f m l !! id = Some v ↔
  (∃ x, x ∈ l ∧ key x = id ∧ val x = v) ∨ (m !! id = Some v ∧ id ∉ key <$> l).
Proof.
  intros Hf. revert m. induction l as [|x l IH]; intros m Hnd; cbn [foldl fmap list_fmap].
  { split; [intros Hm; right; split; [done|apply not_elem_of_nil]|].
    intros [(? & Hx & _)|[? _]]; [by apply elem_of_nil in Hx|done]. }
  apply NoDup_cons in Hnd as [Hx Hnd]. rewrite IH, Hf, not_elem_of_cons by done.
  setoid_rewrite elem_of_cons. destruct (decide (key x = id)) as [<-|Hne].
  - rewrite lookup_insert_eq. split.
    + intros [(y & Hy & Hk & Hv)|[[= <-] _]]; left; [by exists y; auto|by exists x; auto].
    + intros [(y & [->|Hy] & Hk & Hv)|[_ [? _]]]; [right; by rewrite Hv|left; by exists y|done].
  - rewrite lookup_insert_ne by done. split.
    + intros [(y & Hy & Hk & Hv)|[Hm Hn]]; [left; by exists y; auto|right; by auto].
    + intros [(y & [->|Hy] & Hk & Hv)|[Hm [_ Hn]]]; [done|left; by exists y|right; by auto].
Qed.

(** The elements of a list that satisfy a boolean test. *)
Notation keep := List.filter.

Lemma elem_of_keep {A} (f : A → bool) l x : x ∈ keep f l ↔ x ∈ l ∧ f x = true.
Proof. rewrite !list_elem_of_In. apply filter_In. Qed.

Lemma keep_perm {A} (f : A → bool) l k : l ≡ₚ k → keep f l ≡ₚ keep f k.
Proof.
  induction 1 as [|x l k Hp IH|x y l|l1 l2 l3 H1 IH1 H2 IH2]; simpl; [done| | |by rewrite IH1].
  - by destruct (f x); rewrite IH.
  - by destruct (f x), (f y); try done; constructor.
Qed.

(** A function that agrees on the elements keeps the same ones. *)
Lemma keep_ext {A} (f g : A → bool) l : (∀ x, x ∈ l → f x = g x) → keep f l = keep g l.
Proof.
  induction l as [|x l IH]; intros H; simpl; [done|].
  rewrite (H x) by left. rewrite IH; [done|]. intros y Hy. apply H. by right.
Qed.

Lemma keep_sublist {A} (f : A → bool) l : sublist (keep f l) l.
Proof. induction l as [|x l IH]; simpl; [done|]. by destruct (f x); constructor. Qed.

Lemma keep_none {A} (f : A → bool) l : keep f l = [] ↔ ∀ x, x ∈ l → f x = false.
Proof.
  split.
  - intros E x Hx. destruct (f x) eqn:Hf; [|done]. exfalso.
    assert (x ∈ keep f l) as Hk by by apply elem_of_keep. rewrite E in Hk. by apply elem_of_nil in Hk.
  - induction l as [|x l IH]; intros H; simpl; [done|]. rewrite (H x) by left.
    apply IH. intros y Hy. apply H. by right.
Qed.

Lemma keep_first {A} (f : A → bool) l x :
  head (keep f l) = Some x →
  ∃ l1 l2, l = l1 ++ x :: l2 ∧ f x = true ∧ ∀ y, y ∈ l1 → f y = false.
Proof.
  induction l as [|y l IH]; simpl; [done|]. destruct (f y) eqn:Hf; simpl.
  - intros [= ->]. exists [], l. split; [done|]. split; [done|]. intros z Hz. by apply elem_of_nil in Hz.
  - intros (l1 & l2 & -> & Hx & Hl)%IH. exists (y :: l1), l2. split; [done|]. split; [done|].
    intros z [->|Hz]%elem_of_cons; [done|by apply Hl].
Qed.

(** The first element with [p] of a sorted list is a minimum of those with [p]. *)
Lemma sort_by_first {A} (cmp : A → A → comparison) `{!Comparator cmp} (p : A → bool) l c :
  head (keep p (sort_by cmp l)) = Some c →
  c ∈ l ∧ p c = true ∧ ∀ d, d ∈ l → p d = true → cmp_le cmp c d.
Proof.
  intros Hh. pose proof (sort_by_sorted cmp l) as Hs. pose proof (sort_by_elem_of cmp l) as Hel.
  revert Hh Hs Hel. generalize (sort_by cmp l). intros k Hh Hs Hel.
  assert (c ∈ k ∧ p c = true ∧ ∀ d, d ∈ k → p d = true → cmp_le cmp c d) as (H1 & H2 & H3).
  { clear Hel. induction Hs as [|x k Hk IH Hx]; simpl in Hh; [done|].
    destruct (p x) eqn:Hp; simpl in Hh.
    - injection Hh as ->. split; [left|]. split; [done|]. intros d Hd _.
      apply elem_of_cons in Hd as [->|Hd]; [by unfold cmp_le; rewrite cmp_refl by apply _|].
      by apply (proj1 (Forall_forall _ _) Hx).
    - destruct (IH Hh) as (H1 & H2 & H3). split; [by right|]. split; [done|].
      intros d Hd Hpd. apply elem_of_cons in Hd as [->|Hd]; [congruence|by apply H3]. }
  split; [by apply Hel|]. split; [done|]. intros d Hd. by apply H3, Hel.
Qed.

#[export] Hint Resolve cmp_refl sort_by_sorted sort_by_perm : proxy.
