(* ===== verification/RustStd.v ===== *)
(** * The parts of the Rust standard library the program's text code uses

    A [&str] is a Stdlib [string], one [ascii] per UTF-8 byte; scanning code
    works on [bytes], the byte list of the string, which is what
    [str::as_bytes] gives.  The functions below are the [core]/[std] functions
    the sources call: [str::lines], [trim], [trim_start], [trim_end],
    [find(char::is_whitespace)], [split_ascii_whitespace], [strip_prefix],
    [starts_with], [u8::is_ascii_*], [eq_ignore_ascii_case], [str::parse] for
    the integers, and [Display] for the unsigned integers. *)

From S2P Require Import Prelude.

Notation bytes := (list ascii).
Notation bs := list_ascii_of_string.
Notation str := string_of_list_ascii.

Lemma str_bs s : str (bs s) = s.
Proof. apply string_of_list_ascii_of_string. Qed.

Lemma bs_str l : bs (str l) = l.
Proof. apply list_ascii_of_string_of_list_ascii. Qed.

#[export] Instance bs_inj : Inj (=) (=) list_ascii_of_string.
Proof. intros s t H. by rewrite <- (str_bs s), <- (str_bs t), H. Qed.

#[export] Instance str_inj : Inj (=) (=) string_of_list_ascii.
Proof. intros s t H. by rewrite <- (bs_str s), <- (bs_str t), H. Qed.

Lemma bs_app s t : bs (s +:+ t) = bs s ++ bs t.
Proof.
  induction s as [|a s IH]; [done|].
  change (a :: bs (s +:+ t) = a :: bs s ++ bs t). by rewrite IH.
Qed.

Lemma str_app a b : str (a ++ b) = str a +:+ str b.
Proof.
  induction a as [|x a IH]; [done|].
  change (String x (str (a ++ b)) = String x (str a +:+ str b)). by rewrite IH.
Qed.

(** ** Bytes *)

Definition code (a : ascii) : N := N_of_ascii a.

Definition LF : ascii := Eval cbv in ascii_of_N 10.
Definition CR : ascii := Eval cbv in ascii_of_N 13.
Definition QUOTE : ascii := Eval cbv in ascii_of_N 34.
Definition BACKSLASH : ascii := Eval cbv in ascii_of_N 92.
Definition SPACE : ascii := Eval cbv in ascii_of_N 32.

Definition in_range (lo hi : N) (a : ascii) : bool :=
  ((lo <=? code a) && (code a <=? hi))%N.

Definition is_ascii_digit : ascii → bool := in_range 48 57.
Definition is_ascii_lowercase : ascii → bool := in_range 97 122.
Definition is_ascii_uppercase : ascii → bool := in_range 65 90.
Definition is_ascii_alphabetic (a : ascii) : bool :=
  is_ascii_lowercase a || is_ascii_uppercase a.
Definition is_ascii_alphanumeric (a : ascii) : bool :=
  is_ascii_alphabetic a || is_ascii_digit a.
Definition is_ascii_graphic : ascii → bool := in_range 33 126.
Definition is_ascii_hexdigit (a : ascii) : bool :=
  is_ascii_digit a || in_range 97 102 a || in_range 65 70 a.

(** [u8::is_ascii_whitespace]: space, tab, line feed, form feed, return. *)
Definition is_ascii_whitespace (a : ascii) : bool :=
  let c := code a in ((c =? 32) || (c =? 9) || (c =? 10) || (c =? 12) || (c =? 13))%N.

Definition to_ascii_lowercase (a : ascii) : ascii :=
  if is_ascii_uppercase a then ascii_of_N (code a + 32) else a.

Fixpoint eq_ignore_ascii_case (a b : bytes) : bool :=
  match a, b with
  | [], [] => true
  | x :: a', y :: b' =>
      Ascii.eqb (to_ascii_lowercase x) (to_ascii_lowercase y) && eq_ignore_ascii_case a' b'
  | _, _ => false
  end.

Lemma in_range_spec lo hi a :
  in_range lo hi a = true ↔ (lo ≤ code a ∧ code a ≤ hi)%N.
Proof. unfold in_range. rewrite andb_true_iff, !N.leb_le. done. Qed.

Lemma is_ascii_digit_spec a : is_ascii_digit a = true ↔ (48 ≤ code a ≤ 57)%N.
Proof. unfold is_ascii_digit. rewrite in_range_spec. lia. Qed.

(** A property of all bytes is decided by evaluating it on the 256 of them. *)
Lemma byte_forall (p : ascii → bool) :
  forallb p (map ascii_of_nat (seq 0 256)) = true → ∀ a, p a = true.
Proof.
  intros H a. rewrite forallb_forall in H. apply H.
  rewrite <- (ascii_nat_embedding a). apply in_map, in_seq.
  pose proof (nat_ascii_bounded a). lia.
Qed.

Lemma byte_decide (P : ascii → Prop) `{∀ a, Decision (P a)} :
  forallb (λ a, bool_decide (P a)) (map ascii_of_nat (seq 0 256)) = true → ∀ a, P a.
Proof.
  intros Hall a. pose proof (byte_forall (λ a, bool_decide (P a)) Hall a) as Ha.
  by apply bool_decide_eq_true in Ha.
Qed.

(** ** Prefixes *)

Fixpoint strip_prefix (p s : bytes) : option bytes :=
  match p, s with
  | [], _ => Some s
  | x :: p', y :: s' => if Ascii.eqb x y then strip_prefix p' s' else None
  | _ :: _, [] => None
  end.

Definition starts_with (p s : bytes) : bool :=
  match strip_prefix p s with Some _ => true | None => false end.

Lemma strip_prefix_Some p s r : strip_prefix p s = Some r ↔ s = p ++ r.
Proof.
  revert s. induction p as [|x p IH]; intros [|y s]; simpl.
  - naive_solver.
  - naive_solver.
  - naive_solver.
  - destruct (Ascii.eqb_spec x y) as [->|Hn]; [rewrite IH; naive_solver|naive_solver].
Qed.

Lemma starts_with_spec p s : starts_with p s = true ↔ ∃ r, s = p ++ r.
Proof.
  unfold starts_with. destruct (strip_prefix p s) as [r|] eqn:E.
  - apply strip_prefix_Some in E. naive_solver.
  - split; [done|]. intros [r Hr]. apply strip_prefix_Some in Hr. by rewrite Hr in E.
Qed.

(** ** Unicode white space on UTF-8 bytes

    [char::is_whitespace] is the Unicode property White_Space.  [ws_len s] is
    the length in bytes of the white-space character [s] begins with, 0 when it
    begins with none.  A [&str] is valid UTF-8, whose lead bytes never occur
    inside another character, so a match can only start at a boundary. *)

Definition ws_len (s : bytes) : nat :=
  match code <$> s with
  | c :: rest =>
      if ((9 <=? c) && (c <=? 13) || (c =? 32))%N then 1 else
      if (c =? 194)%N then
        match rest with
        | d :: _ => if ((d =? 133) || (d =? 160))%N then 2 else 0
        | _ => 0
        end
      else if (c =? 225)%N then
        match rest with d :: e :: _ => if ((d =? 154) && (e =? 128))%N then 3 else 0 | _ => 0 end
      else if (c =? 226)%N then
        match rest with
        | d :: e :: _ =>
            if ((d =? 128) && ((128 <=? e) && (e <=? 138) || (e =? 168) || (e =? 169) || (e =? 175))
                || (d =? 129) && (e =? 159))%N
            then 3 else 0
        | _ => 0
        end
      else if (c =? 227)%N then
        match rest with d :: e :: _ => if ((d =? 128) && (e =? 128))%N then 3 else 0 | _ => 0 end
      else 0
  | [] => 0
  end.

(** [str::trim_start]; every round drops at least one byte. *)
Fixpoint trim_start_fuel (fuel : nat) (s : bytes) : bytes :=
  match fuel with
  | O => s
  | S fuel => match ws_len s with O => s | n => trim_start_fuel fuel (drop n s) end
  end.

Definition trim_start (s : bytes) : bytes := trim_start_fuel (length s) s.

(** The white-space character [s] ends with, for [trim_end]. *)
Definition ws_end_len (s : bytes) : nat :=
  let n := length s in
  if bool_decide (ws_len (drop (n - 1) s) = 1 ∧ 1 ≤ n) then 1 else
  if bool_decide (ws_len (drop (n - 2) s) = 2 ∧ 2 ≤ n) then 2 else
  if bool_decide (ws_len (drop (n - 3) s) = 3 ∧ 3 ≤ n) then 3 else 0.

Fixpoint trim_end_fuel (fuel : nat) (s : bytes) : bytes :=
  match fuel with
  | O => s
  | S fuel => match ws_end_len s with
              | O => s
              | n => trim_end_fuel fuel (take (length s - n) s)
              end
  end.

Definition trim_end (s : bytes) : bytes := trim_end_fuel (length s) s.

Definition trim (s : bytes) : bytes := trim_end (trim_start s).

(** [s.find(char::is_whitespace)]: the bytes before the first white space, and
    the rest. *)
Fixpoint split_at_whitespace (s : bytes) : bytes * bytes :=
  match s with
  | [] => ([], [])
  | x :: s' =>
      match ws_len s with
      | O => let '(a, b) := split_at_whitespace s' in (x :: a, b)
      | _ => ([], s)
      end
  end.

(** A printable ASCII byte never begins a white-space character. *)
Lemma ws_len_graphic x s : is_ascii_graphic x = true → ws_len (x :: s) = 0.
Proof.
  unfold is_ascii_graphic. rewrite in_range_spec. intros [H1 H2]. unfold ws_len. simpl.
  assert ((9 <=? code x) && (code x <=? 13) || (code x =? 32) = false)%N as ->.
  { apply orb_false_iff; split.
    - apply andb_false_iff. right. apply N.leb_gt. lia.
    - apply N.eqb_neq. lia. }
  repeat (match goal with |- context [(code x =? ?n)%N] =>
    assert ((code x =? n)%N = false) as -> by (apply N.eqb_neq; lia) end).
  done.
Qed.

Lemma ws_len_SPACE s : ws_len (SPACE :: s) = 1.
Proof. done. Qed.

(** A string that neither begins nor ends with white space is its own trim. *)
Lemma trim_start_id s : ws_len s = 0 → trim_start s = s.
Proof. unfold trim_start. destruct s; simpl length; [done|]. simpl. by intros ->. Qed.

Lemma ws_len_app_last s x :
  is_ascii_graphic x = true → ws_end_len (s ++ [x]) = 0.
Proof.
  intros Hx.
  assert (∀ a b, ws_len ([a; b; x]) ≠ 3 ∧ ws_len [b; x] ≠ 2 ∧ ws_len [x] ≠ 1) as Hlast.
  { intros a b. apply in_range_spec in Hx as [H1 H2].
    assert (∀ n, (127 ≤ n)%N → (code x =? n)%N = false) as Hn
      by (intros; apply N.eqb_neq; lia).
    assert ((9 <=? code x) && (code x <=? 13) || (code x =? 32) = false)%N as Hw.
    { apply orb_false_iff; split.
      - apply andb_false_iff. right. apply N.leb_gt. lia.
      - apply N.eqb_neq. lia. }
    assert ((128 <=? code x)%N = false) as Hle by (apply N.leb_gt; lia).
    unfold ws_len. simpl. rewrite !Hw, !Hle, !Hn by lia.
    rewrite !andb_false_r, !orb_false_r. simpl. rewrite ?andb_false_r.
    repeat split; repeat case_match; done. }
  unfold ws_end_len. rewrite length_app. simpl.
  repeat case_bool_decide; try done; exfalso.
  - destruct H as [H _]. replace (length s + 1 - 1) with (length s + 0) in H by lia.
    rewrite drop_app_add in H. simpl in H. by apply (proj2 (proj2 (Hlast x x))).
  - destruct H0 as [H0 Hl].
    destruct (decide (length s = 0)) as [E|E]; [lia|].
    destruct (exists_last (l:=s)) as (s' & b & ->); [by intros ->|].
    rewrite length_app in H0. simpl in H0. rewrite <- app_assoc in H0.
    replace (length s' + 1 + 1 - 2) with (length s' + 0) in H0 by lia.
    rewrite drop_app_add in H0. simpl in H0. by apply (proj1 (proj2 (Hlast x b))).
  - destruct H1 as [H1 Hl].
    destruct (exists_last (l:=s)) as (s' & b & ->); [intros ->; simpl in *; lia|].
    rewrite length_app in *. simpl in *.
    destruct (exists_last (l:=s')) as (s'' & a & ->); [intros ->; simpl in *; lia|].
    rewrite length_app in *. simpl in *. rewrite <- !app_assoc in H1.
    replace (length s'' + 1 + 1 + 1 - 3) with (length s'' + 0) in H1 by lia.
    rewrite drop_app_add in H1. simpl in H1. by apply (proj1 (Hlast a b)).
Qed.

(** ** Lines

    [str::lines]: the text between line feeds, a final line without one
    included, and the carriage return before a line feed dropped. *)

Fixpoint raw_lines (s : bytes) : list (bytes * bool) :=
  match s with
  | [] => []
  | x :: s' =>
      if Ascii.eqb x LF then ([], true) :: raw_lines s'
      else match raw_lines s' with
           | [] => [([x], false)]
           | (l, t) :: r => (x :: l, t) :: r
           end
  end.

Definition strip_cr (l : bytes) : bytes :=
  match rev l with
  | x :: r => if Ascii.eqb x CR then rev r else l
  | [] => []
  end.

Definition lines (s : bytes) : list bytes :=
  map (λ '(l, terminated), if (terminated : bool) then strip_cr l else l) (raw_lines s).

Lemma raw_lines_cons l s :
  Forall (λ x, x ≠ LF) l → raw_lines (l ++ LF :: s) = (l, true) :: raw_lines s.
Proof.
  induction 1 as [|x l Hx Hl IH]; [done|]. cbn [app raw_lines].
  destruct (Ascii.eqb_spec x LF); [done|]. by rewrite IH.
Qed.

Lemma raw_lines_last l :
  Forall (λ x, x ≠ LF) l → l ≠ [] → raw_lines l = [(l, false)].
Proof.
  induction 1 as [|x l Hx Hl IH]; [done|]. intros _. cbn [raw_lines].
  destruct (Ascii.eqb_spec x LF); [done|].
  destruct l as [|y l]; [done|]. by rewrite IH.
Qed.

Lemma strip_cr_graphic l x : x ≠ CR → strip_cr (l ++ [x]) = l ++ [x].
Proof.
  intros Hx. unfold strip_cr. rewrite rev_unit.
  by destruct (Ascii.eqb_spec x CR).
Qed.

(** The lines of two concatenated texts, the first ending in a line feed. *)
Lemma lines_app_LF s1 s2 : lines (s1 ++ LF :: s2) = lines (s1 ++ [LF]) ++ lines s2.
Proof.
  unfold lines. rewrite <- map_app. f_equal.
  induction s1 as [|x s1 IH]; [done|]. cbn [app raw_lines].
  destruct (Ascii.eqb x LF); [by rewrite IH|].
  rewrite IH. destruct (raw_lines (s1 ++ [LF])) as [|[l t] r] eqn:E; [|done].
  exfalso. clear -E. destruct s1 as [|y s1]; [done|]. cbn [app raw_lines] in E.
  destruct (Ascii.eqb y LF); [done|]. by destruct (raw_lines (s1 ++ [LF])) as [|[??]?].
Qed.

(** ** Character boundaries

    A [&str] is UTF-8: a character begins at every byte that is not a
    continuation byte. *)

Definition is_continuation : ascii → bool := in_range 128 191.

Definition is_char_boundary (i : nat) (s : bytes) : bool :=
  match drop i s with
  | [] => bool_decide (i = length s)
  | x :: _ => bool_decide (i = 0) || negb (is_continuation x)
  end.

(** [str::split_at]: panics inside a character or beyond the end. *)
Definition split_at (mid : nat) (s : bytes) : outcome (bytes * bytes) :=
  if is_char_boundary mid s then Done (take mid s, drop mid s) else Panicked.

Lemma split_at_app a x b : is_continuation x = false → split_at (length a) (a ++ x :: b) = Done (a, x :: b).
Proof.
  intros Hx. unfold split_at, is_char_boundary. rewrite drop_app_length, take_app_length, Hx.
  by rewrite orb_true_r.
Qed.

(** [chars().count()]. *)
Definition chars_count (s : bytes) : N :=
  N.of_nat (length (keep (λ x, negb (is_continuation x)) s)).

(** [chars().any(char::is_control)]: U+0000 to U+001F, U+007F, and U+0080 to U+009F, which UTF-8
    writes C2 80 to C2 9F. *)
Fixpoint has_control (s : bytes) : bool :=
  match s with
  | [] => false
  | x :: s' =>
      in_range 0 31 x || (code x =? 127)%N
      || match s' with
         | y :: _ => (code x =? 194)%N && in_range 128 159 y
         | [] => false
         end
      || has_control s'
  end.

(** ** [str::split_ascii_whitespace] *)

Fixpoint split_ascii_whitespace (s : bytes) : list bytes :=
  match s with
  | [] => []
  | x :: s' =>
      if is_ascii_whitespace x then split_ascii_whitespace s'
      else match s' with
           | [] => [[x]]
           | y :: _ =>
               if is_ascii_whitespace y then [x] :: split_ascii_whitespace s'
               else match split_ascii_whitespace s' with
                    | t :: r => (x :: t) :: r
                    | [] => [[x]]
                    end
           end
  end.

(** Every token is a non-empty run of bytes that are not white space. *)
Lemma split_ascii_whitespace_tokens s t :
  t ∈ split_ascii_whitespace s →
  t ≠ [] ∧ Forall (λ x, is_ascii_whitespace x = false) t.
Proof.
  revert t. induction s as [|x s IH]; intros t; cbn [split_ascii_whitespace].
  { by intros Ht%elem_of_nil. }
  destruct (is_ascii_whitespace x) eqn:Ex; [by apply IH|].
  destruct s as [|y s].
  { intros ->%list_elem_of_singleton. by repeat constructor. }
  destruct (is_ascii_whitespace y) eqn:Ey.
  { intros [->|Ht]%elem_of_cons; [by repeat constructor|by apply IH]. }
  destruct (split_ascii_whitespace (y :: s)) as [|t' r] eqn:E.
  { intros ->%list_elem_of_singleton. by repeat constructor. }
  intros [->|Ht]%elem_of_cons.
  - split; [done|]. constructor; [done|]. apply IH. left.
  - apply IH. by right.
Qed.

(** ** Integers *)

(** [Display] for the unsigned integers. *)
Definition digit (d : N) : ascii := ascii_of_N (48 + d).

Fixpoint show_digits (fuel : nat) (n : N) : bytes :=
  match fuel with
  | O => []
  | S fuel =>
      (if (n / 10 =? 0)%N then [] else show_digits fuel (n / 10)) ++ [digit (n mod 10)]
  end.

Definition show_N (n : N) : bytes := show_digits (S (N.to_nat (N.size n))) n.
Definition to_string (n : N) : string := str (show_N n).

(** The value of a run of decimal digits. *)
Definition dec_step (v : N) (d : ascii) : N := (10 * v + (code d - 48))%N.
Definition dec_value (l : bytes) : N := foldl dec_step 0%N l.

(** [str::parse::<u64>] and friends, for a maximum [max]. *)
Definition parse_unsigned (max : N) (s : bytes) : option N :=
  let body := match s with x :: s' => if Ascii.eqb x "+" then s' else s | [] => [] end in
  match body with
  | [] => None
  | _ => if forallb is_ascii_digit body
         then let v := dec_value body in if (v <=? max)%N then Some v else None
         else None
  end.

(** [str::parse::<i64>]. *)
Definition parse_i64 (s : bytes) : option Z :=
  let '(neg, body) :=
    match s with
    | x :: s' => if Ascii.eqb x "-" then (true, s')
                 else if Ascii.eqb x "+" then (false, s') else (false, s)
    | [] => (false, [])
    end in
  match body with
  | [] => None
  | _ => if forallb is_ascii_digit body then
           let v := Z.of_N (dec_value body) in
           let v := if (neg : bool) then (- v)%Z else v in
           if ((-9223372036854775808 <=? v) && (v <=? 9223372036854775807))%Z
           then Some v else None
         else None
  end.

Lemma code_digit d : (d < 10)%N → code (digit d) = (48 + d)%N.
Proof. intros H. unfold code, digit. apply N_ascii_embedding. lia. Qed.

Lemma is_ascii_digit_digit d : (d < 10)%N → is_ascii_digit (digit d) = true.
Proof. intros H. apply is_ascii_digit_spec. rewrite code_digit; lia. Qed.

Lemma show_digits_digits fuel n :
  Forall (λ x, is_ascii_digit x = true) (show_digits fuel n).
Proof.
  revert n. induction fuel as [|fuel IH]; intros n; simpl; [done|].
  apply Forall_app; split; [case_match; [done|apply IH]|].
  repeat constructor. apply is_ascii_digit_digit. apply N.mod_lt. lia.
Qed.

Lemma show_digits_value fuel n :
  (n < 2 ^ N.of_nat fuel)%N → dec_value (show_digits (S fuel) n) = n.
Proof.
  revert n. induction fuel as [|fuel IH]; intros n Hn.
  { change (2 ^ N.of_nat 0)%N with 1%N in Hn. assert (n = 0)%N as -> by lia. done. }
  assert (∀ l, dec_value (l ++ [digit (n mod 10)]) = 10 * dec_value l + n mod 10)%N as Hsnoc.
  { intros l. unfold dec_value. rewrite foldl_app. cbn [foldl].
    generalize (foldl dec_step 0%N l). intros v. unfold dec_step.
    rewrite code_digit by (apply N.mod_lt; lia). lia_div. }
  remember (S fuel) as f eqn:Hf. cbn [show_digits]. rewrite Hsnoc. subst f.
  destruct (N.eqb_spec (n / 10) 0) as [E|E].
  - change (dec_value []) with 0%N. lia_div.
  - rewrite IH; [lia_div|]. rewrite Nat2N.inj_succ, N.pow_succ_r' in Hn.
    apply N.Div0.div_lt_upper_bound. lia.
Qed.

Lemma show_N_value n : dec_value (show_N n) = n.
Proof. apply show_digits_value. rewrite N2Nat.id. apply N.size_gt. Qed.

Lemma show_N_digits n : Forall (λ x, is_ascii_digit x = true) (show_N n).
Proof. apply show_digits_digits. Qed.

Lemma show_N_nonempty n : show_N n ≠ [].
Proof. unfold show_N. cbn [show_digits]. by intros [_ ?]%app_eq_nil. Qed.

#[export] Instance show_N_inj : Inj (=) (=) show_N.
Proof. intros m n H. by rewrite <- (show_N_value m), <- (show_N_value n), H. Qed.

#[export] Instance to_string_inj : Inj (=) (=) to_string.
Proof. intros m n H. unfold to_string in H. by simplify_eq. Qed.

(** A run of digits is graphic: no white space, no line break, no sign. *)
Lemma digit_graphic x : is_ascii_digit x = true → is_ascii_graphic x = true.
Proof. unfold is_ascii_graphic. rewrite is_ascii_digit_spec, in_range_spec. lia. Qed.

Lemma graphic_not_ascii_whitespace x :
  is_ascii_graphic x = true → is_ascii_whitespace x = false.
Proof.
  unfold is_ascii_graphic, is_ascii_whitespace. rewrite in_range_spec. intros [H1 H2].
  rewrite !orb_false_iff, !N.eqb_neq. lia.
Qed.

Lemma graphic_not_break x : is_ascii_graphic x = true → x ≠ LF ∧ x ≠ CR.
Proof. intros H. split; intros ->; done. Qed.

(** Printing and parsing an unsigned integer is the identity within range. *)
Lemma parse_unsigned_show max n : (n ≤ max)%N → parse_unsigned max (show_N n) = Some n.
Proof.
  intros Hn. pose proof (show_N_digits n) as Hd. pose proof (show_N_nonempty n) as Hne.
  pose proof (show_N_value n) as Hv. unfold parse_unsigned.
  destruct (show_N n) as [|x l] eqn:E; [done|].
  assert (Ascii.eqb x "+" = false) as Hx.
  { apply Forall_cons in Hd as [Hd _]. by destruct (Ascii.eqb_spec x "+") as [->|]. }
  rewrite Hx. assert (forallb is_ascii_digit (x :: l) = true) as Hall.
  { apply forallb_forall. apply List.Forall_forall, Hd. }
  rewrite Hall, Hv. assert ((n <=? max)%N = true) as -> by (by apply N.leb_le). done.
Qed.

Lemma parse_unsigned_bound max s n : parse_unsigned max s = Some n → (n ≤ max)%N.
Proof.
  unfold parse_unsigned. destruct s as [|x s]; [done|].
  destruct (Ascii.eqb x "+"); repeat case_match; intros; simplify_eq; by nbool.
Qed.

(** ** Slices of a string by a character *)

(** [str::trim_start_matches] and [str::trim_end_matches] for one ASCII byte. *)
Fixpoint trim_start_matches (c : ascii) (s : bytes) : bytes :=
  match s with
  | [] => []
  | x :: s' => if Ascii.eqb x c then trim_start_matches c s' else s
  end.

Definition trim_end_matches (c : ascii) (s : bytes) : bytes :=
  rev (trim_start_matches c (rev s)).

(** [str::contains] for one ASCII byte. *)
Definition contains_byte (c : ascii) (s : bytes) : bool := existsb (Ascii.eqb c) s.

(** ** [Debug] for [str]

    The quoted form of [{:?}]: quotes, backslashes and control characters are
    escaped.  Bytes of non-ASCII characters are copied, which is what [Debug]
    does for every printable one. *)

Fixpoint hex_digits (fuel : nat) (n : N) : bytes :=
  match fuel with
  | O => []
  | S fuel =>
      let d := (n mod 16)%N in
      (if (n / 16 =? 0)%N then [] else hex_digits fuel (n / 16)) ++
      [ascii_of_N (if (d <? 10)%N then 48 + d else 87 + d)]
  end.

Definition escape_byte (c : ascii) : bytes :=
  if Ascii.eqb c QUOTE then [BACKSLASH; QUOTE]
  else if Ascii.eqb c BACKSLASH then [BACKSLASH; BACKSLASH]
  else if Ascii.eqb c LF then BACKSLASH :: bs "n"
  else if Ascii.eqb c CR then BACKSLASH :: bs "r"
  else if (code c =? 9)%N then BACKSLASH :: bs "t"
  else if (code c =? 0)%N then BACKSLASH :: bs "0"
  else if ((code c <? 32) || (code c =? 127))%N
  then BACKSLASH :: bs "u{" ++ hex_digits 8 (code c) ++ bs "}"
  else [c].

Definition fmt_debug (s : string) : string :=
  str (QUOTE :: flat_map escape_byte (bs s) ++ [QUOTE]).

(** ** Splitting by a byte

    [str::split] by a character and [slice::split] by a byte. *)

Fixpoint split_on (c : ascii) (s : bytes) : list bytes :=
  match s with
  | [] => [[]]
  | x :: s =>
      if Ascii.eqb x c then [] :: split_on c s else
      match split_on c s with
      | piece :: pieces => (x :: piece) :: pieces
      | [] => [[x]]
      end
  end.

Lemma split_on_no (c : ascii) (s : bytes) : c ∉ s → split_on c s = [s].
Proof.
  induction s as [|x s IH]; intros Hs; [done|]. apply not_elem_of_cons in Hs as [Hx Hs].
  cbn [split_on]. rewrite IH by done. destruct (Ascii.eqb_spec x c); [by subst|done].
Qed.

Lemma split_on_app (c : ascii) (a b : bytes) :
  c ∉ a → split_on c (a ++ c :: b) = a :: split_on c b.
Proof.
  induction a as [|x a IH]; intros Ha; cbn [app split_on]; [by rewrite Ascii.eqb_refl|].
  apply not_elem_of_cons in Ha as [Hx Ha]. rewrite IH by done.
  destruct (Ascii.eqb_spec x c); [by subst|done].
Qed.

#[export] Hint Resolve show_N_digits show_N_nonempty digit_graphic : proxy.
#[export] Hint Rewrite show_N_value str_bs bs_str bs_app str_app : proxy.
