(* ===== verification/Utf8.v ===== *)
(** * UTF-8

    [String::from_utf8_lossy]: well-formed sequences are kept and every
    maximal ill-formed one becomes U+FFFD, as [core::str::Utf8Chunks] cuts
    them. *)

From S2P Require Import Prelude RustStd.

(** U+FFFD, the replacement character. *)
Definition REPLACEMENT : bytes := Eval cbv in [ascii_of_N 239; ascii_of_N 191; ascii_of_N 189].

(** The next byte exists and lies in the range. *)
Definition next_in (lo hi : N) (s : bytes) : bool :=
  match s with x :: _ => in_range lo hi x | [] => false end.

(** After a first byte: whether a well-formed sequence begins there, and how many more bytes
    belong to it, or to the ill-formed one. *)
Definition utf8_tail (x : ascii) (s : bytes) : bool * nat :=
  let c := code x in
  let second :=   (* the range the second byte must lie in *)
    if (c =? 224)%N then Some (160, 191)%N
    else if (c =? 237)%N then Some (128, 159)%N
    else if (c =? 240)%N then Some (144, 191)%N
    else if (c =? 244)%N then Some (128, 143)%N
    else if ((194 <=? c) && (c <=? 243))%N then Some (128, 191)%N
    else None in
  if (c <? 128)%N then (true, 0) else
  match second with
  | None => (false, 0)
  | Some (lo, hi) =>
      if negb (next_in lo hi s) then (false, 0) else
      if (c <? 224)%N then (true, 1) else
      if negb (next_in 128 191 (drop 1 s)) then (false, 1) else
      if (c <? 240)%N then (true, 2) else
      if negb (next_in 128 191 (drop 2 s)) then (false, 2) else (true, 3)
  end.

Fixpoint lossy_with (fuel : nat) (s : bytes) : bytes :=
  match fuel, s with
  | S fuel, x :: s =>
      let '(ok, n) := utf8_tail x s in
      (if ok then x :: take n s else REPLACEMENT) ++ lossy_with fuel (drop n s)
  | _, _ => []
  end.

(** [String::from_utf8_lossy]. *)
Definition from_utf8_lossy (s : bytes) : bytes := lossy_with (length s) s.

(** Well-formed text. *)
Fixpoint utf8_with (fuel : nat) (s : bytes) : bool :=
  match fuel, s with
  | S fuel, x :: s => let '(ok, n) := utf8_tail x s in ok && utf8_with fuel (drop n s)
  | _, _ => true
  end.

Definition is_utf8 (s : bytes) : bool := utf8_with (length s) s.

Lemma utf8_tail_length x s n : utf8_tail x s = (true, n) → n ≤ length s.
Proof.
  unfold utf8_tail. intros Ht.
  repeat case_match; simplify_eq; destruct s as [|a [|b [|c s]]]; simpl in *; done || lia.
Qed.

Lemma lossy_id_with fuel s : length s ≤ fuel → utf8_with fuel s = true → lossy_with fuel s = s.
Proof.
  revert s. induction fuel as [|fuel IH]; intros [|x s] Hl; simpl in *; try done; [lia|].
  destruct (utf8_tail x s) as [ok n] eqn:E. intros [-> Hs]%andb_true_iff.
  apply utf8_tail_length in E. simpl. rewrite IH; [by rewrite take_drop|rewrite length_drop; lia|done].
Qed.

(** Well-formed text is kept. *)
Lemma lossy_id s : is_utf8 s = true → from_utf8_lossy s = s.
Proof. by apply lossy_id_with. Qed.

Example lossy_cases :
  from_utf8_lossy (ascii_of_N 195 :: ascii_of_N 169 :: bs "a") = ascii_of_N 195 :: ascii_of_N 169 :: bs "a"
  ∧ from_utf8_lossy (ascii_of_N 240 :: ascii_of_N 159 :: bs "a") = REPLACEMENT ++ bs "a"
  ∧ from_utf8_lossy [ascii_of_N 192; ascii_of_N 128] = REPLACEMENT ++ REPLACEMENT.
Proof. vm_compute. done. Qed.
