(* ===== verification/Float64.v ===== *)
(** * [f64]: IEEE 754 binary64 as the program uses it

    A value is a [spec_float] (sign, mantissa, exponent; one NaN) and the
    operations are the correctly rounded ones of the Standard Library's
    [SpecFloat] at precision 53 and maximal exponent 1024, so every definition
    computes.  [parse_f64] is [str::parse::<f64>]: its grammar, then a correctly
    rounded conversion from decimal. *)

From S2P Require Import Prelude RustStd.
From Stdlib Require Export SpecFloat.

Notation f64 := spec_float.

Definition prec : Z := 53.
Definition emax : Z := 1024.

Definition f64_of_N (n : N) : f64 := binary_normalize prec emax (Z.of_N n) 0 false.
Definition fadd : f64 → f64 → f64 := SFadd prec emax.
Definition fsub : f64 → f64 → f64 := SFsub prec emax.
Definition fmul : f64 → f64 → f64 := SFmul prec emax.
Definition fdiv : f64 → f64 → f64 := SFdiv prec emax.
Notation flt := SFltb.
Notation fle := SFleb.
Notation feq := SFeqb.

Definition f64_zero : f64 := S754_zero false.
Definition f64_one : f64 := Eval vm_compute in f64_of_N 1.

Definition is_nan (x : f64) : bool := match x with S754_nan => true | _ => false end.
Definition is_finite (x : f64) : bool :=
  match x with S754_zero _ | S754_finite _ _ _ => true | _ => false end.

(** Neither NaN nor below zero. *)
Definition nonneg (x : f64) : bool :=
  match x with
  | S754_zero _ => true
  | S754_infinity s => negb s
  | S754_nan => false
  | S754_finite s _ _ => negb s
  end.

(** [f64::clamp] for constant bounds [lo <= hi]. *)
Definition clamp (x lo hi : f64) : f64 :=
  let x := if flt x lo then lo else x in
  if flt hi x then hi else x.

(** [f64::max]: a NaN loses against a number. *)
Definition fmax (x y : f64) : f64 :=
  if is_nan x then y else if is_nan y then x else if flt x y then y else x.

(** The integer part of a magnitude [m * 2^e]. *)
Definition magnitude (m : positive) (e : Z) : Z := Z.shiftl (Zpos m) e.

(** [f64::trunc] and [f64::fract]. *)
Definition trunc (x : f64) : f64 :=
  match x with
  | S754_finite s m e =>
      if (0 <=? e)%Z then x
      else binary_normalize prec emax (cond_Zopp s (magnitude m e)) 0 s
  | _ => x
  end.

Definition fract (x : f64) : f64 := fsub x (trunc x).

(** [x as u64]: truncation, saturating at both ends, zero for NaN. *)
Definition to_u64 (x : f64) : N :=
  match x with
  | S754_finite false m e => N.min U64_MAX (Z.to_N (magnitude m e))
  | S754_infinity false => U64_MAX
  | _ => 0%N
  end.

(** [f64::total_cmp] compares the bit patterns as signed integers, those of a
    negative number with its other bits flipped.  [total_key] is that integer;
    the one NaN of the model is taken to be positive, and the callers below
    prove they never compare one. *)
Definition magnitude_bits (x : f64) : Z :=
  match x with
  | S754_zero _ => 0
  | S754_finite _ m e => (e + 1074) * 2 ^ 52 + Zpos m
  | S754_infinity _ => 2047 * 2 ^ 52
  | S754_nan => 2047 * 2 ^ 52 + 2 ^ 51
  end.

Definition is_sign_negative (x : f64) : bool :=
  match x with
  | S754_zero s | S754_infinity s | S754_finite s _ _ => s
  | S754_nan => false
  end.

Definition total_key (x : f64) : Z :=
  if is_sign_negative x then - magnitude_bits x - 1 else magnitude_bits x.

Definition total_cmp (x y : f64) : comparison := (total_key x ?= total_key y)%Z.

#[export] Instance total_cmp_Comparator : Comparator total_cmp.
Proof. unfold total_cmp. exact (on_Comparator total_key Z.compare). Qed.

(** ** Decimal conversion *)

(** [m * 10^e], correctly rounded. *)
Definition f64_of_decimal (neg : bool) (m : N) (e : Z) : f64 :=
  match m with
  | N0 => S754_zero neg
  | Npos p =>
      if (0 <=? e)%Z
      then binary_normalize prec emax (cond_Zopp neg (Zpos p * 10 ^ e)) 0 neg
      else let '(q, e', loc) := SFdiv_core_binary prec emax (Zpos p) 0 (10 ^ (- e)) 0 in
           binary_round_aux prec emax neg q e' loc
  end.

(** The exponent of the scientific notation; the accumulation stops growing at
    a value beyond every representable exponent, as [core] does it. *)
Definition exponent_step (v : Z) (d : ascii) : Z :=
  if (v <? 65536)%Z then 10 * v + Z.of_N (code d - 48) else v.

Definition parse_exponent (s : bytes) : option Z :=
  match s with
  | [] => Some 0%Z
  | x :: s' =>
      if Ascii.eqb x "e" || Ascii.eqb x "E" then
        let '(neg, body) :=
          match s' with
          | y :: t => if Ascii.eqb y "-" then (true, t)
                      else if Ascii.eqb y "+" then (false, t) else (false, s')
          | [] => (false, [])
          end in
        match body with
        | [] => None
        | _ => if forallb is_ascii_digit body then
                 let v := foldl exponent_step 0%Z body in
                 Some (if (neg : bool) then (- v)%Z else v)
               else None
        end
      else None
  end.

Definition parse_number (neg : bool) (s : bytes) : option f64 :=
  let '(int_part, rest) := span is_ascii_digit s in
  let '(frac_part, rest) :=
    match rest with
    | x :: t => if Ascii.eqb x "." then span is_ascii_digit t else ([], rest)
    | [] => ([], [])
    end in
  let digits := int_part ++ frac_part in
  match digits with
  | [] => None
  | _ => match parse_exponent rest with
         | Some e => Some (f64_of_decimal neg (dec_value digits) (e - Z.of_nat (length frac_part)))
         | None => None
         end
  end.

(** [str::parse::<f64>]. *)
Definition parse_f64 (s : bytes) : option f64 :=
  let '(neg, body) :=
    match s with
    | x :: s' => if Ascii.eqb x "-" then (true, s')
                 else if Ascii.eqb x "+" then (false, s') else (false, s)
    | [] => (false, [])
    end in
  if eq_ignore_ascii_case body (bs "nan") then Some S754_nan
  else if eq_ignore_ascii_case body (bs "inf") || eq_ignore_ascii_case body (bs "infinity")
  then Some (S754_infinity neg)
  else parse_number neg body.

Example parse_f64_examples :
  (parse_f64 (bs "0.85") = Some (fdiv (f64_of_N 85) (f64_of_N 100))
   ∧ parse_f64 (bs "-1.5e3") = Some (SFopp (f64_of_N 1500))
   ∧ parse_f64 (bs "9007199254740993") = Some (f64_of_N 9007199254740992)
   ∧ parse_f64 (bs "1e400") = Some (S754_infinity false)
   ∧ parse_f64 (bs "1e-400") = Some (S754_zero false)
   ∧ parse_f64 (bs "4.9e-324") = Some (S754_finite false 1 (-1074))
   ∧ parse_f64 (bs "+Inf") = Some (S754_infinity false)
   ∧ parse_f64 (bs ".") = None ∧ parse_f64 (bs "5.") = Some (f64_of_N 5)
   ∧ parse_f64 (bs "1e") = None).
Proof. vm_compute. repeat split. Qed.

(** ** Rounding

    Rounding a non-negative mantissa never yields NaN, keeps the sign asked for
    and yields a mantissa below [2^53]. *)

Section Rounding.
Local Open Scope Z_scope.

Lemma Zdigits2_bound m : 0 ≤ m → m < 2 ^ Zdigits2 m.
Proof.
  intros Hm. destruct m as [|p|p]; [done| |lia]. simpl.
  induction p as [p IH|p IH|]; [| |done]; simpl digits2_pos;
    rewrite Pos2Z.inj_succ, Z.pow_succ_r by lia;
    specialize (IH ltac:(lia)); lia.
Qed.

Lemma shr_1_m r : 0 ≤ shr_m r → shr_m (shr_1 r) = shr_m r / 2.
Proof.
  destruct r as [[|p|p] r s]; cbn [shr_m]; intros H; [done| |lia].
  destruct p; cbn [shr_1 shr_m]; rewrite ?Pos2Z.inj_xI, ?(Pos2Z.inj_xO p); lia_div.
Qed.

Lemma iter_shr_1_m p r : 0 ≤ shr_m r → shr_m (iter_pos shr_1 p r) = shr_m r / 2 ^ Zpos p.
Proof.
  revert r. induction p as [p IH|p IH|]; intros r Hr; cbn [iter_pos].
  - assert (0 ≤ shr_m (shr_1 r)) as H1 by (rewrite shr_1_m by done; apply Z.div_pos; lia).
    assert (0 ≤ shr_m (iter_pos shr_1 p (shr_1 r)))
      by (rewrite IH by done; apply Z.div_pos; lia).
    rewrite !IH by done. rewrite shr_1_m by done.
    rewrite !Z.div_div by lia. f_equal. rewrite (Pos2Z.inj_xI p), Z.pow_add_r by lia.
    replace (2 * Zpos p) with (Zpos p + Zpos p) by lia. rewrite Z.pow_add_r by lia.
    change (2 ^ 1) with 2. lia.
  - assert (0 ≤ shr_m (iter_pos shr_1 p r)) by (rewrite IH by done; apply Z.div_pos; lia).
    rewrite !IH by done. rewrite Z.div_div by lia. f_equal.
    rewrite (Pos2Z.inj_xO p). replace (2 * Zpos p) with (Zpos p + Zpos p) by lia.
    rewrite Z.pow_add_r by lia. done.
  - by rewrite shr_1_m.
Qed.

Lemma shr_record_of_loc_m m l : shr_m (shr_record_of_loc m l) = m.
Proof. by destruct l as [|[]]. Qed.

(** The mantissa left by a shift to the target exponent. *)
Lemma shr_fexp_m m e l :
  0 ≤ m → 0 ≤ shr_m (fst (shr_fexp prec emax m e l)) < 2 ^ 53.
Proof.
  intros Hm. unfold shr_fexp, shr.
  pose proof (Zdigits2_bound m Hm) as Hd.
  set (d := Zdigits2 m) in *.
  assert (0 ≤ d) as Hd0 by (unfold d; destruct m; simpl; lia).
  assert (d - (fexp prec emax (d + e) - e) ≤ 53) as Hf.
  { unfold fexp, prec, emin. lia. }
  destruct (fexp prec emax (d + e) - e) as [|p|p] eqn:E; simpl.
  - rewrite shr_record_of_loc_m. split; [done|].
    eapply Z.lt_le_trans; [exact Hd|]. apply Z.pow_le_mono_r; lia.
  - rewrite iter_shr_1_m by (by rewrite shr_record_of_loc_m).
    rewrite shr_record_of_loc_m. split; [apply Z.div_pos; lia|].
    apply Z.div_lt_upper_bound; [lia|]. rewrite <- Z.pow_add_r by lia.
    eapply Z.lt_le_trans; [exact Hd|]. apply Z.pow_le_mono_r; lia.
  - rewrite shr_record_of_loc_m. split; [done|].
    eapply Z.lt_le_trans; [exact Hd|]. apply Z.pow_le_mono_r; lia.
Qed.

Lemma round_nearest_even_nonneg m l : 0 ≤ m → 0 ≤ round_nearest_even m l.
Proof. intros H. unfold round_nearest_even. repeat case_match; lia. Qed.

Lemma binary_round_aux_cases s m e l :
  0 ≤ m →
  binary_round_aux prec emax s m e l = S754_zero s
  ∨ binary_round_aux prec emax s m e l = S754_infinity s
  ∨ ∃ m' e', binary_round_aux prec emax s m e l = S754_finite s m' e'
             ∧ (Zpos m' < 2 ^ 53).
Proof.
  intros Hm. unfold binary_round_aux.
  pose proof (shr_fexp_m m e l Hm) as H1.
  destruct (shr_fexp prec emax m e l) as [r1 e1]. simpl in H1.
  pose proof (round_nearest_even_nonneg (shr_m r1) (loc_of_shr_record r1) (proj1 H1)) as Hr.
  pose proof (shr_fexp_m _ e1 loc_Exact Hr) as H2.
  destruct (shr_fexp prec emax _ e1 loc_Exact) as [r2 e2]. simpl in H2.
  destruct (shr_m r2) as [|p|p]; [by left| |lia].
  right. destruct (e2 <=? emax - prec) eqn:E2; [|by left].
  right. exists p, e2. split; [done|lia].
Qed.

Lemma binary_round_cases s m e :
  binary_round prec emax s m e = S754_zero s
  ∨ binary_round prec emax s m e = S754_infinity s
  ∨ ∃ m' e', binary_round prec emax s m e = S754_finite s m' e' ∧ Zpos m' < 2 ^ 53.
Proof.
  unfold binary_round. destruct (shl_align m e _) as [mz ez].
  apply binary_round_aux_cases. lia.
Qed.
End Rounding.

(** The mantissas of the values that operations return. *)
Definition mantissa_ok (x : f64) : Prop :=
  match x with S754_finite _ m _ => (Zpos m < 2 ^ 53)%Z | _ => True end.

(** The results of a rounding: [mantissa_ok], not NaN, sign [s]. *)
Definition rounded (s : bool) (x : f64) : Prop :=
  mantissa_ok x ∧ (x = S754_zero s ∨ x = S754_infinity s ∨ ∃ m e, x = S754_finite s m e).

Lemma rounded_round_aux s m e l :
  (0 ≤ m)%Z → rounded s (binary_round_aux prec emax s m e l).
Proof.
  intros Hm. destruct (binary_round_aux_cases s m e l Hm) as [->|[->|(m'&e'&->&?)]];
    split; simpl; eauto.
Qed.

Lemma rounded_round s m e : rounded s (binary_round prec emax s m e).
Proof.
  destruct (binary_round_cases s m e) as [->|[->|(m'&e'&->&?)]]; split; simpl; eauto.
Qed.

Lemma rounded_normalize m e s :
  (0 ≤ m)%Z → rounded false (binary_normalize prec emax m e s) ∨ (m = 0%Z).
Proof. intros Hm. destruct m; [by right|left; apply rounded_round|lia]. Qed.

Lemma rounded_nonneg x : rounded false x → nonneg x = true.
Proof. intros [_ [->|[->|(?&?&->)]]]; done. Qed.

Lemma rounded_mantissa s x : rounded s x → mantissa_ok x.
Proof. by intros [? _]. Qed.

#[export] Hint Resolve rounded_nonneg rounded_mantissa : proxy.

(** ** Closure of the non-negative values *)

Lemma f64_of_N_nonneg n : nonneg (f64_of_N n) = true.
Proof.
  unfold f64_of_N. destruct n as [|p]; [done|]. apply rounded_nonneg, rounded_round.
Qed.

Lemma fadd_nonneg x y : nonneg x = true → nonneg y = true → nonneg (fadd x y) = true.
Proof.
  destruct x as [[]|[]| |[] mx ex], y as [[]|[]| |[] my ey]; simpl; try done.
  intros _ _. cbn [cond_Zopp].
  destruct (rounded_normalize (Zpos (fst (shl_align mx ex (Z.min ex ey)))
    + Zpos (fst (shl_align my ey (Z.min ex ey)))) (Z.min ex ey) false) as [H|H];
    [lia|by apply rounded_nonneg|lia].
Qed.

(** A positive finite divisor of a finite dividend. *)
Lemma SFdiv_core_nonneg m1 e1 m2 e2 :
  (0 ≤ m1)%Z → (0 < m2)%Z → (0 ≤ (SFdiv_core_binary prec emax m1 e1 m2 e2).1.1)%Z.
Proof.
  intros H1 H2. unfold SFdiv_core_binary. cbv zeta.
  set (m' := match _ with Z0 => m1 | Zpos _ => _ | Zneg _ => _ end).
  assert (0 ≤ m')%Z as Hm'.
  { unfold m'. case_match; try done. by apply Z.shiftl_nonneg. }
  pose proof (Z.div_pos m' m2 Hm' H2) as Hq. unfold Z.div in Hq.
  by destruct (Z.div_eucl m' m2).
Qed.

Lemma fdiv_nonneg x m e :
  nonneg x = true → nonneg (fdiv x (S754_finite false m e)) = true.
Proof.
  destruct x as [[]|[]| |[] mx ex]; simpl; try done. intros _.
  pose proof (SFdiv_core_nonneg (Zpos mx) ex (Zpos m) e) as H.
  destruct (SFdiv_core_binary prec emax (Zpos mx) ex (Zpos m) e) as [[q e'] l].
  apply rounded_nonneg, rounded_round_aux. simpl in H. lia.
Qed.

Lemma fmax_zero_nonneg x : nonneg (fmax x f64_zero) = true.
Proof. by destruct x as [[]|[]| |[] ? ?]. Qed.

Lemma nonneg_not_nan x : nonneg x = true → is_nan x = false.
Proof. by destruct x. Qed.

(** The comparison of the format is antisymmetric, and total off NaN. *)
Lemma SFcompare_antisym x y : SFcompare y x = CompOpp <$> SFcompare x y.
Proof.
  destruct x as [[]|[]| |[] mx ex], y as [[]|[]| |[] my ey]; try done; cbn [SFcompare];
    rewrite (Z.compare_antisym ex ey);
    pose proof (Pos.compare_antisym mx my) as Hp;
    change (Pos.compare my mx) with (Pos.compare_cont Eq my mx) in Hp;
    change (Pos.compare mx my) with (Pos.compare_cont Eq mx my) in Hp;
    rewrite Hp; destruct (ex ?= ey)%Z; try done;
    by destruct (Pos.compare_cont Eq mx my).
Qed.

Lemma SFcompare_not_nan x y :
  is_nan x = false → is_nan y = false → is_Some (SFcompare x y).
Proof.
  destruct x as [[]|[]| |[] ? ?], y as [[]|[]| |[] ? ?]; intros; try done;
    cbn [SFcompare]; by eexists.
Qed.

Lemma fle_not_lt x y :
  is_nan x = false → is_nan y = false → flt y x = false → fle x y = true.
Proof.
  intros Hx Hy. unfold fle, flt. rewrite (SFcompare_antisym x y).
  destruct (SFcompare_not_nan x y Hx Hy) as [c ->]. by destruct c.
Qed.

Lemma clamp_unit x :
  is_nan x = false →
  nonneg (clamp x f64_zero f64_one) = true ∧ fle (clamp x f64_zero f64_one) f64_one = true
  ∧ is_finite (clamp x f64_zero f64_one) = true.
Proof.
  intros Hn. unfold clamp.
  destruct (flt x f64_zero) eqn:E1; [by vm_compute|].
  destruct (flt f64_one x) eqn:E2; [by vm_compute|].
  split; [by destruct x as [[]|[]| |[] ? ?]|].
  split; [by apply fle_not_lt|by destruct x as [|[]| |]].
Qed.

(** ** Integers below [2^53] are exact *)

Section Exact.
Local Open Scope Z_scope.

Lemma iter_xO p q :
  Zpos (Pos.iter xO p q) = Zpos p * 2 ^ Zpos q
  ∧ Zpos (digits2_pos (Pos.iter xO p q)) = Zpos (digits2_pos p) + Zpos q.
Proof.
  induction q as [|q [IH1 IH2]] using Pos.peano_ind; [simpl; lia|].
  rewrite Pos.iter_succ. cbn [digits2_pos].
  rewrite (Pos2Z.inj_xO (Pos.iter xO p q)), IH1, !Pos2Z.inj_succ, IH2, Z.pow_succ_r by lia.
  lia.
Qed.

Lemma digits2_lower p : 2 ^ (Zpos (digits2_pos p) - 1) ≤ Zpos p.
Proof.
  induction p as [p IH|p IH|]; [| |done]; cbn [digits2_pos];
    rewrite Pos2Z.inj_succ;
    replace (Z.succ (Zpos (digits2_pos p)) - 1) with (Z.succ (Zpos (digits2_pos p) - 1)) by lia;
    rewrite Z.pow_succ_r by lia; lia.
Qed.

Lemma digits2_le p k : 0 ≤ k → Zpos p < 2 ^ k → Zpos (digits2_pos p) ≤ k.
Proof.
  intros Hk Hp. pose proof (digits2_lower p) as Hl.
  destruct (Z.le_gt_cases (Zpos (digits2_pos p)) k); [done|].
  assert (2 ^ k ≤ 2 ^ (Zpos (digits2_pos p) - 1)) by (apply Z.pow_le_mono_r; lia). lia.
Qed.

(** A mantissa of 53 digits is not rounded. *)
Lemma binary_round_aux_exact s m e :
  Zpos (digits2_pos m) = 53 → -1074 ≤ e ≤ 971 →
  binary_round_aux prec emax s (Zpos m) e loc_Exact = S754_finite s m e.
Proof.
  intros Hm He.
  assert (shr_fexp prec emax (Zpos m) e loc_Exact = (Build_shr_record (Zpos m) false false, e)) as Hs.
  { unfold shr_fexp. cbn [Zdigits2]. rewrite Hm. unfold fexp, emin, prec, emax.
    replace (Z.max (53 + e - 53) (3 - 1024 - 53) - e) with 0 by lia. done. }
  unfold binary_round_aux. rewrite Hs. cbn [shr_m loc_of_shr_record round_nearest_even].
  rewrite Hs. cbn [shr_m]. unfold emax, prec.
  assert ((e <=? 1024 - 53) = true) as -> by lia. done.
Qed.

(** The canonical value of a small integer [p]: [p * 2^k] at exponent [-k]. *)
Lemma f64_of_pos_exact p :
  Zpos p < 2 ^ 53 →
  ∃ m k, 0 ≤ k ≤ 52 ∧ f64_of_N (Npos p) = S754_finite false m (- k)
         ∧ Zpos m = Zpos p * 2 ^ k ∧ Zpos m < 2 ^ 53.
Proof.
  intros Hp. pose proof (digits2_le p 53 ltac:(lia) Hp) as Hd.
  set (k := 53 - Zpos (digits2_pos p)). unfold f64_of_N, binary_normalize. cbn [Z.of_N].
  unfold binary_round. set (t := fexp _ _ _).
  assert (t = - k) as -> by (unfold t, fexp, emin, prec, emax, k; lia).
  unfold shl_align. rewrite Z.sub_0_r.
  destruct k as [|q|q] eqn:Hk; [| |lia].
  - change (- 0) with 0. cbv iota beta.
    exists p, 0. rewrite binary_round_aux_exact by lia.
    repeat split; lia.
  - change (- Zpos q) with (Zneg q). cbv iota beta. destruct (iter_xO p q) as [H1 H2].
    assert (Zpos (digits2_pos (Pos.iter xO p q)) = 53) as H53 by (rewrite H2; lia).
    exists (Pos.iter xO p q), (Zpos q).
    rewrite binary_round_aux_exact by (rewrite ?H53; lia).
    split; [lia|]. split; [done|]. split; [done|].
    pose proof (Zdigits2_bound (Zpos (Pos.iter xO p q))) as Hb. cbn [Zdigits2] in Hb.
    rewrite H53 in Hb. lia.
Qed.

Lemma magnitude_exact m k n :
  0 ≤ k → Zpos m = n * 2 ^ k → magnitude m (- k) = n.
Proof.
  intros Hk Hm. unfold magnitude. rewrite Z.shiftl_opp_r, Z.shiftr_div_pow2, Hm by lia.
  apply Z.div_mul. lia.
Qed.
End Exact.

(** [2^53 - 1], the largest integer below which every integer is exact. *)
Definition MAX_SAFE : N := 9007199254740991.

Lemma to_u64_of_N n : (n ≤ MAX_SAFE)%N → to_u64 (f64_of_N n) = n.
Proof.
  destruct n as [|p]; [done|]. unfold MAX_SAFE. intros Hn.
  destruct (f64_of_pos_exact p) as (m & k & Hk & -> & Hm & _); [lia|].
  cbn [to_u64]. rewrite (magnitude_exact m k (Zpos p)) by (done || lia).
  unfold U64_MAX. lia.
Qed.

Lemma f64_of_N_finite n : (n ≤ MAX_SAFE)%N → is_finite (f64_of_N n) = true.
Proof.
  destruct n as [|p]; [done|]. unfold MAX_SAFE. intros Hn.
  destruct (f64_of_pos_exact p) as (m & k & Hk & -> & _); [lia|done].
Qed.

Lemma f64_of_N_is_zero n : (n ≤ MAX_SAFE)%N → feq (f64_of_N n) f64_zero = (n =? 0)%N.
Proof.
  destruct n as [|p]; [done|]. unfold MAX_SAFE. intros Hn.
  destruct (f64_of_pos_exact p) as (m & k & Hk & -> & _); [lia|done].
Qed.

Lemma nonneg_not_lt_zero x : nonneg x = true → flt x f64_zero = false.
Proof. by destruct x as [[]|[]| |[] ? ?]. Qed.

(** An integer has no fractional part. *)
Lemma fract_of_N n : (n ≤ MAX_SAFE)%N → fract (f64_of_N n) = f64_zero.
Proof.
  destruct n as [|p]; [done|]. unfold MAX_SAFE. intros Hn.
  assert (∀ m e, fsub (S754_finite false m e) (S754_finite false m e) = f64_zero) as Hsub.
  { intros m e. unfold fsub. cbn [SFsub cond_Zopp]. by rewrite Z.sub_diag. }
  unfold fract. destruct (f64_of_pos_exact p) as (m & k & Hk & E & Hm & _); [lia|].
  rewrite E. cbn [trunc]. destruct (0 <=? - k)%Z; [apply Hsub|].
  rewrite (magnitude_exact m k (Zpos p)) by (done || lia). cbn [cond_Zopp].
  change (binary_normalize prec emax (Zpos p) 0 false) with (f64_of_N (Npos p)).
  rewrite E. apply Hsub.
Qed.

Lemma f64_of_N_not_above n : (n ≤ MAX_SAFE)%N → flt (f64_of_N MAX_SAFE) (f64_of_N n) = false.
Proof.
  destruct n as [|p]; [done|]. unfold MAX_SAFE. intros Hn.
  change (f64_of_N 9007199254740991) with (S754_finite false 9007199254740991 0).
  destruct (f64_of_pos_exact p) as (m & k & Hk & -> & Hm & Hm'); [lia|].
  unfold flt. cbn [SFcompare]. change (Pos.compare_cont Eq ?a ?b) with (a ?= b)%positive.
  destruct (Z.compare_spec 0 (- k)) as [E|E|E]; [|lia|done].
  assert (k = 0)%Z as -> by lia.
  destruct (Pos.compare_spec 9007199254740991 m); [done| |done]. lia.
Qed.

(** A float not above [2^53 - 1] converts to no larger integer. *)
Lemma not_above_MAX x :
  mantissa_ok x → is_finite x = true → flt (f64_of_N MAX_SAFE) x = false →
  (to_u64 x ≤ MAX_SAFE)%N.
Proof.
  intros Hm Hf Hl. destruct x as [s| | |[] m e]; try done. simpl in Hm.
  change (f64_of_N MAX_SAFE) with (S754_finite false 9007199254740991 0) in Hl.
  unfold flt in Hl. cbn [SFcompare] in Hl. cbn [to_u64].
  assert (e ≤ 0)%Z as He.
  { destruct (Z.compare_spec 0 e) as [<-|H|H]; [done|done|lia]. }
  assert (magnitude m e ≤ Zpos m)%Z as Hle.
  { unfold magnitude. replace e with (- - e)%Z by lia.
    rewrite Z.shiftl_opp_r, Z.shiftr_div_pow2 by lia.
    apply Z.div_le_upper_bound; [lia|].
    assert (1 ≤ 2 ^ (- e))%Z by (change 1%Z with (2 ^ 0)%Z; apply Z.pow_le_mono_r; lia). nia. }
  unfold MAX_SAFE, U64_MAX. lia.
Qed.

(** ** A positive machine integer is a positive finite float *)

Section Positive.
Local Open Scope Z_scope.

Lemma shr_fexp_pos m e l :
  0 < m → 0 ≤ e →
  0 < shr_m (fst (shr_fexp prec emax m e l))
  ∧ 0 ≤ snd (shr_fexp prec emax m e l) ≤ e + Z.max 0 (Zdigits2 m - 53).
Proof.
  intros Hm He. unfold shr_fexp, shr.
  destruct m as [|p|p]; [lia| |lia]. cbn [Zdigits2].
  pose proof (digits2_lower p) as Hl. set (d := Zpos (digits2_pos p)) in *.
  assert (fexp prec emax (d + e) - e ≤ Z.max 0 (d - 53)) as Hf
    by (unfold fexp, prec, emin, emax; lia).
  assert (fexp prec emax (d + e) - e ≤ d - 1) as Hf'
    by (unfold fexp, prec, emin, emax; lia).
  destruct (fexp prec emax (d + e) - e) as [|q|q]; cbn [fst snd];
    [rewrite shr_record_of_loc_m; lia| |rewrite shr_record_of_loc_m; lia].
  rewrite iter_shr_1_m; rewrite shr_record_of_loc_m; [|lia]. split; [|lia].
  apply Z.div_str_pos. split; [lia|].
  eapply Z.le_trans; [|exact Hl]. apply Z.pow_le_mono_r; lia.
Qed.

Lemma Zdigits2_le m k : 0 < m → 0 ≤ k → m < 2 ^ k → Zdigits2 m ≤ k.
Proof. destruct m as [|p|p]; [lia| |lia]. intros _. apply digits2_le. Qed.

Lemma binary_round_aux_pos s m e :
  0 < m < 2 ^ 64 → 0 ≤ e ≤ 900 →
  ∃ m' e', binary_round_aux prec emax s m e loc_Exact = S754_finite s m' e'.
Proof.
  intros Hm He. unfold binary_round_aux.
  pose proof (shr_fexp_pos m e loc_Exact ltac:(lia) ltac:(lia)) as [H1 H2].
  pose proof (shr_fexp_m m e loc_Exact ltac:(lia)) as H3.
  pose proof (Zdigits2_le m 64 ltac:(lia) ltac:(lia) ltac:(lia)).
  destruct (shr_fexp prec emax m e loc_Exact) as [r1 e1]. cbn [fst snd] in *.
  set (m1 := round_nearest_even _ _).
  assert (0 < m1 < 2 ^ 54) as Hm1.
  { unfold m1, round_nearest_even. change (2 ^ 54) with (2 * 2 ^ 53).
    repeat case_match; lia. }
  pose proof (Zdigits2_le m1 54 ltac:(lia) ltac:(lia) ltac:(lia)).
  pose proof (shr_fexp_pos m1 e1 loc_Exact ltac:(lia) ltac:(lia)) as [H4 H5].
  destruct (shr_fexp prec emax m1 e1 loc_Exact) as [r2 e2]. cbn [fst snd] in *.
  destruct (shr_m r2) as [|p|p]; [lia| |lia].
  assert ((e2 <=? emax - prec) = true) as -> by (apply Z.leb_le; unfold emax, prec; lia).
  eauto.
Qed.
End Positive.

Lemma f64_of_N_positive n :
  (0 < n ≤ U64_MAX)%N → ∃ m e, f64_of_N n = S754_finite false m e.
Proof.
  destruct n as [|p]; [lia|]. unfold U64_MAX. intros Hn.
  destruct (Z.lt_ge_cases (Zpos p) (2 ^ 53)) as [H|H].
  { destruct (f64_of_pos_exact p H) as (m & k & _ & -> & _). eauto. }
  unfold f64_of_N, binary_normalize. cbn [Z.of_N]. unfold binary_round.
  pose proof (Zdigits2_bound (Zpos p) ltac:(lia)) as Hd. cbn [Zdigits2] in Hd.
  assert (53 < Zpos (digits2_pos p))%Z as Hd53.
  { destruct (Z.le_gt_cases (Zpos (digits2_pos p)) 53) as [Hle|]; [|lia].
    assert (2 ^ Zpos (digits2_pos p) ≤ 2 ^ 53)%Z by (apply Z.pow_le_mono_r; lia). lia. }
  unfold shl_align.
  destruct (fexp prec emax (Zpos (digits2_pos p) + 0) - 0)%Z as [|q|q] eqn:E;
    [| |unfold fexp, prec, emin, emax in E; lia];
    cbv iota beta; apply binary_round_aux_pos; lia.
Qed.

(** ** Parsing *)

Lemma f64_of_decimal_mantissa neg m e : mantissa_ok (f64_of_decimal neg m e).
Proof.
  unfold f64_of_decimal. destruct m as [|p]; [done|].
  destruct (0 <=? e)%Z eqn:He; nbool.
  - unfold binary_normalize. case_match; [done| |]; by eapply rounded_mantissa, rounded_round.
  - pose proof (SFdiv_core_nonneg (Zpos p) 0 (10 ^ (- e)) 0) as H.
    destruct (SFdiv_core_binary prec emax (Zpos p) 0 (10 ^ (- e)) 0) as [[q e'] l].
    eapply rounded_mantissa, rounded_round_aux. apply H; lia.
Qed.

Lemma parse_f64_mantissa s x : parse_f64 s = Some x → mantissa_ok x.
Proof.
  unfold parse_f64. destruct (match s with [] => _ | _ => _ end) as [neg body].
  destruct (eq_ignore_ascii_case body (bs "nan")); [by intros [= <-]|].
  destruct (_ || _); [by intros [= <-]|].
  unfold parse_number. destruct (span is_ascii_digit body) as [i r].
  destruct (match r with [] => _ | _ => _ end) as [f r'].
  destruct (i ++ f) as [|d ds]; [done|].
  destruct (parse_exponent r'); [|done]. intros [= <-]. apply f64_of_decimal_mantissa.
Qed.

Lemma digits_not_word l w c :
  Forall (λ x, is_ascii_digit x = true) l → is_ascii_digit (to_ascii_lowercase c) = false →
  eq_ignore_ascii_case l (c :: w) = false.
Proof.
  intros Hl Hc. destruct l as [|x l]; [done|]. cbn [eq_ignore_ascii_case].
  apply Forall_cons in Hl as [Hx _].
  destruct (Ascii.eqb_spec (to_ascii_lowercase x) (to_ascii_lowercase c)) as [E|]; [|done].
  exfalso. rewrite <- E in Hc. clear -Hx Hc.
  assert (to_ascii_lowercase x = x) as Hl.
  { unfold to_ascii_lowercase, is_ascii_uppercase.
    destruct (in_range 65 90 x) eqn:E; [|done].
    apply in_range_spec in E. apply is_ascii_digit_spec in Hx. lia. }
  congruence.
Qed.

(** A decimal integer parses to the float of that integer. *)
Lemma parse_f64_show n : parse_f64 (show_N n) = Some (f64_of_N n).
Proof.
  pose proof (show_N_digits n) as Hd. pose proof (show_N_nonempty n) as Hne.
  pose proof (show_N_value n) as Hv. unfold parse_f64.
  destruct (show_N n) as [|x l] eqn:E; [done|].
  assert (Ascii.eqb x "-" = false ∧ Ascii.eqb x "+" = false) as [-> ->].
  { apply Forall_cons in Hd as [Hd _].
    split; [destruct (Ascii.eqb_spec x "-") as [->|]|destruct (Ascii.eqb_spec x "+") as [->|]]; done. }
  change (bs "nan") with ("n"%char :: bs "an").
  change (bs "inf") with ("i"%char :: bs "nf").
  change (bs "infinity") with ("i"%char :: bs "nfinity").
  rewrite !digits_not_word by done. cbv beta iota.
  unfold orb, parse_number.
  assert (span is_ascii_digit (x :: l) = (x :: l, [])) as Hs.
  { rewrite <- (app_nil_r (x :: l)) at 1. by apply span_stop. }
  rewrite Hs. rewrite app_nil_r. simpl length. cbn [parse_exponent].
  rewrite Hv. simpl (0 - Z.of_nat 0)%Z. unfold f64_of_decimal.
  destruct n as [|p]; [done|]. cbn [Z.leb Z.compare cond_Zopp].
  change (10 ^ 0)%Z with 1%Z. by rewrite Z.mul_1_r.
Qed.
