(* ===== verification/Text.v ===== *)
(** * Formatted text

    What [format!] does with the specifications the program uses: [{:<w}] and
    [{:>w}] pad to a number of characters, [{:.1}] writes a float with one
    decimal, correctly rounded (an exact tie goes to the even digit). *)

From S2P Require Import Prelude RustStd Float64.

(** [chars().count()] of a text. *)
Definition chars (s : string) : nat := N.to_nat (chars_count (bs s)).

Definition spaces (n : nat) : string := str (replicate n SPACE).

(** [{:<w}] and [{:>w}]. *)
Definition pad_end (w : nat) (s : string) : string := s +:+ spaces (w - chars s).
Definition pad_start (w : nat) (s : string) : string := spaces (w - chars s) +:+ s.

(** [chars().take(n)] of well-formed text. *)
Fixpoint take_chars (n : nat) (s : bytes) : bytes :=
  match s with
  | [] => []
  | x :: s =>
      if is_continuation x then x :: take_chars n s else
      match n with
      | O => []
      | S n => x :: take_chars n s
      end
  end.

(** The quotient [n / d], rounded to the nearest integer, ties to even. *)
Definition div_nearest (n d : N) : N :=
  let '(q, r) := N.div_eucl n d in
  match (2 * r ?= d)%N with
  | Lt => q
  | Gt => (q + 1)%N
  | Eq => if N.even q then q else (q + 1)%N
  end.

(** [{:0width}] of an unsigned number. *)
Definition padded (width : nat) (n : N) : string :=
  let text := show_N n in str (replicate (width - length text) "0"%char ++ text).

(** The magnitude of a finite float in units of the [p]-th decimal. *)
Definition decimals (p : nat) (m : positive) (e : Z) : N :=
  let n := (10 ^ N.of_nat p * Npos m)%N in
  if (0 <=? e)%Z then N.shiftl n (Z.to_N e) else div_nearest n (N.shiftl 1 (Z.to_N (- e))).

(** [{:.p}] of a float. *)
Definition fmt_prec (p : nat) (x : f64) : string :=
  let sign (s : bool) := if s then "-"%string else EmptyString in
  let number n := to_string (n / 10 ^ N.of_nat p)
    +:+ (if p =? 0 then EmptyString else "." +:+ padded p (n mod 10 ^ N.of_nat p)) in
  match x with
  | S754_nan => "NaN"
  | S754_infinity s => sign s +:+ "inf"
  | S754_zero s => sign s +:+ number 0%N
  | S754_finite s m e => sign s +:+ number (decimals p m e)
  end.

(** [{:.1}] *)
Definition fmt_1 : f64 → string := fmt_prec 1.

Example fmt_1_cases :
  fmt_1 (fdiv (f64_of_N 1050) (f64_of_N 1000)) = "1.1"%string
  ∧ fmt_1 (fdiv (f64_of_N 1) (f64_of_N 4)) = "0.2"%string
  ∧ fmt_1 (fdiv (f64_of_N 3) (f64_of_N 4)) = "0.8"%string
  ∧ fmt_1 (fdiv (f64_of_N 59999) (f64_of_N 1000)) = "60.0"%string
  ∧ fmt_1 (f64_of_N 100) = "100.0"%string
  ∧ fmt_prec 0 (fdiv (f64_of_N 5) (f64_of_N 2)) = "2"%string
  ∧ fmt_prec 2 (fdiv (f64_of_N 1) (f64_of_N 20)) = "0.05"%string
  ∧ fmt_prec 3 f64_zero = "0.000"%string.
Proof. vm_compute. done. Qed.

(** A table row: two spaces, a left-aligned cell and right-aligned ones. *)
Definition columns (first : nat) (cell : string) (cells : list (nat * string)) : string :=
  "  " +:+ pad_end first cell +:+ String.concat "" ((λ '(w, c), pad_start w c) <$> cells).

(** ** Widths *)

Lemma chars_app s t : chars (s +:+ t) = chars s + chars t.
Proof. unfold chars, chars_count. rewrite bs_app, List.filter_app, length_app. lia. Qed.

Lemma chars_spaces n : chars (spaces n) = n.
Proof.
  unfold chars, chars_count, spaces. rewrite bs_str. rewrite Nat2N.id.
  induction n as [|n IH]; [done|]. cbn [replicate List.filter].
  change (negb (is_continuation SPACE)) with true. cbn [length]. by rewrite IH.
Qed.

Lemma chars_pad_end w s : chars s ≤ w → chars (pad_end w s) = w.
Proof. intros H. unfold pad_end. rewrite chars_app, chars_spaces. lia. Qed.

Lemma chars_pad_start w s : chars s ≤ w → chars (pad_start w s) = w.
Proof. intros H. unfold pad_start. rewrite chars_app, chars_spaces. lia. Qed.

Lemma concat_cons s l : String.concat "" (s :: l) = s +:+ String.concat "" l.
Proof.
  destruct l; [|done]. apply (inj bs). rewrite bs_app. cbn. by rewrite app_nil_r.
Qed.

(** A row whose cells fit has the width of its columns. *)
Lemma chars_columns first cell cells :
  chars cell ≤ first → Forall (λ '(w, c), chars c ≤ w) cells →
  chars (columns first cell cells) = 2 + first + sum_list cells.*1.
Proof.
  intros Hc Hcs. unfold columns. rewrite !chars_app, chars_pad_end by done.
  change (chars "  ") with 2. rewrite <- Nat.add_assoc. do 2 f_equal. induction Hcs as [|[w c] cells Hw _ IH]; [done|].
  cbn [fmap list_fmap]. rewrite concat_cons, chars_app, chars_pad_start by done. cbn. by rewrite IH.
Qed.

Lemma chars_take n s : N.to_nat (chars_count (take_chars n s)) ≤ n.
Proof.
  unfold chars_count. rewrite Nat2N.id. revert n.
  induction s as [|x s IH]; intros n; cbn [take_chars]; [simpl; lia|].
  destruct (is_continuation x) eqn:E; cbn [List.filter].
  - rewrite E. apply IH.
  - destruct n as [|n]; [simpl; lia|]. cbn [List.filter]. rewrite E. cbn. specialize (IH n). lia.
Qed.

(** Digits are single characters. *)
Lemma digits_chars l : Forall (λ x, is_ascii_digit x = true) l → chars_count l = N.of_nat (length l).
Proof.
  unfold chars_count. intros H. f_equal. induction H as [|x l Hx _ IH]; [done|].
  cbn. assert (is_continuation x = false) as ->.
  { unfold is_continuation. apply not_true_iff_false. rewrite in_range_spec.
    apply is_ascii_digit_spec in Hx. lia. }
  cbn. by rewrite IH.
Qed.

(** ** Digits *)

Lemma show_digits_fuel f g n :
  (n < 2 ^ N.of_nat f)%N → (n < 2 ^ N.of_nat g)%N → show_digits (S f) n = show_digits (S g) n.
Proof.
  revert g n. induction f as [|f IH]; intros g n Hf Hg.
  { change (2 ^ N.of_nat 0)%N with 1%N in Hf. assert (n = 0)%N as -> by lia. done. }
  destruct g as [|g]. { change (2 ^ N.of_nat 0)%N with 1%N in Hg. assert (n = 0)%N as -> by lia. done. }
  remember (S f) as f' eqn:Ef. remember (S g) as g' eqn:Eg. cbn [show_digits]. subst f' g'. f_equal.
  destruct (N.eqb_spec (n / 10) 0) as [|_]; [done|].
  rewrite Nat2N.inj_succ, N.pow_succ_r' in Hf, Hg.
  apply IH; apply N.Div0.div_lt_upper_bound; lia.
Qed.

(** The last digit. *)
Lemma show_N_snoc n : (10 <= n)%N → show_N n = show_N (n / 10) ++ [digit (n mod 10)].
Proof.
  intros Hn. unfold show_N at 1. cbn [show_digits].
  destruct (N.eqb_spec (n / 10) 0) as [E|_]; [exfalso; lia_div|]. f_equal.
  pose proof (N.size_gt n) as Hs. pose proof (N.size_gt (n / 10)) as Hs'.
  destruct (N.to_nat (N.size n)) as [|f] eqn:E.
  { assert (N.size n = 0)%N as E0 by lia. rewrite E0 in Hs. change (2 ^ 0)%N with 1%N in Hs. lia. }
  assert (N.size n = N.succ (N.of_nat f)) as E' by lia. rewrite E', N.pow_succ_r' in Hs.
  apply show_digits_fuel; [apply N.Div0.div_lt_upper_bound; lia|by rewrite N2Nat.id].
Qed.

Lemma show_N_small n : (n < 10)%N → show_N n = [digit n].
Proof.
  intros Hn. unfold show_N. cbn [show_digits].
  destruct (N.eqb_spec (n / 10) 0) as [_|E]; [|exfalso; apply E; lia_div]. cbn. by rewrite N.mod_small.
Qed.

(** The last three digits. *)
Lemma show_N_thousand n :
  (1000 <= n)%N →
  show_N n = show_N (n / 1000) ++ [digit (n / 100 mod 10); digit (n / 10 mod 10); digit (n mod 10)].
Proof.
  intros Hn. rewrite (show_N_snoc n), (show_N_snoc (n / 10)), (show_N_snoc (n / 10 / 10)) by lia_div.
  rewrite !N.Div0.div_div. change (10 * 10)%N with 100%N. change (100 * 10)%N with 1000%N. by rewrite <- !app_assoc.
Qed.

(** The number of digits. *)
Lemma show_N_length n k : (n < 10 ^ N.of_nat (S k))%N → length (show_N n) ≤ S k.
Proof.
  revert n. induction k as [|k IH]; intros n Hn.
  { rewrite show_N_small by done. done. }
  destruct (N.lt_ge_cases n 10) as [Hs|Hb]; [rewrite show_N_small by done; simpl; lia|].
  rewrite show_N_snoc, length_app by done. cbn [length].
  assert (length (show_N (n / 10)) ≤ S k); [|lia]. apply IH.
  rewrite Nat2N.inj_succ, N.pow_succ_r' in Hn. apply N.Div0.div_lt_upper_bound. lia.
Qed.

Lemma chars_to_string n : chars (to_string n) = length (show_N n).
Proof. unfold chars, to_string. rewrite bs_str, digits_chars by apply show_N_digits. lia. Qed.
