(* ===== verification/Telemetry.v ===== *)
(** * [src/src/telemetry.rs]: backend metrics and the pressure score

    The Prometheus text parser ([parse_mistralrs_metrics] and the accumulators
    and scanners under it) and the [least-pressure-v1] score.  A parse is an
    [outcome] of a [result]: the two [unreachable!] arms of the source are
    [Panicked], and [parse_never_panics] shows that no input reaches them.
    [parse_spec] characterises the accepted inputs and what is read from them
    by the lines that carry each metric, independently of the scanning loop. *)

From S2P Require Import Prelude RustStd Float64.

(** ** Metric names and constants (telemetry.rs:10-26) *)

(** src/src/telemetry.rs:10-10 [SEQUENCES_RUNNING_METRIC] *)
Definition SEQUENCES_RUNNING_METRIC : string := "mistralrs_sequences_running".
(** src/src/telemetry.rs:11-11 [SEQUENCES_WAITING_METRIC] *)
Definition SEQUENCES_WAITING_METRIC : string := "mistralrs_sequences_waiting".
(** src/src/telemetry.rs:12-12 [SEQUENCES_CAPACITY_METRIC] *)
Definition SEQUENCES_CAPACITY_METRIC : string := "mistralrs_sequences_capacity".
(** src/src/telemetry.rs:13-13 [KV_CACHE_BLOCKS_USED_METRIC] *)
Definition KV_CACHE_BLOCKS_USED_METRIC : string := "mistralrs_kv_cache_blocks_used".
(** src/src/telemetry.rs:14-14 [KV_CACHE_BLOCKS_TOTAL_METRIC] *)
Definition KV_CACHE_BLOCKS_TOTAL_METRIC : string := "mistralrs_kv_cache_blocks_total".
(** src/src/telemetry.rs:15-15 [TOKENS_PROCESSED_TOTAL_METRIC] *)
Definition TOKENS_PROCESSED_TOTAL_METRIC : string := "mistralrs_tokens_processed_total".
(** src/src/telemetry.rs:16-16 [PREFILL_TOKENS_PROCESSED_TOTAL_METRIC] *)
Definition PREFILL_TOKENS_PROCESSED_TOTAL_METRIC : string :=
  "mistralrs_prefill_tokens_processed_total".
(** src/src/telemetry.rs:17-17 [DECODE_TOKENS_PROCESSED_TOTAL_METRIC] *)
Definition DECODE_TOKENS_PROCESSED_TOTAL_METRIC : string :=
  "mistralrs_decode_tokens_processed_total".
(** src/src/telemetry.rs:18-18 [SEQUENCES_COMPLETED_TOTAL_METRIC] *)
Definition SEQUENCES_COMPLETED_TOTAL_METRIC : string := "mistralrs_sequences_completed_total".

(** src/src/telemetry.rs:20-20 [KV_PENALTY_START], the correctly rounded literal *)
Definition KV_PENALTY_START : f64 :=
  Eval vm_compute in default f64_zero (parse_f64 (bs "0.85")).
(** src/src/telemetry.rs:25-25 [MAX_EXACT_F64_INTEGER] *)
Definition MAX_EXACT_F64_INTEGER : f64 := Eval vm_compute in f64_of_N 9007199254740991.

(** ** Data (telemetry.rs:27-116) *)

(** src/src/telemetry.rs:28-31 [KvCacheMetrics] *)
Record KvCacheMetrics := mkKvCacheMetrics { kv_used : N; kv_total : N }.

(** src/src/telemetry.rs:37-39 [KvCacheMetrics::ratio] *)
Definition ratio (self : KvCacheMetrics) : f64 :=
  clamp (fdiv (f64_of_N (kv_used self)) (f64_of_N (kv_total self))) f64_zero f64_one.

(** src/src/telemetry.rs:41-43 [KvCacheMetrics::is_overcommitted] *)
Definition is_overcommitted (self : KvCacheMetrics) : bool :=
  (kv_total self <? kv_used self)%N.

(** src/src/telemetry.rs:47-64 [MistralRsMetrics] *)
Record MistralRsMetrics := mkMistralRsMetrics {
  sequences_running : N;
  sequences_waiting : N;
  sequences_capacity : option N;
  kv_cache : option KvCacheMetrics;
  tokens_processed_total : option f64;
  prefill_tokens_processed_total : option f64;
  decode_tokens_processed_total : option f64;
  sequences_completed_total : option f64;
}.

(** src/src/telemetry.rs:95-105 [LeastPressureV1Inputs] *)
Record LeastPressureV1Inputs := mkLeastPressureV1Inputs {
  running : N;
  waiting : N;
  capacity : N;
  new_sequences : N;
  kv_ratio : option f64;
}.

(** src/src/telemetry.rs:108-112 [LeastPressureV1Score] *)
Record LeastPressureV1Score := mkLeastPressureV1Score {
  occupancy : f64;
  kv_penalty : f64;
  pressure : f64;
}.

(** src/src/telemetry.rs:115-119 [PressureInputError] *)
Inductive PressureInputError := ZeroCapacity | NonFiniteKvRatio | KvRatioOutOfRange.

(** src/src/telemetry.rs:121-131 [PressureInputError::Display] *)
Definition pressure_input_error_display (self : PressureInputError) : string :=
  match self with
  | ZeroCapacity => "sequence capacity must be positive"
  | NonFiniteKvRatio => "KV cache ratio must be finite"
  | KvRatioOutOfRange => "KV cache ratio must be between zero and one"
  end.

(** src/src/telemetry.rs:67-69 [MistralRsMetrics::kv_cache_ratio] *)
Definition kv_cache_ratio (self : MistralRsMetrics) : option f64 := ratio <$> kv_cache self.

(** src/src/telemetry.rs:74-86 [MistralRsMetrics::pressure_inputs] *)
Definition pressure_inputs (self : MistralRsMetrics) (new_sequences effective_capacity : N) :
    LeastPressureV1Inputs :=
  {| running := sequences_running self;
     waiting := sequences_waiting self;
     capacity := effective_capacity;
     new_sequences := new_sequences;
     kv_ratio := kv_cache_ratio self |}.

(** src/src/telemetry.rs:88-91 [MistralRsMetrics::reported_capacity_inputs] *)
Definition reported_capacity_inputs (self : MistralRsMetrics) (new_sequences : N) :
    option LeastPressureV1Inputs :=
  pressure_inputs self new_sequences <$> sequences_capacity self.

(** src/src/telemetry.rs:149-175 [least_pressure_v1_with_soft_limit] *)
Definition least_pressure_v1_with_soft_limit (inputs : LeastPressureV1Inputs)
    (kv_soft_limit : f64) : result PressureInputError LeastPressureV1Score :=
  if (capacity inputs =? 0)%N then Err ZeroCapacity else
  kv_penalty ←
    match kv_ratio inputs with
    | Some ratio =>
        if negb (is_finite ratio) then Err NonFiniteKvRatio
        else if negb (fle f64_zero ratio && fle ratio f64_one) then Err KvRatioOutOfRange
        else Ok (fmax (fdiv (fsub ratio kv_soft_limit) (fsub f64_one kv_soft_limit)) f64_zero)
    | None => Ok f64_zero
    end;
  let occupancy :=
    fdiv (fadd (fadd (f64_of_N (running inputs)) (f64_of_N (waiting inputs)))
               (f64_of_N (new_sequences inputs)))
         (f64_of_N (capacity inputs)) in
  Ok {| occupancy := occupancy; kv_penalty := kv_penalty; pressure := fadd occupancy kv_penalty |}.

(** src/src/telemetry.rs:140-144 [least_pressure_v1] *)
Definition least_pressure_v1 (inputs : LeastPressureV1Inputs) :
    result PressureInputError LeastPressureV1Score :=
  least_pressure_v1_with_soft_limit inputs KV_PENALTY_START.

(** src/src/telemetry.rs:178-195 [MetricsParseError] *)
Inductive MetricsParseError :=
| MissingRequiredMetric (metric : string)
| DuplicateRequiredMetric (metric : string) (first_line duplicate_line : N)
| MalformedRequiredMetric (metric : string) (line : N) (reason : string)
| IncompleteKvCacheMetrics (missing : string).

(** src/src/telemetry.rs:197-225 [MetricsParseError::Display] *)
Definition metrics_parse_error_display (self : MetricsParseError) : string :=
  match self with
  | MissingRequiredMetric metric => "required Prometheus metric " +:+ metric +:+ " is missing"
  | DuplicateRequiredMetric metric first_line duplicate_line =>
      "required Prometheus metric " +:+ metric +:+ " is duplicated on lines "
      +:+ to_string first_line +:+ " and " +:+ to_string duplicate_line
  | MalformedRequiredMetric metric line reason =>
      "required Prometheus metric " +:+ metric +:+ " is malformed on line "
      +:+ to_string line +:+ ": " +:+ reason
  | IncompleteKvCacheMetrics missing =>
      "paged-attention KV metrics are incomplete; " +:+ missing +:+ " is missing"
  end.

(** src/src/telemetry.rs:471-475 [ParsedSample] *)
Record ParsedSample := mkParsedSample {
  name : bytes;
  labels : option bytes;
  sample_value : bytes;
}.

(** src/src/telemetry.rs:445-463 [parse_gauge_count] *)
Definition parse_gauge_count (value : bytes) (positive : bool) : result string N :=
  value ← ok_or (parse_f64 value) "value is not a number";
  if negb (is_finite value) then Err "value must be finite"
  else if flt value f64_zero then Err "value must be non-negative"
  else if positive && feq value f64_zero then Err "value must be positive"
  else if negb (feq (fract value) f64_zero) then Err "value must be an integer"
  else if flt MAX_EXACT_F64_INTEGER value then Err "value is too large to represent exactly"
  else Ok (to_u64 value).

(** src/src/telemetry.rs:465-468 [parse_counter] *)
Definition parse_counter (value : bytes) : option f64 :=
  value ← parse_f64 value;
  if is_finite value && fle f64_zero value then Some value else None.

(** ** Scanners *)

(** src/src/telemetry.rs:574-576 [is_metric_name_start] *)
Definition is_metric_name_start (byte : ascii) : bool :=
  is_ascii_alphabetic byte || Ascii.eqb byte "_" || Ascii.eqb byte ":".

(** src/src/telemetry.rs:578-580 [is_metric_name_continue] *)
Definition is_metric_name_continue (byte : ascii) : bool :=
  is_metric_name_start byte || is_ascii_digit byte.

(** src/src/telemetry.rs:559-572 [metric_name_prefix] *)
Definition metric_name_prefix (line : bytes) : bytes :=
  match line with
  | [] => []
  | byte :: _ =>
      if is_metric_name_start byte then fst (span is_metric_name_continue line) else []
  end.

(** src/src/telemetry.rs:582-595 [is_recognized_metric] *)
Definition is_recognized_metric (metric : bytes) : bool :=
  bool_decide (str metric ∈
    [SEQUENCES_RUNNING_METRIC; SEQUENCES_WAITING_METRIC; SEQUENCES_CAPACITY_METRIC;
     KV_CACHE_BLOCKS_USED_METRIC; KV_CACHE_BLOCKS_TOTAL_METRIC;
     TOKENS_PROCESSED_TOTAL_METRIC; PREFILL_TOKENS_PROCESSED_TOTAL_METRIC;
     DECODE_TOKENS_PROCESSED_TOTAL_METRIC; SEQUENCES_COMPLETED_TOTAL_METRIC]).

(** src/src/telemetry.rs:597-610 [static_metric_name]; the wildcard arm is [unreachable!] *)
Definition static_metric_name (metric : bytes) : outcome string :=
  if is_recognized_metric metric then Done (str metric) else Panicked.

(** src/src/telemetry.rs, lines 541-555 of [find_label_set_end] *)
Fixpoint label_set_loop (quoted escaped : bool) (index : nat) (s : bytes) : result string nat :=
  match s with
  | [] => Err "unterminated label set"
  | byte :: s' =>
      if quoted then
        if escaped then label_set_loop quoted false (S index) s'
        else if Ascii.eqb byte BACKSLASH then label_set_loop quoted true (S index) s'
        else if Ascii.eqb byte QUOTE then label_set_loop false escaped (S index) s'
        else label_set_loop quoted escaped (S index) s'
      else if Ascii.eqb byte QUOTE then label_set_loop true escaped (S index) s'
      else if Ascii.eqb byte "}" then Ok index
      else label_set_loop quoted escaped (S index) s'
  end.

(** src/src/telemetry.rs:538-557 [find_label_set_end] *)
Definition find_label_set_end (s : bytes) (open : nat) : result string nat :=
  label_set_loop false false (open + 1) (drop (open + 1) s).

(** src/src/telemetry.rs, lines 517-529 of [parse_sample_line]: what may follow the value *)
Definition sample_remainder_ok (rest : bytes) : result string () :=
  let remainder := trim_start rest in
  match remainder with
  | [] => Ok ()
  | x :: _ =>
      if Ascii.eqb x "#" then Ok () else
      let '(timestamp, after) := split_at_whitespace remainder in
      if bool_decide (parse_i64 timestamp = None)
      then Err "unexpected content after sample value"
      else match trim_start after with
           | [] => Ok ()
           | y :: _ => if Ascii.eqb y "#" then Ok ()
                       else Err "unexpected content after sample timestamp"
           end
  end.

(** src/src/telemetry.rs:477-536 [parse_sample_line] *)
Definition parse_sample_line (line : bytes) : result string ParsedSample :=
  let '(name, rest) := span is_metric_name_continue line in
  if match line with
     | byte :: _ => bool_decide (name = []) || negb (is_metric_name_start byte)
     | [] => true
     end
  then Err "invalid metric name" else
  let name_end := length name in
  '(labels, rest) ←
    match rest with
    | byte :: _ =>
        if Ascii.eqb byte "{" then
          close ← find_label_set_end line name_end;
          Ok (Some (drop name_end (take (close + 1) line)), drop (close + 1) line)
        else Ok (None, rest)
    | [] => Ok (None, rest)
    end;
  if negb (match rest with byte :: _ => is_ascii_whitespace byte | [] => false end)
  then Err "expected whitespace before sample value" else
  let '(_, rest) := span is_ascii_whitespace rest in
  match rest with
  | [] => Err "sample value is missing"
  | _ =>
      let '(value, rest) := span (λ byte, negb (is_ascii_whitespace byte)) rest in
      _ ← sample_remainder_ok rest;
      Ok {| name := name; labels := labels; sample_value := value |}
  end.

(** ** Accumulators *)

(** src/src/telemetry.rs:230-235 [RequiredGauge] *)
Record RequiredGauge := mkRequiredGauge {
  gauge_metric : string;
  gauge_value : option N;
  gauge_line : option N;
  gauge_positive : bool;
}.

(** src/src/telemetry.rs:238-245 [RequiredGauge::new] *)
Definition RequiredGauge_new (metric : string) (positive : bool) : RequiredGauge :=
  {| gauge_metric := metric; gauge_value := None; gauge_line := None;
     gauge_positive := positive |}.

(** src/src/telemetry.rs:265-271 [RequiredGauge::malformed] *)
Definition malformed (self : RequiredGauge) (line : N) (reason : string) : MetricsParseError :=
  MalformedRequiredMetric (gauge_metric self) line reason.

(** src/src/telemetry.rs:247-263 [RequiredGauge::observe] *)
Definition RequiredGauge_observe (self : RequiredGauge) (sample : ParsedSample) (line : N) :
    result MetricsParseError RequiredGauge :=
  match gauge_line self with
  | Some first_line => Err (DuplicateRequiredMetric (gauge_metric self) first_line line)
  | None =>
      if bool_decide (is_Some (labels sample))
      then Err (malformed self line "labels are not allowed")
      else
        value ← map_err (malformed self line)
                  (parse_gauge_count (sample_value sample) (gauge_positive self));
        Ok (self <| gauge_value := Some value |> <| gauge_line := Some line |>)
  end.

(** src/src/telemetry.rs:273-277 [RequiredGauge::required] *)
Definition required (self : RequiredGauge) : result MetricsParseError N :=
  ok_or (gauge_value self) (MissingRequiredMetric (gauge_metric self)).

(** src/src/telemetry.rs:281-284 [OptionalSingleCounter] *)
Record OptionalSingleCounter := mkOptionalSingleCounter {
  counter_value : option f64;
  counter_invalid : bool;
}.

(** src/src/telemetry.rs, lines 280-280 of [OptionalSingleCounter]: the derived Default *)
Definition OptionalSingleCounter_default : OptionalSingleCounter :=
  {| counter_value := None; counter_invalid := false |}.

(** src/src/telemetry.rs:287-297 [OptionalSingleCounter::observe] *)
Definition OptionalSingleCounter_observe (self : OptionalSingleCounter) (sample : ParsedSample) :
    OptionalSingleCounter :=
  if bool_decide (is_Some (counter_value self)) || bool_decide (is_Some (labels sample))
  then self <| counter_invalid := true |> <| counter_value := None |>
  else match parse_counter (sample_value sample) with
       | Some value => self <| counter_value := Some value |>
       | None => self <| counter_invalid := true |>
       end.

(** src/src/telemetry.rs:299-302 [OptionalSingleCounter::invalidate] *)
Definition OptionalSingleCounter_invalidate (self : OptionalSingleCounter) :
    OptionalSingleCounter :=
  self <| counter_invalid := true |> <| counter_value := None |>.

(** src/src/telemetry.rs:304-306 [OptionalSingleCounter::finish] *)
Definition OptionalSingleCounter_finish (self : OptionalSingleCounter) : option f64 :=
  if counter_invalid self then None else counter_value self.

(** src/src/telemetry.rs:310-315 [OptionalCounterFamily] *)
Record OptionalCounterFamily := mkOptionalCounterFamily {
  family_total : f64;
  family_seen : bool;
  family_invalid : bool;
  family_series : gset string;
}.

(** src/src/telemetry.rs, lines 309-309 of [OptionalCounterFamily]: the derived Default *)
Definition OptionalCounterFamily_default : OptionalCounterFamily :=
  {| family_total := f64_zero; family_seen := false; family_invalid := false;
     family_series := ∅ |}.

(** src/src/telemetry.rs:318-333 [OptionalCounterFamily::observe] *)
Definition OptionalCounterFamily_observe (self : OptionalCounterFamily) (sample : ParsedSample) :
    OptionalCounterFamily :=
  let series := str (default [] (labels sample)) in
  match parse_counter (sample_value sample) with
  | None => self <| family_invalid := true |>
  | Some value =>
      if bool_decide (series ∈ family_series self)
      then self <| family_invalid := true |>
      else
        let total := fadd (family_total self) value in
        {| family_total := total;
           family_seen := true;
           family_invalid := if negb (is_finite total) then true else family_invalid self;
           family_series := {[ series ]} ∪ family_series self |}
  end.

(** src/src/telemetry.rs:335-337 [OptionalCounterFamily::invalidate] *)
Definition OptionalCounterFamily_invalidate (self : OptionalCounterFamily) :
    OptionalCounterFamily :=
  self <| family_invalid := true |>.

(** src/src/telemetry.rs:339-341 [OptionalCounterFamily::finish] *)
Definition OptionalCounterFamily_finish (self : OptionalCounterFamily) : option f64 :=
  if family_seen self && negb (family_invalid self) then Some (family_total self) else None.

(** ** The parser *)

(** src/src/telemetry.rs, lines 352-360 of [parse_mistralrs_metrics]: its mutable locals *)
Record Parser := mkParser {
  p_running : RequiredGauge;
  p_waiting : RequiredGauge;
  p_capacity : RequiredGauge;
  p_kv_used : RequiredGauge;
  p_kv_total : RequiredGauge;
  p_tokens : OptionalSingleCounter;
  p_prefill_tokens : OptionalSingleCounter;
  p_decode_tokens : OptionalSingleCounter;
  p_completions : OptionalCounterFamily;
}.

(** src/src/telemetry.rs, lines 352-360 of [parse_mistralrs_metrics] *)
Definition parser_new : Parser :=
  {| p_running := RequiredGauge_new SEQUENCES_RUNNING_METRIC false;
     p_waiting := RequiredGauge_new SEQUENCES_WAITING_METRIC false;
     p_capacity := RequiredGauge_new SEQUENCES_CAPACITY_METRIC true;
     p_kv_used := RequiredGauge_new KV_CACHE_BLOCKS_USED_METRIC false;
     p_kv_total := RequiredGauge_new KV_CACHE_BLOCKS_TOTAL_METRIC true;
     p_tokens := OptionalSingleCounter_default;
     p_prefill_tokens := OptionalSingleCounter_default;
     p_decode_tokens := OptionalSingleCounter_default;
     p_completions := OptionalCounterFamily_default |}.

(** src/src/telemetry.rs, lines 374-399 of [parse_mistralrs_metrics]: a line of a
    recognized metric that is not a sample *)
Definition parser_malformed_line (p : Parser) (metric : bytes) (line_number : N)
    (reason : string) : fallible MetricsParseError Parser :=
  if bool_decide (str metric = TOKENS_PROCESSED_TOTAL_METRIC)
  then mret (p <| p_tokens := OptionalSingleCounter_invalidate (p_tokens p) |>)
  else if bool_decide (str metric = PREFILL_TOKENS_PROCESSED_TOTAL_METRIC)
  then mret (p <| p_prefill_tokens := OptionalSingleCounter_invalidate (p_prefill_tokens p) |>)
  else if bool_decide (str metric = DECODE_TOKENS_PROCESSED_TOTAL_METRIC)
  then mret (p <| p_decode_tokens := OptionalSingleCounter_invalidate (p_decode_tokens p) |>)
  else if bool_decide (str metric = SEQUENCES_COMPLETED_TOTAL_METRIC)
  then mret (p <| p_completions := OptionalCounterFamily_invalidate (p_completions p) |>)
  else match static_metric_name metric with
       | Done static_name => Done (Err (MalformedRequiredMetric static_name line_number reason))
       | Panicked => Panicked
       end.

(** src/src/telemetry.rs, lines 401-412 of [parse_mistralrs_metrics]: the match on the
    sample's name, whose wildcard arm is [unreachable!] *)
Definition parser_sample (p : Parser) (sample : ParsedSample) (line_number : N) :
    fallible MetricsParseError Parser :=
  let sample_name := str (name sample) in
  if bool_decide (sample_name = SEQUENCES_RUNNING_METRIC) then
    gauge ← lift_result (RequiredGauge_observe (p_running p) sample line_number);
    mret (p <| p_running := gauge |>)
  else if bool_decide (sample_name = SEQUENCES_WAITING_METRIC) then
    gauge ← lift_result (RequiredGauge_observe (p_waiting p) sample line_number);
    mret (p <| p_waiting := gauge |>)
  else if bool_decide (sample_name = SEQUENCES_CAPACITY_METRIC) then
    gauge ← lift_result (RequiredGauge_observe (p_capacity p) sample line_number);
    mret (p <| p_capacity := gauge |>)
  else if bool_decide (sample_name = KV_CACHE_BLOCKS_USED_METRIC) then
    gauge ← lift_result (RequiredGauge_observe (p_kv_used p) sample line_number);
    mret (p <| p_kv_used := gauge |>)
  else if bool_decide (sample_name = KV_CACHE_BLOCKS_TOTAL_METRIC) then
    gauge ← lift_result (RequiredGauge_observe (p_kv_total p) sample line_number);
    mret (p <| p_kv_total := gauge |>)
  else if bool_decide (sample_name = TOKENS_PROCESSED_TOTAL_METRIC) then
    mret (p <| p_tokens := OptionalSingleCounter_observe (p_tokens p) sample |>)
  else if bool_decide (sample_name = PREFILL_TOKENS_PROCESSED_TOTAL_METRIC) then
    mret (p <| p_prefill_tokens := OptionalSingleCounter_observe (p_prefill_tokens p) sample |>)
  else if bool_decide (sample_name = DECODE_TOKENS_PROCESSED_TOTAL_METRIC) then
    mret (p <| p_decode_tokens := OptionalSingleCounter_observe (p_decode_tokens p) sample |>)
  else if bool_decide (sample_name = SEQUENCES_COMPLETED_TOTAL_METRIC) then
    mret (p <| p_completions := OptionalCounterFamily_observe (p_completions p) sample |>)
  else Panicked.

(** src/src/telemetry.rs, lines 362-413 of [parse_mistralrs_metrics]: one round of the loop *)
Definition parser_line (p : Parser) (line_number : N) (raw_line : bytes) :
    fallible MetricsParseError Parser :=
  let line := trim raw_line in
  if match line with [] => true | x :: _ => Ascii.eqb x "#" end then mret p else
  let metric := metric_name_prefix line in
  if negb (is_recognized_metric metric) then mret p else
  match parse_sample_line line with
  | Ok sample => parser_sample p sample line_number
  | Err reason => parser_malformed_line p metric line_number reason
  end.

(** src/src/telemetry.rs, lines 362-413 of [parse_mistralrs_metrics]: the loop over the
    lines; [line_number] is that of the next one *)
Fixpoint parser_lines (p : Parser) (line_number : N) (input_lines : list bytes) :
    fallible MetricsParseError Parser :=
  match input_lines with
  | [] => mret p
  | raw_line :: rest =>
      p ← parser_line p line_number raw_line;
      parser_lines p (line_number + 1) rest
  end.

(** src/src/telemetry.rs, lines 415-442 of [parse_mistralrs_metrics] *)
Definition parser_finish (p : Parser) : result MetricsParseError MistralRsMetrics :=
  sequences_running ← required (p_running p);
  sequences_waiting ← required (p_waiting p);
  let sequences_capacity := gauge_value (p_capacity p) in
  kv_cache ←
    match gauge_value (p_kv_used p), gauge_value (p_kv_total p) with
    | None, None => Ok None
    | Some used, Some total => Ok (Some {| kv_used := used; kv_total := total |})
    | None, Some _ => Err (IncompleteKvCacheMetrics KV_CACHE_BLOCKS_USED_METRIC)
    | Some _, None => Err (IncompleteKvCacheMetrics KV_CACHE_BLOCKS_TOTAL_METRIC)
    end;
  Ok {| sequences_running := sequences_running;
        sequences_waiting := sequences_waiting;
        sequences_capacity := sequences_capacity;
        kv_cache := kv_cache;
        tokens_processed_total := OptionalSingleCounter_finish (p_tokens p);
        prefill_tokens_processed_total := OptionalSingleCounter_finish (p_prefill_tokens p);
        decode_tokens_processed_total := OptionalSingleCounter_finish (p_decode_tokens p);
        sequences_completed_total := OptionalCounterFamily_finish (p_completions p) |}.

(** src/src/telemetry.rs:351-443 [parse_mistralrs_metrics] *)
Definition parse_mistralrs_metrics (input : bytes) :
    fallible MetricsParseError MistralRsMetrics :=
  p ← parser_lines parser_new 1 (lines input);
  lift_result (parser_finish p).

(** The example of the unit tests of the source. *)
Definition base_text : bytes :=
  bs "# HELP mistralrs_sequences_running Sequences currently running." ++ LF ::
  bs "# TYPE mistralrs_sequences_running gauge" ++ LF ::
  bs "mistralrs_sequences_running 4" ++ LF ::
  bs "mistralrs_sequences_waiting 2" ++ LF ::
  bs "mistralrs_sequences_capacity 32" ++ LF ::
  bs "mistralrs_kv_cache_blocks_used 70" ++ LF ::
  bs "mistralrs_kv_cache_blocks_total 100" ++ [LF].

Definition base_metrics : MistralRsMetrics :=
  {| sequences_running := 4; sequences_waiting := 2; sequences_capacity := Some 32%N;
     kv_cache := Some {| kv_used := 70; kv_total := 100 |};
     tokens_processed_total := None; prefill_tokens_processed_total := None;
     decode_tokens_processed_total := None; sequences_completed_total := None |}.

Example parse_base : parse_mistralrs_metrics base_text = Done (Ok base_metrics).
Proof. vm_compute. reflexivity. Qed.

Example parse_duplicate :
  parse_mistralrs_metrics (base_text ++ bs "mistralrs_sequences_waiting 9")
  = Done (Err (DuplicateRequiredMetric SEQUENCES_WAITING_METRIC 4 8)).
Proof. vm_compute. reflexivity. Qed.

(** ** What an exposition says, line by line

    A reference reading of the text that does not scan: [sample_lines m ls] are
    the lines of metric [m], and each metric is read off its own lines. *)

Definition sample_line (raw_line : bytes) : option bytes :=
  let line := trim raw_line in
  if match line with [] => true | x :: _ => Ascii.eqb x "#" end then None else Some line.

Definition sample_lines (metric : string) (ls : list bytes) : list bytes :=
  filter (λ line, str (metric_name_prefix line) = metric) (omap sample_line ls).

(** A gauge line: a sample without labels whose value is an acceptable count. *)
Definition read_gauge (positive : bool) (line : bytes) : option N :=
  match parse_sample_line line with
  | Ok {| labels := None; sample_value := v |} => result_ok (parse_gauge_count v positive)
  | _ => None
  end.

(** [None] when the gauge rejects the snapshot, [Some None] when it is absent. *)
Definition gauge_reading (positive : bool) (occurrences : list bytes) : option (option N) :=
  match occurrences with
  | [] => Some None
  | [line] => Some <$> read_gauge positive line
  | _ => None
  end.

Definition counter_reading (occurrences : list bytes) : option f64 :=
  match occurrences with
  | [line] => match parse_sample_line line with
              | Ok {| labels := None; sample_value := v |} => parse_counter v
              | _ => None
              end
  | _ => None
  end.

Definition read_series (line : bytes) : option (string * f64) :=
  match parse_sample_line line with
  | Ok s => v ← parse_counter (sample_value s); Some (str (default [] (labels s)), v)
  | Err _ => None
  end.

Definition family_reading (occurrences : list bytes) : option f64 :=
  series ← mapM read_series occurrences;
  let total := foldl fadd f64_zero (series.*2) in
  if bool_decide (occurrences ≠ [] ∧ NoDup series.*1) && is_finite total
  then Some total else None.

Definition metrics_of (ls : list bytes) : option MistralRsMetrics :=
  running ← gauge_reading false (sample_lines SEQUENCES_RUNNING_METRIC ls) ≫= id;
  waiting ← gauge_reading false (sample_lines SEQUENCES_WAITING_METRIC ls) ≫= id;
  capacity ← gauge_reading true (sample_lines SEQUENCES_CAPACITY_METRIC ls);
  used ← gauge_reading false (sample_lines KV_CACHE_BLOCKS_USED_METRIC ls);
  total ← gauge_reading true (sample_lines KV_CACHE_BLOCKS_TOTAL_METRIC ls);
  kv ← match used, total with
       | None, None => Some None
       | Some used, Some total => Some (Some {| kv_used := used; kv_total := total |})
       | _, _ => None
       end;
  Some {| sequences_running := running;
          sequences_waiting := waiting;
          sequences_capacity := capacity;
          kv_cache := kv;
          tokens_processed_total :=
            counter_reading (sample_lines TOKENS_PROCESSED_TOTAL_METRIC ls);
          prefill_tokens_processed_total :=
            counter_reading (sample_lines PREFILL_TOKENS_PROCESSED_TOTAL_METRIC ls);
          decode_tokens_processed_total :=
            counter_reading (sample_lines DECODE_TOKENS_PROCESSED_TOTAL_METRIC ls);
          sequences_completed_total :=
            family_reading (sample_lines SEQUENCES_COMPLETED_TOTAL_METRIC ls) |}.

(** ** Lemmas *)

Lemma is_metric_name_start_continue x :
  is_metric_name_start x = true → is_metric_name_continue x = true.
Proof. unfold is_metric_name_continue. by intros ->. Qed.

Lemma parse_sample_line_name line s :
  parse_sample_line line = Ok s → name s = metric_name_prefix line.
Proof.
  unfold parse_sample_line, metric_name_prefix.
  destruct line as [|x line]; [done|].
  destruct (span is_metric_name_continue (x :: line)) as [nm rest] eqn:E.
  destruct (is_metric_name_start x) eqn:Ex; [|by rewrite orb_true_r].
  case_bool_decide; simpl; [done|].
  destruct (match rest with [] => _ | _ => _ end) as [[l r]|]; simpl; [|done].
  destruct (negb _); [done|]. destruct (span is_ascii_whitespace r) as [w r'].
  destruct r' as [|y r']; [done|].
  destruct (span _ (y :: r')) as [v r'']. destruct (sample_remainder_ok r''); simpl; [|done].
  by intros [= <-].
Qed.

Lemma sample_lines_app m ls1 ls2 :
  sample_lines m (ls1 ++ ls2) = sample_lines m ls1 ++ sample_lines m ls2.
Proof. unfold sample_lines. by rewrite omap_app, filter_app. Qed.

Lemma sample_lines_skip m raw ls :
  sample_line raw = None → sample_lines m (raw :: ls) = sample_lines m ls.
Proof. unfold sample_lines. simpl. by intros ->. Qed.

Lemma sample_lines_cons m raw line ls :
  sample_line raw = Some line →
  sample_lines m (raw :: ls) =
    (if bool_decide (str (metric_name_prefix line) = m) then [line] else [])
    ++ sample_lines m ls.
Proof.
  unfold sample_lines. simpl. intros ->. rewrite filter_cons.
  by case_decide; case_bool_decide.
Qed.

(** What each accumulator knows after the lines [occurrences] of its metric. *)
Definition gauge_repr (g : RequiredGauge) (metric : string) (positive : bool)
    (occurrences : list bytes) : Prop :=
  gauge_metric g = metric ∧ gauge_positive g = positive
  ∧ gauge_reading positive occurrences = Some (gauge_value g)
  ∧ (is_Some (gauge_line g) ↔ occurrences ≠ []).

Definition counter_repr (c : OptionalSingleCounter) (occurrences : list bytes) : Prop :=
  OptionalSingleCounter_finish c = counter_reading occurrences
  ∧ (counter_invalid c = false → counter_value c = None → occurrences = [])
  ∧ (occurrences = [] → c = OptionalSingleCounter_default).

Definition family_repr (f : OptionalCounterFamily) (occurrences : list bytes) : Prop :=
  (family_invalid f = true ∧ ∀ rest, family_reading (occurrences ++ rest) = None)
  ∨ (family_invalid f = false
     ∧ family_seen f = bool_decide (occurrences ≠ [])
     ∧ ∃ series, mapM read_series occurrences = Some series
        ∧ NoDup series.*1 ∧ family_series f = list_to_set series.*1
        ∧ family_total f = foldl fadd f64_zero series.*2
        ∧ is_finite (family_total f) = true).

Lemma gauge_reading_two positive occ l1 l2 rest :
  gauge_reading positive (occ ++ l1 :: l2 :: rest) = None.
Proof. by destruct occ as [|? [|? ?]]. Qed.

Lemma gauge_reading_bad positive occ line rest :
  read_gauge positive line = None → gauge_reading positive (occ ++ line :: rest) = None.
Proof. intros H. destruct occ as [|? [|? ?]], rest; simpl; by rewrite ?H. Qed.

Lemma gauge_observe_repr g metric positive occ line s n :
  gauge_repr g metric positive occ → parse_sample_line line = Ok s →
  match RequiredGauge_observe g s n with
  | Ok g' => gauge_repr g' metric positive (occ ++ [line])
  | Err _ => ∀ rest, gauge_reading positive (occ ++ line :: rest) = None
  end.
Proof.
  intros (<- & <- & Hr & Hl) Hs. unfold RequiredGauge_observe.
  destruct (gauge_line g) as [k|] eqn:E.
  { intros rest. destruct occ as [|x occ] using rev_ind; [naive_solver|].
    rewrite <- app_assoc. apply gauge_reading_two. }
  assert (occ = []) as ->.
  { destruct occ; [done|]. destruct (proj2 Hl) as [? ?]; [done|done]. }
  case_bool_decide as Hlab.
  { intros rest. apply gauge_reading_bad. unfold read_gauge. rewrite Hs.
    destruct s as [? [|] ?]; [done|by destruct Hlab]. }
  assert (labels s = None) as Hnone by (destruct (labels s); naive_solver).
  destruct (parse_gauge_count (sample_value s) (gauge_positive g)) as [v|e] eqn:Ev; simpl.
  - repeat split; simpl; [|done|done].
    unfold read_gauge. rewrite Hs. destruct s as [? l v']; simpl in *. by rewrite Hnone, Ev.
  - intros rest. apply (gauge_reading_bad _ []). unfold read_gauge. rewrite Hs.
    destruct s as [? l v']; simpl in *. by rewrite Hnone, Ev.
Qed.

Lemma gauge_malformed positive occ line rest e :
  parse_sample_line line = Err e → gauge_reading positive (occ ++ line :: rest) = None.
Proof. intros H. apply gauge_reading_bad. unfold read_gauge. by rewrite H. Qed.

Lemma counter_reading_many occ line : occ ≠ [] → counter_reading (occ ++ [line]) = None.
Proof. by destruct occ as [|? [|? ?]]. Qed.

Lemma snoc_not_nil {A} (l : list A) x : l ++ [x] ≠ [].
Proof. by intros [_ ?]%app_eq_nil. Qed.

Lemma counter_invalid_repr c occ line :
  counter_invalid c = true → (occ = [] → counter_reading [line] = None) →
  counter_repr c (occ ++ [line]).
Proof.
  intros Hi Hr. split; [|split].
  - unfold OptionalSingleCounter_finish. rewrite Hi.
    destruct occ as [|x occ]; [symmetry; by apply Hr|by rewrite counter_reading_many].
  - by rewrite Hi.
  - intros H. by apply snoc_not_nil in H.
Qed.

Lemma counter_observe_repr c occ line s :
  counter_repr c occ → parse_sample_line line = Ok s →
  counter_repr (OptionalSingleCounter_observe c s) (occ ++ [line]).
Proof.
  intros (Hf & Hn & Hd) Hs. unfold OptionalSingleCounter_observe.
  case_bool_decide as Hv; simpl.
  { apply counter_invalid_repr; [done|]. intros ->. rewrite Hd in Hv by done. by destruct Hv. }
  case_bool_decide as Hl; simpl.
  { apply counter_invalid_repr; [done|]. intros ->. simpl. rewrite Hs.
    destruct s as [? [|] ?]; [done|by destruct Hl]. }
  assert (labels s = None) as Hlab by (destruct (labels s); naive_solver).
  assert (counter_reading [line] = parse_counter (sample_value s)) as Hread.
  { simpl. rewrite Hs. destruct s as [? l ?]; simpl in *. by rewrite Hlab. }
  destruct (parse_counter (sample_value s)) as [v|] eqn:E; simpl.
  - destruct (counter_invalid c) eqn:Ei.
    + apply counter_invalid_repr; [by rewrite <- Ei|]. intros ->. by rewrite Hd in Ei.
    + assert (counter_value c = None) as Hc by (destruct (counter_value c); naive_solver).
      rewrite (Hn eq_refl Hc) in *. split; [|split].
      * change ([] ++ [line]) with [line]. rewrite Hread.
        destruct c; simpl in *; subst. done.
      * done.
      * done.
  - by apply counter_invalid_repr.
Qed.

Lemma counter_invalidate_repr c occ line e :
  parse_sample_line line = Err e →
  counter_repr (OptionalSingleCounter_invalidate c) (occ ++ [line]).
Proof. intros He. apply counter_invalid_repr; [done|]. intros _. simpl. by rewrite He. Qed.

(** An infinite running total stays infinite. *)
Lemma read_series_finite line lab v :
  read_series line = Some (lab, v) → is_finite v = true ∧ nonneg v = true.
Proof.
  unfold read_series. destruct (parse_sample_line line) as [s|]; [|done].
  unfold parse_counter. destruct (parse_f64 (sample_value s)) as [x|]; simpl; [|done].
  destruct (is_finite x && fle f64_zero x) eqn:E; simpl; [|done].
  intros [= _ <-]. apply andb_true_iff in E as [Hf Hz].
  split; [done|]. by destruct x as [[]|[]| |[] ? ?].
Qed.

Lemma foldl_fadd_infinite l x :
  Forall (λ v, is_finite v = true ∧ nonneg v = true) l →
  nonneg x = true → is_finite x = false → is_finite (foldl fadd x l) = false.
Proof.
  intros Hl. revert x. induction Hl as [|v l [Hv Hv'] Hl IH]; intros x Hx Hf; simpl; [done|].
  apply IH.
  - by apply fadd_nonneg.
  - by destruct x as [[]|[]| |[] ? ?], v as [[]|[]| |[] ? ?].
Qed.

Lemma series_finite ls series :
  mapM read_series ls = Some series →
  Forall (λ v, is_finite v = true ∧ nonneg v = true) series.*2.
Proof.
  rewrite mapM_Some. induction 1 as [|l [lab v] ls series H Hs IH]; simpl; constructor; [|done].
  by eapply read_series_finite.
Qed.

Lemma foldl_fadd_nonneg l x :
  Forall (λ v, is_finite v = true ∧ nonneg v = true) l →
  nonneg x = true → nonneg (foldl fadd x l) = true.
Proof.
  intros Hl. revert x. induction Hl as [|v l [Hv Hv'] Hl IH]; intros x Hx; simpl; [done|].
  apply IH. by apply fadd_nonneg.
Qed.

Lemma family_reading_app_inv occ line rest t :
  family_reading (occ ++ line :: rest) = Some t →
  ∃ series lab v series',
    mapM read_series occ = Some series ∧ read_series line = Some (lab, v)
    ∧ mapM read_series rest = Some series'
    ∧ NoDup (series.*1 ++ lab :: series'.*1)
    ∧ is_finite (foldl fadd (fadd (foldl fadd f64_zero series.*2) v) series'.*2) = true.
Proof.
  unfold family_reading.
  destruct (mapM read_series (occ ++ line :: rest)) as [all|] eqn:E; simpl; [|done].
  apply mapM_Some in E. apply Forall2_app_inv_l in E as (series & k & Hs & Hk & ->).
  inversion Hk as [|? [lab v] ? series' Hv Hs']; subst.
  case_bool_decide as Hd; simpl; [|done].
  destruct (is_finite _) eqn:Hf; simpl; [|done]. intros _.
  exists series, lab, v, series'. destruct Hd as [_ Hd].
  rewrite fmap_app in Hd. rewrite fmap_app, foldl_app in Hf.
  repeat split; try done; by apply mapM_Some.
Qed.

Lemma family_invalid_repr f occ line :
  family_invalid f = true → (∀ rest, family_reading (occ ++ line :: rest) = None) →
  family_repr f (occ ++ [line]).
Proof. intros Hi Hr. left. split; [done|]. intros rest. rewrite <- app_assoc. apply (Hr rest). Qed.

Lemma family_bad_line occ line rest :
  read_series line = None → family_reading (occ ++ line :: rest) = None.
Proof.
  intros Hl. destruct (family_reading _) as [t|] eqn:E; [|done].
  apply family_reading_app_inv in E as (?&?&?&?&_&H&_). congruence.
Qed.

Lemma family_observe_repr f occ line s :
  family_repr f occ → parse_sample_line line = Ok s →
  family_repr (OptionalCounterFamily_observe f s) (occ ++ [line]).
Proof.
  intros Hf Hs. unfold OptionalCounterFamily_observe.
  set (lab := str (default [] (labels s))).
  assert (∀ v, parse_counter (sample_value s) = v →
    read_series line = (λ v, (lab, v)) <$> v) as Hread.
  { intros v <-. unfold read_series. rewrite Hs.
    by destruct (parse_counter (sample_value s)). }
  destruct (parse_counter (sample_value s)) as [v|]; specialize (Hread _ eq_refl); simpl in Hread.
  2:{ apply family_invalid_repr; [done|]. intros. by apply family_bad_line. }
  destruct Hf as [[Hi Hr]|(Hi & Hseen & series & Hm & Hd & Hset & Ht & Hfin)].
  { case_bool_decide; apply family_invalid_repr; simpl; try done.
    rewrite Hi. by destruct (negb _). }
  destruct (decide (lab ∈ family_series f)) as [Hin|Hin];
    [rewrite bool_decide_true by done|rewrite bool_decide_false by done].
  { apply family_invalid_repr; [done|]. intros rest.
    destruct (family_reading _) as [t|] eqn:E; [|done].
    apply family_reading_app_inv in E as (series1 & lab1 & v1 & series' & H1 & H2 & H3 & H4 & H5).
    simplify_eq. rewrite Hset in Hin. apply elem_of_list_to_set in Hin.
    apply NoDup_app in H4 as (_ & H4 & _). exfalso. apply (H4 _ Hin). left. }
  destruct (is_finite (fadd (family_total f) v)) eqn:Efin; simpl.
  2:{ apply family_invalid_repr; [done|]. intros rest.
    destruct (family_reading _) as [t|] eqn:E; [|done].
    apply family_reading_app_inv in E as (series1 & lab1 & v1 & series' & H1 & H2 & H3 & H4 & H5).
    simplify_eq. rewrite foldl_fadd_infinite in H5; [done| | |].
    - by eapply series_finite.
    - apply fadd_nonneg; [|by eapply read_series_finite].
      apply foldl_fadd_nonneg; [by eapply series_finite|done].
    - by rewrite <- Ht. }
  right. simpl. split; [done|]. split.
  { symmetry. apply bool_decide_eq_true, snoc_not_nil. }
  exists (series ++ [(lab, v)]). rewrite !fmap_app, foldl_app. simpl.
  split_and!; [| | |by rewrite Ht|done].
  - apply mapM_Some, Forall2_app; [by apply mapM_Some|by repeat constructor].
  - apply NoDup_app. split; [done|]. split; [|apply NoDup_singleton].
    intros x Hx ->%list_elem_of_singleton. apply Hin. rewrite Hset. by apply elem_of_list_to_set.
  - rewrite list_to_set_app_L, Hset. simpl. set_solver.
Qed.

Lemma family_invalidate_repr f occ line e :
  parse_sample_line line = Err e →
  family_repr (OptionalCounterFamily_invalidate f) (occ ++ [line]).
Proof.
  intros He. apply family_invalid_repr; [done|]. intros rest. apply family_bad_line.
  unfold read_series. by rewrite He.
Qed.

Lemma family_finish_repr f occ :
  family_repr f occ → OptionalCounterFamily_finish f = family_reading occ.
Proof.
  unfold OptionalCounterFamily_finish.
  intros [[Hi Hr]|(Hi & Hseen & series & Hm & Hd & Hset & Ht & Hfin)].
  - rewrite Hi, andb_false_r. specialize (Hr []). by rewrite app_nil_r in Hr.
  - rewrite Hi, Hseen, andb_true_r. unfold family_reading. rewrite Hm. simpl.
    rewrite <- Ht, Hfin, andb_true_r.
    repeat case_bool_decide; naive_solver.
Qed.

Record parser_repr (p : Parser) (o : string → list bytes) : Prop := {
  repr_running : gauge_repr (p_running p) SEQUENCES_RUNNING_METRIC false (o SEQUENCES_RUNNING_METRIC);
  repr_waiting : gauge_repr (p_waiting p) SEQUENCES_WAITING_METRIC false (o SEQUENCES_WAITING_METRIC);
  repr_capacity :
    gauge_repr (p_capacity p) SEQUENCES_CAPACITY_METRIC true (o SEQUENCES_CAPACITY_METRIC);
  repr_kv_used :
    gauge_repr (p_kv_used p) KV_CACHE_BLOCKS_USED_METRIC false (o KV_CACHE_BLOCKS_USED_METRIC);
  repr_kv_total :
    gauge_repr (p_kv_total p) KV_CACHE_BLOCKS_TOTAL_METRIC true (o KV_CACHE_BLOCKS_TOTAL_METRIC);
  repr_tokens : counter_repr (p_tokens p) (o TOKENS_PROCESSED_TOTAL_METRIC);
  repr_prefill : counter_repr (p_prefill_tokens p) (o PREFILL_TOKENS_PROCESSED_TOTAL_METRIC);
  repr_decode : counter_repr (p_decode_tokens p) (o DECODE_TOKENS_PROCESSED_TOTAL_METRIC);
  repr_completions : family_repr (p_completions p) (o SEQUENCES_COMPLETED_TOTAL_METRIC);
}.

Lemma parser_new_repr : parser_repr parser_new (λ _, []).
Proof.
  split; simpl; try (repeat split; simpl; try done; by intros [? ?]).
  right. repeat split; try done. exists []. repeat split. constructor.
Qed.

(** The occurrences after one more line of metric [m]. *)
Definition observed (o : string → list bytes) (m : string) (line : bytes) : string → list bytes :=
  λ m', if bool_decide (m = m') then o m' ++ [line] else o m'.

Lemma parser_repr_ext p o o' :
  (∀ m, is_recognized_metric (bs m) = true → o m = o' m) → parser_repr p o → parser_repr p o'.
Proof.
  intros H [].
  split; (rewrite <- H; [assumption|vm_compute; reflexivity]).
Qed.

(** No continuation of the text yields a snapshot once some gauge rejects it. *)
Definition rejected (o : string → list bytes) (m : string) (line : bytes) : Prop :=
  ∃ positive, (m, positive) ∈
    [(SEQUENCES_RUNNING_METRIC, false); (SEQUENCES_WAITING_METRIC, false);
     (SEQUENCES_CAPACITY_METRIC, true); (KV_CACHE_BLOCKS_USED_METRIC, false);
     (KV_CACHE_BLOCKS_TOTAL_METRIC, true)]
    ∧ ∀ rest, gauge_reading positive (o m ++ line :: rest) = None.

Ltac recognized H :=
  unfold is_recognized_metric in H; apply bool_decide_eq_true in H;
  repeat (apply elem_of_cons in H as [H|H]); [..|by apply elem_of_nil in H].

Ltac decide_names :=
  repeat first [rewrite bool_decide_false by done | rewrite bool_decide_true by done].

Ltac repr_others H :=
  unfold observed; destruct H; split; simpl; decide_names; try assumption.

Lemma parser_sample_repr p o line s n :
  parser_repr p o → parse_sample_line line = Ok s → is_recognized_metric (name s) = true →
  match parser_sample p s n with
  | Done (Ok p') => parser_repr p' (observed o (str (name s)) line)
  | Done (Err _) => rejected o (str (name s)) line
  | Panicked => False
  end.
Proof.
  intros Hp Hs Hrec. unfold parser_sample, lift_result.
  assert (∀ g m positive, gauge_repr g m positive (o m) →
    match RequiredGauge_observe g s n with
    | Ok g' => gauge_repr g' m positive (o m ++ [line])
    | Err _ => ∀ rest, gauge_reading positive (o m ++ line :: rest) = None
    end) as Hg by (intros; by eapply gauge_observe_repr).
  recognized Hrec; rewrite Hrec; decide_names; cbn [mret fallible_mret].
  - specialize (Hg _ _ _ (repr_running _ _ Hp)).
    destruct (RequiredGauge_observe _ s n); simpl; [repr_others Hp|].
    exists false. split; [by repeat constructor|done].
  - specialize (Hg _ _ _ (repr_waiting _ _ Hp)).
    destruct (RequiredGauge_observe _ s n); simpl; [repr_others Hp|].
    exists false. split; [by repeat constructor|done].
  - specialize (Hg _ _ _ (repr_capacity _ _ Hp)).
    destruct (RequiredGauge_observe _ s n); simpl; [repr_others Hp|].
    exists true. split; [by repeat constructor|done].
  - specialize (Hg _ _ _ (repr_kv_used _ _ Hp)).
    destruct (RequiredGauge_observe _ s n); simpl; [repr_others Hp|].
    exists false. split; [by repeat constructor|done].
  - specialize (Hg _ _ _ (repr_kv_total _ _ Hp)).
    destruct (RequiredGauge_observe _ s n); simpl; [repr_others Hp|].
    exists true. split; [by repeat constructor|done].
  - repr_others Hp. by apply counter_observe_repr.
  - repr_others Hp. by apply counter_observe_repr.
  - repr_others Hp. by apply counter_observe_repr.
  - repr_others Hp. by apply family_observe_repr.
Qed.

Lemma parser_malformed_repr p o line metric n e :
  parser_repr p o → parse_sample_line line = Err e → is_recognized_metric metric = true →
  match parser_malformed_line p metric n e with
  | Done (Ok p') => parser_repr p' (observed o (str metric) line)
  | Done (Err _) => rejected o (str metric) line
  | Panicked => False
  end.
Proof.
  intros Hp He Hrec. unfold parser_malformed_line, static_metric_name. rewrite Hrec.
  recognized Hrec; rewrite Hrec; decide_names; cbn [mret fallible_mret];
    try (repr_others Hp; first [by eapply counter_invalidate_repr|by eapply family_invalidate_repr]);
    (eexists; split; [by repeat constructor|intros; by eapply gauge_malformed]).
Qed.

Lemma parser_line_repr p ls n raw :
  parser_repr p (λ m, sample_lines m ls) →
  match parser_line p n raw with
  | Done (Ok p') => parser_repr p' (λ m, sample_lines m (ls ++ [raw]))
  | Done (Err _) => ∃ m line, sample_line raw = Some line ∧ str (metric_name_prefix line) = m
                              ∧ rejected (λ m, sample_lines m ls) m line
  | Panicked => False
  end.
Proof.
  intros Hp. unfold parser_line.
  assert (sample_line raw = if match trim raw with [] => true | x :: _ => Ascii.eqb x "#" end
                            then None else Some (trim raw)) as Hl by done.
  destruct (match trim raw with [] => _ | _ => _ end).
  { simpl. eapply parser_repr_ext; [|exact Hp]. intros m _. simpl.
    rewrite sample_lines_app, sample_lines_skip by done. by rewrite app_nil_r. }
  set (line := trim raw) in *.
  assert (∀ m, sample_lines m (ls ++ [raw]) =
    observed (λ m, sample_lines m ls) (str (metric_name_prefix line)) line m) as Hobs.
  { intros m. rewrite sample_lines_app, (sample_lines_cons _ _ _ _ Hl). unfold observed.
    case_bool_decide; [done|by rewrite app_nil_r]. }
  destruct (is_recognized_metric (metric_name_prefix line)) eqn:Hrec; simpl.
  2:{ eapply parser_repr_ext; [|exact Hp]. intros m Hm. simpl. rewrite Hobs. unfold observed.
      rewrite bool_decide_false; [done|]. intros <-. rewrite bs_str in Hm. congruence. }
  destruct (parse_sample_line line) as [s|e] eqn:Es.
  - pose proof (parse_sample_line_name _ _ Es) as Hn. rewrite <- Hn in Hrec, Hobs.
    pose proof (parser_sample_repr p _ line s n Hp Es Hrec) as H.
    destruct (parser_sample p s n) as [[p'|e]|]; [| |done].
    2:{ exists (str (name s)), line. by rewrite Hn in *. }
    eapply parser_repr_ext; [|exact H]. intros m _. by rewrite Hobs.
  - pose proof (parser_malformed_repr p _ line _ n e Hp Es Hrec) as H.
    destruct (parser_malformed_line p _ n e) as [[p'|e']|]; [| |done].
    + eapply parser_repr_ext; [|exact H]. intros m _. by rewrite Hobs.
    + by exists (str (metric_name_prefix line)), line.
Qed.

(** A rejected gauge leaves no snapshot to read. *)
Lemma rejected_metrics_of ls raw line m rest :
  sample_line raw = Some line → str (metric_name_prefix line) = m →
  rejected (λ m, sample_lines m ls) m line → metrics_of (ls ++ raw :: rest) = None.
Proof.
  intros Hl Hm (positive & Hin & Hr).
  specialize (Hr (sample_lines m rest)).
  assert (gauge_reading positive (sample_lines m (ls ++ raw :: rest)) = None) as Hg.
  { rewrite sample_lines_app, (sample_lines_cons _ _ _ _ Hl), bool_decide_true by done. done. }
  clear Hr. unfold metrics_of.
  repeat (apply elem_of_cons in Hin as [[= -> ->]|Hin]);
    [..|by apply elem_of_nil in Hin];
    rewrite Hg; repeat (simpl; match goal with
      | |- context [gauge_reading ?b ?o] => destruct (gauge_reading b o) as [[?|]|]
      end); done.
Qed.

Lemma parser_lines_repr p ls n rest :
  parser_repr p (λ m, sample_lines m ls) →
  match parser_lines p n rest with
  | Done (Ok p') => parser_repr p' (λ m, sample_lines m (ls ++ rest))
  | Done (Err _) => metrics_of (ls ++ rest) = None
  | Panicked => False
  end.
Proof.
  revert p ls n. induction rest as [|raw rest IH]; intros p ls n Hp; simpl.
  { by rewrite app_nil_r. }
  pose proof (parser_line_repr p ls n raw Hp) as H.
  destruct (parser_line p n raw) as [[p'|e]|]; simpl; [| |done].
  - specialize (IH p' (ls ++ [raw]) (n + 1)%N H). by rewrite <- app_assoc in IH.
  - destruct H as (m & line & Hl & Hm & Hr). by eapply rejected_metrics_of.
Qed.

Lemma parser_finish_repr p ls :
  parser_repr p (λ m, sample_lines m ls) → result_ok (parser_finish p) = metrics_of ls.
Proof.
  intros []. unfold parser_finish, metrics_of, required.
  destruct repr_running0 as (_ & _ & -> & _). destruct repr_waiting0 as (_ & _ & -> & _).
  destruct repr_capacity0 as (_ & _ & -> & _). destruct repr_kv_used0 as (_ & _ & -> & _).
  destruct repr_kv_total0 as (_ & _ & -> & _). destruct repr_tokens0 as (-> & _).
  destruct repr_prefill0 as (-> & _). destruct repr_decode0 as (-> & _).
  rewrite (family_finish_repr _ _ repr_completions0).
  destruct (gauge_value (p_running p)), (gauge_value (p_waiting p)); simpl; try done.
  by destruct (gauge_value (p_kv_used p)), (gauge_value (p_kv_total p)).
Qed.

Lemma parse_result input :
  ∃ r, parse_mistralrs_metrics input = Done r ∧ result_ok r = metrics_of (lines input).
Proof.
  unfold parse_mistralrs_metrics, lift_result.
  pose proof (parser_lines_repr parser_new [] 1 (lines input) parser_new_repr) as H.
  simpl in H. destruct (parser_lines parser_new 1 (lines input)) as [[p|e]|]; simpl; [| |done].
  - exists (parser_finish p). split; [done|]. by apply parser_finish_repr.
  - by exists (Err e).
Qed.

(** A successful parse is the reference reading. *)
Lemma parse_Ok input m :
  parse_mistralrs_metrics input = Done (Ok m) ↔ metrics_of (lines input) = Some m.
Proof.
  destruct (parse_result input) as (r & -> & <-). destruct r; simpl; naive_solver.
Qed.

(** ** Properties *)

(** C35: the parser never panics — neither [unreachable!] arm is reachable — and the snapshot
    it returns is exactly the one the text spells out metric by metric: running and
    waiting each on exactly one well-formed unlabelled line, capacity and the KV pair at
    most once and the pair complete, the optional counters from their own lines.  When
    some required gauge is missing, duplicated or malformed, the result is an error. *)
Theorem parse_spec (input : bytes) :
  ∃ r, parse_mistralrs_metrics input = Done r ∧ result_ok r = metrics_of (lines input).
Proof. apply parse_result. Qed.

Lemma fract_integer_positive m e :
  feq (fract (S754_finite false m e)) f64_zero = true → (0 < magnitude m e)%Z.
Proof.
  unfold fract, trunc. destruct (0 <=? e)%Z eqn:He.
  { intros _. apply Z.leb_le in He. unfold magnitude. rewrite Z.shiftl_mul_pow2 by done.
    apply Z.mul_pos_pos; [lia|]. by apply Z.pow_pos_nonneg. }
  unfold cond_Zopp. intros H.
  assert (0 ≤ magnitude m e)%Z by (unfold magnitude; by apply Z.shiftl_nonneg).
  destruct (Z.eq_dec (magnitude m e) 0%Z) as [E|E]; [|lia]. by rewrite E in H.
Qed.

Lemma parse_gauge_count_bounds v positive n :
  parse_gauge_count v positive = Ok n → (n ≤ MAX_SAFE)%N ∧ (positive = true → (0 < n)%N).
Proof.
  unfold parse_gauge_count. destruct (parse_f64 v) as [x|] eqn:Ex; simpl; [|done].
  apply parse_f64_mantissa in Ex.
  destruct (is_finite x) eqn:Hf; simpl; [|done].
  destruct (flt x f64_zero) eqn:Hneg; [done|].
  destruct (positive && feq x f64_zero) eqn:Hz; [done|].
  destruct (feq (fract x) f64_zero) eqn:Hfr; simpl; [|done].
  change MAX_EXACT_F64_INTEGER with (f64_of_N MAX_SAFE).
  destruct (flt (f64_of_N MAX_SAFE) x) eqn:Hmax; [done|]. intros [= <-].
  split; [by apply not_above_MAX|]. intros ->.
  destruct x as [s| | |[] m e]; try done.
  apply fract_integer_positive in Hfr. simpl. unfold U64_MAX. lia.
Qed.

Lemma gauge_reading_bounds positive occ n :
  gauge_reading positive occ = Some (Some n) →
  (n ≤ MAX_SAFE)%N ∧ (positive = true → (0 < n)%N).
Proof.
  destruct occ as [|line [|??]]; simpl; try done. unfold read_gauge.
  destruct (parse_sample_line line) as [[? [|] v]|]; try done.
  destruct (parse_gauge_count v positive) as [k|] eqn:E; simpl; [|done].
  intros [= <-]. by eapply parse_gauge_count_bounds.
Qed.

(** The machine-width facts of a snapshot. *)
Definition metrics_bounded (m : MistralRsMetrics) : Prop :=
  (sequences_running m ≤ MAX_SAFE)%N ∧ (sequences_waiting m ≤ MAX_SAFE)%N
  ∧ (∀ c, sequences_capacity m = Some c → (0 < c ≤ MAX_SAFE)%N)
  ∧ (∀ kv, kv_cache m = Some kv → (kv_used kv ≤ MAX_SAFE)%N ∧ (0 < kv_total kv ≤ MAX_SAFE)%N).

Lemma metrics_of_bounded ls m : metrics_of ls = Some m → metrics_bounded m.
Proof.
  unfold metrics_of.
  destruct (gauge_reading false (sample_lines SEQUENCES_RUNNING_METRIC ls)) as [[r|]|] eqn:E1;
    simpl; try done.
  destruct (gauge_reading false (sample_lines SEQUENCES_WAITING_METRIC ls)) as [[w|]|] eqn:E2;
    simpl; try done.
  destruct (gauge_reading true (sample_lines SEQUENCES_CAPACITY_METRIC ls)) as [c|] eqn:E3;
    simpl; try done.
  destruct (gauge_reading false (sample_lines KV_CACHE_BLOCKS_USED_METRIC ls)) as [u|] eqn:E4;
    simpl; try done.
  destruct (gauge_reading true (sample_lines KV_CACHE_BLOCKS_TOTAL_METRIC ls)) as [t|] eqn:E5;
    simpl; try done.
  apply gauge_reading_bounds in E1 as [? _], E2 as [? _].
  destruct u as [u|], t as [t|]; simpl; try done; intros [= <-]; split_and!; simpl; try done.
  - intros ? ->. apply gauge_reading_bounds in E3. naive_solver.
  - intros ? [= <-]. apply gauge_reading_bounds in E4 as [? _], E5 as [? ?]. simpl. naive_solver.
  - intros ? ->. apply gauge_reading_bounds in E3. naive_solver.
Qed.

(** Every count of an accepted snapshot is below 2^53 (so the float it was read from
    held it exactly), and capacity and the KV total are positive (so no later division
    by them is by zero). *)
Theorem parse_bounds (input : bytes) (m : MistralRsMetrics) :
  parse_mistralrs_metrics input = Done (Ok m) → metrics_bounded m.
Proof.
  rewrite parse_Ok. apply metrics_of_bounded.
Qed.

Theorem parse_bounds_witness :
  parse_mistralrs_metrics base_text = Done (Ok base_metrics) ∧ metrics_bounded base_metrics.
Proof.
  split; [vm_compute; reflexivity|].
  apply (parse_bounds base_text base_metrics). vm_compute; reflexivity.
Defined.

(** The lines that matter: samples of recognized metrics. *)
Definition routing_lines (input : bytes) : list bytes :=
  filter (λ line, is_recognized_metric (metric_name_prefix line) = true)
    (omap sample_line (lines input)).

Lemma sample_lines_routing m input :
  is_recognized_metric (bs m) = true →
  sample_lines m (lines input) =
  filter (λ line, str (metric_name_prefix line) = m) (routing_lines input).
Proof.
  intros Hm. unfold sample_lines, routing_lines. rewrite list_filter_filter.
  apply list_filter_iff. intros line. split; [|naive_solver].
  intros <-. rewrite bs_str in Hm. done.
Qed.

(** Comments, blank lines and unknown metrics are ignored: two texts with the same
    recognized sample lines give the same snapshot, or both give none. *)
Theorem parse_ignores_unknown (i1 i2 : bytes) :
  routing_lines i1 = routing_lines i2 →
  ∃ r1 r2, parse_mistralrs_metrics i1 = Done r1 ∧ parse_mistralrs_metrics i2 = Done r2
           ∧ result_ok r1 = result_ok r2.
Proof.
  intros H.
  destruct (parse_result i1) as (r1 & E1 & H1), (parse_result i2) as (r2 & E2 & H2).
  exists r1, r2. split; [done|]. split; [done|]. rewrite H1, H2.
  unfold metrics_of. by rewrite !(sample_lines_routing _ i1), !(sample_lines_routing _ i2), H by done.
Qed.

Theorem parse_ignores_unknown_witness :
  routing_lines base_text = routing_lines (bs "go_goroutines 12" ++ LF :: LF :: base_text)
  ∧ ∃ r1 r2, parse_mistralrs_metrics base_text = Done r1
             ∧ parse_mistralrs_metrics (bs "go_goroutines 12" ++ LF :: LF :: base_text) = Done r2
             ∧ result_ok r1 = result_ok r2.
Proof.
  split; [vm_compute; reflexivity|].
  apply (parse_ignores_unknown base_text). vm_compute; reflexivity.
Defined.

(** ** The score *)

Lemma kv_ratio_valid kv :
  (0 < kv_total kv ≤ U64_MAX)%N →
  is_finite (ratio kv) = true ∧ fle f64_zero (ratio kv) && fle (ratio kv) f64_one = true.
Proof.
  intros Ht. unfold ratio. destruct (f64_of_N_positive _ Ht) as (m & e & ->).
  pose proof (fdiv_nonneg (f64_of_N (kv_used kv)) m e (f64_of_N_nonneg _)) as Hn.
  destruct (clamp_unit (fdiv (f64_of_N (kv_used kv)) (S754_finite false m e))) as (H1 & H2 & H3).
  { by apply nonneg_not_nan. }
  split; [done|]. rewrite H2, andb_true_r.
  apply fle_not_lt; [done|by apply nonneg_not_nan|by apply nonneg_not_lt_zero].
Qed.

(** The inputs the score accepts. *)
Definition inputs_valid (i : LeastPressureV1Inputs) : Prop :=
  (0 < capacity i ≤ U64_MAX)%N
  ∧ ∀ r, kv_ratio i = Some r → is_finite r = true ∧ fle f64_zero r && fle r f64_one = true.

Lemma score_nonneg inputs limit s :
  (capacity inputs ≤ U64_MAX)%N →
  least_pressure_v1_with_soft_limit inputs limit = Ok s →
  nonneg (occupancy s) = true ∧ nonneg (kv_penalty s) = true ∧ nonneg (pressure s) = true.
Proof.
  intros Hc. unfold least_pressure_v1_with_soft_limit.
  destruct (N.eqb_spec (capacity inputs) 0) as [E|E]; [done|].
  destruct (f64_of_N_positive (capacity inputs)) as (m & e & ->); [lia|].
  assert (nonneg (fdiv (fadd (fadd (f64_of_N (running inputs)) (f64_of_N (waiting inputs)))
    (f64_of_N (new_sequences inputs))) (S754_finite false m e)) = true) as Hocc.
  { apply fdiv_nonneg. repeat apply fadd_nonneg; apply f64_of_N_nonneg. }
  destruct (kv_ratio inputs) as [r|]; simpl.
  - destruct (negb (is_finite r)); simpl; [done|]. destruct (negb _); simpl; [done|].
    intros [= <-]. simpl. split_and!; [exact Hocc|apply fmax_zero_nonneg|].
    apply fadd_nonneg; [exact Hocc|apply fmax_zero_nonneg].
  - intros [= <-]. simpl. split_and!; [exact Hocc|done|].
    apply fadd_nonneg; [exact Hocc|done].
Qed.

Lemma score_Ok_iff inputs limit :
  is_ok (least_pressure_v1_with_soft_limit inputs limit) = true ↔
  (0 < capacity inputs)%N
  ∧ ∀ r, kv_ratio inputs = Some r → is_finite r = true ∧ fle f64_zero r && fle r f64_one = true.
Proof.
  unfold least_pressure_v1_with_soft_limit.
  destruct (N.eqb_spec (capacity inputs) 0) as [E|E]; simpl; [split; [done|lia]|].
  destruct (kv_ratio inputs) as [r|]; simpl.
  - destruct (is_finite r) eqn:Hf; simpl; [|split; [done|]; naive_solver].
    destruct (fle f64_zero r && fle r f64_one) eqn:Hr; simpl; [|split; [done|]; naive_solver].
    split; [|done]. intros _. split; [lia|]. by intros ? [= <-].
  - split; [|done]. intros _. split; [lia|done].
Qed.

(** On a snapshot the parser accepted and a positive effective capacity the score always
    exists, and its occupancy, penalty and pressure are numbers (never NaN) and not
    negative, whatever the soft limit: the router's [total_cmp] never meets a NaN. *)
Theorem score_of_snapshot (input : bytes) (m : MistralRsMetrics) (new cap : N) (limit : f64) :
  parse_mistralrs_metrics input = Done (Ok m) → (0 < cap ≤ U64_MAX)%N →
  ∃ s, least_pressure_v1_with_soft_limit (pressure_inputs m new cap) limit = Ok s
       ∧ nonneg (occupancy s) = true ∧ nonneg (kv_penalty s) = true
       ∧ nonneg (pressure s) = true ∧ is_nan (pressure s) = false.
Proof.
  rewrite parse_Ok. intros Hm%metrics_of_bounded Hc.
  destruct (least_pressure_v1_with_soft_limit (pressure_inputs m new cap) limit) as [s|e] eqn:E.
  - exists s. destruct (score_nonneg (pressure_inputs m new cap) limit s) as (? & ? & ?);
      [apply Hc|done|].
    eauto 10 using nonneg_not_nan.
  - assert (is_ok (least_pressure_v1_with_soft_limit (pressure_inputs m new cap) limit) = true)
      as H; [|by rewrite E in H].
    apply score_Ok_iff. simpl. split; [lia|]. intros r.
    unfold kv_cache_ratio. destruct (kv_cache m) as [kv|] eqn:Ekv; simpl; [|done].
    intros [= <-]. apply kv_ratio_valid.
    destruct Hm as (_ & _ & _ & Hkv). destruct (Hkv kv Ekv). unfold MAX_SAFE, U64_MAX in *. lia.
Qed.

Theorem score_of_snapshot_witness :
  ∃ s, least_pressure_v1_with_soft_limit (pressure_inputs base_metrics 2 32) KV_PENALTY_START = Ok s
       ∧ nonneg (occupancy s) = true ∧ nonneg (kv_penalty s) = true
       ∧ nonneg (pressure s) = true ∧ is_nan (pressure s) = false.
Proof.
  apply (score_of_snapshot base_text base_metrics 2 32 KV_PENALTY_START).
  - vm_compute; reflexivity.
  - unfold U64_MAX; lia.
Defined.

(** ** Rendering a snapshot

    The exposition a backend would publish for the routing gauges: the inverse
    of the parser, used to state a round trip. *)

Definition gauge_text (entry : string * N) : bytes := bs entry.1 ++ SPACE :: show_N entry.2.

Definition gauge_entries (m : MistralRsMetrics) : list (string * N) :=
  (SEQUENCES_RUNNING_METRIC, sequences_running m) ::
  (SEQUENCES_WAITING_METRIC, sequences_waiting m) ::
  match sequences_capacity m with Some c => [(SEQUENCES_CAPACITY_METRIC, c)] | None => [] end ++
  match kv_cache m with
  | Some kv => [(KV_CACHE_BLOCKS_USED_METRIC, kv_used kv); (KV_CACHE_BLOCKS_TOTAL_METRIC, kv_total kv)]
  | None => []
  end.

Definition render (m : MistralRsMetrics) : bytes :=
  concat (map (λ e, gauge_text e ++ [LF]) (gauge_entries m)).

Lemma recognized_chars metric :
  is_recognized_metric (bs metric) = true →
  ∃ x l, bs metric = x :: l ∧ is_metric_name_start x = true ∧ is_ascii_graphic x = true
         ∧ Ascii.eqb x "#" = false
         ∧ forallb (λ x, is_metric_name_continue x && negb (Ascii.eqb x LF)) (x :: l) = true.
Proof.
  intros H. recognized H; rewrite str_bs in H; subst metric;
    eexists _, _; (split; [cbv; reflexivity|]); vm_compute; repeat split; reflexivity.
Qed.

Lemma show_N_last n : ∃ l d, show_N n = l ++ [d] ∧ is_ascii_digit d = true.
Proof.
  destruct (exists_last (show_N_nonempty n)) as (l & d & E). exists l, d. split; [done|].
  pose proof (show_N_digits n) as H. rewrite E in H. apply Forall_app in H as [_ H].
  by apply Forall_cons in H as [H _].
Qed.

Lemma gauge_text_last e : ∃ l d, gauge_text e = l ++ [d] ∧ is_ascii_digit d = true.
Proof.
  destruct (show_N_last e.2) as (l & d & E & Hd). exists (bs e.1 ++ SPACE :: l), d.
  split; [|done]. unfold gauge_text. rewrite E, <- app_assoc. done.
Qed.

Lemma gauge_text_sample_line e :
  is_recognized_metric (bs e.1) = true → sample_line (gauge_text e) = Some (gauge_text e).
Proof.
  intros (x & l & E & _ & Hg & Hh & _)%recognized_chars.
  destruct (gauge_text_last e) as (l' & d & E' & Hd).
  assert (trim (gauge_text e) = gauge_text e) as Ht.
  { unfold trim. rewrite (trim_start_id (gauge_text e)).
    - rewrite E'. unfold trim_end. rewrite length_app, Nat.add_comm. simpl.
      by rewrite ws_len_app_last by auto with proxy.
    - unfold gauge_text. rewrite E. by apply ws_len_graphic. }
  unfold sample_line. rewrite Ht. unfold gauge_text in *. rewrite E in *. simpl. by rewrite Hh.
Qed.

Lemma gauge_text_span e :
  is_recognized_metric (bs e.1) = true →
  span is_metric_name_continue (gauge_text e) = (bs e.1, SPACE :: show_N e.2).
Proof.
  intros (x & l & E & _ & _ & _ & Hall)%recognized_chars. apply span_stop; [|done].
  rewrite E. apply List.Forall_forall. intros y Hy.
  rewrite forallb_forall in Hall. by destruct (proj1 (andb_true_iff _ _) (Hall y Hy)).
Qed.

Lemma gauge_text_prefix e :
  is_recognized_metric (bs e.1) = true → metric_name_prefix (gauge_text e) = bs e.1.
Proof.
  intros H. unfold metric_name_prefix. rewrite (gauge_text_span e H).
  apply recognized_chars in H as (x & l & E & Hx & _). unfold gauge_text. rewrite E.
  cbn [app fst]. by rewrite Hx.
Qed.

Lemma gauge_text_parse e :
  is_recognized_metric (bs e.1) = true →
  parse_sample_line (gauge_text e) =
  Ok {| name := bs e.1; labels := None; sample_value := show_N e.2 |}.
Proof.
  intros H. unfold parse_sample_line. rewrite (gauge_text_span e H).
  apply recognized_chars in H as (x & l & E & Hx & _).
  assert (gauge_text e = x :: (l ++ SPACE :: show_N e.2)) as Et
    by (unfold gauge_text; by rewrite E).
  rewrite Et, E, Hx. cbn [negb orb]. rewrite bool_decide_false by done. cbn [orb].
  change (Ascii.eqb SPACE "{") with false. cbv iota. cbn [mbind result_mbind].
  change (is_ascii_whitespace SPACE) with true. cbn [negb].
  pose proof (show_N_digits e.2) as Hd. pose proof (show_N_nonempty e.2) as Hne.
  assert (Forall (λ x, is_ascii_whitespace x = false) (show_N e.2)) as Hw.
  { eapply Forall_impl; [exact Hd|]. intros y Hy.
    by apply graphic_not_ascii_whitespace, digit_graphic. }
  assert (span is_ascii_whitespace (SPACE :: show_N e.2) = ([SPACE], show_N e.2)) as ->.
  { apply (span_stop _ [SPACE]); [by repeat constructor|].
    destruct (show_N e.2); [done|]. by apply Forall_cons in Hw as [? _]. }
  assert (span (λ byte, negb (is_ascii_whitespace byte)) (show_N e.2) = (show_N e.2, [])) as Hs.
  { rewrite <- (app_nil_r (show_N e.2)) at 1. apply span_stop; [|done].
    eapply Forall_impl; [exact Hw|]. simpl. by intros ? ->. }
  rewrite Hs. by destruct (show_N e.2).
Qed.

Lemma parse_gauge_count_show n positive :
  (n ≤ MAX_SAFE)%N → (positive = true → (0 < n)%N) →
  parse_gauge_count (show_N n) positive = Ok n.
Proof.
  intros Hn Hp. unfold parse_gauge_count. rewrite parse_f64_show. simpl.
  rewrite f64_of_N_finite by done. simpl.
  rewrite (nonneg_not_lt_zero _ (f64_of_N_nonneg n)), f64_of_N_is_zero by done.
  assert (positive && (n =? 0)%N = false) as ->.
  { destruct positive; simpl; [|done]. apply N.eqb_neq. specialize (Hp eq_refl). lia. }
  rewrite fract_of_N by done. simpl. change MAX_EXACT_F64_INTEGER with (f64_of_N MAX_SAFE).
  rewrite to_u64_of_N by done.
  destruct (flt (f64_of_N MAX_SAFE) (f64_of_N n)) eqn:E; [|done]. exfalso.
  by rewrite f64_of_N_not_above in E.
Qed.

Lemma gauge_text_no_LF e :
  is_recognized_metric (bs e.1) = true → Forall (λ x, x ≠ LF) (gauge_text e).
Proof.
  intros (x & l & E & _ & _ & _ & Hall)%recognized_chars. unfold gauge_text. rewrite E.
  apply Forall_app; split; [|constructor; [done|]].
  - apply List.Forall_forall. intros y Hy. rewrite forallb_forall in Hall.
    specialize (Hall y Hy). apply andb_true_iff in Hall as [_ Hall].
    by destruct (Ascii.eqb_spec y LF).
  - eapply Forall_impl; [apply show_N_digits|]. intros y Hy. by apply graphic_not_break, digit_graphic.
Qed.

Lemma lines_render l :
  Forall (λ e, is_recognized_metric (bs e.1) = true) l →
  lines (concat (map (λ e, gauge_text e ++ [LF]) l)) = map gauge_text l.
Proof.
  induction 1 as [|e l He Hl IH]; [done|]. simpl. rewrite <- app_assoc. simpl.
  unfold lines in *. rewrite raw_lines_cons by (by apply gauge_text_no_LF). simpl.
  rewrite IH. f_equal. destruct (gauge_text_last e) as (l' & d & -> & Hd).
  apply strip_cr_graphic. by apply graphic_not_break, digit_graphic.
Qed.

Lemma gauge_entries_recognized m :
  Forall (λ e, is_recognized_metric (bs e.1) = true) (gauge_entries m).
Proof.
  unfold gauge_entries. repeat (constructor; [vm_compute; reflexivity|]).
  apply Forall_app; split; [destruct (sequences_capacity m)|destruct (kv_cache m)];
    repeat constructor; vm_compute; reflexivity.
Qed.

Lemma sample_lines_render m metric :
  sample_lines metric (lines (render m)) =
  map gauge_text (filter (λ e, e.1 = metric) (gauge_entries m)).
Proof.
  unfold render. rewrite lines_render by apply gauge_entries_recognized.
  pose proof (gauge_entries_recognized m) as H.
  induction H as [|e l He Hl IH]; [done|]. simpl map.
  rewrite (sample_lines_cons _ _ _ _ (gauge_text_sample_line e He)), IH.
  rewrite gauge_text_prefix, str_bs by done. rewrite filter_cons.
  by case_bool_decide; case_decide.
Qed.

Lemma gauge_reading_text positive metric n :
  is_recognized_metric (bs metric) = true →
  (n ≤ MAX_SAFE)%N → (positive = true → (0 < n)%N) →
  gauge_reading positive [gauge_text (metric, n)] = Some (Some n).
Proof.
  intros Hm Hn Hp. simpl. unfold read_gauge.
  rewrite (gauge_text_parse (metric, n)) by done. simpl.
  by rewrite parse_gauge_count_show.
Qed.

(** Rendering the routing gauges of a snapshot and parsing the text gives the
    snapshot back, for every in-range value, with capacity and KV present or absent. *)
Theorem render_parse (m : MistralRsMetrics) :
  metrics_bounded m →
  tokens_processed_total m = None → prefill_tokens_processed_total m = None →
  decode_tokens_processed_total m = None → sequences_completed_total m = None →
  parse_mistralrs_metrics (render m) = Done (Ok m).
Proof.
  intros (Hr & Hw & Hc & Hkv) H1 H2 H3 H4. apply parse_Ok. unfold metrics_of.
  rewrite !sample_lines_render. unfold gauge_entries.
  destruct m as [r w c kv ? ? ? ?].
  cbn [sequences_running sequences_waiting sequences_capacity kv_cache tokens_processed_total
       prefill_tokens_processed_total decode_tokens_processed_total
       sequences_completed_total] in *. subst.
  destruct c as [c|]; [specialize (Hc c eq_refl)|];
    (destruct kv as [[u t]|]; [destruct (Hkv _ eq_refl) as [Hu Ht]; cbn [kv_used kv_total] in *|]);
    cbn [app]; repeat first
      [ rewrite filter_cons_True by (cbn [fst]; reflexivity)
      | rewrite filter_cons_False by (cbn [fst]; intros E; discriminate E)
      | rewrite filter_nil
      | rewrite gauge_reading_text by (done || lia)
      | progress cbn [map mbind option_bind id] ]; done.
Qed.

Theorem render_parse_witness :
  parse_mistralrs_metrics (render base_metrics) = Done (Ok base_metrics).
Proof.
  apply (render_parse base_metrics); try reflexivity.
  unfold metrics_bounded, MAX_SAFE. simpl. split_and!; [lia|lia| |].
  - intros c [= <-]. lia.
  - intros kv [= <-]. simpl. lia.
Defined.
