(* ===== verification/Backend.v ===== *)
(** * [src/src/backend.rs]: the lease gate of one backend and the registry

    [SlotState] is the record under the slot's mutex; every locked section of
    the source is one [M BackendSlot] action here, so an execution is a
    sequence of such actions in the order the mutex grants them.  The value of
    the [watch] channel is kept as the history of the [send_replace] calls
    ([published], newest first): the channel itself is [tokio]'s, and the
    waiting section below takes it as a parameter.  [Instant]s are nanoseconds
    on the process's monotonic clock, passed in by the caller as [now].

    The registry is a [gmap] from identities to slots; the order in which the
    source's [HashMap]s are enumerated is an explicit argument, and the
    registry theorems hold for every order. *)

From S2P Require Import Prelude RustStd.

(** ** Identities, specifications, modes *)

(** [BackendId] (backend.rs:36-48) is its string; its [Ord] is the byte order. *)
Notation BackendId := string.

(** src/src/backend.rs:87-90 [BackendSpec] *)
Record BackendSpec := mkBackendSpec { spec_id : BackendId; endpoint : string }.

(** src/src/backend.rs:93-98 [BackendSpec::new] *)
Definition BackendSpec_new (id : BackendId) (endpoint : string) : BackendSpec :=
  {| spec_id := id; endpoint := endpoint |}.

(** src/src/backend.rs:112-119 [BackendMode] *)
Inductive BackendMode := Active | Draining | Disabled.

#[export] Instance BackendSpec_eq_dec : EqDecision BackendSpec.
Proof. solve_decision. Defined.
#[export] Instance BackendMode_eq_dec : EqDecision BackendMode.
Proof. solve_decision. Defined.

(** src/src/backend.rs:121-129 [BackendMode::Display] *)
Definition BackendMode_display (self : BackendMode) : string :=
  match self with Active => "active" | Draining => "draining" | Disabled => "disabled" end.

(** The derived [Debug]. *)
Definition BackendMode_debug (self : BackendMode) : string :=
  match self with Active => "Active" | Draining => "Draining" | Disabled => "Disabled" end.

(** src/src/backend.rs:133-153 [BackendSnapshot] *)
Record BackendSnapshot := mkBackendSnapshot {
  snap_spec : BackendSpec;
  snap_registered : bool;
  snap_mode : BackendMode;
  snap_mode_epoch : N;
  snap_sequence : N;
  snap_spec_revision : N;
  snap_total_acquired : N;
  snap_local_active : N;
  snap_oldest_active_age : option N;
}.

(** src/src/backend.rs:156-158 [BackendSnapshot::id] *)
Definition snapshot_id (self : BackendSnapshot) : BackendId := spec_id (snap_spec self).

(** src/src/backend.rs:161-163 [BackendSnapshot::locally_drained] *)
Definition locally_drained (self : BackendSnapshot) : bool :=
  bool_decide (snap_mode self = Draining) && (snap_local_active self =? 0)%N.

(** src/src/backend.rs:172-175 [DrainToken] *)
Record DrainToken := mkDrainToken { token_backend_id : BackendId; token_mode_epoch : N }.

(** src/src/backend.rs:189-197 [AcquireError] *)
Inductive AcquireError :=
| Retired (backend_id : BackendId)
| NotActive (backend_id : BackendId) (mode : BackendMode).

(** src/src/backend.rs:199-210 [AcquireError::Display] *)
Definition AcquireError_display (self : AcquireError) : string :=
  match self with
  | Retired backend_id => "backend " +:+ backend_id +:+ " is no longer registered"
  | NotActive backend_id mode => "backend " +:+ backend_id +:+ " is " +:+ BackendMode_debug mode
  end.

(** src/src/backend.rs:215-217 [ModeChangeError] *)
Inductive ModeChangeError := ModeRetired (backend_id : BackendId).

(** src/src/backend.rs:219-227 [ModeChangeError::Display] *)
Definition ModeChangeError_display (self : ModeChangeError) : string :=
  match self with
  | ModeRetired backend_id => "backend " +:+ backend_id +:+ " is no longer registered"
  end.

(** src/src/backend.rs:233-244 [DrainWaitError] *)
Inductive DrainWaitError :=
| WrongBackend (token_backend_id slot_backend_id : BackendId)
| Superseded (backend_id : BackendId) (expected_epoch current_epoch : N)
             (current_mode : BackendMode).

(** src/src/backend.rs:246-267 [DrainWaitError::Display] *)
Definition DrainWaitError_display (self : DrainWaitError) : string :=
  match self with
  | WrongBackend token_id slot_id =>
      "drain token belongs to backend " +:+ token_id +:+ ", not " +:+ slot_id
  | Superseded backend_id expected current mode =>
      "drain for backend " +:+ backend_id +:+ " at epoch " +:+ to_string expected
      +:+ " was superseded by epoch " +:+ to_string current
      +:+ " (" +:+ BackendMode_debug mode +:+ ")"
  end.

(** ** Leases: a [BTreeMap<LeaseKey, ()>] *)

(** src/src/backend.rs:272-275 [LeaseKey] *)
Record LeaseKey := mkLeaseKey { started_at : N; serial : N }.

#[export] Instance LeaseKey_eq_dec : EqDecision LeaseKey.
Proof. solve_decision. Defined.

(** The derived [Ord]: by start, then by serial. *)
Definition key_cmp (x y : LeaseKey) : comparison :=
  then_with (started_at x ?= started_at y)%N (serial x ?= serial y)%N.

#[export] Instance key_cmp_Comparator : Comparator key_cmp.
Proof.
  apply then_with_Comparator;
    [exact (on_Comparator started_at N.compare)|exact (on_Comparator serial N.compare)].
Qed.

(** [BTreeMap::insert] on the ascending list of keys. *)
Fixpoint btree_insert (key : LeaseKey) (l : list LeaseKey) : list LeaseKey :=
  match l with
  | [] => [key]
  | k :: l' => match key_cmp key k with
               | Lt => key :: l
               | Eq => key :: l'
               | Gt => k :: btree_insert key l'
               end
  end.

(** [BTreeMap::remove]: whether the key was there, and the keys left. *)
Fixpoint btree_remove (key : LeaseKey) (l : list LeaseKey) : bool * list LeaseKey :=
  match l with
  | [] => (false, [])
  | k :: l' => if decide (key = k) then (true, l')
               else let '(removed, r) := btree_remove key l' in (removed, k :: r)
  end.

(** ** The slot *)

(** src/src/backend.rs:277-287 [SlotState] *)
Record SlotState := mkSlotState {
  spec : BackendSpec;
  registered : bool;
  mode : BackendMode;
  mode_epoch : N;
  sequence : N;
  spec_revision : N;
  next_lease_serial : N;
  total_acquired : N;
  leases : list LeaseKey;
}.

(** src/src/backend.rs:324-327 [BackendSlot]; [published] is the history of [changed] *)
Record BackendSlot := mkBackendSlot { state : SlotState; published : list N }.

(** src/src/backend.rs:584-588 [BackendLease]; [slot] is the identity its [Arc] points to *)
Record BackendLease := mkBackendLease {
  lease_slot : BackendId;
  lease_key : option LeaseKey;
  lease_spec : BackendSpec;
}.

(** src/src/backend.rs:290-305 [SlotState::snapshot] *)
Definition SlotState_snapshot (self : SlotState) (now : N) : BackendSnapshot :=
  {| snap_spec := spec self;
     snap_registered := registered self;
     snap_mode := mode self;
     snap_mode_epoch := mode_epoch self;
     snap_sequence := sequence self;
     snap_spec_revision := spec_revision self;
     snap_total_acquired := total_acquired self;
     snap_local_active := N.of_nat (length (leases self));
     snap_oldest_active_age := (λ key, now - started_at key)%N <$> head (leases self) |}.

(** The guarded state, as the [MutexGuard] gives it. *)
Definition get_slot : M BackendSlot SlotState := gets state.
Definition set_slot (f : SlotState → SlotState) : M BackendSlot () :=
  modify (λ s, s <| state := f (state s) |>).

(** src/src/backend.rs:307-313 [SlotState::next_sequence] *)
Definition next_sequence : M BackendSlot N :=
  st ← get_slot;
  next ← expect (checked_add U64_MAX (sequence st) 1);
  _ ← set_slot (λ st, st <| sequence := next |>);
  mret next.

(** src/src/backend.rs:315-320 [SlotState::next_mode_epoch] *)
Definition next_mode_epoch : M BackendSlot () :=
  st ← get_slot;
  next ← expect (checked_add U64_MAX (mode_epoch st) 1);
  set_slot (λ st, st <| mode_epoch := next |>).

(** src/src/backend.rs:564-569 [BackendSlot::publish_locked] *)
Definition publish_locked : M BackendSlot () :=
  seq ← next_sequence;
  modify (λ s, s <| published := seq :: published s |>).

(** src/src/backend.rs:339-355 [BackendSlot::new] *)
Definition BackendSlot_new (spec : BackendSpec) (mode : BackendMode) : BackendSlot :=
  {| state :=
       {| spec := spec; registered := true; mode := mode; mode_epoch := 0; sequence := 0;
          spec_revision := 0; next_lease_serial := 0; total_acquired := 0; leases := [] |};
     published := [] |}.

(** src/src/backend.rs:357-359 [BackendSlot::id] *)
Definition BackendSlot_id (self : BackendSlot) : BackendId := spec_id (spec (state self)).

(** src/src/backend.rs:361-363 [BackendSlot::snapshot] *)
Definition BackendSlot_snapshot (self : BackendSlot) (now : N) : BackendSnapshot :=
  SlotState_snapshot (state self) now.

(** src/src/backend.rs:373-411 [BackendSlot::try_acquire] *)
Definition BackendSlot_try_acquire (now : N) : M BackendSlot (result AcquireError BackendLease) :=
  st ← get_slot;
  if negb (registered st) then mret (Err (Retired (spec_id (spec st)))) else
  if bool_decide (mode st ≠ Active)
  then mret (Err (NotActive (spec_id (spec st)) (mode st))) else
  let serial := next_lease_serial st in
  next ← expect (checked_add U64_MAX (next_lease_serial st) 1);
  _ ← set_slot (λ st, st <| next_lease_serial := next |>);
  total ← expect (checked_add U64_MAX (total_acquired st) 1);
  _ ← set_slot (λ st, st <| total_acquired := total |>);
  let key := {| started_at := now; serial := serial |} in
  _ ← set_slot (λ st, st <| leases := btree_insert key (leases st) |>);
  let spec := spec st in
  _ ← publish_locked;
  mret (Ok {| lease_slot := spec_id spec; lease_key := Some key; lease_spec := spec |}).

(** src/src/backend.rs:491-509 [BackendSlot::set_mode] *)
Definition BackendSlot_set_mode (new_mode : BackendMode) (require_registered : bool) (now : N) :
    M BackendSlot (result ModeChangeError BackendSnapshot) :=
  st ← get_slot;
  if require_registered && negb (registered st)
  then mret (Err (ModeRetired (spec_id (spec st)))) else
  _ ← (if bool_decide (mode st ≠ new_mode) then
         _ ← set_slot (λ st, st <| mode := new_mode |>);
         _ ← next_mode_epoch;
         publish_locked
       else mret ());
  st ← get_slot;
  mret (Ok (SlotState_snapshot st now)).

(** src/src/backend.rs:417-419 [BackendSlot::activate] *)
Definition activate (now : N) : M BackendSlot (result ModeChangeError BackendSnapshot) :=
  BackendSlot_set_mode Active true now.

(** src/src/backend.rs:422-427 [BackendSlot::disable] *)
Definition disable (now : N) : M BackendSlot BackendSnapshot :=
  r ← BackendSlot_set_mode Disabled false now;
  expect (result_ok r).

(** src/src/backend.rs:432-444 [BackendSlot::begin_drain] *)
Definition begin_drain : M BackendSlot DrainToken :=
  st ← get_slot;
  _ ← (if bool_decide (mode st ≠ Draining) then
         _ ← set_slot (λ st, st <| mode := Draining |>);
         _ ← next_mode_epoch;
         publish_locked
       else mret ());
  st ← get_slot;
  mret {| token_backend_id := spec_id (spec st); token_mode_epoch := mode_epoch st |}.

(** src/src/backend.rs:625-628 [ReconciledSlot] *)
Record ReconciledSlot := mkReconciledSlot { slot_revived : bool; slot_updated : bool }.

(** src/src/backend.rs:511-533 [BackendSlot::reconcile_present] *)
Definition reconcile_present (new_spec : BackendSpec) : M BackendSlot ReconciledSlot :=
  st ← get_slot;
  let was_registered := registered st in
  let changed_spec := bool_decide (spec st ≠ new_spec) in
  _ ← set_slot (λ st, st <| registered := true |>);
  _ ← (if changed_spec then
         _ ← set_slot (λ st, st <| spec := new_spec |>);
         next ← expect (checked_add U64_MAX (spec_revision st) 1);
         set_slot (λ st, st <| spec_revision := next |>)
       else mret ());
  _ ← (if negb was_registered || changed_spec then publish_locked else mret ());
  mret {| slot_revived := negb was_registered; slot_updated := changed_spec |}.

(** src/src/backend.rs:535-550 [BackendSlot::reconcile_absent] *)
Definition reconcile_absent : M BackendSlot bool :=
  st ← get_slot;
  if negb (registered st) then mret false else
  _ ← set_slot (λ st, st <| registered := false |>);
  _ ← (if bool_decide (mode st = Active) then
         _ ← set_slot (λ st, st <| mode := Disabled |>);
         next_mode_epoch
       else mret ());
  _ ← publish_locked;
  mret true.

(** src/src/backend.rs:552-555 [BackendSlot::releasable_tombstone] *)
Definition releasable_tombstone (self : BackendSlot) : bool :=
  negb (registered (state self)) && bool_decide (leases (state self) = [])
  && bool_decide (mode (state self) ≠ Draining).

(** src/src/backend.rs:557-562 [BackendSlot::release]; the [assert!] is the panic *)
Definition release (key : LeaseKey) : M BackendSlot () :=
  st ← get_slot;
  let '(removed, rest) := btree_remove key (leases st) in
  _ ← set_slot (λ st, st <| leases := rest |>);
  if (removed : bool) then publish_locked else panic.

(** src/src/backend.rs:616-622 [BackendLease::Drop]: the lease left behind has no key *)
Definition BackendLease_drop (self : BackendLease) : M BackendSlot BackendLease :=
  match lease_key self with
  | Some key => _ ← release key; mret (self <| lease_key := None |>)
  | None => mret self
  end.

(** src/src/backend.rs:609-613 [BackendLease::age] *)
Definition BackendLease_age (self : BackendLease) (now : N) : N :=
  match lease_key self with Some key => (now - started_at key)%N | None => 0%N end.

(** ** Waiting for a drain (backend.rs:452-490)

    The await points and the locked sections of [wait_for_local_zero] are the
    phases of a waiter, each run by one [wait_step]; the steps of other tasks
    may come between any two of them.  The [watch] receiver is [tokio]'s. *)

Section Wait.
Context {Receiver : Type}.
(** [Sender::subscribe] on the sends so far; [Receiver::changed] is ready when
    something was sent since the receiver last saw the value, and sees it. *)
Context (watch_subscribe : list N → Receiver).
Context (watch_ready : Receiver → list N → bool).
Context (watch_seen : Receiver → list N → Receiver).

(** src/src/backend.rs, lines 456-490 of [BackendSlot::wait_for_local_zero]: where the
    future is suspended or interleaved *)
Inductive WaitPhase :=
| WaitStart
| WaitSubscribe
| WaitCheck (changes : Receiver)
| WaitChanged (changes : Receiver)
| WaitReturned (r : result DrainWaitError BackendSnapshot).

(** src/src/backend.rs:452-489 [BackendSlot::wait_for_local_zero] *)
Definition wait_step (token : DrainToken) (w : WaitPhase) (self : BackendSlot) (now : N) :
    WaitPhase :=
  match w with
  | WaitStart =>
      let slot_id := BackendSlot_id self in
      if bool_decide (token_backend_id token ≠ slot_id)
      then WaitReturned (Err (WrongBackend (token_backend_id token) slot_id))
      else WaitSubscribe
  | WaitSubscribe => WaitCheck (watch_subscribe (published self))
  | WaitCheck changes =>
      let snapshot := BackendSlot_snapshot self now in
      if bool_decide (snap_mode snapshot ≠ Draining)
         || negb (snap_mode_epoch snapshot =? token_mode_epoch token)%N
      then WaitReturned (Err (Superseded (snapshot_id snapshot) (token_mode_epoch token)
                                (snap_mode_epoch snapshot) (snap_mode snapshot)))
      else if (snap_local_active snapshot =? 0)%N then WaitReturned (Ok snapshot)
      else WaitChanged changes
  | WaitChanged changes =>
      if watch_ready changes (published self)
      then WaitCheck (watch_seen changes (published self))
      else w
  | WaitReturned _ => w
  end.

End Wait.
Arguments WaitPhase : clear implicits.

(** ** The registry (backend.rs:626-820) *)

(** src/src/backend.rs:632-637 [ReconcileReport] *)
Record ReconcileReport := mkReconcileReport {
  added : list BackendId;
  revived : list BackendId;
  updated : list BackendId;
  retired : list BackendId;
}.

(** src/src/backend.rs:641-643 [ReconcileError] *)
Inductive ReconcileError := DuplicateBackendId (id : BackendId).

(** src/src/backend.rs:645-653 [ReconcileError::Display] *)
Definition ReconcileError_display (self : ReconcileError) : string :=
  match self with DuplicateBackendId id => "backend " +:+ id +:+ " appears more than once" end.

(** src/src/backend.rs:659-662 [RegistryAcquireError] *)
Inductive RegistryAcquireError :=
| UnknownBackend (id : BackendId)
| Unavailable (error : AcquireError).

(** src/src/backend.rs:664-671 [RegistryAcquireError::Display] *)
Definition RegistryAcquireError_display (self : RegistryAcquireError) : string :=
  match self with
  | UnknownBackend id => "unknown backend " +:+ id
  | Unavailable error => AcquireError_display error
  end.

(** [slots] of the source's [BackendRegistry] (backend.rs:688-690). *)
Notation BackendRegistry := (gmap BackendId BackendSlot).

(** src/src/backend.rs:702-704 [BackendRegistry::new] *)
Definition BackendRegistry_new : BackendRegistry := ∅.

(** src/src/backend.rs:714-716 [BackendRegistry::get_retained] *)
Definition get_retained (self : BackendRegistry) (id : BackendId) : option BackendSlot :=
  self !! id.

(** src/src/backend.rs:708-711 [BackendRegistry::get] *)
Definition registry_get (self : BackendRegistry) (id : BackendId) : option BackendSlot :=
  slot ← get_retained self id;
  if registered (state slot) then Some slot else None.

(** Running an action on the slot an [Arc<BackendSlot>] of the registry points
    to; [None] when the identity has no slot. *)
Definition on_slot {A} (id : BackendId) (m : M BackendSlot A) : M BackendRegistry (option A) :=
  λ slots,
    match slots !! id with
    | None => (Done None, slots)
    | Some slot =>
        match m slot with
        | (Done a, slot') => (Done (Some a), <[id := slot']> slots)
        | (Panicked, slot') => (Panicked, <[id := slot']> slots)
        end
    end.

(** src/src/backend.rs:718-724 [BackendRegistry::try_acquire] *)
Definition registry_try_acquire (id : BackendId) (now : N) :
    M BackendRegistry (result RegistryAcquireError BackendLease) :=
  r ← on_slot id (BackendSlot_try_acquire now);
  mret match r with
       | None => Err (UnknownBackend id)
       | Some r => map_err Unavailable r
       end.

(** src/src/backend.rs:727-736 [BackendRegistry::snapshots] *)
Definition registry_snapshots (self : BackendRegistry) (now : N) : list BackendSnapshot :=
  sort_by (λ left right, String.compare (snapshot_id left) (snapshot_id right))
    (filter (λ snapshot, snap_registered snapshot = true)
       ((λ '(_, slot), BackendSlot_snapshot slot now) <$> map_to_list self)).

(** src/src/backend.rs, lines 750-756 of [BackendRegistry::reconcile]: the desired set, or
    the first identity given twice *)
Fixpoint desired_of (specs : list BackendSpec) (desired : gmap BackendId BackendSpec) :
    result ReconcileError (gmap BackendId BackendSpec) :=
  match specs with
  | [] => Ok desired
  | spec :: specs =>
      let id := spec_id spec in
      match desired !! id with
      | Some _ => Err (DuplicateBackendId id)
      | None => desired_of specs (<[id := spec]> desired)
      end
  end.

(** The registry and the report under construction. *)
Notation Reconciling := (BackendRegistry * ReconcileReport)%type.

(** src/src/backend.rs, lines 761-765 of [BackendRegistry::reconcile] *)
Definition reconcile_missing (desired : gmap BackendId BackendSpec) (id : BackendId) :
    M Reconciling () := λ '(slots, report),
  match desired !! id with
  | Some _ => (Done (), (slots, report))
  | None =>
      match on_slot id reconcile_absent slots with
      | (Done (Some true), slots') =>
          (Done (), (slots', report <| retired := retired report ++ [id] |>))
      | (Done _, slots') => (Done (), (slots', report))
      | (Panicked, slots') => (Panicked, (slots', report))
      end
  end.

(** src/src/backend.rs, lines 767-783 of [BackendRegistry::reconcile] *)
Definition reconcile_desired (desired : gmap BackendId BackendSpec) (id : BackendId) :
    M Reconciling () := λ '(slots, report),
  match desired !! id with
  | None => (Done (), (slots, report))
  | Some spec =>
      match on_slot id (reconcile_present spec) slots with
      | (Done (Some outcome), slots') =>
          let report := if slot_revived outcome
                        then report <| revived := revived report ++ [id] |> else report in
          let report := if slot_updated outcome
                        then report <| updated := updated report ++ [id] |> else report in
          (Done (), (slots', report))
      | (Done None, _) =>
          (Done (), (<[id := BackendSlot_new spec Disabled]> slots,
                     report <| added := added report ++ [id] |>))
      | (Panicked, slots') => (Panicked, (slots', report))
      end
  end.

(** src/src/backend.rs, lines 785-789 of [BackendRegistry::reconcile] *)
Definition sort_report (report : ReconcileReport) : ReconcileReport :=
  {| added := sort_by String.compare (added report);
     revived := sort_by String.compare (revived report);
     updated := sort_by String.compare (updated report);
     retired := sort_by String.compare (retired report) |}.

(** src/src/backend.rs:746-790 [BackendRegistry::reconcile]; [slots_order] and [desired_order] are
    the enumeration orders of the two hash maps *)
Definition registry_reconcile (slots_order desired_order : list BackendId)
    (specs : list BackendSpec) : M BackendRegistry (result ReconcileError ReconcileReport) :=
  λ slots,
    match desired_of specs ∅ with
    | Err e => (Done (Err e), slots)
    | Ok desired =>
        let report := {| added := []; revived := []; updated := []; retired := [] |} in
        match (for_each slots_order (reconcile_missing desired) ;;
               for_each desired_order (reconcile_desired desired)) (slots, report) with
        | (Done _, (slots', report)) => (Done (Ok (sort_report report)), slots')
        | (Panicked, (slots', _)) => (Panicked, slots')
        end
    end.

(** src/src/backend.rs:794-806 [BackendRegistry::prune_retired] *)
Definition prune_retired (self : BackendRegistry) : list BackendId * BackendRegistry :=
  (sort_by String.compare
     ((filter (λ '(_, slot), releasable_tombstone slot = true) (map_to_list self)).*1),
   filter (λ '(_, slot), releasable_tombstone slot = false) self).

(** ** The invariant of a slot *)

Definition key_lt (x y : LeaseKey) : Prop := key_cmp x y = Lt.

Record slot_wf (s : BackendSlot) : Prop := {
  wf_sorted : StronglySorted key_lt (leases (state s));
  wf_serials : NoDup (serial <$> leases (state s));
  wf_bound : Forall (λ k, serial k < next_lease_serial (state s))%N (leases (state s));
  wf_total : total_acquired (state s) = next_lease_serial (state s);
  wf_retired : registered (state s) = false → mode (state s) ≠ Active;
  wf_published : head (published s) = if (sequence (state s) =? 0)%N then None
                                      else Some (sequence (state s));
}.

Lemma key_cmp_Eq x y : key_cmp x y = Eq → x = y.
Proof.
  unfold key_cmp, then_with. destruct x as [a b], y as [c d]; simpl.
  destruct (N.compare_spec a c) as [->|?|?]; try done. by intros ->%N.compare_eq.
Qed.

Lemma key_lt_trans x y z : key_lt x y → key_lt y z → key_lt x z.
Proof.
  unfold key_lt. intros Hxy Hyz.
  assert (key_cmp x z ≠ Gt) as H by (apply (cmp_trans key_cmp x y z); by rewrite ?Hxy, ?Hyz).
  destruct (key_cmp x z) eqn:E; [|done|done]. apply key_cmp_Eq in E as ->.
  rewrite (cmp_opp key_cmp y z), Hyz in Hxy. done.
Qed.

Lemma btree_insert_perm key l :
  serial key ∉ serial <$> l → btree_insert key l ≡ₚ key :: l.
Proof.
  induction l as [|k l IH]; simpl; intros Hk; [done|].
  destruct (key_cmp key k) eqn:E; [|done|].
  - apply key_cmp_Eq in E as ->. exfalso. apply Hk. left.
  - rewrite IH by (intros ?; apply Hk; by right). constructor.
Qed.

Lemma btree_insert_sorted key l :
  serial key ∉ serial <$> l → StronglySorted key_lt l → StronglySorted key_lt (btree_insert key l).
Proof.
  intros Hk Hl. induction Hl as [|k l Hl IH Hall]; simpl; [repeat constructor|].
  destruct (key_cmp key k) eqn:E.
  - apply key_cmp_Eq in E as ->. exfalso. apply Hk. left.
  - constructor; [by constructor|]. constructor; [done|].
    eapply Forall_impl; [exact Hall|]. intros z. by apply key_lt_trans.
  - assert (serial key ∉ serial <$> l) as Hk' by (intros ?; apply Hk; by right).
    constructor; [by apply IH|]. rewrite btree_insert_perm by done. constructor; [|done].
    unfold key_lt. by rewrite (cmp_opp key_cmp key k), E.
Qed.

Lemma btree_remove_spec key l b r :
  btree_remove key l = (b, r) →
  if b then l ≡ₚ key :: r ∧ sublist r l else key ∉ l ∧ r = l.
Proof.
  revert b r. induction l as [|k l IH]; intros b r; simpl.
  { intros [= <- <-]. split; [apply not_elem_of_nil|done]. }
  case_decide as Hk.
  { intros [= <- <-]. subst. split; [done|by constructor]. }
  destruct (btree_remove key l) as [b' r'] eqn:E. intros [= <- <-].
  specialize (IH _ _ eq_refl). destruct b'.
  - destruct IH as [IH1 IH2]. split; [rewrite IH1; constructor|by constructor].
  - destruct IH as [IH ->]. split; [|done]. by apply not_elem_of_cons.
Qed.

Lemma StronglySorted_sublist {A} (R : A → A → Prop) l k :
  sublist k l → StronglySorted R l → StronglySorted R k.
Proof.
  induction 1 as [|x k l Hs IH|x k l Hs IH]; [done| |];
    inversion 1 as [|? ? Hl Hx]; subst; [|by apply IH].
  constructor; [by apply IH|]. rewrite Forall_forall in *.
  intros y Hy. apply Hx. by eapply elem_of_sublist.
Qed.

(** Unfold an action on a slot down to its [checked_add]s. *)
Ltac run_slot :=
  unfold activate, disable, BackendSlot_try_acquire, BackendSlot_set_mode, begin_drain,
    reconcile_present, reconcile_absent, release, publish_locked, next_sequence,
    next_mode_epoch, get_slot, set_slot, gets, modify, expect, panic,
    mbind, M_mbind, mret, M_mret in *.

Ltac split_adds :=
  repeat match goal with
    | |- context [checked_add ?m ?a ?b] =>
        let E := fresh "Hadd" in destruct (checked_add m a b) eqn:E; simpl in *;
        [apply checked_add_Some in E as [-> E]|]
    end.

(** The invariant of an explicit slot from the facts of the one it came from. *)
Ltac solve_wf :=
  split; rsimpl; try assumption;
  try (intros; congruence);
  try (match goal with |- context [(?a + 1 =? 0)%N] => destruct (N.eqb_spec (a + 1) 0) end;
       [lia|reflexivity]).

(** An action preserves the invariant, whether it returns or panics. *)
Definition preserves {A} (m : M BackendSlot A) : Prop :=
  triple slot_wf m (λ _, slot_wf) slot_wf.

Lemma set_mode_preserves m b now :
  (m = Active → b = true) → preserves (BackendSlot_set_mode m b now).
Proof.
  intros Hb [[sp rg md ep sq rv nx tot ls] pub] [H1 H2 H3 H4 H5 H6]. run_slot. simpl in *.
  destruct (b && negb rg) eqn:Hr; [by split|].
  assert (rg = false → m ≠ Active) as Hm.
  { intros -> ->. by rewrite Hb in Hr. }
  case_bool_decide; simpl; [|by split].
  split_adds; solve_wf.
Qed.

Lemma begin_drain_preserves : preserves begin_drain.
Proof.
  intros [[sp rg md ep sq rv nx tot ls] pub] [H1 H2 H3 H4 H5 H6]. run_slot. simpl in *.
  case_bool_decide; simpl; [|by split]. split_adds; solve_wf.
Qed.

Lemma disable_preserves now : preserves (disable now).
Proof.
  apply (triple_bind _ _ _ (λ _, slot_wf)); [by apply set_mode_preserves|].
  intros r s Hs. by destruct r.
Qed.

Lemma reconcile_present_preserves sp : preserves (reconcile_present sp).
Proof.
  intros [[sp0 rg md ep sq rv nx tot ls] pub] [H1 H2 H3 H4 H5 H6]. run_slot. simpl in *.
  case_bool_decide; simpl; rewrite ?orb_true_r; split_adds; try solve_wf;
    destruct rg; simpl; try solve_wf; split_adds; solve_wf.
Qed.

Lemma reconcile_absent_preserves : preserves reconcile_absent.
Proof.
  intros [[sp0 rg md ep sq rv nx tot ls] pub] [H1 H2 H3 H4 H5 H6]. run_slot. simpl in *.
  destruct rg; simpl; [|by split]. case_bool_decide; simpl; split_adds; solve_wf.
Qed.

Lemma release_preserves key : preserves (release key).
Proof.
  intros [[sp0 rg md ep sq rv nx tot ls] pub] [H1 H2 H3 H4 H5 H6]. run_slot. simpl in *.
  destruct (btree_remove key ls) as [b r] eqn:E. apply btree_remove_spec in E.
  assert (StronglySorted key_lt r ∧ NoDup (serial <$> r) ∧ Forall (λ k, serial k < nx)%N r)
    as (Hs & Hd & Hb).
  { destruct b.
    - destruct E as [Hp Hsub]. split_and!.
      + by eapply StronglySorted_sublist.
      + eapply sublist_NoDup; [exact H2|]. exact (fmap_sublist serial _ _ Hsub).
      + rewrite Hp in H3. by apply Forall_cons in H3 as [_ H3].
    - by destruct E as [_ ->]. }
  destruct b; simpl; split_adds; solve_wf.
Qed.

Lemma try_acquire_preserves now : preserves (BackendSlot_try_acquire now).
Proof.
  intros [[sp0 rg md ep sq rv nx tot ls] pub] [H1 H2 H3 H4 H5 H6]. run_slot. simpl in *. subst tot.
  destruct rg; simpl; [|by split]. case_bool_decide; simpl; [by split|].
  assert (nx ∉ serial <$> ls) as Hfresh.
  { intros (k & -> & Hk)%list_elem_of_fmap. rewrite Forall_forall in H3.
    specialize (H3 k Hk). simpl in H3. lia. }
  set (key := {| started_at := now; serial := nx |}).
  pose proof (btree_insert_perm key ls Hfresh) as Hp.
  assert (StronglySorted key_lt (btree_insert key ls)
          ∧ NoDup (serial <$> btree_insert key ls)
          ∧ Forall (λ k, serial k < nx + 1)%N (btree_insert key ls)) as (Hs & Hd & Hb).
  { split_and!; [by apply btree_insert_sorted| |]; rewrite Hp.
    - by constructor.
    - constructor; [simpl; lia|]. eapply Forall_impl; [exact H3|]. simpl. lia. }
  destruct (checked_add U64_MAX nx 1) as [n|] eqn:Hn; simpl; [|solve_wf].
  apply checked_add_Some in Hn as [-> _]. split_adds; solve_wf.
Qed.

(** ** A slot and the leases its clients hold

    [System] pairs the slot with the keys of the leases handed out and not yet
    dropped; its steps are the operations other parts of the program call. *)

Inductive SlotOp :=
| OpAcquire (now : N)
| OpActivate (now : N)
| OpDisable (now : N)
| OpDrain
| OpPresent (endpoint : string)
| OpAbsent.

(** The operation, and the key of the lease it hands out, if any. *)
Definition run_op (op : SlotOp) : M BackendSlot (option LeaseKey) :=
  match op with
  | OpAcquire now =>
      r ← BackendSlot_try_acquire now;
      mret (match r with Ok l => lease_key l | Err _ => None end)
  | OpActivate now => _ ← activate now; mret None
  | OpDisable now => _ ← disable now; mret None
  | OpDrain => _ ← begin_drain; mret None
  | OpPresent endpoint =>
      st ← get_slot;
      _ ← reconcile_present (BackendSpec_new (spec_id (spec st)) endpoint); mret None
  | OpAbsent => _ ← reconcile_absent; mret None
  end.

Definition System : Type := BackendSlot * list LeaseKey.

Inductive sys_step : System → System → Prop :=
| sys_op op s s' acquired held :
    run_op op s = (Done acquired, s') →
    sys_step (s, held) (s', option_list acquired ++ held)
| sys_release key s s' held1 held2 :
    release key s = (Done (), s') →
    sys_step (s, held1 ++ key :: held2) (s', held1 ++ held2).

(** What one returning operation may do to a slot. *)
Record step_facts (s s' : BackendSlot) : Prop := {
  sf_published : s' = s ∨ ∃ v, published s' = v :: published s;
  sf_id : spec_id (spec (state s')) = spec_id (spec (state s));
  sf_epoch : (mode_epoch (state s) ≤ mode_epoch (state s'))%N;
  sf_mode : mode_epoch (state s') = mode_epoch (state s) → mode (state s') = mode (state s);
  sf_total : (total_acquired (state s) ≤ total_acquired (state s'))%N;
  sf_gate : mode (state s) ≠ Active → mode_epoch (state s') = mode_epoch (state s) →
            total_acquired (state s') = total_acquired (state s)
            ∧ leases (state s') ⊆ leases (state s);
}.

Lemma step_facts_refl s : step_facts s s.
Proof. split; try done. by left. Qed.

Ltac solve_facts :=
  intros; simplify_eq; try (exact (step_facts_refl _));
  split; rsimpl; try (right; eexists; reflexivity); try reflexivity; try lia;
  try (intros; first [contradiction|congruence|lia|split; [reflexivity|done]]).

Ltac case_ops :=
  run_slot; simpl in *;
  repeat match goal with
    | |- context [if bool_decide ?P then _ else _] => case_bool_decide; simpl in *
    | |- context [checked_add ?m ?a ?b] =>
        let E := fresh "Hadd" in destruct (checked_add m a b) eqn:E; simpl in *;
        [apply checked_add_Some in E as [-> E]|]
    | |- context [if ?b then _ else _] => is_var b; destruct b; simpl in *
    end.

Lemma run_op_facts op s a s' : run_op op s = (Done a, s') → step_facts s s'.
Proof.
  destruct s as [[sp rg md ep sq rv nx tot ls] pub].
  destruct op, rg; unfold run_op; case_ops; solve_facts.
Qed.

Lemma release_facts key s s' : release key s = (Done (), s') → step_facts s s'.
Proof.
  destruct s as [[sp rg md ep sq rv nx tot ls] pub]. unfold release.
  destruct (btree_remove key ls) as [b r] eqn:E. run_slot. simpl. rewrite E.
  apply btree_remove_spec in E. destruct b; simpl; [|done].
  destruct E as [Hp Hsub]. split_adds; [|done]. intros [= <-].
  split; rsimpl; try done; [by right; eexists|]. intros _ _. split; [done|].
  intros x Hx. by eapply elem_of_sublist.
Qed.

Lemma sys_step_facts a b : sys_step a b → step_facts a.1 b.1.
Proof. destruct 1; simpl; [by eapply run_op_facts|by eapply release_facts]. Qed.

Lemma run_op_preserves op : preserves (run_op op).
Proof.
  assert (∀ A B (m : M BackendSlot A) (f : A → B), preserves m →
    preserves (x ← m; mret (f x))) as Hret.
  { intros A B m f Hm. apply (triple_bind _ _ _ (λ _, slot_wf)); [done|]. by intros x s Hs. }
  destruct op; unfold run_op.
  - apply Hret, try_acquire_preserves.
  - apply Hret. by apply set_mode_preserves.
  - apply Hret, disable_preserves.
  - apply Hret, begin_drain_preserves.
  - intros s Hs. apply (Hret _ _ _ _ (reconcile_present_preserves _) s Hs).
  - apply Hret, reconcile_absent_preserves.
Qed.

Lemma run_op_leases op s a s' :
  slot_wf s → run_op op s = (Done a, s') → leases (state s') ≡ₚ option_list a ++ leases (state s).
Proof.
  intros Hwf H.
  assert (∀ k, serial k = next_lease_serial (state s) →
    btree_insert k (leases (state s)) ≡ₚ k :: leases (state s)) as Hins.
  { intros k Hk. apply btree_insert_perm. rewrite Hk.
    intros (k' & E & Hk')%list_elem_of_fmap. pose proof (wf_bound _ Hwf) as Hb.
    rewrite Forall_forall in Hb. specialize (Hb _ Hk'). simpl in Hb. lia. }
  clear Hwf. revert H Hins. destruct s as [[sp rg md ep sq rv nx tot ls] pub].
  destruct op, rg; unfold run_op; case_ops; intros; simplify_eq; simpl; try done.
  all: by apply Hins.
Qed.

Lemma release_leases key s s' :
  release key s = (Done (), s') → leases (state s) ≡ₚ key :: leases (state s').
Proof.
  destruct s as [[sp rg md ep sq rv nx tot ls] pub]. unfold release.
  destruct (btree_remove key ls) as [b r] eqn:E. run_slot. simpl. rewrite E.
  apply btree_remove_spec in E. destruct b; simpl; [|done].
  destruct E as [Hp Hsub]. split_adds; [|done]. by intros [= <-].
Qed.

(** The slot's leases are those its clients hold. *)
Definition sys_inv (a : System) : Prop := slot_wf a.1 ∧ leases (state a.1) ≡ₚ a.2.

Lemma sys_step_inv a b : sys_step a b → sys_inv a → sys_inv b.
Proof.
  intros [op s s' acq held H|key s s' h1 h2 H] [Hwf Hp]; simpl in *.
  - pose proof (run_op_preserves op s Hwf) as Hw. rewrite H in Hw. split; [done|]. simpl.
    by rewrite (run_op_leases _ _ _ _ Hwf H), Hp.
  - pose proof (release_preserves key s Hwf) as Hw. rewrite H in Hw. split; [done|]. simpl.
    rewrite (release_leases _ _ _ H) in Hp. rewrite <- Permutation_middle in Hp.
    by apply Permutation_cons_inv in Hp.
Qed.

Lemma sys_reachable_inv a b : rtc sys_step a b → sys_inv a → sys_inv b.
Proof. induction 1; eauto using sys_step_inv. Qed.

Lemma BackendSlot_new_inv sp m : sys_inv (BackendSlot_new sp m, []).
Proof. repeat split; simpl; try done; constructor. Qed.

(** A release of a counted lease removes it and then publishes. *)
Lemma release_member key s :
  key ∈ leases (state s) →
  ∃ o s', release key s = (o, s') ∧ leases (state s) ≡ₚ key :: leases (state s')
    ∧ o = if (sequence (state s) <? U64_MAX)%N then Done () else Panicked.
Proof.
  destruct s as [[? rg md ep sq rv nx tot ls] pub]. unfold release. simpl. intros Hk.
  destruct (btree_remove key ls) as [b r] eqn:E. run_slot. simpl. rewrite E.
  apply btree_remove_spec in E. destruct b; [|naive_solver]. simpl.
  unfold checked_add. destruct (N.ltb_spec sq U64_MAX).
  - rewrite (proj2 (N.leb_le (sq + 1) U64_MAX)) by lia. eexists _, _. split; [reflexivity|]. simpl. naive_solver.
  - rewrite (proj2 (N.leb_gt (sq + 1) U64_MAX)) by lia. eexists _, _. split; [reflexivity|]. simpl. naive_solver.
Qed.

Lemma release_stranger key s : key ∉ leases (state s) → (release key s).1 = Panicked.
Proof.
  destruct s as [[? rg md ep sq rv nx tot ls] pub]. unfold release. simpl. intros Hk.
  destruct (btree_remove key ls) as [b r] eqn:E. run_slot. simpl. rewrite E.
  apply btree_remove_spec in E. destruct b; [|done]. destruct E as [Hp _]. destruct Hk. rewrite Hp. by left.
Qed.

(** C9: leases are conserved.  In every state reachable from a new slot, with leases out or none,
    the slot's leases are exactly those its clients hold, which are all different, and the number a
    snapshot reports, for which a drain waits, is their number.  Dropping a held lease removes that
    lease and no other, and the double-release assertion holds: the drop returns unless the
    64-bit number of the slot's notifications is used up, and then it panics when the lease is already
    removed.  Releasing a lease that is not held is caught. *)
Theorem lease_conservation (sp : BackendSpec) (m : BackendMode) (s : BackendSlot)
    (held : list LeaseKey) :
  rtc sys_step (BackendSlot_new sp m, []) (s, held) →
  leases (state s) ≡ₚ held ∧ NoDup held
  ∧ (∀ now, snap_local_active (BackendSlot_snapshot s now) = N.of_nat (length held))
  ∧ (∀ key, key ∈ held →
       ∃ o s', release key s = (o, s') ∧ leases (state s) ≡ₚ key :: leases (state s')
         ∧ o = if (sequence (state s) <? U64_MAX)%N then Done () else Panicked)
  ∧ ∀ key, key ∉ held → (release key s).1 = Panicked.
Proof.
  intros Hr. apply sys_reachable_inv in Hr as [Hwf Hp]; [|apply BackendSlot_new_inv].
  simpl in *. split; [done|]. split; [|split_and!].
  - rewrite <- Hp. eapply (NoDup_fmap_1 serial), wf_serials, Hwf.
  - intros now. unfold BackendSlot_snapshot, SlotState_snapshot. simpl. by rewrite Hp.
  - intros key Hk. rewrite <- Hp in Hk. by apply release_member.
  - intros key Hk. rewrite <- Hp in Hk. by apply release_stranger.
Qed.

Definition demo_spec : BackendSpec := BackendSpec_new "east" "http://127.0.0.1:1234/".
Definition demo_key : LeaseKey := {| started_at := 5; serial := 0 |}.

Definition demo_busy : BackendSlot := (run_op (OpAcquire 5) (BackendSlot_new demo_spec Active)).2.

Lemma demo_step : sys_step (BackendSlot_new demo_spec Active, []) (demo_busy, [demo_key]).
Proof.
  apply (sys_op (OpAcquire 5) _ _ (Some demo_key) []). vm_compute. reflexivity.
Qed.

Theorem lease_conservation_witness :
  snap_local_active (BackendSlot_snapshot demo_busy 9) = 1%N
  ∧ (∃ o s', release demo_key demo_busy = (o, s')
       ∧ leases (state demo_busy) ≡ₚ demo_key :: leases (state s') ∧ o = Done ())
  ∧ (release demo_key (release demo_key demo_busy).2).1 = Panicked.
Proof.
  assert (rtc sys_step (BackendSlot_new demo_spec Active, []) (demo_busy, [demo_key])) as Hr
    by apply rtc_once, demo_step.
  assert (rtc sys_step (BackendSlot_new demo_spec Active, []) ((release demo_key demo_busy).2, [])) as Hr2.
  { eapply rtc_r; [exact Hr|]. apply (sys_release demo_key _ _ [] []). vm_compute. reflexivity. }
  split; [|split].
  - apply (lease_conservation _ _ _ _ Hr).
  - apply (lease_conservation _ _ _ _ Hr). by left.
  - apply (lease_conservation _ _ _ _ Hr2). by intros ?%elem_of_nil.
Defined.

(** Acquisition is decided by the gate.  With counters below their maximum, a lease is
    granted exactly when the slot is registered and active; it captures the slot's current
    specification and a fresh key, which joins the counted leases; every refusal names the
    reason and leaves the slot as it was. *)
Theorem acquire_spec (s : BackendSlot) (now : N) :
  slot_wf s → (next_lease_serial (state s) < U64_MAX)%N → (sequence (state s) < U64_MAX)%N →
  let id := spec_id (spec (state s)) in
  match BackendSlot_try_acquire now s with
  | (Done (Ok lease), s') =>
      registered (state s) = true ∧ mode (state s) = Active
      ∧ lease_spec lease = spec (state s)
      ∧ ∃ key, lease_key lease = Some key ∧ started_at key = now
               ∧ key ∉ leases (state s) ∧ leases (state s') ≡ₚ key :: leases (state s)
  | (Done (Err e), s') =>
      s' = s ∧ ((registered (state s) = false ∧ e = Retired id)
                ∨ (registered (state s) = true ∧ mode (state s) ≠ Active
                   ∧ e = NotActive id (mode (state s))))
  | (Panicked, _) => False
  end.
Proof.
  intros [_ _ Hb Ht _ _] Hn Hq. destruct s as [[sp rg md ep sq rv nx tot ls] pub].
  simpl in *. subst tot. run_slot. simpl.
  destruct rg; simpl; [|naive_solver]. case_bool_decide; simpl; [naive_solver|].
  unfold checked_add. rewrite !(proj2 (N.leb_le _ U64_MAX)) by lia. simpl.
  rewrite (proj2 (N.leb_le _ U64_MAX)) by lia. simpl.
  assert (nx ∉ serial <$> ls) as Hfresh.
  { intros (k & -> & Hk)%list_elem_of_fmap. rewrite Forall_forall in Hb.
    specialize (Hb k Hk). simpl in Hb. lia. }
  split; [done|]. split; [by destruct (decide (md = Active))|]. split; [done|].
  exists {| started_at := now; serial := nx |}. split_and!; try done.
  - intros Hk. apply Hfresh. apply list_elem_of_fmap. by eexists; split; [|exact Hk].
  - by apply btree_insert_perm.
Qed.

Theorem acquire_spec_witness :
  match BackendSlot_try_acquire 7 (BackendSlot_new demo_spec Disabled) with
  | (Done (Ok lease), s') =>
      registered (state (BackendSlot_new demo_spec Disabled)) = true
      ∧ mode (state (BackendSlot_new demo_spec Disabled)) = Active
      ∧ lease_spec lease = spec (state (BackendSlot_new demo_spec Disabled))
      ∧ ∃ key, lease_key lease = Some key ∧ started_at key = 7%N
               ∧ key ∉ leases (state (BackendSlot_new demo_spec Disabled))
               ∧ leases (state s') ≡ₚ key :: leases (state (BackendSlot_new demo_spec Disabled))
  | (Done (Err e), s') =>
      s' = BackendSlot_new demo_spec Disabled
      ∧ ((registered (state (BackendSlot_new demo_spec Disabled)) = false ∧ e = Retired "east")
         ∨ (registered (state (BackendSlot_new demo_spec Disabled)) = true
            ∧ mode (state (BackendSlot_new demo_spec Disabled)) ≠ Active
            ∧ e = NotActive "east" (mode (state (BackendSlot_new demo_spec Disabled)))))
  | (Panicked, _) => False
  end.
Proof.
  apply (acquire_spec (BackendSlot_new demo_spec Disabled) 7).
  - apply (BackendSlot_new_inv demo_spec Disabled).
  - vm_compute; reflexivity.
  - vm_compute; reflexivity.
Defined.

(** ** Waiting is safe and loses no wake-up *)

(** What [tokio]'s documentation promises of a [watch] receiver: it belongs to
    the sends made when it was subscribed or last saw the value, and it is
    ready after any later send. *)
Class WatchLaws {Receiver : Type} (watch_subscribe : list N → Receiver)
    (watch_ready : Receiver → list N → bool) (watch_seen : Receiver → list N → Receiver)
    (receiver_of : Receiver → list N → Prop) : Prop := {
  subscribe_of : ∀ h, receiver_of (watch_subscribe h) h;
  send_of : ∀ r h v, receiver_of r h → receiver_of r (v :: h);
  seen_of : ∀ r h, receiver_of r h → receiver_of (watch_seen r h) h;
  ready_send : ∀ r h v, receiver_of r h → watch_ready r (v :: h) = true;
}.

(** A receiver as the number of sends it has seen. *)
#[export] Instance version_watch :
  WatchLaws (@length N) (λ r h, negb (r =? length h)) (λ _ h, length h)
    (λ r h, r ≤ length h).
Proof.
  split; simpl; intros; try lia. apply negb_true_iff, Nat.eqb_neq. lia.
Qed.

Section WaitCorrect.
Context {Receiver : Type} {sub : list N → Receiver} {ready : Receiver → list N → bool}
  {seen : Receiver → list N → Receiver} {receiver_of : Receiver → list N → Prop}
  `{!WatchLaws sub ready seen receiver_of}.

(** The waiter of one token next to everything else that happens to the slot. *)
Inductive wait_sys_step (token : DrainToken) :
    System * WaitPhase Receiver → System * WaitPhase Receiver → Prop :=
| wait_other a b w : sys_step a b → wait_sys_step token (a, w) (b, w)
| wait_self a w now :
    wait_sys_step token (a, w) (a, wait_step sub ready seen token w a.1 now).

(** Since the drain began: either it was superseded, or nothing was granted. *)
Definition since_drain (token : DrainToken) (total : N) (s : BackendSlot) : Prop :=
  (token_mode_epoch token ≤ mode_epoch (state s))%N
  ∧ (mode_epoch (state s) = token_mode_epoch token →
     mode (state s) = Draining ∧ total_acquired (state s) = total).

Lemma since_drain_step token total a b :
  sys_step a b → since_drain token total a.1 → since_drain token total b.1.
Proof.
  intros H%sys_step_facts [He Hd]. pose proof (sf_epoch _ _ H) as Hm. split; [lia|].
  intros E. destruct Hd as [Hd1 Hd2]; [lia|].
  assert (mode_epoch (state b.1) = mode_epoch (state a.1)) as E' by lia.
  rewrite (sf_mode _ _ H E'), Hd1. split; [done|].
  destruct (sf_gate _ _ H) as [-> _]; [by rewrite Hd1|done|done].
Qed.

(** A waiter that is asleep saw a drain that is still pending. *)
Definition phase_ok (token : DrainToken) (total : N) (s : BackendSlot)
    (w : WaitPhase Receiver) : Prop :=
  match w with
  | WaitCheck r => receiver_of r (published s)
  | WaitChanged r =>
      receiver_of r (published s)
      ∧ (ready r (published s) = false →
         mode (state s) = Draining ∧ mode_epoch (state s) = token_mode_epoch token
         ∧ leases (state s) ≠ [])
  | WaitReturned (Ok snap) =>
      snap_mode snap = Draining ∧ snap_mode_epoch snap = token_mode_epoch token
      ∧ snap_local_active snap = 0%N ∧ snap_total_acquired snap = total
  | _ => True
  end.

Lemma phase_ok_other token total a b w :
  sys_step a b → phase_ok token total a.1 w → phase_ok token total b.1 w.
Proof.
  intros H%sys_step_facts. destruct (sf_published _ _ H) as [->|[v E]]; [done|].
  destruct w as [| |r|r|[]]; simpl; try done; rewrite E.
  - apply send_of.
  - intros [Hr _]. split; [by apply send_of|]. by rewrite ready_send.
Qed.

Lemma phase_ok_self token total s w now :
  since_drain token total s → phase_ok token total s w →
  phase_ok token total s (wait_step sub ready seen token w s now).
Proof.
  intros [He Hd] Hw. destruct w as [| |r|r|[]]; simpl in *; try done.
  - by case_bool_decide.
  - apply subscribe_of.
  - destruct (bool_decide (mode (state s) ≠ Draining)) eqn:Hm; simpl; [done|].
    apply bool_decide_eq_false, dec_stable in Hm.
    destruct (N.eqb_spec (mode_epoch (state s)) (token_mode_epoch token)) as [E|E]; simpl; [|done].
    destruct (leases (state s)) as [|k ls] eqn:El; simpl.
    + split_and!; [done|done|by rewrite El|by apply Hd].
    + split; [done|]. intros _. by rewrite El.
  - destruct Hw as [Hr Hw]. destruct (ready r (published s)) eqn:E; simpl.
    + by apply seen_of.
    + split; [done|]. intros _. by apply Hw.
Qed.

Lemma wait_reachable token total a w b w' :
  rtc (wait_sys_step token) (a, w) (b, w') →
  since_drain token total a.1 → phase_ok token total a.1 w →
  since_drain token total b.1 ∧ phase_ok token total b.1 w'.
Proof.
  intros H. remember (a, w) as x eqn:Ex. remember (b, w') as y eqn:Ey.
  revert a w Ex b w' Ey. induction H as [x|x y z Hxy Hyz IH]; intros a w -> b w' Ey Hs Hp.
  { by simplify_eq. }
  inversion Hxy as [? a' ? Hstep|? ? now]; subst.
  - eapply IH; [done|done|by eapply since_drain_step|by eapply phase_ok_other].
  - eapply IH; [done|done|done|by apply phase_ok_self].
Qed.

Lemma begin_drain_since s0 token s1 :
  begin_drain s0 = (Done token, s1) → since_drain token (total_acquired (state s1)) s1.
Proof.
  destruct s0 as [[sp rg md ep sq rv nx tot ls] pub]. run_slot. simpl.
  case_bool_decide as Hm; simpl.
  - split_adds; try done. intros [= <- <-]. split; simpl; [lia|by intros _].
  - intros [= <- <-]. split; [done|]. by intros _.
Qed.

(** C1: a drain never completes falsely and its waiter never sleeps through completion.
    After [begin_drain] returned its token, in every interleaving of the waiter with other
    operations on the slot: if the wait returned a snapshot, the slot was then draining in
    the token's own epoch with no lease left and none granted since the drain began; and
    if the waiter is asleep, the drain is still pending with leases outstanding. *)
Theorem drain_wait_sound (s0 s1 s2 : BackendSlot) (token : DrainToken)
    (held1 held2 : list LeaseKey) (w : WaitPhase Receiver) :
  begin_drain s0 = (Done token, s1) →
  rtc (wait_sys_step token) ((s1, held1), WaitStart) ((s2, held2), w) →
  match w with
  | WaitReturned (Ok snap) =>
      snap_mode snap = Draining ∧ snap_mode_epoch snap = token_mode_epoch token
      ∧ snap_local_active snap = 0%N
      ∧ snap_total_acquired snap = total_acquired (state s1)
  | WaitChanged r =>
      ready r (published s2) = false →
      mode (state s2) = Draining ∧ mode_epoch (state s2) = token_mode_epoch token
      ∧ leases (state s2) ≠ []
  | _ => True
  end.
Proof.
  intros Hd%begin_drain_since Hr.
  destruct (wait_reachable _ (total_acquired (state s1)) _ _ _ _ Hr) as [_ Hp]; [done|done|].
  destruct w as [| | |r|[]]; simpl in *; try done. apply Hp.
Qed.

(** Progress of the wait.  Once the drain of the token is complete and stays so, the
    waiter returns its snapshot within four of its own steps, from any phase it may have
    reached. *)
Theorem drain_wait_progress (s0 s1 s2 : BackendSlot) (token : DrainToken)
    (held1 held2 : list LeaseKey) (w : WaitPhase Receiver) (now : N) :
  begin_drain s0 = (Done token, s1) →
  rtc (wait_sys_step token) ((s1, held1), WaitStart) ((s2, held2), w) →
  mode (state s2) = Draining → mode_epoch (state s2) = token_mode_epoch token →
  leases (state s2) = [] →
  token_backend_id token = BackendSlot_id s2 →
  ∃ r, Nat.iter 4 (λ w, wait_step sub ready seen token w s2 now) w = WaitReturned r
       ∧ match w with WaitReturned _ => True | _ => r = Ok (BackendSlot_snapshot s2 now) end.
Proof.
  intros Hd%begin_drain_since Hr Hm He Hl Hid.
  destruct (wait_reachable _ (total_acquired (state s1)) _ _ _ _ Hr) as [_ Hp]; [done|done|].
  assert (∀ r, wait_step sub ready seen token (WaitCheck r) s2 now
               = WaitReturned (Ok (BackendSlot_snapshot s2 now))) as Hcheck.
  { intros r. cbn [wait_step snap_mode snap_mode_epoch snap_local_active BackendSlot_snapshot
      SlotState_snapshot]. rewrite Hm, He, Hl, N.eqb_refl. done. }
  assert (wait_step sub ready seen token WaitStart s2 now = WaitSubscribe) as Hstart.
  { simpl. rewrite Hid. by rewrite bool_decide_false by auto. }
  assert (∀ r, phase_ok token (total_acquired (state s1)) s2 (WaitChanged r) →
    wait_step sub ready seen token (WaitChanged r) s2 now
    = WaitCheck (seen r (published s2))) as Hchanged.
  { simpl. intros r [_ Hw]. destruct (ready r (published s2)); [done|].
    destruct Hw as (_ & _ & Hw); [done|]. by rewrite Hl in Hw. }
  set (f := λ w, wait_step sub ready seen token w s2 now).
  change (Nat.iter 4 f w) with (f (f (f (f w)))).
  assert (∀ r, f (WaitReturned r) = WaitReturned r) as Hret by done.
  assert (∀ r, f (WaitCheck r) = WaitReturned (Ok (BackendSlot_snapshot s2 now))) as Hc by done.
  assert (f WaitStart = WaitSubscribe) as Hs by exact Hstart.
  assert (f WaitSubscribe = WaitCheck (sub (published s2))) as Hsub by done.
  destruct w as [| |r|r|res]; simpl in Hp.
  - eexists. split; [|done]. by rewrite Hs, Hsub, Hc, Hret.
  - eexists. split; [|done]. by rewrite Hsub, Hc, !Hret.
  - eexists. split; [|done]. by rewrite Hc, !Hret.
  - eexists. split; [|done].
    assert (f (WaitChanged r) = WaitCheck (seen r (published s2))) as -> by by apply Hchanged.
    by rewrite Hc, !Hret.
  - by exists res.
Qed.
End WaitCorrect.

(** One request is in flight when the drain begins and finishes during it. *)
Definition demo_draining : BackendSlot := (begin_drain demo_busy).2.
Definition demo_drained : BackendSlot := (release demo_key demo_draining).2.
Definition demo_token : DrainToken := {| token_backend_id := "east"; token_mode_epoch := 1 |}.
Notation demo_wait := (@wait_sys_step nat (@length N) (λ r h, negb (r =? length h))
  (λ _ h, length h) demo_token).

Lemma demo_asleep :
  rtc demo_wait ((demo_draining, [demo_key]), WaitStart) ((demo_draining, [demo_key]), WaitChanged 2).
Proof.
  do 3 (eapply rtc_l; [apply (wait_self _ _ _ 9)|]). apply rtc_refl.
Qed.

Lemma demo_drain_done :
  rtc demo_wait ((demo_draining, [demo_key]), WaitStart) ((demo_drained, []), WaitChanged 2).
Proof.
  eapply rtc_r; [apply demo_asleep|]. apply wait_other.
  apply (sys_release demo_key demo_draining demo_drained [] []). vm_compute. reflexivity.
Qed.

Theorem drain_wait_sound_witness :
  (2 =? length (published demo_draining)) = true
  ∧ (negb (2 =? length (published demo_draining)) = false →
     mode (state demo_draining) = Draining ∧ mode_epoch (state demo_draining) = 1%N
     ∧ leases (state demo_draining) ≠ []).
Proof.
  split; [vm_compute; reflexivity|].
  apply (drain_wait_sound (sub := @length N) (ready := λ r h, negb (r =? length h))
    (seen := λ _ h, length h) (receiver_of := λ r h, r ≤ length h)
    demo_busy demo_draining demo_draining demo_token [demo_key] [demo_key] (WaitChanged 2)).
  - vm_compute; reflexivity.
  - apply demo_asleep.
Defined.

Theorem drain_wait_progress_witness :
  ∃ r, Nat.iter 4 (λ w, wait_step (@length N) (λ r h, negb (r =? length h)) (λ _ h, length h)
                          demo_token w demo_drained 12) (WaitChanged 2) = WaitReturned r
       ∧ r = Ok (BackendSlot_snapshot demo_drained 12).
Proof.
  apply (drain_wait_progress (sub := @length N) (ready := λ r h, negb (r =? length h))
    (seen := λ _ h, length h) (receiver_of := λ r h, r ≤ length h)
    demo_busy demo_draining demo_drained demo_token [demo_key] [] (WaitChanged 2) 12);
    try (vm_compute; reflexivity).
  apply demo_drain_done.
Defined.

(** ** Reconciliation *)

(** No counter of the slot is one step from exhaustion. *)
Definition slot_fresh (s : BackendSlot) : Prop :=
  (sequence (state s) < U64_MAX)%N ∧ (mode_epoch (state s) < U64_MAX)%N
  ∧ (spec_revision (state s) < U64_MAX)%N.

(** The slots after a reconciliation, as functions of the slots before. *)
Definition absent_slot (s : BackendSlot) : BackendSlot := (reconcile_absent s).2.
Definition present_slot (sp : BackendSpec) (s : BackendSlot) : BackendSlot :=
  (reconcile_present sp s).2.

Ltac no_overflow :=
  unfold checked_add in *;
  repeat (rewrite (proj2 (N.leb_le _ U64_MAX)) by lia; simpl).

Lemma reconcile_absent_run s :
  slot_fresh s →
  reconcile_absent s = (Done (registered (state s)), absent_slot s)
  ∧ leases (state (absent_slot s)) = leases (state s)
  ∧ spec (state (absent_slot s)) = spec (state s)
  ∧ registered (state (absent_slot s)) = false
  ∧ mode (state (absent_slot s)) =
      (if registered (state s) then if decide (mode (state s) = Active) then Disabled
                                    else mode (state s) else mode (state s))
  ∧ (mode (state s) ≠ Active → mode_epoch (state (absent_slot s)) = mode_epoch (state s)).
Proof.
  unfold absent_slot. destruct s as [[sp rg md ep sq rv nx tot ls] pub].
  intros (H1 & H2 & H3). simpl in *. run_slot. simpl.
  destruct rg; simpl; [|done]. case_bool_decide; simpl; no_overflow; by case_decide.
Qed.

Lemma reconcile_present_run sp s :
  slot_fresh s →
  reconcile_present sp s =
    (Done {| slot_revived := negb (registered (state s));
             slot_updated := bool_decide (spec (state s) ≠ sp) |}, present_slot sp s)
  ∧ leases (state (present_slot sp s)) = leases (state s)
  ∧ spec (state (present_slot sp s)) = sp
  ∧ registered (state (present_slot sp s)) = true
  ∧ mode (state (present_slot sp s)) = mode (state s)
  ∧ mode_epoch (state (present_slot sp s)) = mode_epoch (state s).
Proof.
  unfold present_slot. destruct s as [[sp0 rg md ep sq rv nx tot ls] pub].
  intros (H1 & H2 & H3). simpl in *. run_slot. simpl.
  case_bool_decide; simpl; destruct rg; simpl; no_overflow; try done.
  all: naive_solver.
Qed.

Lemma on_slot_None {A} id (m : M BackendSlot A) slots :
  slots !! id = None → on_slot id m slots = (Done None, slots).
Proof. unfold on_slot. by intros ->. Qed.

Lemma on_slot_Done {A} id (m : M BackendSlot A) slots s a s' :
  slots !! id = Some s → m s = (Done a, s') →
  on_slot id m slots = (Done (Some a), <[id := s']> slots).
Proof. unfold on_slot. by intros -> ->. Qed.

(** What a round of each loop reports, as a function of the entry it touches. *)
Definition is_retired (desired : gmap BackendId BackendSpec) (id : BackendId)
    (s : option BackendSlot) : bool :=
  match desired !! id, s with None, Some s => registered (state s) | _, _ => false end.
Definition is_added (s : option BackendSlot) : bool :=
  match s with None => true | Some _ => false end.
Definition is_revived (s : option BackendSlot) : bool :=
  match s with None => false | Some s => negb (registered (state s)) end.
Definition is_updated (desired : gmap BackendId BackendSpec) (id : BackendId)
    (s : option BackendSlot) : bool :=
  match desired !! id, s with
  | Some sp, Some s => bool_decide (spec (state s) ≠ sp)
  | _, _ => false
  end.

(** The entry each leaves. *)
Definition missing_entry (desired : gmap BackendId BackendSpec) (id : BackendId)
    (s : option BackendSlot) : option BackendSlot :=
  match desired !! id with Some _ => s | None => absent_slot <$> s end.

Definition desired_entry (desired : gmap BackendId BackendSpec) (id : BackendId)
    (s : option BackendSlot) : option BackendSlot :=
  match desired !! id with
  | None => s
  | Some sp => Some (match s with
                     | Some s => present_slot sp s
                     | None => BackendSlot_new sp Disabled
                     end)
  end.

Definition entry_fresh (s : option BackendSlot) : Prop := ∀ slot, s = Some slot → slot_fresh slot.

Definition push_if (b : bool) (id : BackendId) (l : list BackendId) : list BackendId :=
  if b then l ++ [id] else l.

Definition report_missing (desired : gmap BackendId BackendSpec) (id : BackendId)
    (s : option BackendSlot) (r : ReconcileReport) : ReconcileReport :=
  {| added := added r; revived := revived r; updated := updated r;
     retired := push_if (is_retired desired id s) id (retired r) |}.

Definition report_desired (desired : gmap BackendId BackendSpec) (id : BackendId)
    (s : option BackendSlot) (r : ReconcileReport) : ReconcileReport :=
  match desired !! id with
  | None => r
  | Some _ =>
      {| added := push_if (is_added s) id (added r);
         revived := push_if (is_revived s) id (revived r);
         updated := push_if (is_updated desired id s) id (updated r);
         retired := retired r |}
  end.

Lemma reconcile_missing_round desired x slots r :
  entry_fresh (slots !! x) →
  ∃ slots', reconcile_missing desired x (slots, r)
      = (Done (), (slots', report_missing desired x (slots !! x) r))
    ∧ ∀ i, slots' !! i = if decide (i = x) then missing_entry desired x (slots !! x)
                         else slots !! i.
Proof.
  intros Hf. unfold reconcile_missing, missing_entry, report_missing, is_retired.
  destruct (desired !! x) as [sp|] eqn:Ed.
  { exists slots. split; [by destruct r|]. intros i. by case_decide; subst. }
  destruct (slots !! x) as [s|] eqn:Es.
  - destruct (reconcile_absent_run s) as (Hrun & _); [by apply Hf|].
    rewrite (on_slot_Done _ _ _ _ _ _ Es Hrun). exists (<[x := absent_slot s]> slots). split.
    + by destruct (registered (state s)), r.
    + intros i. rewrite lookup_insert. by repeat case_decide.
  - rewrite on_slot_None by done. exists slots. split; [by destruct r|].
    intros i. by case_decide; subst.
Qed.

Lemma reconcile_desired_round desired x slots r :
  entry_fresh (slots !! x) →
  ∃ slots', reconcile_desired desired x (slots, r)
      = (Done (), (slots', report_desired desired x (slots !! x) r))
    ∧ ∀ i, slots' !! i = if decide (i = x) then desired_entry desired x (slots !! x)
                         else slots !! i.
Proof.
  intros Hf. unfold reconcile_desired, desired_entry, report_desired, is_updated.
  destruct (desired !! x) as [sp|] eqn:Ed.
  2:{ exists slots. split; [by destruct r|]. intros i. by case_decide; subst. }
  destruct (slots !! x) as [s|] eqn:Es.
  - destruct (reconcile_present_run sp s) as (Hrun & _); [by apply Hf|].
    rewrite (on_slot_Done _ _ _ _ _ _ Es Hrun). exists (<[x := present_slot sp s]> slots). split.
    + simpl. by destruct (registered (state s)), (bool_decide (spec (state s) ≠ sp)), r.
    + intros i. rewrite lookup_insert. by repeat case_decide.
  - rewrite on_slot_None by done.
    exists (<[x := BackendSlot_new sp Disabled]> slots). split; [by destruct r|].
    intros i. rewrite lookup_insert. by repeat case_decide.
Qed.

(** The accumulated report of each loop. *)
Lemma report_missing_fold desired (slots : BackendRegistry) l r :
  foldl (λ r x, report_missing desired x (slots !! x) r) r l =
  {| added := added r; revived := revived r; updated := updated r;
     retired := retired r ++ keep (λ x, is_retired desired x (slots !! x)) l |}.
Proof.
  revert r. induction l as [|x l IH]; intros [a b c d]; simpl; [by rewrite app_nil_r|].
  rewrite IH. simpl. unfold push_if. destruct (is_retired _ _ _); by rewrite <- ?app_assoc.
Qed.

Lemma report_desired_fold desired (slots : BackendRegistry) l r :
  (∀ x, x ∈ l → is_Some (desired !! x)) →
  foldl (λ r x, report_desired desired x (slots !! x) r) r l =
  {| added := added r ++ keep (λ x, is_added (slots !! x)) l;
     revived := revived r ++ keep (λ x, is_revived (slots !! x)) l;
     updated := updated r ++ keep (λ x, is_updated desired x (slots !! x)) l;
     retired := retired r |}.
Proof.
  revert r. induction l as [|x l IH]; intros [a b c d] Hd; simpl; [by rewrite !app_nil_r|].
  rewrite IH by (intros y Hy; apply Hd; by right). unfold report_desired, push_if.
  destruct (Hd x) as [sp ->]; [left|]. simpl.
  destruct (is_added _), (is_revived _), (is_updated _ _ _); by rewrite <- ?app_assoc.
Qed.

(** [l] enumerates the keys of a map, each once, in some order. *)
Definition enumerates {A} (l : list BackendId) (m : gmap BackendId A) : Prop :=
  l ≡ₚ (map_to_list m).*1.

Lemma enumerates_NoDup {A} l (m : gmap BackendId A) : enumerates l m → NoDup l.
Proof. unfold enumerates. intros ->. apply NoDup_fst_map_to_list. Qed.

Lemma enumerates_elem {A} l (m : gmap BackendId A) id :
  enumerates l m → id ∈ l ↔ is_Some (m !! id).
Proof.
  unfold enumerates. intros ->. rewrite list_elem_of_fmap. split.
  - intros ([i x] & -> & H). apply elem_of_map_to_list in H. by exists x.
  - intros [x H]. exists (id, x). split; [done|]. by apply elem_of_map_to_list.
Qed.

Definition entries_fresh (slots : BackendRegistry) : Prop :=
  ∀ id slot, slots !! id = Some slot → slot_fresh slot.

(** The outcome, from the slots as they were, whatever the two orders. *)
Lemma reconcile_run so ord desired specs slots :
  desired_of specs ∅ = Ok desired → entries_fresh slots →
  enumerates so slots → enumerates ord desired →
  ∃ slots',
    registry_reconcile so ord specs slots =
      (Done (Ok {|
         added := sort_by String.compare (keep (λ x, is_added (slots !! x)) ord);
         revived := sort_by String.compare (keep (λ x, is_revived (slots !! x)) ord);
         updated := sort_by String.compare (keep (λ x, is_updated desired x (slots !! x)) ord);
         retired := sort_by String.compare (keep (λ x, is_retired desired x (slots !! x)) so) |}),
       slots')
    ∧ ∀ id, slots' !! id = match desired !! id with
                           | Some _ => desired_entry desired id (slots !! id)
                           | None => missing_entry desired id (slots !! id)
                           end.
Proof.
  intros Hd Hf Hso Hord. unfold registry_reconcile. rewrite Hd.
  set (r0 := {| added := []; revived := []; updated := []; retired := [] |}).
  destruct (for_each_pointwise (reconcile_missing desired) (missing_entry desired)
    (report_missing desired) (λ _, entry_fresh) so slots r0) as (slots1 & Hrun1 & Hs1).
  { intros x m r. apply reconcile_missing_round. }
  { by eapply enumerates_NoDup. }
  { intros x _ slot. apply Hf. }
  assert (∀ id, is_Some (desired !! id) → slots1 !! id = slots !! id) as Hsame.
  { intros id [sp Hid]. rewrite Hs1. unfold missing_entry. rewrite Hid. by case_decide. }
  destruct (for_each_pointwise (reconcile_desired desired) (desired_entry desired)
    (report_desired desired) (λ _, entry_fresh) ord slots1
    (foldl (λ r x, report_missing desired x (slots !! x) r) r0 so)) as (slots2 & Hrun2 & Hs2).
  { intros x m r. apply reconcile_desired_round. }
  { by eapply enumerates_NoDup. }
  { intros x Hx slot. rewrite Hsame by by eapply enumerates_elem. apply Hf. }
  exists slots2. split.
  - unfold mbind, M_mbind. cbv beta. rewrite Hrun1, Hrun2.
    rewrite (foldl_ext_in _ (λ r x, report_desired desired x (slots !! x) r)).
    2:{ intros r x Hx. rewrite Hsame; [done|]. by eapply enumerates_elem. }
    rewrite report_desired_fold by (intros x Hx; by eapply enumerates_elem).
    by rewrite report_missing_fold.
  - intros id. rewrite Hs2. destruct (desired !! id) as [sp|] eqn:Eid.
    + rewrite decide_True by (eapply enumerates_elem; [exact Hord|by eexists]).
      rewrite Hsame by by eexists. done.
    + rewrite decide_False.
      2:{ rewrite (enumerates_elem _ _ _ Hord), Eid. by intros [? ?]. }
      rewrite Hs1. case_decide as Hin; [done|].
      rewrite (enumerates_elem _ _ _ Hso) in Hin. unfold missing_entry. rewrite Eid.
      destruct (slots !! id); [|done]. exfalso. apply Hin. by eexists.
Qed.

Lemma desired_of_spec specs acc :
  match desired_of specs acc with
  | Ok d =>
      NoDup (spec_id <$> specs) ∧ (∀ sp, sp ∈ specs → acc !! spec_id sp = None)
      ∧ ∀ id sp, d !! id = Some sp ↔ acc !! id = Some sp ∨ (sp ∈ specs ∧ spec_id sp = id)
  | Err (DuplicateBackendId id) =>
      id ∈ spec_id <$> specs ∧ (is_Some (acc !! id) ∨ ¬ NoDup (spec_id <$> specs))
  end.
Proof.
  revert acc. induction specs as [|sp specs IH]; intros acc; simpl.
  { split; [constructor|]. split; [by intros sp Hsp%elem_of_nil|].
    intros id sp. split; [by left|]. intros [?|[H%elem_of_nil _]]; done. }
  destruct (acc !! spec_id sp) as [sp'|] eqn:Ea.
  { split; [left|left; by eexists]. }
  specialize (IH (<[spec_id sp := sp]> acc)).
  destruct (desired_of specs _) as [d|[id]].
  - destruct IH as (Hnd & Hnone & Hd). split; [|split].
    + constructor; [|done]. intros (sp' & E & Hsp')%list_elem_of_fmap.
      specialize (Hnone _ Hsp'). by rewrite <- E, lookup_insert_eq in Hnone.
    + intros sp' [->|Hsp']%elem_of_cons; [done|]. specialize (Hnone _ Hsp').
      rewrite lookup_insert in Hnone. by case_decide.
    + intros id sp'. rewrite Hd, lookup_insert, elem_of_cons. case_decide; [subst|naive_solver].
      split; [naive_solver|]. intros [H|[[->|H] E]]; [congruence|by left|by right].
  - destruct IH as [Hin IH]. split; [by right|]. destruct IH as [[x Hx]|IH].
    + rewrite lookup_insert in Hx. case_decide; [|left; by eexists]. right. subst.
      by intros [Hn _]%NoDup_cons.
    + right. by intros [_ Hn]%NoDup_cons.
Qed.

Lemma desired_of_NoDup specs :
  NoDup (spec_id <$> specs) →
  ∃ d, desired_of specs ∅ = Ok d ∧ ∀ id sp, d !! id = Some sp ↔ sp ∈ specs ∧ spec_id sp = id.
Proof.
  intros Hnd. pose proof (desired_of_spec specs ∅) as H.
  destruct (desired_of specs ∅) as [d|[id]].
  - exists d. split; [done|]. destruct H as (_ & _ & H). intros id sp. rewrite H, lookup_empty.
    naive_solver.
  - destruct H as [_ [[x Hx]|H]]; [by rewrite lookup_empty in Hx|done].
Qed.

(** The desired map and its enumerations. *)
Lemma desired_dom (specs : list BackendSpec) (d : gmap BackendId BackendSpec) :
  (∀ id sp, d !! id = Some sp ↔ sp ∈ specs ∧ spec_id sp = id) →
  ∀ id, is_Some (d !! id) ↔ id ∈ spec_id <$> specs.
Proof.
  intros Hlook id. rewrite list_elem_of_fmap. split.
  - intros [sp [H1 H2]%Hlook]. eauto.
  - intros (sp & -> & H). exists sp. by apply Hlook.
Qed.

Lemma enumerates_desired (specs : list BackendSpec) (d : gmap BackendId BackendSpec)
    (o : list BackendId) :
  NoDup (spec_id <$> specs) →
  (∀ id sp, d !! id = Some sp ↔ sp ∈ specs ∧ spec_id sp = id) →
  o ≡ₚ spec_id <$> specs → enumerates o d.
Proof.
  intros Hnd Hlook Ho. apply NoDup_Permutation; [by rewrite Ho|apply NoDup_fst_map_to_list|].
  intros id. rewrite Ho, <- (desired_dom specs d Hlook). symmetry.
  exact (enumerates_elem (map_to_list d).*1 d id (Permutation_refl _)).
Qed.

(** Reconciliation.  For a duplicate-free desired set, whatever orders the two hash maps
    enumerate in: every desired identity ends registered with its new specification, a known
    one keeping its mode, drain epoch and leases and a new one starting disabled; every
    other slot ends retired and not active, keeping its leases and an ongoing drain; and no
    slot appears that was neither known nor desired. *)
Theorem reconcile_spec (slots : BackendRegistry) (specs : list BackendSpec)
    (slots_order desired_order : list BackendId) :
  (∀ id s, slots !! id = Some s → slot_wf s ∧ slot_fresh s) →
  NoDup (spec_id <$> specs) →
  enumerates slots_order slots → desired_order ≡ₚ spec_id <$> specs →
  ∃ report slots',
    registry_reconcile slots_order desired_order specs slots = (Done (Ok report), slots')
    ∧ (∀ sp, sp ∈ specs → ∃ s', slots' !! spec_id sp = Some s'
         ∧ registered (state s') = true ∧ spec (state s') = sp
         ∧ match slots !! spec_id sp with
           | None => s' = BackendSlot_new sp Disabled
           | Some s => mode (state s') = mode (state s)
                       ∧ mode_epoch (state s') = mode_epoch (state s)
                       ∧ leases (state s') = leases (state s)
           end)
    ∧ (∀ id s, slots !! id = Some s → id ∉ spec_id <$> specs → ∃ s', slots' !! id = Some s'
         ∧ registered (state s') = false ∧ mode (state s') ≠ Active
         ∧ spec (state s') = spec (state s) ∧ leases (state s') = leases (state s)
         ∧ (mode (state s) = Draining →
            mode (state s') = Draining ∧ mode_epoch (state s') = mode_epoch (state s)))
    ∧ (∀ id, is_Some (slots' !! id) → is_Some (slots !! id) ∨ id ∈ spec_id <$> specs).
Proof.
  intros Hf Hnd Hso Hord. destruct (desired_of_NoDup specs Hnd) as (d & Hd & Hlook).
  pose proof (desired_dom specs d Hlook) as Hdom.
  pose proof (enumerates_desired specs d desired_order Hnd Hlook Hord) as Hen.
  destruct (reconcile_run slots_order desired_order d specs slots) as (slots' & Hrun & Hs');
    [done|by intros id s H; apply (Hf id s)|done|done|].
  eexists _, slots'. split; [exact Hrun|]. split; [|split].
  - intros sp Hsp. assert (d !! spec_id sp = Some sp) as Hdsp by by apply Hlook.
    rewrite Hs', Hdsp. unfold desired_entry. rewrite Hdsp. eexists. split; [done|].
    destruct (slots !! spec_id sp) as [s|] eqn:Es; [|done].
    destruct (reconcile_present_run sp s) as (_ & H1 & H2 & H3 & H4 & H5); [by apply (Hf _ _ Es)|].
    done.
  - intros id s Es Hid. rewrite <- Hdom in Hid.
    assert (d !! id = None) as Hdn by (by apply eq_None_not_Some).
    rewrite Hs', Hdn, Es. unfold missing_entry. rewrite Hdn. eexists. split; [done|].
    destruct (Hf _ _ Es) as [Hwf Hfr].
    destruct (reconcile_absent_run s Hfr) as (_ & H1 & H2 & H3 & H4 & H5).
    split; [done|]. rewrite H4. pose proof (wf_retired _ Hwf) as Hret.
    split; [destruct (registered (state s)); [by case_decide|by apply Hret]|].
    split; [done|]. split; [done|]. intros Hm. rewrite Hm in *.
    split; [by destruct (registered (state s))|by apply H5].
  - intros id [s' Hs1]. rewrite Hs' in Hs1. destruct (d !! id) as [sp|] eqn:Ed.
    + right. apply Hdom. by eexists.
    + left. unfold missing_entry in Hs1. rewrite Ed in Hs1.
      destruct (slots !! id); [by eexists|done].
Qed.

Definition demo_slots : BackendRegistry := {[ "east" := demo_busy ]}.
Definition demo_west : BackendSpec := BackendSpec_new "west" "http://127.0.0.1:1235/".

Lemma demo_busy_wf : slot_wf demo_busy ∧ slot_fresh demo_busy.
Proof.
  split.
  - apply (sys_step_inv _ _ demo_step), BackendSlot_new_inv.
  - by vm_compute.
Qed.

Lemma demo_slots_lookup id s : demo_slots !! id = Some s → s = demo_busy.
Proof. unfold demo_slots. by intros [_ <-]%lookup_singleton_Some. Qed.

Theorem reconcile_spec_witness :
  ∃ report slots',
    registry_reconcile ["east"] ["west"] [demo_west] demo_slots = (Done (Ok report), slots')
    ∧ ∃ s', slots' !! "east" = Some s' ∧ registered (state s') = false
            ∧ leases (state s') = [demo_key].
Proof.
  destruct (reconcile_spec demo_slots [demo_west] ["east"] ["west"])
    as (report & slots' & Hrun & _ & Habsent & _).
  - intros id s ->%demo_slots_lookup. apply demo_busy_wf.
  - apply NoDup_singleton.
  - unfold enumerates, demo_slots. by rewrite map_to_list_singleton.
  - done.
  - exists report, slots'. split; [done|].
    destruct (Habsent "east" demo_busy) as (s' & H1 & H2 & _ & _ & H3 & _).
    + vm_compute. reflexivity.
    + vm_compute. by intros [?|?%elem_of_nil]%elem_of_cons.
    + by exists s'.
Defined.

(** Reconciliation is atomic on a bad input and does not depend on enumeration order.
    A desired set that names an identity twice is refused with that identity and no slot is
    touched; otherwise any two enumerations of the hash maps give the same report and the
    same registry. *)
Theorem reconcile_order (slots : BackendRegistry) (specs : list BackendSpec)
    (so so' ord ord' : list BackendId) :
  entries_fresh slots → enumerates so slots → enumerates so' slots →
  ord ≡ₚ spec_id <$> specs → ord' ≡ₚ spec_id <$> specs →
  registry_reconcile so ord specs slots = registry_reconcile so' ord' specs slots
  ∧ (¬ NoDup (spec_id <$> specs) →
     ∃ id, registry_reconcile so ord specs slots = (Done (Err (DuplicateBackendId id)), slots)
           ∧ id ∈ spec_id <$> specs).
Proof.
  intros Hf Hso Hso' Ho Ho'. pose proof (desired_of_spec specs ∅) as H.
  destruct (desired_of specs ∅) as [d|[id]] eqn:Ed.
  - destruct H as (Hnd & _ & Hlook). split; [|done].
    assert (∀ id sp, d !! id = Some sp ↔ sp ∈ specs ∧ spec_id sp = id) as Hlook'.
    { intros id sp. rewrite Hlook, lookup_empty. naive_solver. }
    assert (∀ o, o ≡ₚ spec_id <$> specs → enumerates o d) as Hen
      by (intros o; by apply enumerates_desired).
    destruct (reconcile_run so ord d specs slots) as (s1 & -> & H1); auto.
    destruct (reconcile_run so' ord' d specs slots) as (s2 & -> & H2); auto.
    assert (s1 = s2) as -> by (apply map_eq; intros id; by rewrite H1, H2).
    assert (∀ f l l', l ≡ₚ l' → sort_by String.compare (keep f l)
      = sort_by String.compare (keep f l')) as Hsort.
    { intros f l l' Hp. apply sort_by_unique; [apply _| |exact (keep_perm f l l' Hp)].
      intros x y _ _ E. exact (proj1 (string_compare_Eq x y) E). }
    unfold enumerates in *.
    rewrite !(Hsort _ ord ord') by (by rewrite Ho, Ho').
    by rewrite (Hsort _ so so') by (by rewrite Hso, Hso').
  - unfold registry_reconcile. rewrite Ed. split; [done|]. intros _. exists id.
    split; [done|]. by destruct H.
Qed.

Theorem reconcile_order_witness :
  registry_reconcile ["east"] ["west"; "east"] [demo_spec; demo_west] demo_slots
  = registry_reconcile ["east"] ["east"; "west"] [demo_spec; demo_west] demo_slots.
Proof.
  apply (reconcile_order demo_slots [demo_spec; demo_west] ["east"] ["east"]
    ["west"; "east"] ["east"; "west"]).
  - intros id s ->%demo_slots_lookup. apply demo_busy_wf.
  - unfold enumerates, demo_slots. by rewrite map_to_list_singleton.
  - unfold enumerates, demo_slots. by rewrite map_to_list_singleton.
  - apply Permutation_swap.
  - done.
Defined.
