(* ===== verification/Runtime.v ===== *)
(** * [src/src/runtime.rs]: declarative configuration and its published view

    [parse] turns the deserialized file into a validated [RuntimeConfig];
    [RuntimeState] is the published configuration together with the backend
    registry, and [apply_with_modes] is the reload, one action of [M
    RuntimeState] under the apply lock.

    The URI type of the [http] crate and the TOML deserializer are not in this
    repository: the section takes them as parameters ([UriOps] and
    [toml_from_str]).  Hash maps are [gmap]s; a reconciliation enumerates them
    in the order [map_to_list] gives, which [Backend.reconcile_order] shows to
    be immaterial. *)

From S2P Require Import Prelude RustStd Float64 Backend.

(** What the program uses of [http::Uri]. *)
Class UriOps (Uri : Type) := {
  uri_eq_dec :: EqDecision Uri;
  uri_parse : string → result string Uri;
  scheme_str : Uri → option string;
  authority : Uri → option string;
  path : Uri → string;
  query : Uri → option string;
  uri_to_string : Uri → string;
  (** [Uri::builder().scheme(s).authority(a).path_and_query(p).build()] *)
  uri_build : string → string → string → result string Uri;
}.

(** src/src/runtime.rs:23-23 [RUNTIME_SCHEMA_VERSION] *)
Definition RUNTIME_SCHEMA_VERSION : N := 1.
(** src/src/runtime.rs:25-25 [DEFAULT_METRICS_PATH] *)
Definition DEFAULT_METRICS_PATH : string := "/metrics".
(** src/src/runtime.rs:26-26 [DEFAULT_READINESS_PATH] *)
Definition DEFAULT_READINESS_PATH : string := "/v1/models".

(** ** Policy sections of the file *)

(** src/src/runtime.rs:30-32 [RoutingPolicy] *)
Inductive RoutingPolicy := LeastPressureV1.

(** src/src/runtime.rs:34-40 [RoutingPolicy::Display] *)
Definition RoutingPolicy_display (self : RoutingPolicy) : string :=
  match self with LeastPressureV1 => "least-pressure-v1" end.

(** src/src/runtime.rs:52-57 [RoutingConfig] *)
Record RoutingConfig := mkRoutingConfig { policy : RoutingPolicy; kv_soft_limit : f64 }.

(** src/src/runtime.rs:46-48 [default_kv_soft_limit] *)
Definition default_kv_soft_limit : f64 :=
  Eval vm_compute in default f64_zero (parse_f64 (bs "0.85")).

(** src/src/runtime.rs:59-66 [RoutingConfig::Default] *)
Definition RoutingConfig_default : RoutingConfig :=
  {| policy := LeastPressureV1; kv_soft_limit := default_kv_soft_limit |}.

(** src/src/runtime.rs:82-89 [TelemetryConfig] *)
Record TelemetryConfig := mkTelemetryConfig {
  scrape_interval_ms : N;
  scrape_timeout_ms : N;
  stale_after_ms : N;
}.

(** src/src/runtime.rs:91-99 [TelemetryConfig::Default] *)
Definition TelemetryConfig_default : TelemetryConfig :=
  {| scrape_interval_ms := 1000; scrape_timeout_ms := 750; stale_after_ms := 5000 |}.

(** src/src/runtime.rs:119-128 [ReadinessConfig] *)
Record ReadinessConfig := mkReadinessConfig {
  probe_interval_ms : N;
  probe_timeout_ms : N;
  success_threshold : N;
  failure_threshold : N;
}.

(** src/src/runtime.rs:130-139 [ReadinessConfig::Default] *)
Definition ReadinessConfig_default : ReadinessConfig :=
  {| probe_interval_ms := 2000; probe_timeout_ms := 1000; success_threshold := 2;
     failure_threshold := 3 |}.

(** src/src/runtime.rs:199-202 [RegistrationConfig] *)
Record RegistrationConfig := mkRegistrationConfig { reg_enabled : bool; max_keys : option N }.

(** src/src/runtime.rs:207-209 [OpenWebUiConfig] *)
Record OpenWebUiConfig := mkOpenWebUiConfig { key_name : option string }.

(** src/src/runtime.rs:235-241 [BackendFile] *)
Record BackendFile := mkBackendFile {
  raw_id : string;
  raw_url : string;
  raw_metrics_url : option string;
  raw_readiness_url : option string;
  raw_capacity : option N;
}.

(** src/src/runtime.rs:213-227 [RuntimeFile] *)
Record RuntimeFile := mkRuntimeFile {
  file_schema_version : N;
  file_backends : list BackendFile;
  file_routing : RoutingConfig;
  file_telemetry : TelemetryConfig;
  file_readiness : ReadinessConfig;
  file_registration : RegistrationConfig;
  file_openwebui : OpenWebUiConfig;
}.

(** src/src/runtime.rs:446-459 [RuntimeConfigError]; sources of other crates by their message *)
Inductive RuntimeConfigError :=
| ReadError (path source : string)
| ParseError (source : string)
| Validation (message : string)
| InvalidBackendUrl (id field url reason : string).

(** src/src/runtime.rs:461-480 [RuntimeConfigError::Display] *)
Definition RuntimeConfigError_display (self : RuntimeConfigError) : string :=
  match self with
  | ReadError path source => "could not read " +:+ path +:+ ": " +:+ source
  | ParseError source => "invalid runtime TOML: " +:+ source
  | Validation message => message
  | InvalidBackendUrl id field url reason =>
      "backend " +:+ fmt_debug id +:+ " has invalid " +:+ field +:+ " " +:+ fmt_debug url
      +:+ ": " +:+ reason
  end.

(** src/src/runtime.rs, lines 336-360 of [validate_controls]: the positive durations *)
Fixpoint validate_positive (l : list (string * N)) : result RuntimeConfigError () :=
  match l with
  | [] => Ok ()
  | (name, value) :: l =>
      if (value =? 0)%N then Err (Validation (name +:+ " must be positive"))
      else validate_positive l
  end.

(** src/src/runtime.rs:330-372 [validate_controls] *)
Definition validate_controls (file : RuntimeFile) : result RuntimeConfigError () :=
  let limit := kv_soft_limit (file_routing file) in
  if negb (fle f64_zero limit && flt limit f64_one)
  then Err (Validation
    "routing.kv_soft_limit must be greater than or equal to 0 and less than 1") else
  _ ← validate_positive
        [("telemetry.scrape_interval_ms", scrape_interval_ms (file_telemetry file));
         ("telemetry.scrape_timeout_ms", scrape_timeout_ms (file_telemetry file));
         ("telemetry.stale_after_ms", stale_after_ms (file_telemetry file));
         ("readiness.probe_interval_ms", probe_interval_ms (file_readiness file));
         ("readiness.probe_timeout_ms", probe_timeout_ms (file_readiness file))];
  if (stale_after_ms (file_telemetry file) <? scrape_interval_ms (file_telemetry file))%N
  then Err (Validation
    "telemetry.stale_after_ms must be at least telemetry.scrape_interval_ms") else
  if ((success_threshold (file_readiness file) =? 0)
      || (failure_threshold (file_readiness file) =? 0))%N
  then Err (Validation "readiness thresholds must be positive") else
  Ok ().

(** src/src/runtime.rs, lines 380-382 of [validate_backend_id]: the characters allowed *)
Definition backend_id_byte (byte : ascii) : bool :=
  is_ascii_alphanumeric byte || Ascii.eqb byte "-" || Ascii.eqb byte "_" || Ascii.eqb byte ".".

(** src/src/runtime.rs:374-389 [validate_backend_id] *)
Definition validate_backend_id (id : string) : result RuntimeConfigError () :=
  if bool_decide (bs id = []) || (64 <? length (bs id))%nat
  then Err (Validation "backend ids must contain between 1 and 64 characters") else
  if negb (forallb backend_id_byte (bs id))
  then Err (Validation ("backend id " +:+ fmt_debug id
    +:+ " may contain only ASCII letters, digits, '-', '_' and '.'")) else
  Ok ().

Section Config.
Context {Uri : Type} `{UriOps Uri}.

(** src/src/runtime.rs:144-151 [Backend] *)
Record Backend := mkBackend {
  b_id : string;
  b_url : Uri;
  b_metrics_url : Uri;
  b_readiness_url : Uri;
  b_capacity : option N;
}.

(** src/src/runtime.rs:168-170 [Backend::registry_spec] *)
Definition registry_spec (self : Backend) : BackendSpec :=
  BackendSpec_new (b_id self) (uri_to_string (b_url self)).

(** src/src/runtime.rs:174-181 [RuntimeConfig] *)
Record RuntimeConfig := mkRuntimeConfig {
  backends : list Backend;
  routing : RoutingConfig;
  telemetry : TelemetryConfig;
  readiness : ReadinessConfig;
  registration : RegistrationConfig;
  openwebui : OpenWebUiConfig;
}.

(** src/src/runtime.rs:184-193 [RuntimeConfig::new] *)
Definition RuntimeConfig_new (backends : list Backend) : RuntimeConfig :=
  {| backends := backends;
     routing := RoutingConfig_default;
     telemetry := TelemetryConfig_default;
     readiness := ReadinessConfig_default;
     registration := {| reg_enabled := false; max_keys := None |};
     openwebui := {| key_name := None |} |}.

(** src/src/runtime.rs:413-427 [validate_uri] *)
Definition validate_uri (uri : Uri) : result string () :=
  if negb (bool_decide (scheme_str uri = Some "http"))
  then Err "URL must use http:// (this build has no TLS connector)" else
  match authority uri with
  | None => Err "URL must include a host"
  | Some authority =>
      if contains_byte "@" (bs authority)
      then Err "URL cannot include user information"
      else if bool_decide (is_Some (query uri))
      then Err "URL cannot include a query string"
      else Ok ()
  end.

(** src/src/runtime.rs:391-411 [parse_backend_url] *)
Definition parse_backend_url (id field value : string) : result RuntimeConfigError Uri :=
  uri ← map_err (λ error, InvalidBackendUrl id field value ("invalid URI: " +:+ error))
          (uri_parse value);
  _ ← map_err (InvalidBackendUrl id field value) (validate_uri uri);
  Ok uri.

(** src/src/runtime.rs:429-443 [append_path] *)
Definition append_path (base : Uri) (suffix : string) : result string Uri :=
  let base_path := trim_end_matches "/" (bs (path base)) in
  let suffix := trim_start_matches "/" (bs suffix) in
  let path := match base_path with
              | [] => "/" +:+ str suffix
              | _ => str base_path +:+ "/" +:+ str suffix
              end in
  scheme ← ok_or (scheme_str base) "URL has no scheme";
  authority ← ok_or (authority base) "URL has no authority";
  uri_build scheme authority path.

(** src/src/runtime.rs:154-166 [Backend::new] *)
Definition Backend_new (id : string) (url : Uri) : outcome Backend :=
  match append_path url DEFAULT_METRICS_PATH, append_path url DEFAULT_READINESS_PATH with
  | Ok metrics_url, Ok readiness_url =>
      Done {| b_id := id; b_url := url; b_metrics_url := metrics_url;
              b_readiness_url := readiness_url; b_capacity := None |}
  | _, _ => Panicked
  end.

(** src/src/runtime.rs, lines 282-303 of [RuntimeConfig::parse]: an explicit endpoint, or the
    default one under the backend's URL *)
Definition endpoint_url (id : string) (url : Uri) (field : string) (raw : option string)
    (default_path : string) : result RuntimeConfigError Uri :=
  match raw with
  | Some value => parse_backend_url id field value
  | None => map_err (InvalidBackendUrl id field (uri_to_string url)) (append_path url default_path)
  end.

(** src/src/runtime.rs, lines 270-318 of [RuntimeConfig::parse]: the loop over the backends *)
Fixpoint parse_backends (ids : gset string) (raws : list BackendFile) :
    result RuntimeConfigError (list Backend) :=
  match raws with
  | [] => Ok []
  | raw :: raws =>
      _ ← validate_backend_id (raw_id raw);
      if bool_decide (raw_id raw ∈ ids)
      then Err (Validation ("backend id " +:+ fmt_debug (raw_id raw) +:+ " appears more than once"))
      else
        url ← parse_backend_url (raw_id raw) "url" (raw_url raw);
        metrics_url ← endpoint_url (raw_id raw) url "metrics_url" (raw_metrics_url raw)
                        DEFAULT_METRICS_PATH;
        readiness_url ← endpoint_url (raw_id raw) url "readiness_url" (raw_readiness_url raw)
                          DEFAULT_READINESS_PATH;
        if bool_decide (raw_capacity raw = Some 0%N)
        then Err (Validation ("backend " +:+ fmt_debug (raw_id raw) +:+ " capacity must be positive"))
        else
          rest ← parse_backends ({[ raw_id raw ]} ∪ ids) raws;
          Ok ({| b_id := raw_id raw; b_url := url; b_metrics_url := metrics_url;
                 b_readiness_url := readiness_url; b_capacity := raw_capacity raw |} :: rest)
  end.

(** src/src/runtime.rs:255-327 [RuntimeConfig::parse]; [toml_from_str] is the derived deserializer *)
Definition parse (toml_from_str : string → result string RuntimeFile) (contents : string) :
    result RuntimeConfigError RuntimeConfig :=
  file ← map_err ParseError (toml_from_str contents);
  if negb (file_schema_version file =? RUNTIME_SCHEMA_VERSION)%N
  then Err (Validation ("unsupported runtime schema version "
    +:+ to_string (file_schema_version file) +:+ " (this build understands "
    +:+ to_string RUNTIME_SCHEMA_VERSION +:+ ")")) else
  if bool_decide (file_backends file = [])
  then Err (Validation "runtime config must contain at least one backend") else
  _ ← validate_controls file;
  backends ← parse_backends ∅ (file_backends file);
  Ok {| backends := backends;
        routing := file_routing file;
        telemetry := file_telemetry file;
        readiness := file_readiness file;
        registration := file_registration file;
        openwebui := file_openwebui file |}.

(** src/src/runtime.rs:244-253 [RuntimeConfig::load]; [contents] is what reading the file gave *)
Definition load (toml_from_str : string → result string RuntimeFile) (path : string)
    (contents : result string string) : result RuntimeConfigError RuntimeConfig :=
  contents ← map_err (ReadError path) contents;
  parse toml_from_str contents.

(** ** The published runtime *)

(** src/src/runtime.rs:493-498 [PublishedRuntime] *)
Record PublishedRuntime := mkPublishedRuntime {
  config : RuntimeConfig;
  revision : N;
  backend_generations : gmap string N;
  next_backend_generation : N;
}.

(** src/src/runtime.rs:504-508 [RuntimeState] *)
Record RuntimeState := mkRuntimeState {
  published_runtime : PublishedRuntime;
  registry : BackendRegistry;
}.

(** src/src/runtime.rs:822-825 [RuntimeReloadReport] *)
Record RuntimeReloadReport := mkRuntimeReloadReport {
  report_revision : N;
  reconciled : ReconcileReport;
}.

(** src/src/runtime.rs:828-834 [RuntimeApplyError] *)
Inductive RuntimeApplyError :=
| ApplyReconcile (error : ReconcileError)
| BackendMustBeDisabled (backend_id change : string).

(** src/src/runtime.rs:836-846 [RuntimeApplyError::Display] *)
Definition RuntimeApplyError_display (self : RuntimeApplyError) : string :=
  match self with
  | ApplyReconcile error => ReconcileError_display error
  | BackendMustBeDisabled backend_id change =>
      "backend " +:+ fmt_debug backend_id +:+ " must be disabled and idle before it can be "
      +:+ change
  end.

(** src/src/runtime.rs:597-604 [RuntimeState::backend] *)
Definition find_backend (l : list Backend) (id : string) : option Backend :=
  list_find (λ b, b_id b = id) l ≫= λ '(_, b), Some b.

(** src/src/runtime.rs:590-595 [RuntimeState::configured]; the [expect] is the panic *)
Definition configured (self : RuntimeState) : outcome Backend :=
  match backends (config (published_runtime self)) with
  | b :: _ => Done b
  | [] => Panicked
  end.

(** src/src/runtime.rs:582-588 [RuntimeState::available] *)
Definition available (self : RuntimeState) (now : N) : option Backend :=
  snapshot ← head (filter (λ s, snap_mode s = Active) (registry_snapshots (registry self) now));
  find_backend (backends (config (published_runtime self))) (snapshot_id snapshot).

(** src/src/runtime.rs:563-574 [RuntimeState::backend_instances]; indexing the map by a missing
    identity is the panic *)
Definition backend_instances (self : RuntimeState) : outcome (list (Backend * N)) :=
  let published := published_runtime self in
  match mapM (λ b, generation ← backend_generations published !! b_id b; Some (b, generation))
          (backends (config published)) with
  | Some l => Done l
  | None => Panicked
  end.

(** src/src/runtime.rs:576-578 [RuntimeState::backend_generation] *)
Definition backend_generation (self : RuntimeState) (id : string) : option N :=
  backend_generations (published_runtime self) !! id.

(** [slot.activate().expect(..)], [slot.begin_drain()], [slot.disable()]. *)
(** src/src/runtime.rs, lines 712-723 of [RuntimeState::apply_with_modes] *)
Definition enter_mode (mode : BackendMode) (now : N) : M BackendSlot () :=
  match mode with
  | Active => r ← activate now; _ ← expect (result_ok r); mret ()
  | Draining => _ ← begin_drain; mret ()
  | Disabled => _ ← disable now; mret ()
  end.

(** [registry.get(id).expect(..)] and an action on that slot. *)
Definition on_registered (id : string) (m : M BackendSlot ()) : M BackendRegistry () :=
  slots ← get_state;
  _ ← expect (registry_get slots id);
  r ← on_slot id m;
  expect r.

(** src/src/runtime.rs, lines 706-724 of [RuntimeState::apply_with_modes]: a new or revived
    slot enters its stored mode, active without one *)
Definition enter_stored_or_active (modes : gmap string BackendMode) (now : N) (id : string) :
    M BackendRegistry () :=
  on_registered id (enter_mode (default Active (modes !! id)) now).

(** src/src/runtime.rs, lines 725-747 of [RuntimeState::apply_with_modes]: a stored mode is
    reasserted *)
Definition reassert_stored (modes : gmap string BackendMode) (now : N) (id : string) :
    M BackendRegistry () :=
  match modes !! id with
  | None => mret ()
  | Some mode => on_registered id (enter_mode mode now)
  end.

(** The identities of the registered slots, as [snapshots] lists them. *)
Definition registered_ids (slots : BackendRegistry) (now : N) : list string :=
  snapshot_id <$> registry_snapshots slots now.

(** src/src/runtime.rs, lines 655-659 of [RuntimeState::apply_with_modes] *)
Definition same_endpoints (old new : Backend) : bool :=
  bool_decide (b_url old = b_url new) && bool_decide (b_metrics_url old = b_metrics_url new)
  && bool_decide (b_readiness_url old = b_readiness_url new).

(** The map from identity to backend that [collect] builds: the last one wins. *)
Definition by_id (l : list Backend) : gmap string Backend :=
  foldl (λ m b, <[b_id b := b]> m) ∅ l.

(** src/src/runtime.rs, lines 654-676 of [RuntimeState::apply_with_modes]: a backend whose
    endpoints change, or that goes away, must be disabled and idle *)
Fixpoint refuse_unsafe (slots : BackendRegistry) (desired : gmap string Backend) (now : N)
    (current : list Backend) : result RuntimeApplyError () :=
  match current with
  | [] => Ok ()
  | old :: current =>
      let changes_endpoint :=
        match desired !! b_id old with Some new => negb (same_endpoints old new) | None => false end in
      let removed := bool_decide (desired !! b_id old = None) in
      if changes_endpoint || removed then
        match get_retained slots (b_id old) with
        | Some slot =>
            let snapshot := BackendSlot_snapshot slot now in
            if bool_decide (snap_mode snapshot ≠ Disabled)
               || negb (snap_local_active snapshot =? 0)%N
            then Err (BackendMustBeDisabled (b_id old)
                        (if removed then "removed" else "changed endpoints"))
            else refuse_unsafe slots desired now current
        | None => refuse_unsafe slots desired now current
        end
      else refuse_unsafe slots desired now current
  end.

(** src/src/runtime.rs, lines 682-701 of [RuntimeState::apply_with_modes]: the generations of
    the candidate; [None] is a panic (exhaustion, or indexing a missing identity) *)
Fixpoint assign_generations (current : gmap string Backend) (current_generations : gmap string N)
    (next : N) (generations : gmap string N) (l : list Backend) : option (gmap string N * N) :=
  match l with
  | [] => Some (generations, next)
  | backend :: l =>
      '(generation, next) ←
        match current !! b_id backend with
        | Some old =>
            if same_endpoints old backend
            then generation ← current_generations !! b_id backend; Some (generation, next)
            else next' ← checked_add U64_MAX next 1; Some (next, next')
        | None => next' ← checked_add U64_MAX next 1; Some (next, next')
        end;
      assign_generations current current_generations next
        (<[b_id backend := generation]> generations) l
  end.

(** An action on the registry of the runtime. *)
Definition on_registry {A} (m : M BackendRegistry A) : M RuntimeState A :=
  λ s, let '(r, slots) := m (registry s) in
       (r, {| published_runtime := published_runtime s; registry := slots |}).

(** A reconciliation in the maps' own enumeration order. *)
Definition reconcile_now (specs : list BackendSpec) :
    M BackendRegistry (result ReconcileError ReconcileReport) :=
  λ slots, registry_reconcile (map_to_list slots).*1 (spec_id <$> specs) specs slots.

(** src/src/runtime.rs:635-761 [RuntimeState::apply_with_modes] *)
Definition apply_with_modes (candidate : RuntimeConfig) (modes : gmap string BackendMode)
    (now : N) : M RuntimeState (result RuntimeApplyError RuntimeReloadReport) :=
  st ← get_state;
  let current := backends (config (published_runtime st)) in
  let desired := by_id (backends candidate) in
  match refuse_unsafe (registry st) desired now current with
  | Err e => mret (Err e)
  | Ok _ =>
      '(generations, next) ←
        expect (assign_generations (by_id current) (backend_generations (published_runtime st))
                  (next_backend_generation (published_runtime st)) ∅ (backends candidate));
      reconciled ← on_registry (reconcile_now (registry_spec <$> backends candidate));
      match reconciled with
      | Err e => mret (Err (ApplyReconcile e))
      | Ok reconciled =>
          _ ← on_registry (for_each (added reconciled ++ revived reconciled)
                             (enter_stored_or_active modes now));
          st ← get_state;
          _ ← on_registry (for_each (registered_ids (registry st) now) (reassert_stored modes now));
          st ← get_state;
          let published := published_runtime st in
          _ ← modify (λ st, {| published_runtime :=
                {| config := candidate; revision := revision published;
                   backend_generations := generations; next_backend_generation := next |};
                registry := registry st |});
          revision ← expect (checked_add U64_MAX (revision published) 1);
          _ ← modify (λ st, {| published_runtime :=
                {| config := candidate; revision := revision;
                   backend_generations := generations; next_backend_generation := next |};
                registry := registry st |});
          mret (Ok {| report_revision := revision; reconciled := reconciled |})
      end
  end.

(** src/src/runtime.rs:628-630 [RuntimeState::apply] *)
Definition apply (candidate : RuntimeConfig) (now : N) :
    M RuntimeState (result RuntimeApplyError RuntimeReloadReport) :=
  apply_with_modes candidate ∅ now.

(** src/src/runtime.rs:857-860 [RuntimeReloadError] *)
Inductive RuntimeReloadError :=
| ReloadConfig (error : RuntimeConfigError)
| ReloadApply (error : RuntimeApplyError).

(** src/src/runtime.rs:862-869 [RuntimeReloadError::Display] *)
Definition RuntimeReloadError_display (self : RuntimeReloadError) : string :=
  match self with
  | ReloadConfig error => RuntimeConfigError_display error
  | ReloadApply error => RuntimeApplyError_display error
  end.

(** src/src/runtime.rs:768-775 [RuntimeState::reload_with_modes]; [loaded] is the loaded file *)
Definition reload_with_modes (loaded : result RuntimeConfigError RuntimeConfig)
    (modes : gmap string BackendMode) (now : N) :
    M RuntimeState (result RuntimeReloadError RuntimeReloadReport) :=
  match loaded with
  | Err e => mret (Err (ReloadConfig e))
  | Ok candidate =>
      r ← apply_with_modes candidate modes now;
      mret (map_err ReloadApply r)
  end.

(** src/src/runtime.rs, lines 780-799 of [RuntimeState::restore_modes]: one identity *)
Definition restore_mode (modes : gmap string BackendMode) (now : N) (id : string) :
    M BackendRegistry () :=
  match modes !! id with
  | None => mret ()
  | Some Active => on_registered id (_ ← activate now; mret ())
  | Some Draining => on_registered id (_ ← begin_drain; mret ())
  | Some Disabled => on_registered id (_ ← disable now; mret ())
  end.

(** src/src/runtime.rs:779-800 [RuntimeState::restore_modes] *)
Definition restore_modes (modes : gmap string BackendMode) (now : N) : M RuntimeState () :=
  st ← get_state;
  on_registry (for_each (registered_ids (registry st) now) (restore_mode modes now)).

(** src/src/runtime.rs, lines 527-534 of [RuntimeState::from_config] *)
Fixpoint number_backends (next : N) (generations : gmap string N) (l : list Backend) :
    option (gmap string N * N) :=
  match l with
  | [] => Some (generations, next)
  | backend :: l =>
      next' ← checked_add U64_MAX next 1;
      number_backends next' (<[b_id backend := next]> generations) l
  end.

(** src/src/runtime.rs:515-545 [RuntimeState::from_config] *)
Definition from_config (candidate : RuntimeConfig) (now : N) : outcome RuntimeState :=
  let '(r, slots) :=
    (r ← reconcile_now (registry_spec <$> backends candidate);
     report ← expect (result_ok r);
     for_each (added report) (λ id, on_registered id (enter_mode Active now)))
      BackendRegistry_new in
  match r, number_backends 1 ∅ (backends candidate) with
  | Done _, Some (generations, next) =>
      Done {| published_runtime :=
                {| config := candidate; revision := 1; backend_generations := generations;
                   next_backend_generation := next |};
              registry := slots |}
  | _, _ => Panicked
  end.
End Config.

(** ** Validation *)

(** What the [http] crate documents of its builder and of a path. *)
Class UriLaws (Uri : Type) `{UriOps Uri} : Prop := {
  build_parts : ∀ s a p u, uri_build s a p = Ok u →
    scheme_str u = Some s ∧ authority u = Some a
    ∧ (contains_byte "?" (bs p) = false → query u = None);
  path_no_query : ∀ u, contains_byte "?" (bs (path u)) = false;
}.

(** A URI over its parts, for the witnesses. *)
Record SimpleUri := mkSimpleUri {
  su_scheme : string;
  su_authority : string;
  su_path : bytes;
  su_query : option string;
}.

#[export] Instance SimpleUri_eq_dec : EqDecision SimpleUri.
Proof. solve_decision. Defined.

Definition no_question (s : bytes) : bytes := List.filter (λ x, negb (Ascii.eqb "?" x)) s.

Definition simple_parse (s : string) : result string SimpleUri :=
  match strip_prefix (bs "http://") (bs s) with
  | None => Err "unsupported"
  | Some rest =>
      let '(host, path) := span (λ x, negb (Ascii.eqb x "/")) rest in
      Ok {| su_scheme := "http"; su_authority := str host; su_path := no_question path;
            su_query := None |}
  end.

#[export] Instance SimpleUri_ops : UriOps SimpleUri := {
  uri_parse := simple_parse;
  scheme_str u := Some (su_scheme u);
  authority u := Some (su_authority u);
  path u := str (no_question (su_path u));
  query u := su_query u;
  uri_to_string u := su_scheme u +:+ "://" +:+ su_authority u +:+ str (su_path u);
  uri_build s a p :=
    Ok {| su_scheme := s; su_authority := a; su_path := bs p; su_query := None |};
}.

#[export] Instance SimpleUri_laws : UriLaws SimpleUri.
Proof.
  split; simpl; [by intros ???? [= <-]|].
  intros u. rewrite bs_str. unfold contains_byte, no_question.
  induction (su_path u) as [|x l IH]; [done|]. cbn [List.filter].
  destruct (Ascii.eqb "?" x) eqn:E; cbn [negb]; [done|]. cbn [existsb]. by rewrite E.
Qed.

(** The characters an identity may be made of. *)
Definition ID_CHARACTERS : string :=
  "ABCDEFGHIJKLMNOPQRSTUVWXYZabcdefghijklmnopqrstuvwxyz0123456789-_.".

Lemma backend_id_byte_spec x : backend_id_byte x = true ↔ x ∈ bs ID_CHARACTERS.
Proof.
  assert (backend_id_byte x = bool_decide (x ∈ bs ID_CHARACTERS)) as ->; [|apply bool_decide_eq_true].
  destruct x as [[] [] [] [] [] [] [] []]; vm_compute; reflexivity.
Qed.

Definition id_valid (id : string) : Prop :=
  1 ≤ length (bs id) ≤ 64 ∧ bs id ⊆ bs ID_CHARACTERS.

Lemma validate_backend_id_Ok id : validate_backend_id id = Ok () ↔ id_valid id.
Proof.
  unfold validate_backend_id, id_valid.
  destruct (bool_decide (bs id = []) || (64 <? length (bs id))) eqn:E.
  { split; [done|]. intros [Hl _]. exfalso. apply orb_true_iff in E as [E|E].
    - apply bool_decide_eq_true in E. rewrite E in Hl. simpl in Hl. lia.
    - apply Nat.ltb_lt in E. lia. }
  apply orb_false_iff in E as [E1 E2]. apply bool_decide_eq_false in E1. apply Nat.ltb_ge in E2.
  assert (1 ≤ length (bs id)) by (destruct (bs id); simpl in *; [done|lia]).
  assert (forallb backend_id_byte (bs id) = true ↔ bs id ⊆ bs ID_CHARACTERS) as Hb.
  { rewrite forallb_forall. unfold subseteq, list_subseteq. setoid_rewrite <- backend_id_byte_spec.
    by setoid_rewrite list_elem_of_In. }
  destruct (forallb backend_id_byte (bs id)); simpl; [naive_solver|].
  split; [done|]. intros [_ Hs]. by apply Hb in Hs.
Qed.

Lemma id_bytes id : id_valid id → Forall (λ x, backend_id_byte x = true) (bs id).
Proof. intros [_ Hs]. apply Forall_forall. intros x Hx. by apply backend_id_byte_spec, Hs. Qed.

Section Validation.
Context {Uri : Type} `{!UriOps Uri} `{!UriLaws Uri}.
Implicit Types (u : Uri) (b : Backend (Uri:=Uri)).

Lemma trim_start_matches_contains c x s :
  contains_byte x s = false → contains_byte x (trim_start_matches c s) = false.
Proof.
  unfold contains_byte. induction s as [|y s IH]; simpl; [done|].
  intros Hx. pose proof Hx as [H1 H2]%orb_false_iff.
  destruct (Ascii.eqb y c); [by apply IH|done].
Qed.

Lemma contains_byte_rev x s : contains_byte x (rev s) = contains_byte x s.
Proof.
  unfold contains_byte. apply eq_true_iff_eq. rewrite !existsb_exists.
  by setoid_rewrite <- in_rev.
Qed.

Lemma contains_byte_app x s t : contains_byte x (s ++ t) = contains_byte x s || contains_byte x t.
Proof. apply existsb_app. Qed.

(** An endpoint the proxy may contact: plain http, a host, no user information, no query. *)
Definition plain_http u : Prop :=
  scheme_str u = Some "http"%string
  ∧ (∃ host, authority u = Some host ∧ "@"%char ∉ bs host)
  ∧ query u = None.

Lemma contains_byte_false x s : contains_byte x s = false ↔ x ∉ s.
Proof.
  unfold contains_byte. rewrite <- not_true_iff_false, existsb_exists, list_elem_of_In.
  setoid_rewrite Ascii.eqb_eq. naive_solver.
Qed.

Lemma validate_uri_Ok u : validate_uri u = Ok () ↔ plain_http u.
Proof.
  unfold validate_uri, plain_http. case_bool_decide as Hs; simpl; [|naive_solver].
  destruct (authority u) as [host|]; [|naive_solver].
  destruct (contains_byte "@" (bs host)) eqn:Ea.
  - split; [done|]. intros (_ & (h & [= <-] & Hh) & _). apply contains_byte_false in Hh. congruence.
  - apply contains_byte_false in Ea. case_bool_decide as Hq; [destruct Hq as [? Hq]; naive_solver|].
    apply eq_None_not_Some in Hq. naive_solver.
Qed.

(** An appended endpoint is at the same host, and as plain as the backend's URL it extends. *)
Lemma append_path_plain base suffix u :
  "?"%char ∉ bs suffix → plain_http base → append_path base suffix = Ok u →
  plain_http u ∧ authority u = authority base.
Proof.
  intros Hs%contains_byte_false (Es & (host & Eh & Hh) & _). unfold append_path, plain_http.
  rewrite Es, Eh. cbn [ok_or mbind result_mbind].
  intros Hb. apply build_parts in Hb as (-> & -> & ->); [naive_solver|].
  assert (contains_byte "?" (trim_start_matches "/" (bs suffix)) = false) as Hs'
    by by apply trim_start_matches_contains.
  destruct (trim_end_matches "/" (bs (path base))) as [|x l] eqn:Et.
  - rewrite bs_app, contains_byte_app, bs_str, Hs'. done.
  - rewrite !bs_app, !contains_byte_app, !bs_str, Hs', <- Et. unfold trim_end_matches.
    rewrite contains_byte_rev, trim_start_matches_contains; [done|].
    rewrite contains_byte_rev. apply path_no_query.
Qed.

(** What an endpoint of the file, or its absence, stands for under the backend's URL. *)
Definition endpoint_of (url : Uri) (raw : option string) (default_path : string) (u : Uri) : Prop :=
  match raw with
  | Some text => uri_parse text = Ok u
  | None => append_path url default_path = Ok u ∧ authority u = authority url
  end ∧ plain_http u.

(** What a backend of the file stands for. *)
Record configures (raw : BackendFile) b : Prop := {
  cf_id : b_id b = raw_id raw ∧ id_valid (raw_id raw);
  cf_url : uri_parse (raw_url raw) = Ok (b_url b) ∧ plain_http (b_url b);
  cf_metrics : endpoint_of (b_url b) (raw_metrics_url raw) "/metrics" (b_metrics_url b);
  cf_readiness : endpoint_of (b_url b) (raw_readiness_url raw) "/v1/models" (b_readiness_url b);
  cf_capacity : b_capacity b = raw_capacity raw ∧ raw_capacity raw ≠ Some 0%N;
}.

Lemma parse_backend_url_Ok id field value u :
  parse_backend_url id field value = Ok u ↔ uri_parse value = Ok u ∧ plain_http u.
Proof.
  unfold parse_backend_url. destruct (uri_parse value) as [v|e]; simpl; [|naive_solver].
  rewrite <- validate_uri_Ok. destruct (validate_uri v) as [[]|e] eqn:E; simpl.
  - split; [by intros [= <-]|by intros [[= <-] _]].
  - split; [done|]. intros [[= <-] Hv]. congruence.
Qed.

Lemma endpoint_url_Ok id url field raw suffix u :
  "?"%char ∉ bs suffix → plain_http url →
  endpoint_url id url field raw suffix = Ok u ↔ endpoint_of url raw suffix u.
Proof.
  intros Hs Hu. unfold endpoint_url, endpoint_of. destruct raw as [v|]; [apply parse_backend_url_Ok|].
  rewrite map_err_Ok. split; [|naive_solver]. intros Ha.
  destruct (append_path_plain _ _ _ Hs Hu Ha) as [? ?]. by split_and!.
Qed.

Lemma default_paths : "?"%char ∉ bs DEFAULT_METRICS_PATH ∧ "?"%char ∉ bs DEFAULT_READINESS_PATH.
Proof. by split; apply contains_byte_false. Qed.

Lemma parse_backends_Ok ids raws l :
  parse_backends ids raws = Ok l ↔
  Forall2 configures raws l ∧ NoDup (raw_id <$> raws) ∧ ∀ raw, raw ∈ raws → raw_id raw ∉ ids.
Proof.
  destruct default_paths as [Hm Hr].
  revert ids l. induction raws as [|raw raws IH]; intros ids l; cbn [parse_backends].
  { split; [intros [= <-]; split_and!; [done|constructor|by intros b Hb%elem_of_nil]|].
    intros [H _]. by inversion H. }
  split.
  - destruct (validate_backend_id (raw_id raw)) as [[]|] eqn:E1; cbn [mbind result_mbind]; [|done].
    apply validate_backend_id_Ok in E1. case_bool_decide as Hin; [done|].
    destruct (parse_backend_url (raw_id raw) "url" (raw_url raw)) as [url|] eqn:E2; cbn [mbind result_mbind]; [|done].
    apply parse_backend_url_Ok in E2 as [E2 Hu].
    destruct (endpoint_url _ _ "metrics_url" _ _) as [murl|] eqn:E3; cbn [mbind result_mbind]; [|done].
    apply endpoint_url_Ok in E3; [|done..].
    destruct (endpoint_url _ _ "readiness_url" _ _) as [rurl|] eqn:E4; cbn [mbind result_mbind]; [|done].
    apply endpoint_url_Ok in E4; [|done..]. case_bool_decide as Hcap; [done|].
    destruct (parse_backends _ raws) as [rest|] eqn:E5; cbn [mbind result_mbind]; [|done]. intros [= <-].
    apply IH in E5 as (Hv & Hnd & Hni). split_and!.
    + constructor; [|done]. by split.
    + rewrite fmap_cons. constructor; [|done]. intros (raw' & Heq & Hraw)%list_elem_of_fmap.
      apply (Hni raw' Hraw). rewrite <- Heq. set_solver.
    + intros raw' [->|Hraw]%elem_of_cons; [done|]. specialize (Hni raw' Hraw). set_solver.
  - intros (Hall & Hnd & Hni). apply Forall2_cons_inv_l in Hall as (b & rest & Hb & Hrest & ->).
    rewrite fmap_cons in Hnd. apply NoDup_cons in Hnd as [Hnotin Hnd].
    destruct b as [id url murl rurl cap], Hb as [[Hid Hidv] [Hurl Hplain] Hmet Hrdy [Hcap Hcap0]]. simpl in *. subst id cap.
    rewrite (proj2 (validate_backend_id_Ok _) Hidv). cbn [mbind result_mbind].
    rewrite bool_decide_false by (apply Hni; by left).
    rewrite (proj2 (parse_backend_url_Ok _ _ _ _) (conj Hurl Hplain)). cbn [mbind result_mbind].
    rewrite (proj2 (endpoint_url_Ok _ _ _ _ _ _ (proj1 default_paths) Hplain) Hmet). cbn [mbind result_mbind].
    rewrite (proj2 (endpoint_url_Ok _ _ _ _ _ _ (proj2 default_paths) Hplain) Hrdy). cbn [mbind result_mbind].
    rewrite bool_decide_false by done.
    assert (parse_backends ({[raw_id raw]} ∪ ids) raws = Ok rest) as ->; [|done].
    apply IH. split_and!; [done|done|]. intros raw' Hraw'. specialize (Hni raw' ltac:(by right)).
    assert (raw_id raw' ≠ raw_id raw) by (intros E; apply Hnotin; rewrite <- E; by apply list_elem_of_fmap_2).
    set_solver.
Qed.

Lemma configures_ids raws l : Forall2 configures raws l → b_id <$> l = raw_id <$> raws.
Proof. induction 1 as [|raw b raws l [[Hid _] _ _ _ _] _ IH]; [done|]. by rewrite !fmap_cons, IH, Hid. Qed.

(** The controls [validate_controls] accepts. *)
Definition controls_valid (r : RoutingConfig) (t : TelemetryConfig) (d : ReadinessConfig) : Prop :=
  fle f64_zero (kv_soft_limit r) = true ∧ flt (kv_soft_limit r) f64_one = true
  ∧ (0 < scrape_interval_ms t)%N ∧ (0 < scrape_timeout_ms t)%N
  ∧ (scrape_interval_ms t ≤ stale_after_ms t)%N
  ∧ (0 < probe_interval_ms d)%N ∧ (0 < probe_timeout_ms d)%N
  ∧ (0 < success_threshold d)%N ∧ (0 < failure_threshold d)%N.

Lemma validate_controls_Ok file :
  validate_controls file = Ok () ↔
  controls_valid (file_routing file) (file_telemetry file) (file_readiness file).
Proof.
  unfold validate_controls, controls_valid. cbn [validate_positive mbind result_mbind].
  destruct (fle _ _), (flt _ _); simpl; try (split; [done|naive_solver]).
  repeat match goal with
    | |- context [(?a =? 0)%N] => destruct (N.eqb_spec a 0); simpl; [split; [done|lia]|]
    | |- context [(?a <? ?b)%N] => destruct (N.ltb_spec a b); simpl; [split; [done|lia]|]
    end.
  split; [|done]. intros _. split_and!; try done; lia.
Qed.

(** C40: what a configuration file is parsed into, and exactly when.  The deserialized file must have
    schema version 1 and at least one backend; its KV limit is in [0,1), all its intervals and thresholds
    are positive and the staleness bound is at least one scrape interval; its identities are different
    and made of 1 to 64 letters, digits, hyphens, underscores and dots; every URL in it parses as plain
    http with a host and neither user information nor query; no capacity is zero.  Then the backends are
    those of the file in its order, with its capacities and its URLs, or endpoints at the backend's
    own host where it names none, and the other sections are the file's.  Any file that is so is
    accepted, as long as the derived endpoints can be built, and every other one is refused. *)
Theorem parse_valid (toml_from_str : string → result string RuntimeFile) (contents : string)
    (c : RuntimeConfig (Uri:=Uri)) :
  parse toml_from_str contents = Ok c ↔
  ∃ file, toml_from_str contents = Ok file ∧ file_schema_version file = 1%N
    ∧ file_backends file ≠ []
    ∧ controls_valid (file_routing file) (file_telemetry file) (file_readiness file)
    ∧ NoDup (raw_id <$> file_backends file)
    ∧ Forall2 configures (file_backends file) (backends c)
    ∧ routing c = file_routing file ∧ telemetry c = file_telemetry file ∧ readiness c = file_readiness file
    ∧ registration c = file_registration file ∧ openwebui c = file_openwebui file.
Proof.
  unfold parse. destruct (toml_from_str contents) as [file|]; simpl; [|naive_solver].
  destruct (N.eqb_spec (file_schema_version file) RUNTIME_SCHEMA_VERSION) as [Ev|Ev]; simpl; [|naive_solver].
  case_bool_decide as Hne; [naive_solver|].
  pose proof (validate_controls_Ok file) as Hctl.
  destruct (validate_controls file) as [[]|] eqn:Ec; simpl; [|naive_solver].
  pose proof (parse_backends_Ok ∅ (file_backends file)) as Hb.
  destruct (parse_backends ∅ (file_backends file)) as [l|err] eqn:El; simpl.
  - destruct (proj1 (Hb l) eq_refl) as (Hall & Hnd & _). split.
    + intros [= <-]. exists file. simpl. split_and!; try done. by apply Hctl.
    + intros (f & [= <-] & _ & _ & _ & _ & Hall' & H1 & H2 & H3 & H4 & H5). destruct c; simpl in *. subst.
      assert (Ok l = Ok (E:=RuntimeConfigError) backends0) as E; [|by injection E as ->].
      apply Hb. split_and!; [done|done|set_solver].
  - split; [done|]. intros (f & [= <-] & _ & _ & _ & Hnd & Hall & _).
    assert (Err (A:=list Backend) err = Ok (backends c)) as E; [|done].
    apply Hb. split_and!; [done|done|set_solver].
Qed.
End Validation.

Definition demo_file : RuntimeFile :=
  {| file_schema_version := 1;
     file_backends :=
       [{| raw_id := "east"; raw_url := "http://127.0.0.1:1234/"; raw_metrics_url := None;
           raw_readiness_url := Some "http://127.0.0.1:1234/health"; raw_capacity := Some 32%N |};
        {| raw_id := "west"; raw_url := "http://10.0.0.2:8080/base/"; raw_metrics_url := None;
           raw_readiness_url := None; raw_capacity := None |}];
     file_routing := RoutingConfig_default;
     file_telemetry := TelemetryConfig_default;
     file_readiness := ReadinessConfig_default;
     file_registration := {| reg_enabled := false; max_keys := None |};
     file_openwebui := {| key_name := None |} |}.

Theorem parse_valid_witness :
  ∃ c : RuntimeConfig (Uri:=SimpleUri),
    parse (λ _, Ok demo_file) "" = Ok c ∧ Forall2 configures (file_backends demo_file) (backends c).
Proof.
  destruct (parse (Uri:=SimpleUri) (λ _, Ok demo_file) "") as [c|e] eqn:E;
    [|by vm_compute in E].
  exists c. split; [done|].
  destruct (proj1 (parse_valid (λ _, Ok demo_file) "" c) E) as (file & [= <-] & _ & _ & _ & _ & Hall & _).
  exact Hall.
Defined.

(** ** Reloads *)

(** The slot's counters can still grow by [k]. *)
Definition slot_room (k : N) (s : BackendSlot) : Prop :=
  (sequence (state s) + k ≤ U64_MAX)%N ∧ (mode_epoch (state s) + k ≤ U64_MAX)%N
  ∧ (spec_revision (state s) + k ≤ U64_MAX)%N.

Lemma slot_room_fresh k s : (0 < k)%N → slot_room k s → slot_fresh s.
Proof. unfold slot_room, slot_fresh. lia. Qed.

(** What an operator action leaves alone. *)
Definition same_membership (s s' : BackendSlot) : Prop :=
  spec (state s') = spec (state s) ∧ registered (state s') = registered (state s)
  ∧ leases (state s') = leases (state s)
  ∧ total_acquired (state s') = total_acquired (state s).

Lemma enter_mode_run m now s k :
  slot_wf s → registered (state s) = true → slot_room (k + 1) s →
  ∃ s', enter_mode m now s = (Done (), s') ∧ mode (state s') = m ∧ same_membership s s'
        ∧ (mode (state s) = m → s' = s) ∧ slot_wf s' ∧ slot_room k s'.
Proof.
  intros Hwf Hreg (H1 & H2 & H3).
  assert (preserves (enter_mode m now)) as Hpres.
  { destruct m; cbn [enter_mode].
    - apply (triple_bind _ _ _ (λ _, slot_wf)); [by apply set_mode_preserves|].
      intros [] s0 Hs0; cbn; done.
    - apply (triple_bind _ _ _ (λ _, slot_wf)); [apply begin_drain_preserves|]. by intros ? s0 Hs0.
    - apply (triple_bind _ _ _ (λ _, slot_wf)); [apply disable_preserves|]. by intros ? s0 Hs0. }
  specialize (Hpres s Hwf).
  assert (∃ s', enter_mode m now s = (Done (), s') ∧ mode (state s') = m ∧ same_membership s s'
    ∧ (mode (state s) = m → s' = s) ∧ slot_room k s') as (s' & E & ? & ? & ? & ?).
  { clear Hpres Hwf. destruct s as [[sp rg md ep sq rv nx tot ls] pub]. simpl in *. subst rg.
    unfold enter_mode, slot_room, same_membership.
    destruct m; run_slot; simpl; case_bool_decide; simpl; no_overflow;
      (eexists; split; [reflexivity|]); simpl; unfold constant; split_and!; try done; lia. }
  exists s'. rewrite E in Hpres. by split_and!.
Qed.

Lemma present_slot_keeps sp s k :
  slot_wf s → slot_room (k + 1) s →
  slot_wf (present_slot sp s) ∧ slot_room k (present_slot sp s).
Proof.
  intros Hwf Hroom. pose proof (reconcile_present_preserves sp s Hwf) as Hp.
  destruct (reconcile_present_run sp s) as (E & _); [by eapply slot_room_fresh; [|exact Hroom]; lia|].
  rewrite E in Hp. split; [done|]. clear -Hroom. unfold present_slot.
  destruct s as [[sp0 rg md ep sq rv nx tot ls] pub], Hroom as (H1 & H2 & H3).
  unfold slot_room. simpl in *. run_slot. simpl.
  case_bool_decide; simpl; destruct rg; simpl; no_overflow; unfold constant; split_and!; lia.
Qed.

Lemma absent_slot_keeps s : slot_wf s → slot_fresh s → slot_wf (absent_slot s).
Proof.
  intros Hwf Hf. pose proof (reconcile_absent_preserves s Hwf) as Hp.
  destruct (reconcile_absent_run s Hf) as (E & _). by rewrite E in Hp.
Qed.

(** Every slot is well formed and filed under its own identity. *)
Definition registry_wf (slots : BackendRegistry) : Prop :=
  ∀ id s, slots !! id = Some s → slot_wf s ∧ spec_id (spec (state s)) = id.

Lemma on_registered_run id (m : M BackendSlot ()) (slots : BackendRegistry) s s' :
  slots !! id = Some s → registered (state s) = true → m s = (Done (), s') →
  on_registered id m slots = (Done (), <[id := s']> slots).
Proof.
  intros Hs Hr Hm. unfold on_registered, get_state, registry_get, get_retained, mbind, M_mbind.
  rewrite Hs. cbn [option_bind mbind]. rewrite Hr. cbn [expect mret M_mret].
  by rewrite (on_slot_Done _ _ _ _ _ _ Hs Hm).
Qed.

Lemma registered_ids_spec slots now :
  registry_wf slots →
  NoDup (registered_ids slots now)
  ∧ ∀ id, id ∈ registered_ids slots now ↔ ∃ s, slots !! id = Some s ∧ registered (state s) = true.
Proof.
  intros Hwf. unfold registered_ids, registry_snapshots.
  set (l := map_to_list slots).
  set (snaps := filter (λ s, snap_registered s = true) ((λ '(_, slot), BackendSlot_snapshot slot now) <$> l)).
  assert (snapshot_id <$> snaps
    = (filter (λ x, registered (state x.2) = true) l).*1) as E.
  { assert (∀ x, x ∈ l → spec_id (spec (state x.2)) = x.1) as Hl.
    { intros [id s] Hx. apply elem_of_map_to_list in Hx. by apply Hwf in Hx as [_ ?]. }
    unfold snaps. clear snaps. induction l as [|[id s] l IH]; [done|]. rewrite fmap_cons, !filter_cons.
    simpl. case_decide; rewrite ?fmap_cons, IH; try (by intros x Hx; apply Hl; right); [|done].
    f_equal. apply (Hl (id, s)). left. }
  assert (snapshot_id <$> sort_by (λ left right, String.compare (snapshot_id left) (snapshot_id right)) snaps
    ≡ₚ (filter (λ x, registered (state x.2) = true) l).*1) as Hp.
  { rewrite <- E. apply fmap_Permutation, sort_by_perm. }
  split.
  - rewrite Hp. eapply sublist_NoDup; [apply (NoDup_fst_map_to_list slots)|].
    apply fmap_sublist, sublist_filter.
  - intros id. rewrite Hp, list_elem_of_fmap. split.
    + intros ([i s] & -> & [H1 H2]%list_elem_of_filter). apply elem_of_map_to_list in H2. eauto.
    + intros (s & H1 & H2). exists (id, s). split; [done|]. apply list_elem_of_filter.
      split; [done|]. by apply elem_of_map_to_list.
Qed.

(** The slot after an operator action on it. *)
Definition entered (m : BackendMode) (now : N) (s : BackendSlot) : BackendSlot :=
  (enter_mode m now s).2.

Definition slot_ready (k : N) (s : option BackendSlot) : Prop :=
  ∃ s0, s = Some s0 ∧ slot_wf s0 ∧ registered (state s0) = true ∧ slot_room k s0.

(** A loop that enters a mode on distinct registered slots. *)
Lemma enter_loop (modes : gmap string BackendMode) now (target : string → option BackendMode)
    (step : string → M BackendRegistry ()) l (slots : BackendRegistry) k :
  (∀ id, step id = match target id with
                   | Some m => on_registered id (enter_mode m now) | None => mret () end) →
  NoDup l → (∀ id, id ∈ l → slot_ready (k + 1) (slots !! id)) →
  ∃ slots', for_each l step slots = (Done (), slots')
    ∧ ∀ id, slots' !! id =
        if decide (id ∈ l)
        then match target id with Some m => entered m now <$> slots !! id | None => slots !! id end
        else slots !! id.
Proof.
  intros Hstep Hnd Hok.
  apply (for_each_entries step
    (λ id s, match target id with Some m => entered m now <$> s | None => s end)
    (λ _ s, slot_ready (k + 1) s)); [|done|done].
  intros id m (s & Hs & Hwf & Hreg & Hroom). rewrite Hstep. destruct (target id) as [md|].
  - destruct (enter_mode_run md now s k Hwf Hreg Hroom) as (s' & E & _).
    rewrite (on_registered_run _ _ _ _ _ Hs Hreg E). eexists. split; [done|].
    intros i. rewrite lookup_insert, Hs. cbn [fmap option_fmap option_map]. unfold entered.
    rewrite E. by repeat case_decide; subst.
  - exists m. split; [done|]. intros i. by case_decide; subst.
Qed.

Lemma enter_loop_entry m now s k :
  slot_ready (k + 1) (Some s) →
  mode (state (entered m now s)) = m ∧ same_membership s (entered m now s)
  ∧ (mode (state s) = m → entered m now s = s) ∧ slot_ready k (Some (entered m now s)).
Proof.
  intros (s0 & [= <-] & Hwf & Hreg & Hroom). unfold entered.
  destruct (enter_mode_run m now s k Hwf Hreg Hroom) as (s' & E & H1 & H2 & H3 & H4 & H5).
  rewrite E. split_and!; try done. exists s'. split_and!; try done.
  destruct H2 as (_ & -> & _). done.
Qed.

Section Reload.
Context {Uri : Type} `{!UriOps Uri}.
Implicit Types (b : Backend (Uri:=Uri)) (candidate : RuntimeConfig (Uri:=Uri)).

(** The mode a configured backend has after a reload: its stored mode; without
    one, the mode it had, or active when it is new or was retired. *)
Definition mode_after (modes : gmap string BackendMode) (slots : BackendRegistry) (id : string) :
    BackendMode :=
  match modes !! id with
  | Some m => m
  | None => match slots !! id with
            | Some s => if registered (state s) then mode (state s) else Active
            | None => Active
            end
  end.

Lemma entering_ids (slots : BackendRegistry) ids :
  NoDup ids →
  let l := sort_by String.compare (keep (λ x, is_added (slots !! x)) ids)
           ++ sort_by String.compare (keep (λ x, is_revived (slots !! x)) ids) in
  NoDup l ∧ ∀ id, id ∈ l ↔ id ∈ ids ∧ (is_added (slots !! id) || is_revived (slots !! id)) = true.
Proof.
  intros Hnd l.
  assert (∀ f, NoDup (keep f ids)) as Hk.
  { intros f. clear -Hnd. induction Hnd as [|x ids Hx Hnd IH]; simpl; [constructor|].
    destruct (f x); [|done]. constructor; [|done]. by rewrite elem_of_keep; intros [? _]. }
  assert (∀ id, id ∈ l ↔ id ∈ ids ∧ (is_added (slots !! id) || is_revived (slots !! id)) = true)
    as Hel.
  { intros id. unfold l. rewrite elem_of_app, !sort_by_elem_of, !elem_of_keep, orb_true_iff.
    naive_solver. }
  split; [|done]. unfold l. rewrite !sort_by_perm. apply NoDup_app. split_and!; try apply Hk.
  intros id [_ H1]%elem_of_keep [_ H2]%elem_of_keep.
  unfold is_added, is_revived in *. by destruct (slots !! id).
Qed.

Lemma spec_ids candidate :
  spec_id <$> (registry_spec <$> backends candidate) = b_id <$> backends candidate.
Proof. rewrite <- list_fmap_compose. done. Qed.

(** A configured backend's slot at some stage of a reload of [slots]. *)
Definition leases_before (slots : BackendRegistry) (id : string) : list LeaseKey :=
  match slots !! id with Some s => leases (state s) | None => [] end.

Definition staged (k : N) (slots slots' : BackendRegistry) (m : string → BackendMode) b : Prop :=
  ∃ s', slots' !! b_id b = Some s' ∧ slot_ready k (Some s') ∧ spec (state s') = registry_spec b
        ∧ mode (state s') = m (b_id b) ∧ leases (state s') = leases_before slots (b_id b).

Definition stage (k : N) (slots slots' : BackendRegistry) (m : string → BackendMode)
    candidate : Prop :=
  (∀ b, b ∈ backends candidate → staged k slots slots' m b)
  ∧ (∀ id, id ∉ b_id <$> backends candidate → slots' !! id = absent_slot <$> slots !! id).

Definition mode_before (slots : BackendRegistry) (id : string) : BackendMode :=
  match slots !! id with Some s => mode (state s) | None => Disabled end.

Lemma stage_reconcile (slots : BackendRegistry) candidate :
  registry_wf slots → (∀ id s, slots !! id = Some s → slot_room 3 s) →
  NoDup (b_id <$> backends candidate) →
  ∃ report slots1,
    reconcile_now (registry_spec <$> backends candidate) slots = (Done (Ok report), slots1)
    ∧ stage 2 slots slots1 (mode_before slots) candidate
    ∧ added report
      = sort_by String.compare (keep (λ x, is_added (slots !! x)) (b_id <$> backends candidate))
    ∧ revived report
      = sort_by String.compare (keep (λ x, is_revived (slots !! x)) (b_id <$> backends candidate)).
Proof.
  intros Hwf Hroom Hnd. set (specs := registry_spec <$> backends candidate).
  pose proof (spec_ids candidate) as Hids. fold specs in Hids.
  destruct (desired_of_NoDup specs) as (d & Hd & Hlook); [by rewrite Hids|].
  destruct (reconcile_run (map_to_list slots).*1 (spec_id <$> specs) d specs slots)
    as (slots1 & Hrun & Hs1); [done| |exact (Permutation_refl _)|
      apply (enumerates_desired specs); [by rewrite Hids|done|done]|].
  { intros id s Hs. eapply slot_room_fresh; [|by eapply Hroom]. lia. }
  eexists _, slots1. split; [exact Hrun|]. split; [|by rewrite Hids]. split.
  - intros b Hb. assert (d !! b_id b = Some (registry_spec b)) as Hdb.
    { apply Hlook. split; [|done]. by apply list_elem_of_fmap_2. }
    unfold staged, leases_before, mode_before. rewrite Hs1, Hdb. unfold desired_entry. rewrite Hdb.
    eexists. split; [done|]. destruct (slots !! b_id b) as [s|] eqn:Es.
    + destruct (Hwf _ _ Es) as [Hw _]. pose proof (Hroom _ _ Es) as Hr.
      destruct (present_slot_keeps (registry_spec b) s 2 Hw Hr) as [Hw' Hr'].
      destruct (reconcile_present_run (registry_spec b) s) as (_ & H1 & H2 & H3 & H4 & _).
      { by eapply slot_room_fresh; [|exact Hr]; lia. }
      split_and!; try done. eexists. by split_and!.
    + split_and!; try done. eexists. split_and!; [done| |done|by vm_compute].
      by apply (BackendSlot_new_inv (registry_spec b) Disabled).
  - intros id Hid. rewrite <- Hids, <- (desired_dom specs d Hlook), <- eq_None_not_Some in Hid.
    rewrite Hs1, Hid. unfold missing_entry. by rewrite Hid.
Qed.

Lemma slot_ready_weaken k s : slot_ready (k + 1) s → slot_ready k s.
Proof.
  intros (s0 & -> & ? & ? & H). exists s0. split_and!; try done. unfold slot_room in *. lia.
Qed.

(** Entering modes moves from one stage to the next. *)
Lemma stage_enter (slots slots1 : BackendRegistry) m candidate k
    (target : string → option BackendMode) (step : string → M BackendRegistry ()) l now :
  stage (k + 1) slots slots1 m candidate →
  (∀ id, step id = match target id with
                   | Some m => on_registered id (enter_mode m now) | None => mret () end) →
  NoDup l → (∀ id, id ∈ l → id ∈ b_id <$> backends candidate) →
  ∃ slots2, for_each l step slots1 = (Done (), slots2)
    ∧ stage k slots slots2
        (λ id, if decide (id ∈ l) then default (m id) (target id) else m id) candidate.
Proof.
  intros [Hin Hout] Hstep Hnd Hl.
  destruct (enter_loop ∅ now target step l slots1 k) as (slots2 & Hrun & Hs2); [done|done| |].
  { intros id Hid. apply Hl, list_elem_of_fmap in Hid as (b & -> & Hb).
    by destruct (Hin b Hb) as (s1 & -> & Hr & _). }
  exists slots2. split; [done|]. split.
  - intros b Hb. destruct (Hin b Hb) as (s1 & E1 & Hr & Hsp & Hm & Hls).
    unfold staged. rewrite Hs2, E1. pose proof (slot_ready_weaken _ _ Hr) as Hr1.
    destruct (decide (b_id b ∈ l)); [|by exists s1].
    destruct (target (b_id b)) as [md|]; [|by exists s1].
    destruct (enter_loop_entry md now s1 k Hr) as (Hm' & (Hsp' & _ & Hls' & _) & _ & Hr').
    eexists. split; [done|]. split_and!; [done|by rewrite Hsp'|done|by rewrite Hls'].
  - intros id Hid. rewrite Hs2, decide_False; [by apply Hout|]. intros Hin'. by apply Hid, Hl.
Qed.

Lemma stage_registry_wf k (slots slots' : BackendRegistry) m candidate :
  registry_wf slots → (∀ id s, slots !! id = Some s → slot_room 3 s) →
  stage k slots slots' m candidate →
  registry_wf slots'
  ∧ ∀ id, (∃ s, slots' !! id = Some s ∧ registered (state s) = true)
          ↔ id ∈ b_id <$> backends candidate.
Proof.
  intros Hwf Hroom [Hin Hout].
  assert (∀ id, id ∈ b_id <$> backends candidate → ∃ s, slots' !! id = Some s
    ∧ slot_wf s ∧ spec_id (spec (state s)) = id ∧ registered (state s) = true) as Hin'.
  { intros id (b & -> & Hb)%list_elem_of_fmap.
    destruct (Hin b Hb) as (s & E & (s0 & [= <-] & Hw & Hr & _) & Hsp & _).
    exists s. split_and!; try done. by rewrite Hsp. }
  assert (∀ id s, id ∉ b_id <$> backends candidate → slots' !! id = Some s →
    slot_wf s ∧ spec_id (spec (state s)) = id ∧ registered (state s) = false) as Hout'.
  { intros id s Hid Hs. rewrite Hout in Hs by done.
    destruct (slots !! id) as [s0|] eqn:Es; [|done]. simpl in Hs. simplify_eq.
    destruct (Hwf _ _ Es) as [Hw Hsp].
    assert (slot_fresh s0) as Hf by (eapply slot_room_fresh; [|by eapply Hroom]; lia).
    destruct (reconcile_absent_run s0 Hf) as (_ & _ & H2 & H3 & _).
    split; [by apply absent_slot_keeps|]. by rewrite H2. }
  split.
  - intros id s Hs. destruct (decide (id ∈ b_id <$> backends candidate)) as [Hid|Hid].
    + destruct (Hin' id Hid) as (s' & Hs' & ? & ? & _). by simplify_eq.
    + by destruct (Hout' id s Hid Hs) as (? & ? & _).
  - intros id. split.
    + intros (s & Hs & Hr). destruct (decide (id ∈ b_id <$> backends candidate)) as [|Hid]; [done|].
      destruct (Hout' id s Hid Hs) as (_ & _ & ?). congruence.
    + intros Hid. destruct (Hin' id Hid) as (s' & Hs' & _ & _ & ?). eauto.
Qed.

Lemma apply_registry (slots : BackendRegistry) candidate modes now :
  registry_wf slots → (∀ id s, slots !! id = Some s → slot_room 3 s) →
  NoDup (b_id <$> backends candidate) →
  ∃ report slots1 slots2 slots3,
    reconcile_now (registry_spec <$> backends candidate) slots = (Done (Ok report), slots1)
    ∧ for_each (added report ++ revived report) (enter_stored_or_active modes now) slots1
      = (Done (), slots2)
    ∧ for_each (registered_ids slots2 now) (reassert_stored modes now) slots2 = (Done (), slots3)
    ∧ stage 0 slots slots3 (mode_after modes slots) candidate.
Proof.
  intros Hwf Hroom Hnd.
  destruct (stage_reconcile slots candidate Hwf Hroom Hnd) as (report & slots1 & Hrun1 & Hst1 & Ha & Hv).
  destruct (entering_ids slots _ Hnd) as [Hl1 Hel1]. rewrite <- Ha, <- Hv in Hl1, Hel1.
  destruct (stage_enter slots slots1 _ candidate 1 (λ id, Some (default Active (modes !! id)))
    (enter_stored_or_active modes now) (added report ++ revived report) now Hst1)
    as (slots2 & Hrun2 & Hst2); [done|done|by intros id [? _]%Hel1|].
  destruct (stage_registry_wf _ _ _ _ _ Hwf Hroom Hst2) as [Hwf2 Hreg2].
  destruct (registered_ids_spec slots2 now Hwf2) as [Hl2 Hel2].
  destruct (stage_enter slots slots2 _ candidate 0 (λ id, modes !! id)
    (reassert_stored modes now) (registered_ids slots2 now) now Hst2)
    as (slots3 & Hrun3 & Hst3); [done|done|by intros id; rewrite Hel2, Hreg2|].
  exists report, slots1, slots2, slots3. split_and!; try done.
  destruct Hst3 as [Hin3 Hout3]. split; [|done]. intros b Hb.
  destruct (Hin3 b Hb) as (s' & H1 & H2 & H3 & H4 & H5). exists s'. split_and!; try done.
  assert (b_id b ∈ registered_ids slots2 now) as Hreg
    by (by apply Hel2, Hreg2, list_elem_of_fmap_2).
  rewrite H4. destruct (decide (b_id b ∈ registered_ids slots2 now)); [|done].
  unfold mode_after, mode_before. destruct (modes !! b_id b) as [md|] eqn:Em; simpl; [done|].
  case_decide as Hin.
  - apply Hel1 in Hin as [_ Hin]. unfold is_added, is_revived in Hin.
    destruct (slots !! b_id b) as [s|]; simpl in *; [|done].
    by destruct (registered (state s)).
  - destruct (slots !! b_id b) as [s|] eqn:Es.
    + destruct (registered (state s)) eqn:Er; [done|]. exfalso. apply Hin, Hel1.
      split; [by apply list_elem_of_fmap_2|]. by rewrite Es; simpl; rewrite Er.
    + exfalso. apply Hin, Hel1. split; [by apply list_elem_of_fmap_2|]. by rewrite Es.
Qed.
End Reload.

Section ReloadProperties.
Context {Uri : Type} `{!UriOps Uri}.
Implicit Types (b : Backend (Uri:=Uri)) (candidate : RuntimeConfig (Uri:=Uri))
  (st : RuntimeState (Uri:=Uri)).

(** The change to a current backend that needs it out of service. *)
Definition endpoints_agree (old new : Backend (Uri:=Uri)) : Prop :=
  b_url old = b_url new ∧ b_metrics_url old = b_metrics_url new
  ∧ b_readiness_url old = b_readiness_url new.

Lemma same_endpoints_spec old new : same_endpoints old new = true ↔ endpoints_agree old new.
Proof.
  unfold same_endpoints, endpoints_agree. rewrite !andb_true_iff, !bool_decide_eq_true. tauto.
Qed.

Definition unsafe_change (desired : gmap string (Backend (Uri:=Uri))) (old : Backend (Uri:=Uri)) :
    Prop :=
  match desired !! b_id old with Some new => ¬ endpoints_agree old new | None => True end.

#[export] Instance endpoints_agree_dec old new : Decision (endpoints_agree old new).
Proof. unfold endpoints_agree. apply _. Defined.

#[export] Instance unsafe_change_dec desired old : Decision (unsafe_change desired old).
Proof. unfold unsafe_change. destruct (desired !! b_id old); apply _. Defined.

Definition out_of_service (slots : BackendRegistry) (id : string) : Prop :=
  ∀ s, slots !! id = Some s → mode (state s) = Disabled ∧ leases (state s) = [].

Lemma refuse_unsafe_spec slots desired now current :
  match refuse_unsafe slots desired now current with
  | Ok _ => ∀ old, old ∈ current → unsafe_change desired old →
                   out_of_service slots (b_id old)
  | Err e => ∃ old s, old ∈ current ∧ unsafe_change desired old
               ∧ slots !! b_id old = Some s ∧ (mode (state s) ≠ Disabled ∨ leases (state s) ≠ [])
               ∧ e = BackendMustBeDisabled (b_id old)
                       (if decide (desired !! b_id old = None) then "removed" else "changed endpoints")
  end.
Proof.
  induction current as [|old current IH]; simpl; [by intros old Hold%elem_of_nil|].
  assert (bool_decide (unsafe_change desired old) =
    (match desired !! b_id old with Some new => negb (same_endpoints old new) | None => false end
     || bool_decide (desired !! b_id old = None))) as Hu.
  { unfold unsafe_change. apply eq_true_iff_eq. rewrite bool_decide_eq_true.
    destruct (desired !! b_id old) as [new|]; simpl; [|done].
    rewrite orb_false_r, negb_true_iff, <- same_endpoints_spec.
    apply not_true_iff_false. }
  rewrite <- Hu. case_bool_decide as Eu.
  2:{ destruct (refuse_unsafe _ _ _ current) as [[]|e].
      - intros x [->|Hx]%elem_of_cons Hux; [done|by apply IH].
      - destruct IH as (x & s & Hx & ?). exists x, s. split; [by right|done]. }
  unfold get_retained. destruct (slots !! b_id old) as [s|] eqn:Es.
  - cbn [snap_mode snap_local_active BackendSlot_snapshot SlotState_snapshot].
    destruct (bool_decide (mode (state s) ≠ Disabled)
              || negb (N.of_nat (length (leases (state s))) =? 0)%N) eqn:Eb.
    + exists old, s. split; [left|]. split; [done|]. split; [done|]. split; [|by repeat case_bool_decide; repeat case_decide].
      apply orb_true_iff in Eb as [Eb|Eb]; [left; by apply bool_decide_eq_true in Eb|right].
      intros El. by rewrite El in Eb.
    + apply orb_false_iff in Eb as [Em El]. apply bool_decide_eq_false, dec_stable in Em.
      apply negb_false_iff, N.eqb_eq in El.
      assert (out_of_service slots (b_id old)) as Ho.
      { intros s' Hs'. rewrite Es in Hs'. simplify_eq. split; [done|].
        by destruct (leases (state s')). }
      destruct (refuse_unsafe _ _ _ current) as [[]|e].
      * intros x [->|Hx]%elem_of_cons Hux; [done|by apply IH].
      * destruct IH as (x & s' & Hx & ?). exists x, s'. split; [by right|done].
  - destruct (refuse_unsafe _ _ _ current) as [[]|e].
    + intros x [->|Hx]%elem_of_cons Hux; [|by apply IH]. intros s' Hs'. congruence.
    + destruct IH as (x & s' & Hx & ?). exists x, s'. split; [by right|done].
Qed.

Lemma apply_refused_run st st' candidate modes now e :
  apply_with_modes candidate modes now st = (Done (Err e), st') →
  st' = st
  ∧ ∀ id change, e = BackendMustBeDisabled id change →
    ∃ old s, old ∈ backends (config (published_runtime st)) ∧ b_id old = id
      ∧ unsafe_change (by_id (backends candidate)) old
      ∧ registry st !! id = Some s ∧ (mode (state s) ≠ Disabled ∨ leases (state s) ≠ []).
Proof.
  unfold apply_with_modes, get_state, mbind, M_mbind.
  pose proof (refuse_unsafe_spec (registry st) (by_id (backends candidate)) now
    (backends (config (published_runtime st)))) as Hr.
  destruct (refuse_unsafe _ _ _ _) as [[]|e0].
  2:{ intros [= <- <-]. split; [done|]. intros id change ->.
      destruct Hr as (old & s & H1 & H2 & H3 & H4 & [= -> _]). by exists old, s. }
  destruct (assign_generations _ _ _ _ _) as [[gens next]|]; [|done]. cbn [expect mret M_mret].
  unfold on_registry at 1, reconcile_now, registry_reconcile.
  destruct (desired_of _ ∅) as [d|e1].
  - destruct ((for_each _ _ ;; for_each _ _) _) as [[[]|] [slots' report]]; [|done].
    destruct (on_registry _ _) as [[[]|] st1]; [|done]. cbn [mret M_mret].
    destruct (on_registry _ _) as [[[]|] st2]; [|done]. unfold modify.
    by destruct (checked_add _ _ _).
  - cbn [mret M_mret]. intros [= <- <-]. split; [by destruct st|done].
Qed.

(** A refused reload changes nothing.  When [apply_with_modes] returns an error, the
    published configuration, its revision and generations, and every slot are exactly as
    before; and a backend named in the refusal is one whose endpoints the candidate changes,
    or that it drops, while it is not disabled or still holds leases. *)
Theorem apply_refused_unchanged st st' candidate modes now e :
  apply_with_modes candidate modes now st = (Done (Err e), st') →
  st' = st
  ∧ ∀ id change, e = BackendMustBeDisabled id change →
    ∃ old s, old ∈ backends (config (published_runtime st)) ∧ b_id old = id
      ∧ unsafe_change (by_id (backends candidate)) old
      ∧ registry st !! id = Some s ∧ (mode (state s) ≠ Disabled ∨ leases (state s) ≠ []).
Proof. apply apply_refused_run. Qed.

(** Generations: kept for an unchanged backend, fresh otherwise. *)
Definition kept (current : gmap string (Backend (Uri:=Uri))) b : Prop :=
  ∃ old, current !! b_id b = Some old ∧ endpoints_agree old b.

#[export] Instance kept_dec current b : Decision (kept current b).
Proof.
  unfold kept. destruct (current !! b_id b) as [old|] eqn:E.
  - destruct (decide (endpoints_agree old b)); [left; eauto|right].
    by intros (? & [= <-] & ?).
  - right. by intros (? & ? & _).
Defined.

Lemma assign_generations_spec current gens next acc l :
  NoDup (b_id <$> l) → (next + N.of_nat (length l) ≤ U64_MAX)%N →
  (∀ b, b ∈ l → kept current b → is_Some (gens !! b_id b)) →
  ∃ gens' next',
    assign_generations current gens next acc l = Some (gens', next')
    ∧ (next ≤ next' ≤ next + N.of_nat (length l))%N
    ∧ (∀ id, id ∉ b_id <$> l → gens' !! id = acc !! id)
    ∧ ∀ b, b ∈ l →
        (kept current b → gens' !! b_id b = gens !! b_id b)
        ∧ (¬ kept current b → ∃ g, gens' !! b_id b = Some g ∧ (next ≤ g < next')%N).
Proof.
  revert next acc. induction l as [|b l IH]; intros next acc Hnd Hmax Hk.
  { exists acc, next. split_and!; try done; [simpl; lia|]. by intros b Hb%elem_of_nil. }
  apply NoDup_cons in Hnd as [Hb Hnd]. cbn [length] in Hmax.
  assert (∃ g n, (match current !! b_id b with
        | Some old =>
            if same_endpoints old b
            then generation ← gens !! b_id b; Some (generation, next)
            else next' ← checked_add U64_MAX next 1; Some (next, next')
        | None => next' ← checked_add U64_MAX next 1; Some (next, next')
        end) = Some (g, n)
      ∧ (next ≤ n ≤ next + 1)%N
      ∧ (kept current b → gens !! b_id b = Some g) ∧ (¬ kept current b → (next ≤ g < n)%N))
    as (g & n & E & Hn & Hg1 & Hg2).
  { assert (checked_add U64_MAX next 1 = Some (next + 1)%N) as Hadd
      by (apply checked_add_Some; split; [done|lia]).
    pose proof (Hk b ltac:(left)) as Hkb. unfold kept in *.
    destruct (current !! b_id b) as [old|] eqn:Eo; [destruct (same_endpoints old b) eqn:Es|];
      rewrite ?Hadd; simpl.
    - apply same_endpoints_spec in Es. destruct Hkb as [g Hg]; [eauto|]. exists g, next. rewrite Hg. simpl.
      split_and!; try done; try lia. intros Hn. exfalso. apply Hn. eauto.
    - exists next, (next + 1)%N. split_and!; try done; try lia.
      intros (? & [= <-] & Ha%same_endpoints_spec). congruence.
    - exists next, (next + 1)%N. split_and!; try done; try lia. by intros (? & ? & ?). }
  cbn [assign_generations]. rewrite E. cbn [mbind option_bind].
  destruct (IH n (<[b_id b := g]> acc) Hnd) as (gens' & next' & E' & Hnext & Hout & Hin);
    [lia|by intros x Hx; apply Hk; right|].
  exists gens', next'. split; [done|]. split; [cbn [length]; lia|]. split.
  - intros id Hid. rewrite fmap_cons, not_elem_of_cons in Hid. destruct Hid as [Hne Hid].
    rewrite Hout by done. by rewrite lookup_insert_ne.
  - intros x [->|Hx]%elem_of_cons.
    + rewrite Hout, lookup_insert_eq by done. split; [by intros ->%Hg1|].
      intros Hn'. exists g. split; [done|]. specialize (Hg2 Hn'). lia.
    + destruct (Hin x Hx) as [H1 H2]. split; [done|]. intros (g' & ? & ?)%H2. exists g'.
      split; [done|lia].
Qed.

Lemma by_id_lookup (l : list (Backend (Uri:=Uri))) id b :
  NoDup (b_id <$> l) → by_id l !! id = Some b ↔ b ∈ l ∧ b_id b = id.
Proof.
  assert (∀ l (acc : gmap string (Backend (Uri:=Uri))), NoDup (b_id <$> l) →
    foldl (λ m b, <[b_id b := b]> m) acc l !! id = Some b
    ↔ (b ∈ l ∧ b_id b = id) ∨ (id ∉ b_id <$> l ∧ acc !! id = Some b)) as H.
  { clear l. intros l. induction l as [|x l IH]; intros acc Hnd; cbn [foldl].
    - split; [intros Hb; right; split; [apply not_elem_of_nil|done]|].
      intros [[?%elem_of_nil _]|[_ ?]]; done.
    - rewrite fmap_cons in *. apply NoDup_cons in Hnd as [Hx Hnd]. rewrite IH by done.
      rewrite lookup_insert, elem_of_cons, not_elem_of_cons. case_decide as E; [subst|naive_solver].
      split.
      + intros [[Hb E]|[_ [= ->]]]; [left; by split; [right|]|left; by split; [left|]].
      + intros [[[->|Hb] E]|[[? _] _]]; [by right|by left|done]. }
  intros Hnd. unfold by_id. rewrite H by done. rewrite lookup_empty. naive_solver.
Qed.

(** The published view and the registry agree. *)
Record runtime_wf st : Prop := {
  rw_registry : registry_wf (registry st);
  rw_ids : NoDup (b_id <$> backends (config (published_runtime st)));
  rw_generations : ∀ b, b ∈ backends (config (published_runtime st)) →
    ∃ g, backend_generations (published_runtime st) !! b_id b = Some g
         ∧ (g < next_backend_generation (published_runtime st))%N;
  rw_members : ∀ id,
    (∃ s, registry st !! id = Some s ∧ registered (state s) = true)
    ↔ id ∈ b_id <$> backends (config (published_runtime st));
}.

(** Nothing the reload counts is about to wrap. *)
Definition reload_room st candidate : Prop :=
  (∀ id s, registry st !! id = Some s → slot_room 3 s)
  ∧ (revision (published_runtime st) < U64_MAX)%N
  ∧ (next_backend_generation (published_runtime st) + N.of_nat (length (backends candidate))
     ≤ U64_MAX)%N.

(** What an accepted reload leaves. *)
Record reloaded (modes : gmap string BackendMode) st candidate
    (report : RuntimeReloadReport) st' : Prop := {
  rl_wf : runtime_wf st';
  rl_config : config (published_runtime st') = candidate;
  rl_revision : revision (published_runtime st') = (revision (published_runtime st) + 1)%N;
  rl_report : report_revision report = revision (published_runtime st');
  rl_slots : ∀ b, b ∈ backends candidate →
    ∃ s', registry st' !! b_id b = Some s' ∧ registered (state s') = true
          ∧ spec (state s') = registry_spec b
          ∧ mode (state s') = mode_after modes (registry st) (b_id b)
          ∧ leases (state s') = leases_before (registry st) (b_id b);
  rl_kept : ∀ b, b ∈ backends candidate →
    kept (by_id (backends (config (published_runtime st)))) b →
    backend_generation st' (b_id b) = backend_generation st (b_id b);
  rl_fresh : ∀ b, b ∈ backends candidate →
    ¬ kept (by_id (backends (config (published_runtime st)))) b →
    ∃ g, backend_generation st' (b_id b) = Some g
         ∧ (next_backend_generation (published_runtime st) ≤ g)%N;
  rl_absent : ∀ id, id ∉ b_id <$> backends candidate →
    registry st' !! id = absent_slot <$> registry st !! id;
}.

(** Every backend whose endpoints change or that goes away is disabled and idle. *)
Definition reload_safe st candidate : Prop :=
  ∀ old, old ∈ backends (config (published_runtime st)) →
         unsafe_change (by_id (backends candidate)) old →
         out_of_service (registry st) (b_id old).

Lemma apply_accepted_run st candidate modes now :
  runtime_wf st → reload_room st candidate → NoDup (b_id <$> backends candidate) →
  reload_safe st candidate →
  ∃ report st', apply_with_modes candidate modes now st = (Done (Ok report), st')
    ∧ reloaded modes st candidate report st'.
Proof.
  intros [Hwf Hids Hgens Hmem] (Hroom & Hrev & Hnext) Hnd Hsafe.
  pose proof (refuse_unsafe_spec (registry st) (by_id (backends candidate)) now
    (backends (config (published_runtime st)))) as Hr.
  destruct (refuse_unsafe (registry st) (by_id (backends candidate)) now
    (backends (config (published_runtime st)))) as [[]|e] eqn:Eref.
  2:{ destruct Hr as (old & s & H1 & H2 & H3 & H4 & _).
      destruct (Hsafe old H1 H2 s H3) as [? ?]. naive_solver. }
  assert (∀ b, kept (by_id (backends (config (published_runtime st)))) b →
    ∃ g, backend_generations (published_runtime st) !! b_id b = Some g
         ∧ (g < next_backend_generation (published_runtime st))%N) as Hkept.
  { intros b (old & [Hold <-]%by_id_lookup & _); [by apply Hgens|done]. }
  destruct (assign_generations_spec (by_id (backends (config (published_runtime st))))
    (backend_generations (published_runtime st))
    (next_backend_generation (published_runtime st)) ∅ (backends candidate))
    as (gens' & next' & Eg & Hn & _ & Hg); [done|done| |].
  { intros b _ Hb. destruct (Hkept b Hb) as (g & -> & _). by eexists. }
  destruct (apply_registry (registry st) candidate modes now Hwf Hroom Hnd)
    as (report & slots1 & slots2 & slots3 & Hrun1 & Hrun2 & Hrun3 & Hstage).
  destruct (stage_registry_wf _ _ _ _ _ Hwf Hroom Hstage) as [Hwf3 Hmem3].
  unfold apply_with_modes, get_state, mbind, M_mbind.
  rewrite Eref, Eg. cbn [expect mret M_mret]. unfold on_registry, modify.
  rewrite Hrun1. cbn [registry published_runtime]. rewrite Hrun2. cbn [registry published_runtime].
  rewrite Hrun3. cbn [registry published_runtime].
  assert (checked_add U64_MAX (revision (published_runtime st)) 1
    = Some (revision (published_runtime st) + 1)%N) as ->
    by (apply checked_add_Some; split; [done|lia]).
  eexists _, _. split; [reflexivity|].
  destruct Hstage as [Hin Hout].
  split; cbn [registry published_runtime config revision
    backend_generations next_backend_generation report_revision]; try done.
  - split; cbn [registry published_runtime config backend_generations next_backend_generation];
      try done. intros b Hb. destruct (Hg b Hb) as [H1 H2].
    destruct (decide (kept (by_id (backends (config (published_runtime st)))) b)) as [Hk|Hk].
    + rewrite (H1 Hk). destruct (Hkept b Hk) as (g & -> & ?). exists g. split; [done|lia].
    + destruct (H2 Hk) as (g & -> & ?). exists g. split; [done|lia].
  - intros b Hb. destruct (Hin b Hb) as (s' & E & Hr' & Hsp & Hmd & Hls).
    exists s'. split_and!; try done. by destruct Hr' as (s0 & [= <-] & _ & ? & _).
  - intros b Hb. by destruct (Hg b Hb).
  - intros b Hb Hk. destruct (Hg b Hb) as [_ H2]. destruct (H2 Hk) as (g & ? & ?).
    exists g. split; [done|lia].
Qed.

(** A reload that reports success was safe. *)
Lemma apply_ok_reloaded st candidate modes now report st' :
  runtime_wf st → reload_room st candidate → NoDup (b_id <$> backends candidate) →
  apply_with_modes candidate modes now st = (Done (Ok report), st') →
  reloaded modes st candidate report st'.
Proof.
  intros Hwf Hroom Hnd Hrun.
  assert (reload_safe st candidate) as Hsafe.
  { pose proof (refuse_unsafe_spec (registry st) (by_id (backends candidate)) now
      (backends (config (published_runtime st)))) as Hr.
    revert Hrun. unfold apply_with_modes, get_state, mbind at 1, M_mbind at 1.
    by destruct (refuse_unsafe _ _ _ _) as [[]|e]. }
  destruct (apply_accepted_run st candidate modes now Hwf Hroom Hnd Hsafe)
    as (report' & st2 & Hrun' & Hre).
  rewrite Hrun in Hrun'. by injection Hrun' as <- <-.
Qed.

(** C34: an accepted reload.  When every backend whose endpoints change or that goes away is
    disabled and idle, [apply_with_modes] succeeds: the candidate is published under the next
    revision, the published view and the registry agree again, and each configured backend is
    registered with its endpoint, keeps its leases, is in its stored mode (or the mode it had,
    or active when new or revived), and has its old generation exactly when its endpoints
    are unchanged and otherwise one never used before. *)
Theorem apply_accepted st candidate modes now :
  runtime_wf st → reload_room st candidate → NoDup (b_id <$> backends candidate) →
  (∀ old, old ∈ backends (config (published_runtime st)) →
          unsafe_change (by_id (backends candidate)) old →
          out_of_service (registry st) (b_id old)) →
  ∃ report st', apply_with_modes candidate modes now st = (Done (Ok report), st')
    ∧ reloaded modes st candidate report st'.
Proof. apply apply_accepted_run. Qed.

Lemma number_backends_spec next acc (l : list (Backend (Uri:=Uri))) :
  NoDup (b_id <$> l) → (next + N.of_nat (length l) ≤ U64_MAX)%N →
  ∃ gens, number_backends next acc l = Some (gens, next + N.of_nat (length l))%N
    ∧ (∀ id, id ∉ b_id <$> l → gens !! id = acc !! id)
    ∧ ∀ b, b ∈ l → ∃ g, gens !! b_id b = Some g ∧ (next ≤ g < next + N.of_nat (length l))%N.
Proof.
  revert next acc. induction l as [|b l IH]; intros next acc Hnd Hmax; cbn [number_backends length].
  { exists acc. split_and!; [by rewrite N.add_0_r|done|by intros b Hb%elem_of_nil]. }
  rewrite fmap_cons in Hnd. apply NoDup_cons in Hnd as [Hb Hnd]. cbn [length] in Hmax.
  assert (checked_add U64_MAX next 1 = Some (next + 1)%N) as ->
    by (apply checked_add_Some; split; [done|lia]).
  cbn [mbind option_bind].
  destruct (IH (next + 1)%N (<[b_id b := next]> acc) Hnd ltac:(lia)) as (gens & E & Hout & Hin).
  exists gens. split; [rewrite E; do 2 f_equal; lia|]. split.
  - intros id Hid. rewrite fmap_cons, not_elem_of_cons in Hid. destruct Hid as [Hne Hid].
    rewrite Hout by done. by rewrite lookup_insert_ne.
  - intros x [->|Hx]%elem_of_cons.
    + exists next. rewrite Hout by done. rewrite lookup_insert_eq. split; [done|lia].
    + destruct (Hin x Hx) as (g & ? & ?). exists g. split; [done|lia].
Qed.

Lemma stage_ext k (slots slots' : BackendRegistry) m m' candidate :
  (∀ b, b ∈ backends candidate → m (b_id b) = m' (b_id b)) →
  stage k slots slots' m candidate → stage k slots slots' m' candidate.
Proof.
  intros Hm [Hin Hout]. split; [|done]. intros b Hb. destruct (Hin b Hb) as (s & H1 & H2 & H3 & H4 & H5).
  exists s. split_and!; try done. by rewrite H4, Hm.
Qed.

(** What a stage says of a configured backend's slot. *)
Lemma stage_slot k (slots' : BackendRegistry) m candidate b :
  stage k ∅ slots' m candidate → b ∈ backends candidate →
  ∃ s, slots' !! b_id b = Some s ∧ registered (state s) = true ∧ mode (state s) = m (b_id b)
    ∧ spec (state s) = registry_spec b ∧ leases (state s) = [].
Proof.
  intros [Hin _] Hb. destruct (Hin b Hb) as (s & E & (s0 & [= <-] & _ & Hr & _) & Hsp & Hm & Hl).
  by exists s.
Qed.

Lemma from_config_stage candidate now :
  NoDup (b_id <$> backends candidate) →
  (1 + N.of_nat (length (backends candidate)) ≤ U64_MAX)%N →
  ∃ st, from_config candidate now = Done st ∧ runtime_wf st
    ∧ config (published_runtime st) = candidate ∧ revision (published_runtime st) = 1%N
    ∧ stage 1 ∅ (registry st) (λ _, Active) candidate.
Proof.
  intros Hnd Hmax.
  assert (registry_wf ∅ ∧ ∀ id s, (∅ : BackendRegistry) !! id = Some s → slot_room 3 s)
    as [Hwf Hroom] by (split; intros id s Hs; by rewrite lookup_empty in Hs).
  destruct (stage_reconcile ∅ candidate Hwf Hroom Hnd) as (report & slots1 & Hrun1 & Hst1 & Ha & _).
  assert (∀ id, id ∈ added report ↔ id ∈ b_id <$> backends candidate) as Hadded.
  { intros id. rewrite Ha, sort_by_elem_of, elem_of_keep. by rewrite lookup_empty; simpl; naive_solver. }
  assert (NoDup (added report)) as Hnda.
  { rewrite Ha, sort_by_perm. rewrite (keep_ext _ (λ _, true)).
    - clear -Hnd. induction (b_id <$> backends candidate); simpl; [constructor|].
      apply NoDup_cons in Hnd as [? ?]. assert (∀ l : list string, keep (λ _, true) l = l) as Hk
        by (intros k; induction k; simpl; congruence). rewrite Hk. by constructor.
    - intros x _. by rewrite lookup_empty. }
  destruct (stage_enter ∅ slots1 _ candidate 1 (λ _, Some Active)
    (λ id, on_registered id (enter_mode Active now)) (added report) now Hst1)
    as (slots2 & Hrun2 & Hst2); [done|done|by intros id; rewrite Hadded|].
  destruct (stage_registry_wf _ _ _ _ _ Hwf Hroom Hst2) as [Hwf2 Hmem2].
  destruct (number_backends_spec 1 ∅ (backends candidate) Hnd Hmax) as (gens & Eg & _ & Hg).
  unfold from_config, mbind, M_mbind, BackendRegistry_new. rewrite Hrun1.
  cbn [result_ok expect mret M_mret]. rewrite Hrun2, Eg.
  eexists. split; [reflexivity|]. split_and!; try done.
  - split; cbn [registry published_runtime config backend_generations next_backend_generation];
      try done. intros b Hb. destruct (Hg b Hb) as (g & ? & ?). exists g. split; [done|lia].
  - eapply stage_ext; [|exact Hst2]. intros b Hb. cbn.
    rewrite decide_True; [done|]. by apply Hadded, list_elem_of_fmap_2.
Qed.

(** Start-up restores every stored mode of a configured backend. *)
Lemma restore_modes_run st candidate modes now :
  runtime_wf st → config (published_runtime st) = candidate →
  stage 1 ∅ (registry st) (λ _, Active) candidate →
  (∀ id, modes !! id ≠ Some Active) →
  ∃ st', restore_modes modes now st = (Done (), st')
    ∧ runtime_wf st' ∧ published_runtime st' = published_runtime st
    ∧ stage 0 ∅ (registry st') (λ id, default Active (modes !! id)) candidate.
Proof.
  intros Hwf Hcfg Hst Hna.
  destruct (registered_ids_spec (registry st) now (rw_registry _ Hwf)) as [Hnd Hel].
  destruct (stage_enter ∅ (registry st) _ candidate 0 (λ id, modes !! id) (restore_mode modes now)
    (registered_ids (registry st) now) now Hst) as (slots' & Hrun & Hst').
  - intros id. unfold restore_mode. specialize (Hna id).
    by destruct (modes !! id) as [[]|].
  - done.
  - intros id Hid%Hel%(rw_members _ Hwf). by rewrite <- Hcfg.
  - assert (registry_wf ∅ ∧ ∀ id s, (∅ : BackendRegistry) !! id = Some s → slot_room 3 s)
      as [Hwf0 Hroom] by (split; intros id s Hs; by rewrite lookup_empty in Hs).
    destruct (stage_registry_wf _ _ _ _ _ Hwf0 Hroom Hst') as [Hwf' Hmem'].
    exists {| published_runtime := published_runtime st; registry := slots' |}. split_and!; try done.
    + unfold restore_modes, on_registry, get_state, mbind, M_mbind. by rewrite Hrun.
    + destruct Hwf as [_ Hids Hgens _]. split; try done. intros id. simpl. by rewrite Hmem', Hcfg.
    + eapply stage_ext; [|exact Hst']. intros b Hb. cbn. rewrite decide_True; [done|].
      apply Hel, (rw_members _ Hwf). rewrite Hcfg. by apply list_elem_of_fmap_2.
Qed.

(** Start-up.  A configuration with distinct identities yields a running state whose
    published view and registry agree, with every configured backend registered, active
    and without leases; nothing in it panics. *)
Theorem from_config_wf candidate now :
  NoDup (b_id <$> backends candidate) →
  (1 + N.of_nat (length (backends candidate)) ≤ U64_MAX)%N →
  ∃ st, from_config candidate now = Done st ∧ runtime_wf st
    ∧ config (published_runtime st) = candidate ∧ revision (published_runtime st) = 1%N
    ∧ ∀ b, b ∈ backends candidate → ∃ s, registry st !! b_id b = Some s
        ∧ registered (state s) = true ∧ mode (state s) = Active
        ∧ spec (state s) = registry_spec b ∧ leases (state s) = [].
Proof.
  intros Hnd Hmax. destruct (from_config_stage candidate now Hnd Hmax) as (st & ? & ? & ? & ? & Hst).
  exists st. split_and!; try done. intros b Hb. by apply (stage_slot 1 _ (λ _, Active) candidate).
Qed.
End ReloadProperties.

Definition demo_config : RuntimeConfig (Uri:=SimpleUri) :=
  match parse (λ _, Ok demo_file) "" with Ok c => c | Err _ => RuntimeConfig_new [] end.

Definition empty_runtime : RuntimeState (Uri:=SimpleUri) :=
  {| published_runtime := {| config := RuntimeConfig_new []; revision := 0;
       backend_generations := ∅; next_backend_generation := 0 |}; registry := ∅ |}.

Definition demo_runtime : RuntimeState (Uri:=SimpleUri) :=
  match from_config demo_config 0 with Done st => st | Panicked => empty_runtime end.

Lemma demo_ids : NoDup (b_id <$> backends demo_config)
  ∧ (1 + N.of_nat (length (backends demo_config)) ≤ U64_MAX)%N.
Proof.
  split; [by apply (bool_decide_unpack (NoDup (b_id <$> backends demo_config)))|by vm_compute].
Qed.

(** Candidates that move [west] to another address, and that add [north]. *)
Definition demo_moved : RuntimeConfig (Uri:=SimpleUri) :=
  RuntimeConfig_new
    (match backends demo_config with
     | east :: west :: _ =>
         [east; {| b_id := b_id west; b_url := b_url east; b_metrics_url := b_metrics_url east;
                   b_readiness_url := b_readiness_url west; b_capacity := None |}]
     | l => l
     end).

Definition demo_extended : RuntimeConfig (Uri:=SimpleUri) :=
  RuntimeConfig_new
    (match backends demo_config with
     | east :: l =>
         east :: {| b_id := "north"; b_url := b_url east; b_metrics_url := b_metrics_url east;
                    b_readiness_url := b_readiness_url east; b_capacity := None |} :: l
     | l => l
     end).

#[export] Instance slot_room_dec k s : Decision (slot_room k s).
Proof. unfold slot_room. apply _. Defined.

Theorem from_config_wf_witness :
  ∃ st, from_config demo_config 0 = Done st ∧ runtime_wf st.
Proof.
  destruct (from_config_wf demo_config 0) as (st & H1 & H2 & _); [apply demo_ids|apply demo_ids|].
  exists st. split; [exact H1|exact H2].
Defined.

Theorem apply_refused_unchanged_witness :
  let r := apply_with_modes demo_moved ∅ 5 demo_runtime in
  r.1 = Done (Err (BackendMustBeDisabled "west" "changed endpoints")) ∧ r.2 = demo_runtime.
Proof.
  assert (apply_with_modes demo_moved ∅ 5 demo_runtime
    = (Done (Err (BackendMustBeDisabled "west" "changed endpoints")),
       (apply_with_modes demo_moved ∅ 5 demo_runtime).2)) as E by (vm_compute; reflexivity).
  split; [by rewrite E|].
  exact (proj1 (apply_refused_unchanged demo_runtime _ demo_moved ∅ 5 _ E)).
Defined.

Theorem apply_accepted_witness :
  ∃ report st', apply_with_modes demo_extended {[ "east" := Draining ]} 5 demo_runtime
                = (Done (Ok report), st')
    ∧ runtime_wf st' ∧ revision (published_runtime st') = 2%N.
Proof.
  destruct (from_config_stage demo_config 0) as (st & E & Hwf & _); [apply demo_ids|apply demo_ids|].
  assert (st = demo_runtime) as -> by (unfold demo_runtime; by rewrite E).
  destruct (apply_accepted demo_runtime demo_extended {[ "east" := Draining ]} 5 Hwf)
    as (report & st' & H1 & [H2 _ H3 _ _ _ _]).
  - split; [|split; [vm_compute; reflexivity|vm_compute; discriminate]].
    apply (bool_decide_unpack (map_Forall (λ _ s, slot_room 3 s) (registry demo_runtime))).
    vm_compute. exact I.
  - apply (bool_decide_unpack (NoDup (b_id <$> backends demo_extended))). vm_compute. exact I.
  - intros old Hold Hun. exfalso.
    assert (Forall (λ old, ¬ unsafe_change (by_id (backends demo_extended)) old)
      (backends (config (published_runtime demo_runtime)))) as Hall.
    { apply (bool_decide_unpack _). vm_compute. exact I. }
    rewrite Forall_forall in Hall. by apply (Hall old Hold).
  - exists report, st'. split; [done|]. split; [done|]. rewrite H3. vm_compute. reflexivity.
Defined.
