(* ===== verification/Routing.v ===== *)
(** * [src/src/routing.rs]: readiness, telemetry, circuit breaking, selection

    [RoutingState] is the runtime together with one [LiveBackend] per
    configured backend; every function that takes the inner lock is an [M
    RoutingState] action.  [select] is the snapshot-and-score phase followed by
    the reservation loop.  The HTTP client (the workers' [fetch_text] and the
    tasks around it) is not modelled; what a worker records is. *)

From S2P Require Import Prelude RustStd Float64 Telemetry Backend Runtime.

(** src/src/routing.rs:29-29 [CIRCUIT_FAILURE_THRESHOLD] *)
Definition CIRCUIT_FAILURE_THRESHOLD : N := 3.
(** src/src/routing.rs:30-30 [CIRCUIT_OPEN_FOR]; ten seconds, in nanoseconds *)
Definition CIRCUIT_OPEN_FOR : N := 10000000000.

(** src/src/routing.rs:37-42 [ReadinessState] *)
Inductive ReadinessState := Checking | Ready | Unready | Unreachable.

(** src/src/routing.rs:57-61 [TelemetryState] *)
Inductive TelemetryState := Fresh | Stale | Unavailable_.

(** src/src/routing.rs:75-79 [CircuitState] *)
Inductive CircuitState := CClosed | COpen | CHalfOpen.

(** src/src/routing.rs:93-103 [BackendDisplayState] *)
Inductive BackendDisplayState :=
| DDisabled | DDraining | DChecking | DUnreachable | DUnready | DCircuitOpen | DProbing
| DDegraded | DReady.

#[export] Instance ReadinessState_eq_dec : EqDecision ReadinessState.
Proof. solve_decision. Defined.
#[export] Instance TelemetryState_eq_dec : EqDecision TelemetryState.
Proof. solve_decision. Defined.
#[export] Instance CircuitState_eq_dec : EqDecision CircuitState.
Proof. solve_decision. Defined.
#[export] Instance BackendDisplayState_eq_dec : EqDecision BackendDisplayState.
Proof. solve_decision. Defined.

(** src/src/routing.rs:44-53 [ReadinessState::Display] *)
Definition ReadinessState_display (self : ReadinessState) : string :=
  match self with
  | Checking => "checking" | Ready => "ready" | Unready => "unready"
  | Unreachable => "unreachable"
  end.

(** src/src/routing.rs:63-71 [TelemetryState::Display] *)
Definition TelemetryState_display (self : TelemetryState) : string :=
  match self with Fresh => "fresh" | Stale => "stale" | Unavailable_ => "unavailable" end.

(** src/src/routing.rs:81-89 [CircuitState::Display] *)
Definition CircuitState_display (self : CircuitState) : string :=
  match self with CClosed => "closed" | COpen => "open" | CHalfOpen => "half_open" end.

(** src/src/routing.rs:105-119 [BackendDisplayState::Display] *)
Definition BackendDisplayState_display (self : BackendDisplayState) : string :=
  match self with
  | DDisabled => "disabled" | DDraining => "draining" | DChecking => "checking"
  | DUnreachable => "unreachable" | DUnready => "unready" | DCircuitOpen => "circuit-open"
  | DProbing => "probing" | DDegraded => "degraded" | DReady => "ready"
  end.

(** src/src/routing.rs:122-125 [ReadinessFailureKind] *)
Inductive ReadinessFailureKind := KUnready | KUnreachable.

(** src/src/routing.rs:128-133 [MetricsObservation] *)
Record MetricsObservation := mkMetricsObservation {
  obs_metrics : MistralRsMetrics;
  observed_at : N;
  dispatches_at_observation : N;
  scrape_serial : N;
}.

(** src/src/routing.rs:136-140 [MetricsScrapeContext] *)
Record MetricsScrapeContext := mkMetricsScrapeContext {
  ctx_serial : N;
  ctx_dispatches : N;
  ctx_observed_at : N;
}.

(** src/src/routing.rs:143-147 [Circuit] *)
Inductive Circuit :=
| Closed
| Open (until : N)
| HalfOpen (trial_in_flight : bool).

(** src/src/routing.rs:150-157 [Circuit::state] *)
Definition Circuit_state (self : Circuit) (now : N) : CircuitState :=
  match self with
  | Closed => CClosed
  | Open until => if (until <=? now)%N then CHalfOpen else COpen
  | HalfOpen _ => CHalfOpen
  end.

(** src/src/routing.rs:161-184 [LiveBackend] *)
Record LiveBackend := mkLiveBackend {
  topology_generation : N;
  lb_readiness : ReadinessState;
  readiness_successes : N;
  readiness_failures : N;
  readiness_error : option string;
  readiness_checked_at : option N;
  metrics : option MetricsObservation;
  metrics_error : option string;
  metrics_attempted_at : option N;
  metrics_generation : N;
  metrics_scrapes_started : N;
  metrics_last_completed_scrape : N;
  engine_idle_streak : N;
  token_rate : option f64;
  previous_token_counter : option (f64 * N);
  prefill_token_rate : option f64;
  previous_prefill_counter : option (f64 * N);
  decode_token_rate : option f64;
  previous_decode_counter : option (f64 * N);
  circuit : Circuit;
  circuit_epoch : N;
  consecutive_request_failures : N;
}.

(** src/src/routing.rs:187-212 [LiveBackend::new] *)
Definition LiveBackend_new (topology_generation : N) : LiveBackend :=
  {| topology_generation := topology_generation;
     lb_readiness := Checking;
     readiness_successes := 0;
     readiness_failures := 0;
     readiness_error := None;
     readiness_checked_at := None;
     metrics := None;
     metrics_error := None;
     metrics_attempted_at := None;
     metrics_generation := 0;
     metrics_scrapes_started := 0;
     metrics_last_completed_scrape := 0;
     engine_idle_streak := 0;
     token_rate := None;
     previous_token_counter := None;
     prefill_token_rate := None;
     previous_prefill_counter := None;
     decode_token_rate := None;
     previous_decode_counter := None;
     circuit := Closed;
     circuit_epoch := 0;
     consecutive_request_failures := 0 |}.

(** ** Small functions *)

(** [Duration::from_millis] in nanoseconds. *)
Definition from_millis (ms : N) : N := (ms * 1000000)%N.

(** src/src/routing.rs:1089-1091 [duration_ms] *)
Definition duration_ms (duration : N) : N := N.min U64_MAX (duration / 1000000).

(** [Duration::as_secs_f64]. *)
Definition as_secs_f64 (duration : N) : f64 :=
  fadd (f64_of_N (duration / 1000000000))
       (fdiv (f64_of_N (duration mod 1000000000)) (f64_of_N 1000000000)).

(** The literals [0.8] and [0.2]. *)
Definition EMA_OLD : f64 := Eval vm_compute in default f64_zero (parse_f64 (bs "0.8")).
Definition EMA_NEW : f64 := Eval vm_compute in default f64_zero (parse_f64 (bs "0.2")).

(** src/src/routing.rs:1023-1045 [counter_rate] *)
Definition counter_rate (current : f64) (previous : option (f64 * N)) (now : N)
    (old_rate : option f64) : option f64 :=
  '(previous_value, at_) ← previous;
  let elapsed := as_secs_f64 (now - at_) in
  if fle elapsed f64_zero then old_rate else
  let delta := if fle previous_value current then fsub current previous_value else current in
  let instant_rate := fdiv delta elapsed in
  Some match old_rate with
       | Some old => fadd (fmul old EMA_OLD) (fmul instant_rate EMA_NEW)
       | None => instant_rate
       end.

(** src/src/routing.rs:1047-1070 [display_state] *)
Definition display_state (mode : BackendMode) (readiness : ReadinessState)
    (telemetry : TelemetryState) (circuit : CircuitState) : BackendDisplayState :=
  match mode with
  | Disabled => DDisabled
  | Draining => DDraining
  | Active =>
      match readiness with
      | Checking => DChecking
      | Unreachable => DUnreachable
      | Unready => DUnready
      | Ready =>
          match circuit with
          | COpen => DCircuitOpen
          | CHalfOpen => DProbing
          | CClosed => if bool_decide (telemetry ≠ Fresh) then DDegraded else DReady
          end
      end
  end.

(** src/src/routing.rs:1072-1080 [rotated_cmp] *)
Definition rotated_cmp (left right : string) (cursor : N) : comparison :=
  if (cursor mod 2 =? 0)%N then String.compare left right else String.compare right left.

(** ** Circuit breaking, on the live record of one backend *)

(** src/src/routing.rs:1082-1087 [bump_circuit_epoch] *)
Definition bump_circuit_epoch : M LiveBackend () :=
  live ← get_state;
  epoch ← expect (checked_add U64_MAX (circuit_epoch live) 1);
  modify (λ live, live <| circuit_epoch := epoch |>).

(** src/src/routing.rs:1098-1104 [CircuitPermit] *)
Record CircuitPermit := mkCircuitPermit {
  permit_id : string;
  permit_epoch : N;
  trial : bool;
  resolved : bool;
}.

(** src/src/routing.rs:300-305 [BodyFailureObserver] *)
Record BodyFailureObserver := mkBodyFailureObserver {
  observer_id : string;
  observer_epoch : N;
  open_immediately : bool;
}.

(** src/src/routing.rs:1093-1096 [CircuitOutcome] *)
Inductive CircuitOutcome := Failure | Neutral.

(** src/src/routing.rs, lines 777-799 of [RoutingState::try_circuit_permit] *)
Definition live_permit (id : string) (now : N) : M LiveBackend (option CircuitPermit) :=
  live ← get_state;
  let grant trial := mret (Some {| permit_id := id; permit_epoch := circuit_epoch live;
                                   trial := trial; resolved := false |}) in
  match circuit live with
  | Closed => grant false
  | Open until =>
      if (until <=? now)%N
      then _ ← modify (λ live, live <| circuit := HalfOpen true |>); grant true
      else mret None
  | HalfOpen trial_in_flight =>
      if trial_in_flight then mret None
      else _ ← modify (λ live, live <| circuit := HalfOpen true |>); grant true
  end.

(** src/src/routing.rs, lines 813-840 of [RoutingState::record_circuit_outcome] *)
Definition live_outcome (epoch : N) (trial : bool) (outcome : CircuitOutcome) (now : N) :
    M LiveBackend () :=
  live ← get_state;
  if negb (circuit_epoch live =? epoch)%N then mret () else
  match outcome with
  | Failure =>
      if trial then
        _ ← modify (λ live, live <| consecutive_request_failures := CIRCUIT_FAILURE_THRESHOLD |>);
        _ ← bump_circuit_epoch;
        modify (λ live, live <| circuit := Open (now + CIRCUIT_OPEN_FOR) |>)
      else
        let failures := saturating_add U32_MAX (consecutive_request_failures live) 1 in
        _ ← modify (λ live, live <| consecutive_request_failures := failures |>);
        if (CIRCUIT_FAILURE_THRESHOLD <=? failures)%N then
          _ ← bump_circuit_epoch;
          modify (λ live, live <| circuit := Open (now + CIRCUIT_OPEN_FOR) |>)
        else mret ()
  | Neutral =>
      if trial then modify (λ live, live <| circuit := HalfOpen false |>) else mret ()
  end.

(** src/src/routing.rs, lines 850-864 of [RoutingState::record_success_and_observer] *)
Definition live_success (id : string) (epoch : N) (trial : bool) :
    M LiveBackend (option BodyFailureObserver) :=
  live ← get_state;
  if negb (circuit_epoch live =? epoch)%N then mret None else
  _ ← modify (λ live, live <| consecutive_request_failures := 0%N |>);
  _ ← (if trial then bump_circuit_epoch else mret ());
  _ ← modify (λ live, live <| circuit := Closed |>);
  live ← get_state;
  mret (Some {| observer_id := id; observer_epoch := circuit_epoch live;
                open_immediately := trial |}).

(** src/src/routing.rs, lines 872-885 of [RoutingState::record_body_failure] *)
Definition live_body_failure (epoch : N) (open_immediately : bool) (now : N) : M LiveBackend () :=
  live ← get_state;
  if negb (circuit_epoch live =? epoch)%N then mret () else
  let failures := if open_immediately then CIRCUIT_FAILURE_THRESHOLD
                  else saturating_add U32_MAX (consecutive_request_failures live) 1 in
  _ ← modify (λ live, live <| consecutive_request_failures := failures |>);
  if (CIRCUIT_FAILURE_THRESHOLD <=? failures)%N then
    _ ← bump_circuit_epoch;
    modify (λ live, live <| circuit := Open (now + CIRCUIT_OPEN_FOR) |>)
  else mret ().

(** ** Readiness and telemetry, on the live record of one backend *)

(** src/src/routing.rs, lines 435-446 of [RoutingState::record_readiness_success_for] *)
Definition live_readiness_success (config : ReadinessConfig) (generation now : N) :
    M LiveBackend (option (ReadinessState * ReadinessState)) :=
  live ← get_state;
  if negb (topology_generation live =? generation)%N then mret None else
  let previous := lb_readiness live in
  let successes := saturating_add U32_MAX (readiness_successes live) 1 in
  _ ← modify (λ live, live <| readiness_checked_at := Some now |>
                           <| readiness_error := None |>
                           <| readiness_failures := 0%N |>
                           <| readiness_successes := successes |>);
  _ ← (if (success_threshold config <=? successes)%N
       then modify (λ live, live <| lb_readiness := Ready |>) else mret ());
  live ← get_state;
  mret (if bool_decide (previous ≠ lb_readiness live)
        then Some (previous, lb_readiness live) else None).

(** src/src/routing.rs, lines 470-484 of [RoutingState::record_readiness_failure_for] *)
Definition live_readiness_failure (config : ReadinessConfig) (generation : N)
    (kind : ReadinessFailureKind) (error : string) (now : N) :
    M LiveBackend (option (ReadinessState * ReadinessState)) :=
  live ← get_state;
  if negb (topology_generation live =? generation)%N then mret None else
  let previous := lb_readiness live in
  let failures := saturating_add U32_MAX (readiness_failures live) 1 in
  _ ← modify (λ live, live <| readiness_checked_at := Some now |>
                           <| readiness_error := Some error |>
                           <| readiness_successes := 0%N |>
                           <| readiness_failures := failures |>);
  _ ← (if (failure_threshold config <=? failures)%N
       then modify (λ live, live <| lb_readiness :=
              match kind with KUnready => Unready | KUnreachable => Unreachable end |>)
       else mret ());
  live ← get_state;
  mret (if bool_decide (previous ≠ lb_readiness live)
        then Some (previous, lb_readiness live) else None).

(** src/src/routing.rs, lines 515-526 of [RoutingState::begin_metrics_scrape] *)
Definition live_begin_scrape (generation dispatches_at_observation observed_at : N) :
    M LiveBackend (option MetricsScrapeContext) :=
  live ← get_state;
  if negb (topology_generation live =? generation)%N then mret None else
  started ← expect (checked_add U64_MAX (metrics_scrapes_started live) 1);
  _ ← modify (λ live, live <| metrics_scrapes_started := started |>);
  mret (Some {| ctx_serial := started;
                ctx_dispatches := dispatches_at_observation;
                ctx_observed_at := observed_at |}).

(** src/src/routing.rs, lines 548-552 of [RoutingState::record_metrics_success_for]; the
    running token counter *)
Definition observe_tokens (tokens : option f64) (now : N) : M LiveBackend () :=
  match tokens with
  | None => mret ()
  | Some tokens =>
      modify (λ live, live
        <| token_rate := counter_rate tokens (previous_token_counter live) now (token_rate live) |>
        <| previous_token_counter := Some (tokens, now) |>)
  end.

(** src/src/routing.rs, lines 553-561 of [RoutingState::record_metrics_success_for] *)
Definition observe_prefill (tokens : option f64) (now : N) : M LiveBackend () :=
  match tokens with
  | None => mret ()
  | Some tokens =>
      modify (λ live, live
        <| prefill_token_rate :=
             counter_rate tokens (previous_prefill_counter live) now (prefill_token_rate live) |>
        <| previous_prefill_counter := Some (tokens, now) |>)
  end.

(** src/src/routing.rs, lines 562-570 of [RoutingState::record_metrics_success_for] *)
Definition observe_decode (tokens : option f64) (now : N) : M LiveBackend () :=
  match tokens with
  | None => mret ()
  | Some tokens =>
      modify (λ live, live
        <| decode_token_rate :=
             counter_rate tokens (previous_decode_counter live) now (decode_token_rate live) |>
        <| previous_decode_counter := Some (tokens, now) |>)
  end.

(** src/src/routing.rs, lines 542-586 of [RoutingState::record_metrics_success_for] *)
Definition live_metrics_success (generation : N) (m : MistralRsMetrics)
    (scrape : MetricsScrapeContext) (now : N) : M LiveBackend () :=
  live ← get_state;
  if negb (topology_generation live =? generation)%N then mret () else
  if (ctx_serial scrape <=? metrics_last_completed_scrape live)%N then mret () else
  _ ← observe_tokens (tokens_processed_total m) now;
  _ ← observe_prefill (prefill_tokens_processed_total m) now;
  _ ← observe_decode (decode_tokens_processed_total m) now;
  let engine_idle := (sequences_running m =? 0)%N && (sequences_waiting m =? 0)%N in
  modify (λ live, live
    <| metrics := Some {| obs_metrics := m;
                          observed_at := ctx_observed_at scrape;
                          dispatches_at_observation := ctx_dispatches scrape;
                          scrape_serial := ctx_serial scrape |} |>
    <| metrics_attempted_at := Some now |>
    <| metrics_generation := wrapping_add U64_MAX (metrics_generation live) 1 |>
    <| metrics_last_completed_scrape := ctx_serial scrape |>
    <| engine_idle_streak := if engine_idle
                             then saturating_add U64_MAX (engine_idle_streak live) 1 else 0%N |>
    <| metrics_error := None |>).

(** src/src/routing.rs, lines 608-620 of [RoutingState::record_metrics_failure_for] *)
Definition live_metrics_failure (generation serial : N) (error : string) (now : N) :
    M LiveBackend () :=
  live ← get_state;
  if negb (topology_generation live =? generation)%N then mret () else
  if (serial <=? metrics_last_completed_scrape live)%N then mret () else
  modify (λ live, live
    <| metrics_last_completed_scrape := serial |>
    <| engine_idle_streak := 0%N |>
    <| metrics_attempted_at := Some now |>
    <| metrics_error := Some error |>).

(** ** Scores and status of one backend *)

(** src/src/routing.rs:359-365 [CandidateMetrics] *)
Record CandidateMetrics := mkCandidateMetrics {
  cm_running : N;
  cm_waiting : N;
  cm_capacity : option N;
  cm_kv_ratio : option f64;
  cm_age : N;
}.

(** src/src/routing.rs:351-356 [Candidate] *)
Record Candidate := mkCandidate {
  cand_id : BackendId;
  local_active : N;
  cand_score : option LeastPressureV1Score;
  cand_metrics : option CandidateMetrics;
}.

(** src/src/routing.rs:318-348 [BackendStatusSnapshot] *)
Record BackendStatusSnapshot := mkBackendStatusSnapshot {
  st_id : string;
  st_url : string;
  st_mode : BackendMode;
  st_state : BackendDisplayState;
  st_readiness : ReadinessState;
  st_telemetry : TelemetryState;
  st_circuit : CircuitState;
  st_eligible : bool;
  st_proxy_active : N;
  st_oldest_proxy_request_ms : option N;
  st_running : option N;
  st_waiting : option N;
  st_reported_capacity : option N;
  st_configured_capacity : option N;
  st_effective_capacity : option N;
  st_capacity_mismatch : bool;
  st_kv_ratio : option f64;
  st_token_rate : option f64;
  st_prefill_token_rate : option f64;
  st_decode_token_rate : option f64;
  st_pressure : option f64;
  st_metrics_age_ms : option N;
  st_metrics_generation : N;
  st_metrics_scrapes_started : N;
  st_metrics_observation_serial : N;
  st_engine_idle_streak : N;
  st_readiness_age_ms : option N;
  st_metrics_error : option string;
  st_readiness_error : option string;
}.

(** src/src/routing.rs:235-247 [RoutingDecision] *)
Record RoutingDecision := mkRoutingDecision {
  dec_backend_id : string;
  routing_policy : string;
  routing_reason : string;
  eligible_backend_count : N;
  backend_pressure_at_dispatch : option f64;
  backend_running_at_dispatch : option N;
  backend_waiting_at_dispatch : option N;
  backend_capacity_at_dispatch : option N;
  backend_kv_pressure_at_dispatch : option f64;
  backend_metrics_age_ms : option N;
  backend_proxy_active_at_dispatch : N;
}.

(** src/src/routing.rs:249-253 [RouteSelection] *)
Record RouteSelection := mkRouteSelection {
  sel_lease : BackendLease;
  decision : RoutingDecision;
  circuit_permit : CircuitPermit;
}.

(** src/src/routing.rs:285-288 [BackendResponseGuard] *)
Record BackendResponseGuard := mkBackendResponseGuard {
  guard_lease : BackendLease;
  body_failure : option BodyFailureObserver;
}.

(** src/src/routing.rs:216-219 [RoutingInner] *)
Record RoutingInner := mkRoutingInner {
  live_backends : gmap string LiveBackend;
  rotating_cursor : N;
}.

(** The smaller of what the engine reports and what the operator configured. *)
(** src/src/routing.rs, lines 911-915 of [score_candidate] *)
Definition effective_capacity (reported configured : option N) : option N :=
  match reported, configured with
  | Some reported, Some configured => Some (N.min reported configured)
  | Some reported, None => Some reported
  | None, configured => configured
  end.

Section Routing.
Context {Uri : Type} `{UriOps Uri}.
Implicit Types (config : Backend (Uri:=Uri)).

(** src/src/routing.rs:895-933 [score_candidate] *)
Definition score_candidate (snapshot : BackendSnapshot) (live : LiveBackend) config
    (now stale_after : N) (kv_soft_limit : f64) :
    option LeastPressureV1Score * option CandidateMetrics :=
  match metrics live with
  | None => (None, None)
  | Some observation =>
      let age := (now - observed_at observation)%N in
      if (stale_after <? age)%N then (None, None) else
      let m := obs_metrics observation in
      let effective := effective_capacity (sequences_capacity m) (b_capacity config) in
      let new_sequences :=
        (snap_total_acquired snapshot - dispatches_at_observation observation)%N in
      let score :=
        capacity ← effective;
        result_ok (least_pressure_v1_with_soft_limit
          (pressure_inputs m (saturating_add U64_MAX new_sequences 1) capacity) kv_soft_limit) in
      (score, Some {| cm_running := sequences_running m;
                      cm_waiting := sequences_waiting m;
                      cm_capacity := effective;
                      cm_kv_ratio := kv_cache_ratio m;
                      cm_age := age |})
  end.

(** src/src/routing.rs:935-1017 [status_snapshot] *)
Definition status_snapshot (snapshot : BackendSnapshot) (live : LiveBackend) config
    (now stale_after : N) (kv_soft_limit : f64) : BackendStatusSnapshot :=
  let telemetry :=
    match metrics live with
    | Some observation =>
        if (now - observed_at observation <=? stale_after)%N then Fresh else Stale
    | None => Unavailable_
    end in
  let circuit := Circuit_state (circuit live) now in
  let eligible := bool_decide (snap_mode snapshot = Active)
    && bool_decide (lb_readiness live = Ready) && bool_decide (circuit ≠ COpen) in
  let state := display_state (snap_mode snapshot) (lb_readiness live) telemetry circuit in
  let observation := metrics live in
  let reported_capacity := sample ← observation; sequences_capacity (obs_metrics sample) in
  let effective_capacity := effective_capacity reported_capacity (b_capacity config) in
  let pressure :=
    if eligible && bool_decide (telemetry = Fresh) then
      sample ← observation;
      capacity ← effective_capacity;
      let new := (snap_total_acquired snapshot - dispatches_at_observation sample)%N in
      pressure <$> result_ok (least_pressure_v1_with_soft_limit
        (pressure_inputs (obs_metrics sample) new capacity) kv_soft_limit)
    else None in
  {| st_id := snapshot_id snapshot;
     st_url := uri_to_string (b_url config);
     st_mode := snap_mode snapshot;
     st_state := state;
     st_readiness := lb_readiness live;
     st_telemetry := telemetry;
     st_circuit := circuit;
     st_eligible := eligible;
     st_proxy_active := snap_local_active snapshot;
     st_oldest_proxy_request_ms := duration_ms <$> snap_oldest_active_age snapshot;
     st_running := (λ sample, sequences_running (obs_metrics sample)) <$> observation;
     st_waiting := (λ sample, sequences_waiting (obs_metrics sample)) <$> observation;
     st_reported_capacity := reported_capacity;
     st_configured_capacity := b_capacity config;
     st_effective_capacity := effective_capacity;
     st_capacity_mismatch :=
       match reported_capacity, b_capacity config with
       | Some reported, Some configured => negb (reported =? configured)%N
       | _, _ => false
       end;
     st_kv_ratio := sample ← observation; kv_cache_ratio (obs_metrics sample);
     st_token_rate := token_rate live;
     st_prefill_token_rate := prefill_token_rate live;
     st_decode_token_rate := decode_token_rate live;
     st_pressure := pressure;
     st_metrics_age_ms := (λ sample, duration_ms (now - observed_at sample)) <$> observation;
     st_metrics_generation := metrics_generation live;
     st_metrics_scrapes_started := metrics_scrapes_started live;
     st_metrics_observation_serial := match observation with
                                      | Some sample => scrape_serial sample | None => 0%N end;
     st_engine_idle_streak := engine_idle_streak live;
     st_readiness_age_ms := (λ at_, duration_ms (now - at_)) <$> readiness_checked_at live;
     st_metrics_error := metrics_error live;
     st_readiness_error := readiness_error live |}.

(** ** The routing state

    [selection] only serialises [select]; it holds no data. *)

(** src/src/routing.rs:222-232 [RoutingState] *)
Record RoutingState := mkRoutingState {
  runtime : RuntimeState (Uri:=Uri);
  inner : RoutingInner;
}.

(** An action on the live record of one identity: [None] when it has none. *)
Definition on_live {A} (id : string) (m : M LiveBackend A) : M RoutingState (option A) :=
  λ s, match live_backends (inner s) !! id with
       | None => (Done None, s)
       | Some live =>
           let '(r, live') := m live in
           (match r with Done a => Done (Some a) | Panicked => Panicked end,
            {| runtime := runtime s;
               inner := {| live_backends := <[id := live']> (live_backends (inner s));
                           rotating_cursor := rotating_cursor (inner s) |} |})
       end.

(** An action on the registry of the runtime. *)
Definition on_backends {A} (m : M BackendRegistry A) : M RoutingState A :=
  λ s, let '(r, rt) := on_registry m (runtime s) in (r, {| runtime := rt; inner := inner s |}).

(** [backend_instances] of the runtime. *)
Definition instances : M RoutingState (list (Backend (Uri:=Uri) * N)) :=
  λ s, (backend_instances (runtime s), s).

(** The published configuration. *)
Definition runtime_config : M RoutingState RuntimeConfig :=
  gets (λ s, config (published_runtime (runtime s))).

(** src/src/routing.rs, lines 399-404 of [RoutingState::ensure_backends]: the generation
    published for every identity *)
Definition generations_of (l : list (Backend (Uri:=Uri) * N)) : gmap string N :=
  foldl (λ m '(backend, generation), <[b_id backend := generation]> m) ∅ l.

(** src/src/routing.rs, lines 406-418 of [RoutingState::ensure_backends]: one round of the loop *)
Definition ensure_backend (id : string) (generation : N) (live : gmap string LiveBackend) :
    gmap string LiveBackend :=
  match live !! id with
  | Some entry =>
      if negb (topology_generation entry =? generation)%N
      then <[id := LiveBackend_new generation]> live else live
  | None => <[id := LiveBackend_new generation]> live
  end.

(** src/src/routing.rs:398-419 [RoutingState::ensure_backends] *)
Definition ensure_backends : M RoutingState () :=
  l ← instances;
  let configured := generations_of l in
  modify (λ s, {| runtime := runtime s;
                  inner := {| live_backends :=
                                map_fold ensure_backend
                                  (filter (λ '(id, _), is_Some (configured !! id))
                                     (live_backends (inner s)))
                                  configured;
                              rotating_cursor := rotating_cursor (inner s) |} |}).

(** src/src/routing.rs:368-380 [RoutingState::new]; [None] is a panic of [backend_instances] *)
Definition RoutingState_new (runtime : RuntimeState) : outcome RoutingState :=
  match backend_instances runtime with
  | Panicked => Panicked
  | Done l =>
      Done {| runtime := runtime;
              inner := {| live_backends :=
                            foldl (λ m '(backend, generation),
                              <[b_id backend := LiveBackend_new generation]> m) ∅ l;
                          rotating_cursor := 0 |} |}
  end.

(** src/src/routing.rs:384-392 [RoutingState::new_assume_ready] *)
Definition RoutingState_new_assume_ready (runtime : RuntimeState) : outcome RoutingState :=
  match RoutingState_new runtime with
  | Panicked => Panicked
  | Done s =>
      Done {| runtime := Routing.runtime s;
              inner := {| live_backends :=
                            (λ live, live <| lb_readiness := Ready |>) <$> live_backends (inner s);
                          rotating_cursor := rotating_cursor (inner s) |} |}
  end.

(** src/src/routing.rs:426-447 [RoutingState::record_readiness_success_for] *)
Definition record_readiness_success_for (id : string) (generation now : N) :
    M RoutingState (option (ReadinessState * ReadinessState)) :=
  config ← runtime_config;
  _ ← ensure_backends;
  r ← on_live id (live_readiness_success (readiness config) generation now);
  mret (mjoin r).

(** src/src/routing.rs:421-424 [RoutingState::record_readiness_success] *)
Definition record_readiness_success (id : string) (now : N) :
    M RoutingState (option (ReadinessState * ReadinessState)) :=
  s ← get_state;
  match backend_generation (runtime s) id with
  | None => mret None
  | Some generation => record_readiness_success_for id generation now
  end.

(** src/src/routing.rs:459-485 [RoutingState::record_readiness_failure_for] *)
Definition record_readiness_failure_for (id : string) (generation : N)
    (kind : ReadinessFailureKind) (error : string) (now : N) :
    M RoutingState (option (ReadinessState * ReadinessState)) :=
  config ← runtime_config;
  _ ← ensure_backends;
  r ← on_live id (live_readiness_failure (readiness config) generation kind error now);
  mret (mjoin r).

(** src/src/routing.rs:449-457 [RoutingState::record_readiness_failure] *)
Definition record_readiness_failure (id : string) (kind : ReadinessFailureKind) (error : string)
    (now : N) : M RoutingState (option (ReadinessState * ReadinessState)) :=
  s ← get_state;
  match backend_generation (runtime s) id with
  | None => mret None
  | Some generation => record_readiness_failure_for id generation kind error now
  end.

(** src/src/routing.rs:497-527 [RoutingState::begin_metrics_scrape] *)
Definition begin_metrics_scrape (id : string) (generation now : N) :
    M RoutingState (option MetricsScrapeContext) :=
  s ← get_state;
  let dispatches := match registry_get (registry (runtime s)) id with
                    | Some slot => snap_total_acquired (BackendSlot_snapshot slot now)
                    | None => 0%N
                    end in
  _ ← ensure_backends;
  r ← on_live id (live_begin_scrape generation dispatches now);
  mret (mjoin r).

(** src/src/routing.rs:529-587 [RoutingState::record_metrics_success_for] *)
Definition record_metrics_success_for (id : string) (generation : N) (m : MistralRsMetrics)
    (scrape : MetricsScrapeContext) (now : N) : M RoutingState () :=
  _ ← ensure_backends;
  _ ← on_live id (live_metrics_success generation m scrape now);
  mret ().

(** src/src/routing.rs:487-495 [RoutingState::record_metrics_success] *)
Definition record_metrics_success (id : string) (m : MistralRsMetrics) (now : N) :
    M RoutingState () :=
  s ← get_state;
  match backend_generation (runtime s) id with
  | None => mret ()
  | Some generation =>
      scrape ← begin_metrics_scrape id generation now;
      match scrape with
      | None => mret ()
      | Some scrape => record_metrics_success_for id generation m scrape now
      end
  end.

(** src/src/routing.rs:599-621 [RoutingState::record_metrics_failure_for] *)
Definition record_metrics_failure_for (id : string) (generation serial : N) (error : string)
    (now : N) : M RoutingState () :=
  _ ← ensure_backends;
  _ ← on_live id (live_metrics_failure generation serial error now);
  mret ().

(** src/src/routing.rs:589-597 [RoutingState::record_metrics_failure] *)
Definition record_metrics_failure (id error : string) (now : N) : M RoutingState () :=
  s ← get_state;
  match backend_generation (runtime s) id with
  | None => mret ()
  | Some generation =>
      scrape ← begin_metrics_scrape id generation now;
      match scrape with
      | None => mret ()
      | Some scrape => record_metrics_failure_for id generation (ctx_serial scrape) error now
      end
  end.

(** ** Circuit permits and observers *)

(** src/src/routing.rs:774-800 [RoutingState::try_circuit_permit] *)
Definition try_circuit_permit (id : string) (now : N) : M RoutingState (option CircuitPermit) :=
  r ← on_live id (live_permit id now);
  mret (mjoin r).

(** src/src/routing.rs:802-841 [RoutingState::record_circuit_outcome] *)
Definition record_circuit_outcome (id : string) (epoch : N) (trial : bool)
    (outcome : CircuitOutcome) (now : N) : M RoutingState () :=
  _ ← on_live id (live_outcome epoch trial outcome now);
  mret ().

(** src/src/routing.rs:843-865 [RoutingState::record_success_and_observer] *)
Definition record_success_and_observer (id : string) (epoch : N) (trial : bool) :
    M RoutingState (option BodyFailureObserver) :=
  r ← on_live id (live_success id epoch trial);
  mret (mjoin r).

(** src/src/routing.rs:867-886 [RoutingState::record_body_failure] *)
Definition record_body_failure (id : string) (epoch : N) (open_immediately : bool) (now : N) :
    M RoutingState () :=
  _ ← on_live id (live_body_failure epoch open_immediately now);
  mret ().

(** src/src/routing.rs:1107-1114 [CircuitPermit::success_with_body_observer] *)
Definition success_with_body_observer (self : CircuitPermit) :
    M RoutingState (option BodyFailureObserver * CircuitPermit) :=
  if resolved self then mret (None, self) else
  let self := self <| resolved := true |> in
  observer ← record_success_and_observer (permit_id self) (permit_epoch self) (trial self);
  mret (observer, self).

(** src/src/routing.rs:1124-1135 [CircuitPermit::resolve] *)
Definition resolve (self : CircuitPermit) (outcome : CircuitOutcome) (now : N) :
    M RoutingState CircuitPermit :=
  if resolved self then mret self else
  let self := self <| resolved := true |> in
  _ ← record_circuit_outcome (permit_id self) (permit_epoch self) (trial self) outcome now;
  mret self.

(** src/src/routing.rs:1116-1118 [CircuitPermit::failure] *)
Definition CircuitPermit_failure (self : CircuitPermit) (now : N) : M RoutingState CircuitPermit :=
  resolve self Failure now.

(** src/src/routing.rs:1120-1122 [CircuitPermit::neutral] *)
Definition CircuitPermit_neutral (self : CircuitPermit) (now : N) : M RoutingState CircuitPermit :=
  resolve self Neutral now.

(** src/src/routing.rs:1138-1144 [CircuitPermit::Drop] *)
Definition CircuitPermit_drop (self : CircuitPermit) (now : N) : M RoutingState () :=
  if negb (resolved self) then _ ← CircuitPermit_neutral self now; mret () else mret ().

(** src/src/routing.rs:308-314 [BodyFailureObserver::failure] *)
Definition BodyFailureObserver_failure (self : BodyFailureObserver) (now : N) :
    M RoutingState () :=
  record_body_failure (observer_id self) (observer_epoch self) (open_immediately self) now.

(** Dropping a lease: [BackendLease::drop] on the slot its [Arc] points to. *)
Definition drop_lease (lease : BackendLease) : M RoutingState () :=
  _ ← on_backends (on_slot (lease_slot lease) (BackendLease_drop lease));
  mret ().

(** src/src/routing.rs:256-270 [RouteSelection::into_response_guard] *)
Definition into_response_guard (self : RouteSelection) (status : N) (now : N) :
    M RoutingState BackendResponseGuard :=
  '(body_failure, permit) ←
    (if bool_decide (status ∈ [500; 502; 503; 504]%N) then
       permit ← CircuitPermit_failure (circuit_permit self) now; mret (None, permit)
     else if negb (status =? 429)%N then success_with_body_observer (circuit_permit self)
     else permit ← CircuitPermit_neutral (circuit_permit self) now; mret (None, permit));
  _ ← CircuitPermit_drop permit now;
  mret {| guard_lease := sel_lease self; body_failure := body_failure |}.

(** src/src/routing.rs:272-275 [RouteSelection::record_transport_failure]; then the fields drop in
    their order *)
Definition record_transport_failure (self : RouteSelection) (now : N) : M RoutingState () :=
  permit ← CircuitPermit_failure (circuit_permit self) now;
  _ ← drop_lease (sel_lease self);
  CircuitPermit_drop permit now.

(** A selection dropped without an outcome: its fields in their order. *)
Definition RouteSelection_drop (self : RouteSelection) (now : N) : M RoutingState () :=
  _ ← drop_lease (sel_lease self);
  CircuitPermit_drop (circuit_permit self) now.

(** src/src/routing.rs:277-279 [RouteSelection::backend_url] *)
Definition backend_url (self : RouteSelection) : string := endpoint (lease_spec (sel_lease self)).

(** src/src/routing.rs:291-291 [BackendResponseGuard::complete] *)
Definition guard_complete (self : BackendResponseGuard) : BackendResponseGuard := self.

(** src/src/routing.rs:293-297 [BackendResponseGuard::body_error] *)
Definition body_error (self : BackendResponseGuard) (now : N) :
    M RoutingState BackendResponseGuard :=
  _ ← match body_failure self with
      | Some observer => BodyFailureObserver_failure observer now
      | None => mret ()
      end;
  mret (self <| body_failure := None |>).

(** A guard dropped: its lease is released, an unused observer has no effect. *)
Definition guard_drop (self : BackendResponseGuard) : M RoutingState () :=
  drop_lease (guard_lease self).

(** ** Selection *)

(** src/src/routing.rs, lines 632-637 of [RoutingState::select] *)
Definition configs_of (l : list (Backend (Uri:=Uri) * N)) : gmap string (Backend (Uri:=Uri) * N) :=
  foldl (λ m '(backend, generation), <[b_id backend := (backend, generation)]> m) ∅ l.

(** src/src/routing.rs, lines 645-671 of [RoutingState::select]: one round of the loop *)
Definition candidate_of (live : gmap string LiveBackend)
    (configs : gmap string (Backend (Uri:=Uri) * N)) (now stale_after : N) (kv_soft_limit : f64)
    (snapshot : BackendSnapshot) : option Candidate :=
  if bool_decide (snap_mode snapshot ≠ Active) then None else
  live ← live !! snapshot_id snapshot;
  if bool_decide (lb_readiness live ≠ Ready)
     || bool_decide (Circuit_state (circuit live) now = COpen) then None else
  '(config, generation) ← configs !! snapshot_id snapshot;
  if negb (topology_generation live =? generation)%N then None else
  let '(score, metrics) := score_candidate snapshot live config now stale_after kv_soft_limit in
  Some {| cand_id := snapshot_id snapshot;
          local_active := snap_local_active snapshot;
          cand_score := score;
          cand_metrics := metrics |}.

(** src/src/routing.rs, lines 630-675 of [RoutingState::select]: the snapshot-and-score phase *)
Definition candidates_phase (now : N) : M RoutingState (list Candidate * N) :=
  s ← get_state;
  let snapshots := registry_snapshots (registry (runtime s)) now in
  l ← instances;
  config ← runtime_config;
  let stale_after := from_millis (stale_after_ms (telemetry config)) in
  let limit := kv_soft_limit (routing config) in
  _ ← ensure_backends;
  s ← get_state;
  let candidates := omap (candidate_of (live_backends (inner s)) (configs_of l) now stale_after limit)
                      snapshots in
  let cursor := rotating_cursor (inner s) in
  _ ← modify (λ s, {| runtime := runtime s;
                      inner := {| live_backends := live_backends (inner s);
                                  rotating_cursor := wrapping_add U64_MAX cursor 1 |} |});
  mret (candidates, cursor).

Definition is_scored (candidate : Candidate) : bool := bool_decide (is_Some (cand_score candidate)).

(** The pressure of a retained candidate (the source's [expect]: only scored ones are kept). *)
Definition pressure_of (candidate : Candidate) : f64 :=
  default f64_zero (pressure <$> cand_score candidate).

(** src/src/routing.rs, lines 684-691 of [RoutingState::select]: the comparator of scored
    candidates *)
Definition scored_cmp (cursor : N) (left right : Candidate) : comparison :=
  then_with (total_cmp (pressure_of left) (pressure_of right))
    (then_with (local_active left ?= local_active right)%N
       (rotated_cmp (cand_id left) (cand_id right) cursor)).

(** src/src/routing.rs, lines 693-697 of [RoutingState::select]: the fallback comparator *)
Definition fallback_cmp (cursor : N) (left right : Candidate) : comparison :=
  then_with (local_active left ?= local_active right)%N
    (rotated_cmp (cand_id left) (cand_id right) cursor).

(** src/src/routing.rs, lines 681-698 of [RoutingState::select]: the order of attempts *)
Definition rank (candidates : list Candidate) (cursor : N) : list Candidate :=
  if existsb is_scored candidates
  then sort_by (scored_cmp cursor) (keep is_scored candidates)
  else sort_by (fallback_cmp cursor) candidates.

(** src/src/routing.rs, lines 711-729 of [RoutingState::select] *)
Definition decision_of (candidate : Candidate) (eligible : N) : RoutingDecision :=
  let metrics := cand_metrics candidate in
  {| dec_backend_id := cand_id candidate;
     routing_policy := "least-pressure-v1";
     routing_reason := if is_scored candidate then "fresh_metrics_lowest_pressure"
                       else "least_inflight_fallback";
     eligible_backend_count := eligible;
     backend_pressure_at_dispatch := pressure <$> cand_score candidate;
     backend_running_at_dispatch := cm_running <$> metrics;
     backend_waiting_at_dispatch := cm_waiting <$> metrics;
     backend_capacity_at_dispatch := metrics ← metrics; cm_capacity metrics;
     backend_kv_pressure_at_dispatch := metrics ← metrics; cm_kv_ratio metrics;
     backend_metrics_age_ms := (λ metrics, duration_ms (cm_age metrics)) <$> metrics;
     backend_proxy_active_at_dispatch := (local_active candidate + 1)%N |}.

(** src/src/routing.rs, lines 701-732 of [RoutingState::select]: one attempt, at the instants
    the permit and the lease are taken *)
Definition attempt (candidate : Candidate) (eligible permit_at acquire_at : N) :
    M RoutingState (option RouteSelection) :=
  permit ← try_circuit_permit (cand_id candidate) permit_at;
  match permit with
  | None => mret None
  | Some permit =>
      lease ← on_backends (registry_try_acquire (cand_id candidate) acquire_at);
      match lease with
      | Err _ => _ ← CircuitPermit_drop permit acquire_at; mret None
      | Ok lease => mret (Some {| sel_lease := lease;
                                  decision := decision_of candidate eligible;
                                  circuit_permit := permit |})
      end
  end.

(** src/src/routing.rs, lines 700-734 of [RoutingState::select]: the reservation loop; [clock]
    gives the two instants of each attempt *)
Fixpoint reserve (clock : string → N * N) (eligible : N) (candidates : list Candidate) :
    M RoutingState (option RouteSelection) :=
  match candidates with
  | [] => mret None
  | candidate :: candidates =>
      let '(permit_at, acquire_at) := clock (cand_id candidate) in
      r ← attempt candidate eligible permit_at acquire_at;
      match r with
      | Some selection => mret (Some selection)
      | None => reserve clock eligible candidates
      end
  end.

(** src/src/routing.rs:623-735 [RoutingState::select] *)
Definition select (now : N) (clock : string → N * N) : M RoutingState (option RouteSelection) :=
  '(candidates, cursor) ← candidates_phase now;
  if bool_decide (candidates = []) then mret None else
  reserve clock (N.of_nat (length candidates)) (rank candidates cursor).

(** ** Status *)

(** src/src/routing.rs, lines 753-765 of [RoutingState::statuses]: one snapshot *)
Definition status_of (live : gmap string LiveBackend)
    (configs : gmap string (Backend (Uri:=Uri) * N)) (now stale_after : N) (kv_soft_limit : f64)
    (snapshot : BackendSnapshot) : option BackendStatusSnapshot :=
  '(config, generation) ← configs !! snapshot_id snapshot;
  live ← live !! snapshot_id snapshot;
  if negb (topology_generation live =? generation)%N then None else
  Some (status_snapshot snapshot live config now stale_after kv_soft_limit).

(** src/src/routing.rs:737-768 [RoutingState::statuses] *)
Definition statuses (now : N) : M RoutingState (list BackendStatusSnapshot) :=
  config ← runtime_config;
  l ← instances;
  s ← get_state;
  let snapshots := registry_snapshots (registry (runtime s)) now in
  _ ← ensure_backends;
  s ← get_state;
  mret (omap (status_of (live_backends (inner s)) (configs_of l) now
                (from_millis (stale_after_ms (telemetry config)))
                (kv_soft_limit (routing config))) snapshots).

(** src/src/routing.rs:770-772 [RoutingState::status] *)
Definition status (id : string) (now : N) : M RoutingState (option BackendStatusSnapshot) :=
  l ← statuses now;
  mret (head (keep (λ status, bool_decide (st_id status = id)) l)).
End Routing.

(** ** The live map *)

Section Ensure.
Context {Uri : Type} `{UriOps Uri}.
Implicit Types (s : RoutingState (Uri:=Uri)).

(** What [ensure_backends] leaves of an entry: the record of the published generation, a new
    one when there was none or it belonged to another generation. *)
Definition ensured (generation : option N) (live : option LiveBackend) : option LiveBackend :=
  generation ← generation;
  Some match live with
       | Some live => if (topology_generation live =? generation)%N then live
                      else LiveBackend_new generation
       | None => LiveBackend_new generation
       end.

Lemma ensure_lookup (configured : gmap string N) (live : gmap string LiveBackend) id :
  map_fold ensure_backend (filter (λ '(id, _), is_Some (configured !! id)) live) configured !! id
  = ensured (configured !! id) (live !! id).
Proof.
  set (kept := filter (λ '(id, _), is_Some (configured !! id)) live).
  assert (∀ r m, r = map_fold ensure_backend kept m → ∀ id,
    r !! id = match m !! id with Some g => ensured (Some g) (kept !! id) | None => kept !! id end)
    as Hfold.
  { intros r m ->. revert m.
    apply (map_fold_weak_ind (λ r m, ∀ id, r !! id = match m !! id with
        Some g => ensured (Some g) (kept !! id) | None => kept !! id end)).
    - intros i. by rewrite lookup_empty.
    - intros i g m r Hi IH j. unfold ensure_backend.
      pose proof (IH i) as IHi. rewrite Hi in IHi. rewrite IHi.
      destruct (decide (i = j)) as [<-|Hne].
      + rewrite lookup_insert_eq. unfold ensured; simpl.
        destruct (kept !! i) as [e|] eqn:E; simpl; [|by rewrite lookup_insert_eq].
        destruct (topology_generation e =? g)%N; simpl; [by rewrite IHi|by rewrite lookup_insert_eq].
      + rewrite (lookup_insert_ne m) by done. rewrite <- IH.
        destruct (kept !! i); simpl; [destruct (negb _)|]; by rewrite ?lookup_insert_ne. }
  rewrite (Hfold _ _ eq_refl id). unfold kept.
  destruct (configured !! id) as [g|] eqn:E.
  - destruct (live !! id) as [e|] eqn:El.
    + rewrite (map_lookup_filter_Some_2 _ _ _ _ El); [done|]. rewrite E. by eexists.
    + rewrite map_lookup_filter_None_2; [done|by left].
  - rewrite map_lookup_filter_None_2; [done|]. right. intros x _. rewrite E. by intros [? ?].
Qed.
End Ensure.
