(* ===== verification/Circuit.v ===== *)
(** * Properties of the circuit breaker of [src/src/routing.rs]

    [circuit_step] interleaves, on the live record of one backend, the permits
    it grants, the outcomes and body failures the holders of permits and
    observers report, and the readiness and telemetry recordings.
    [circuit_invariant] holds on every reachable state; [circuit_opens] and
    [circuit_recovery] say what a sequence of outcomes does. *)

From S2P Require Import Prelude RustStd Float64 Telemetry Backend Runtime Routing.

(** Unfold an action on a live record. *)
Ltac run_live :=
  unfold live_permit, live_outcome, live_success, live_body_failure, bump_circuit_epoch,
    live_readiness_success, live_readiness_failure, live_begin_scrape, live_metrics_success,
    live_metrics_failure, observe_tokens, observe_prefill, observe_decode,
    get_state, modify, expect, panic, mbind, M_mbind, mret, M_mret in *.

(** Split the tests an unfolded action on a live record makes. *)
Ltac split_live :=
  repeat match goal with
    | |- context [checked_add ?m ?a ?b] =>
        let E := fresh "Hadd" in destruct (checked_add m a b) eqn:E; simpl in *;
        [apply checked_add_Some in E as [-> E]|]
    | |- context [if ?b then _ else _] =>
        let E := fresh "Hb" in destruct b eqn:E; simpl in *
    end.

(** ** Consecutive failures open the circuit *)

(** What holders of permits and observers granted while the circuit was closed report. *)
Inductive CircuitEvent :=
| EFailure (now : N)
| EBodyFailure (now : N)
| ENeutral
| ESuccess.

Definition event_run (epoch : N) (ev : CircuitEvent) : M LiveBackend () :=
  match ev with
  | EFailure now => live_outcome epoch false Failure now
  | EBodyFailure now => live_body_failure epoch false now
  | ENeutral => live_outcome epoch false Neutral 0
  | ESuccess => _ ← live_success "" epoch false; mret ()
  end.

(** The instant of the first failure that is the third without a success between, when [k]
    failures came before. *)
Fixpoint third_failure (k : N) (l : list CircuitEvent) : option N :=
  match l with
  | [] => None
  | (EFailure now | EBodyFailure now) :: l =>
      if (k =? 2)%N then Some now else third_failure (k + 1) l
  | ENeutral :: l => third_failure k l
  | ESuccess :: l => third_failure 0 l
  end.

Lemma event_stale epoch ev live :
  circuit_epoch live ≠ epoch → event_run epoch ev live = (Done (), live).
Proof.
  intros He. apply N.eqb_neq in He.
  destruct ev; simpl; run_live; by rewrite He.
Qed.

Lemma events_stale epoch l live :
  circuit_epoch live ≠ epoch → for_each l (event_run epoch) live = (Done (), live).
Proof.
  intros He. induction l as [|ev l IH]; simpl; [done|].
  unfold mbind, M_mbind. by rewrite event_stale.
Qed.

Lemma saturating_small k : (k < 3)%N → saturating_add U32_MAX k 1 = (k + 1)%N.
Proof. unfold saturating_add, U32_MAX. lia. Qed.

(** A failure reported in the current epoch of a closed circuit. *)
Lemma failure_run live now k ev :
  ev = EFailure now ∨ ev = EBodyFailure now →
  circuit live = Closed → consecutive_request_failures live = k → (k < 3)%N →
  (circuit_epoch live < U64_MAX)%N →
  ∃ live', event_run (circuit_epoch live) ev live = (Done (), live')
    ∧ if (k =? 2)%N
      then circuit live' = Open (now + CIRCUIT_OPEN_FOR)
           ∧ circuit_epoch live' = (circuit_epoch live + 1)%N
           ∧ consecutive_request_failures live' = 3%N
      else circuit live' = Closed ∧ circuit_epoch live' = circuit_epoch live
           ∧ consecutive_request_failures live' = (k + 1)%N.
Proof.
  intros Hev Hc Hk Hlt He.
  assert (checked_add U64_MAX (circuit_epoch live) 1 = Some (circuit_epoch live + 1)%N) as Hadd.
  { apply checked_add_Some. split; [done|]. lia. }
  assert ((CIRCUIT_FAILURE_THRESHOLD <=? k + 1)%N = (k =? 2)%N) as Hth.
  { unfold CIRCUIT_FAILURE_THRESHOLD.
    destruct (N.leb_spec 3 (k + 1)), (N.eqb_spec k 2); lia || done. }
  destruct live; simpl in *; subst.
  destruct Hev as [-> | ->]; simpl; run_live; simpl; rewrite N.eqb_refl; simpl;
    rewrite saturating_small, Hth by done;
    (destruct (_ =? 2)%N eqn:E2; [rsimpl; rewrite Hadd|]);
    eexists; (split; [reflexivity|]); rsimpl; split_and!; try done; nbool; lia.
Qed.

Lemma circuit_events live k l :
  circuit live = Closed → consecutive_request_failures live = k → (k < 3)%N →
  (circuit_epoch live < U64_MAX)%N →
  ∃ live', for_each l (event_run (circuit_epoch live)) live = (Done (), live')
    ∧ match third_failure k l with
      | None => circuit live' = Closed ∧ circuit_epoch live' = circuit_epoch live
      | Some now => circuit live' = Open (now + CIRCUIT_OPEN_FOR)
                    ∧ circuit_epoch live' = (circuit_epoch live + 1)%N
      end.
Proof.
  revert live k. induction l as [|ev l IH]; intros live k Hc Hk Hlt He; simpl.
  { by exists live. }
  assert (∀ now, ev = EFailure now ∨ ev = EBodyFailure now →
    ∃ live', (event_run (circuit_epoch live) ev ;; for_each l (event_run (circuit_epoch live))) live
             = (Done (), live')
      ∧ match (if (k =? 2)%N then Some now else third_failure (k + 1) l) with
        | None => circuit live' = Closed ∧ circuit_epoch live' = circuit_epoch live
        | Some now => circuit live' = Open (now + CIRCUIT_OPEN_FOR)
                      ∧ circuit_epoch live' = (circuit_epoch live + 1)%N
        end) as Hfail.
  { intros now Hev. destruct (failure_run live now k ev) as (l1 & Hrun & Hl1); try done.
    unfold mbind, M_mbind. rewrite Hrun. destruct (k =? 2)%N eqn:E2.
    - exists l1. rewrite events_stale by (destruct Hl1 as (_ & -> & _); lia). by destruct_and!.
    - destruct Hl1 as (Hc1 & He1 & Hf1). rewrite <- He1.
      apply (IH l1); try done; [|by rewrite He1]. nbool. lia. }
  destruct ev; [by apply Hfail; left|by apply Hfail; right| |].
  - unfold mbind, M_mbind. simpl. run_live. rewrite N.eqb_refl. simpl. by apply IH.
  - set (l1 := live <| consecutive_request_failures := 0%N |> <| circuit := Closed |>).
    unfold mbind, M_mbind. simpl. run_live. rewrite N.eqb_refl. simpl.
    change (circuit_epoch live) with (circuit_epoch l1). apply (IH l1 0%N); done.
Qed.

(** The circuit opens on the third consecutive failure.  Starting from a closed circuit
    without failures, any sequence of outcomes and body failures reported in its epoch leaves
    it closed unless three failures come without a success between them (neutral outcomes do
    not count); then it is open until ten seconds after the third, in the next epoch, and
    everything reported in the old epoch afterwards is ignored. *)
Theorem circuit_opens (live : LiveBackend) (l : list CircuitEvent) :
  circuit live = Closed → consecutive_request_failures live = 0%N →
  (circuit_epoch live < U64_MAX)%N →
  ∃ live', for_each l (event_run (circuit_epoch live)) live = (Done (), live')
    ∧ match third_failure 0 l with
      | None => circuit live' = Closed ∧ circuit_epoch live' = circuit_epoch live
      | Some now => circuit live' = Open (now + CIRCUIT_OPEN_FOR)
                    ∧ circuit_epoch live' = (circuit_epoch live + 1)%N
      end.
Proof. intros Hc Hf He. by apply (circuit_events live 0). Qed.

Theorem circuit_opens_witness :
  ∃ live', for_each [EFailure 1; EFailure 2; ENeutral; EBodyFailure 7; ESuccess] (event_run 0)
             (LiveBackend_new 1) = (Done (), live')
    ∧ circuit live' = Open 10000000007 ∧ circuit_epoch live' = 1%N.
Proof.
  exact (circuit_opens (LiveBackend_new 1)
    [EFailure 1; EFailure 2; ENeutral; EBodyFailure 7; ESuccess] eq_refl eq_refl eq_refl).
Defined.

(** ** The half-open trial *)

(** C36: recovery of an open circuit.  Before its deadline every permit is refused; the first
    request from the deadline on gets a trial permit, and while it is out nobody else gets one.
    A failed trial reopens the circuit for ten more seconds, a neutral one lets the next
    request try, and a successful one closes it with no failures counted, and a failure of
    that response's body reported next reopens it at once. *)
Theorem circuit_recovery (live : LiveBackend) (until : N) (id : string) :
  circuit live = Open until → (circuit_epoch live + 1 < U64_MAX)%N →
  (∀ now, (now < until)%N → live_permit id now live = (Done None, live))
  ∧ ∀ now, (until ≤ now)%N →
    ∃ p live1, live_permit id now live = (Done (Some p), live1) ∧ trial p = true
      ∧ (∀ id' now', live_permit id' now' live1 = (Done None, live1))
      ∧ (∀ t, ∃ live2, live_outcome (permit_epoch p) (trial p) Failure t live1 = (Done (), live2)
              ∧ circuit live2 = Open (t + CIRCUIT_OPEN_FOR)
              ∧ circuit_epoch live2 = (circuit_epoch live + 1)%N)
      ∧ (∀ t, ∃ live2, live_outcome (permit_epoch p) (trial p) Neutral t live1 = (Done (), live2)
              ∧ ∀ id' now', ∃ p' live3, live_permit id' now' live2 = (Done (Some p'), live3)
                            ∧ trial p' = true)
      ∧ ∃ o live2, live_success id (permit_epoch p) (trial p) live1 = (Done (Some o), live2)
          ∧ circuit live2 = Closed ∧ consecutive_request_failures live2 = 0%N
          ∧ ∀ t, ∃ live3, live_body_failure (observer_epoch o) (open_immediately o) t live2
                          = (Done (), live3)
                 ∧ circuit live3 = Open (t + CIRCUIT_OPEN_FOR).
Proof.
  intros Hc He. destruct live; simpl in *; subst.
  assert (∀ e, (e < U64_MAX)%N → checked_add U64_MAX e 1 = Some (e + 1)%N) as Hadd.
  { intros e ?. apply checked_add_Some. lia. }
  split; intros now Hnow; run_live; simpl.
  { assert ((until <=? now)%N = false) as -> by (apply N.leb_gt; lia). done. }
  apply N.leb_le in Hnow. rewrite Hnow. rsimpl. eexists _, _. split; [reflexivity|].
  split; [done|]. split; [done|]. simpl. rewrite N.eqb_refl. simpl.
  rewrite !Hadd by lia. split; [|split].
  - intros t. eexists. split; [reflexivity|]. done.
  - intros t. eexists. split; [reflexivity|]. intros id' now'. simpl.
    eexists _, _. split; [reflexivity|]. done.
  - eexists _, _. split; [reflexivity|]. simpl. split_and!; try done. intros t.
    rewrite N.eqb_refl. rsimpl. rewrite Hadd by lia. eexists. split; [reflexivity|]. done.
Qed.

Definition demo_open : LiveBackend := (LiveBackend_new 1) <| circuit := Open 50 |>.

Theorem circuit_recovery_witness :
  live_permit "east" 49 demo_open = (Done None, demo_open)
  ∧ ∃ p live1, live_permit "east" 50 demo_open = (Done (Some p), live1) ∧ trial p = true.
Proof.
  destruct (circuit_recovery demo_open 50 "east" eq_refl) as [H1 H2]; [vm_compute; reflexivity|].
  split; [apply H1; vm_compute; reflexivity|].
  destruct (H2 50%N) as (p & l1 & Hp & Ht & _); [vm_compute; discriminate|].
  exists p, l1. split; [exact Hp|exact Ht].
Defined.

(** ** All interleavings *)

(** Recordings on the same live record that have nothing to do with the circuit. *)
Inductive HealthOp :=
| HReady (config : ReadinessConfig) (generation now : N)
| HNotReady (config : ReadinessConfig) (generation : N) (kind : ReadinessFailureKind)
            (error : string) (now : N)
| HScrape (generation dispatches now : N)
| HMetrics (generation : N) (m : MistralRsMetrics) (scrape : MetricsScrapeContext) (now : N)
| HNoMetrics (generation serial : N) (error : string) (now : N).

Definition run_health (op : HealthOp) : M LiveBackend () :=
  match op with
  | HReady c g now => _ ← live_readiness_success c g now; mret ()
  | HNotReady c g k e now => _ ← live_readiness_failure c g k e now; mret ()
  | HScrape g d now => _ ← live_begin_scrape g d now; mret ()
  | HMetrics g m c now => live_metrics_success g m c now
  | HNoMetrics g n e now => live_metrics_failure g n e now
  end.

Definition same_circuit (live live' : LiveBackend) : Prop :=
  circuit live' = circuit live ∧ circuit_epoch live' = circuit_epoch live
  ∧ consecutive_request_failures live' = consecutive_request_failures live.

Lemma health_same_circuit op :
  ∀ live, same_circuit live (run_health op live).2.
Proof.
  intros live. unfold same_circuit.
  destruct op as [| | |g m c now|]; destruct live; simpl; run_live; simpl;
    try (split_live; done).
  destruct (negb _); [done|]. destruct (_ <=? _)%N; [done|].
  destruct (tokens_processed_total m), (prefill_tokens_processed_total m),
    (decode_tokens_processed_total m); done.
Qed.

(** A backend's live record, the unresolved permits and the unused observers. *)
Record CircuitSystem := mkCircuitSystem {
  cs_live : LiveBackend;
  permits : list CircuitPermit;
  observers : list BodyFailureObserver;
}.

Inductive circuit_step : CircuitSystem → CircuitSystem → Prop :=
| step_permit id now live live' p ps os :
    live_permit id now live = (Done p, live') →
    circuit_step (mkCircuitSystem live ps os) (mkCircuitSystem live' (option_list p ++ ps) os)
| step_outcome o now live live' p ps1 ps2 os :
    live_outcome (permit_epoch p) (trial p) o now live = (Done (), live') →
    circuit_step (mkCircuitSystem live (ps1 ++ p :: ps2) os)
                 (mkCircuitSystem live' (ps1 ++ ps2) os)
| step_success live live' p o ps1 ps2 os :
    live_success (permit_id p) (permit_epoch p) (trial p) live = (Done o, live') →
    circuit_step (mkCircuitSystem live (ps1 ++ p :: ps2) os)
                 (mkCircuitSystem live' (ps1 ++ ps2) (option_list o ++ os))
| step_body_failure now live live' o ps os1 os2 :
    live_body_failure (observer_epoch o) (open_immediately o) now live = (Done (), live') →
    circuit_step (mkCircuitSystem live ps (os1 ++ o :: os2))
                 (mkCircuitSystem live' ps (os1 ++ os2))
| step_body_complete live o ps os1 os2 :
    circuit_step (mkCircuitSystem live ps (os1 ++ o :: os2)) (mkCircuitSystem live ps (os1 ++ os2))
| step_health op live live' ps os :
    run_health op live = (Done (), live') →
    circuit_step (mkCircuitSystem live ps os) (mkCircuitSystem live' ps os).

(** The permits that still count. *)
Definition current (e : N) (ps : list CircuitPermit) : list CircuitPermit :=
  keep (λ p, permit_epoch p =? e)%N ps.

Definition observed_current (e : N) (os : list BodyFailureObserver) : list BodyFailureObserver :=
  keep (λ o, observer_epoch o =? e)%N os.

(** What the state of the circuit says about them. *)
Definition circuit_state_ok (c : Circuit) (failures : N) (ps : list CircuitPermit)
    (os : list BodyFailureObserver) : Prop :=
  match c with
  | Closed => (failures < 3)%N ∧ Forall (λ p, trial p = false) ps
  | Open _ => failures = 3%N ∧ ps = [] ∧ os = []
  | HalfOpen false => failures = 3%N ∧ ps = [] ∧ os = []
  | HalfOpen true => failures = 3%N ∧ (∃ p, ps = [p] ∧ trial p = true) ∧ os = []
  end.

Record circuit_inv (sys : CircuitSystem) : Prop := {
  ci_permits : Forall (λ p, permit_epoch p ≤ circuit_epoch (cs_live sys))%N (permits sys);
  ci_observers : Forall (λ o, observer_epoch o ≤ circuit_epoch (cs_live sys))%N (observers sys);
  ci_state : circuit_state_ok (circuit (cs_live sys)) (consecutive_request_failures (cs_live sys))
               (current (circuit_epoch (cs_live sys)) (permits sys))
               (observed_current (circuit_epoch (cs_live sys)) (observers sys));
}.

Lemma current_remove e ps1 p ps2 :
  current e (ps1 ++ p :: ps2) = current e ps1 ++ (if (permit_epoch p =? e)%N then [p] else [])
                                ++ current e ps2.
Proof. unfold current. rewrite List.filter_app. simpl. by destruct (_ =? _)%N. Qed.

Lemma current_app e ps1 ps2 : current e (ps1 ++ ps2) = current e ps1 ++ current e ps2.
Proof. apply List.filter_app. Qed.

Lemma observed_remove e os1 o os2 :
  observed_current e (os1 ++ o :: os2)
  = observed_current e os1 ++ (if (observer_epoch o =? e)%N then [o] else [])
    ++ observed_current e os2.
Proof. unfold observed_current. rewrite List.filter_app. simpl. by destruct (_ =? _)%N. Qed.

Lemma observed_app e os1 os2 :
  observed_current e (os1 ++ os2) = observed_current e os1 ++ observed_current e os2.
Proof. apply List.filter_app. Qed.

(** Nothing that was handed out belongs to the next epoch. *)
Lemma current_next e ps : Forall (λ p, permit_epoch p ≤ e)%N ps → current (e + 1) ps = [].
Proof.
  induction 1 as [|p ps Hp _ IH]; [done|]. simpl.
  destruct (N.eqb_spec (permit_epoch p) (e + 1)); [lia|done].
Qed.

Lemma observed_next e os :
  Forall (λ o, observer_epoch o ≤ e)%N os → observed_current (e + 1) os = [].
Proof.
  induction 1 as [|o os Ho _ IH]; [done|]. simpl.
  destruct (N.eqb_spec (observer_epoch o) (e + 1)); [lia|done].
Qed.

(** A step that leaves the circuit alone keeps the invariant, whoever goes away. *)
Lemma state_ok_fewer c failures ps ps' os os' :
  circuit_state_ok c failures ps os →
  (ps' = ps ∨ ∃ p ps1 ps2, ps = ps1 ++ p :: ps2 ∧ ps' = ps1 ++ ps2 ∧ trial p = false) →
  sublist os' os → circuit_state_ok c failures ps' os'.
Proof.
  intros Hok Hps Hos.
  assert (os = [] → os' = []) as Hnil.
  { intros ->. by apply sublist_nil_r. }
  destruct Hps as [->|(p & ps1 & ps2 & -> & -> & Ht)].
  - destruct c as [| |[]]; simpl in *; naive_solver.
  - destruct c as [| |[]]; simpl in *.
    + destruct Hok as [Hf Hall]. split; [done|]. rewrite Forall_app, Forall_cons in Hall.
      rewrite Forall_app. naive_solver.
    + destruct Hok as (_ & Hn & _). by destruct ps1.
    + destruct Hok as (_ & (q & Hq & Htq) & _). exfalso.
      destruct ps1 as [|? [|]]; simpl in Hq; simplify_eq. congruence.
    + destruct Hok as (_ & Hn & _). by destruct ps1.
Qed.

(** The circuit of the epoch a permit belongs to. *)
Lemma state_ok_member c failures e ps1 p ps2 os :
  circuit_state_ok c failures (current e (ps1 ++ p :: ps2)) os → permit_epoch p = e →
  (c = Closed ∧ trial p = false ∧ (failures < 3)%N
   ∧ Forall (λ p, trial p = false) (current e (ps1 ++ ps2)))
  ∨ (c = HalfOpen true ∧ trial p = true ∧ failures = 3%N ∧ current e (ps1 ++ ps2) = [] ∧ os = []).
Proof.
  intros Hok <-. rewrite current_remove, N.eqb_refl, current_app in *.
  destruct c as [| |[]]; simpl in Hok.
  - left. destruct Hok as [Hf Hall]. rewrite !Forall_app, Forall_cons in Hall.
    rewrite Forall_app. naive_solver.
  - destruct Hok as (_ & Hn & _). by apply app_eq_nil in Hn as [_ ?].
  - right. destruct Hok as (Hf & (q & Hq & Ht) & Hos).
    destruct (current (permit_epoch p) ps1) as [|? [|]]; simpl in Hq; [|done|done].
    injection Hq as <- ->. done.
  - destruct Hok as (_ & Hn & _). by apply app_eq_nil in Hn as [_ ?].
Qed.

Lemma state_ok_observer c failures e ps os1 o os2 :
  circuit_state_ok c failures ps (observed_current e (os1 ++ o :: os2)) → observer_epoch o = e →
  c = Closed ∧ (failures < 3)%N ∧ Forall (λ p, trial p = false) ps.
Proof.
  intros Hok <-. rewrite observed_remove, N.eqb_refl in Hok.
  assert (∀ l1 l2 : list BodyFailureObserver, l1 ++ [o] ++ l2 ≠ []) as Hne by by intros [].
  destruct c as [| |[]]; simpl in Hok; [tauto| | |]; destruct Hok as (_ & _ & Hn); by apply Hne in Hn.
Qed.

Lemma epoch_le_next {A} (f : A → N) e l :
  Forall (λ x, f x ≤ e)%N l → Forall (λ x, f x ≤ e + 1)%N l.
Proof. intros H. eapply Forall_impl; [exact H|]. simpl. lia. Qed.

(** The circuit opens: nothing of the new epoch is out. *)
Lemma inv_opened live e until ps os :
  circuit_epoch live = (e + 1)%N → circuit live = Open until →
  consecutive_request_failures live = 3%N →
  Forall (λ p, permit_epoch p ≤ e)%N ps → Forall (λ o, observer_epoch o ≤ e)%N os →
  circuit_inv (mkCircuitSystem live ps os).
Proof.
  intros He Hc Hf Hp Ho. split; simpl; rewrite He.
  - by apply epoch_le_next.
  - by apply epoch_le_next.
  - rewrite Hc, Hf. split; [done|]. split; [by apply current_next|by apply observed_next].
Qed.

Lemma step_permit_inv id now live live' p ps os :
  live_permit id now live = (Done p, live') →
  circuit_inv (mkCircuitSystem live ps os) →
  circuit_inv (mkCircuitSystem live' (option_list p ++ ps) os).
Proof.
  intros Hrun [Hp Ho Hok]. simpl in *. revert Hrun. run_live.
  assert (∀ q, permit_epoch q = circuit_epoch live →
    Forall (λ p, permit_epoch p ≤ circuit_epoch live)%N (q :: ps)) as Hall.
  { intros q Hq. constructor; [lia|done]. }
  destruct (circuit live) as [|until|[]] eqn:Hc; simpl in Hok.
  - intros [= <- <-]. split; simpl; [by apply Hall|done|]. rewrite Hc, N.eqb_refl.
    split; [tauto|]. constructor; [done|tauto].
  - destruct (until <=? now)%N; intros [= <- <-].
    + destruct live; rsimpl. split; rsimpl; try done; [by apply Hall|].
      rewrite N.eqb_refl. destruct Hok as (Hf & -> & Hos). split; [done|]. split; [|done].
      by eexists.
    + split; simpl; try done. by rewrite Hc.
  - intros [= <- <-]. split; simpl; try done. by rewrite Hc.
  - intros [= <- <-]. destruct live; rsimpl. split; rsimpl; [by apply Hall|done|].
    rewrite N.eqb_refl. destruct Hok as (Hf & -> & Hos). split; [done|]. split; [|done].
    by eexists.
Qed.

Lemma Forall_remove {A} (P : A → Prop) l1 x l2 : Forall P (l1 ++ x :: l2) → Forall P (l1 ++ l2).
Proof. rewrite !Forall_app, Forall_cons. tauto. Qed.

Lemma step_outcome_inv o now live live' p ps1 ps2 os :
  live_outcome (permit_epoch p) (trial p) o now live = (Done (), live') →
  circuit_inv (mkCircuitSystem live (ps1 ++ p :: ps2) os) →
  circuit_inv (mkCircuitSystem live' (ps1 ++ ps2) os).
Proof.
  intros Hrun [Hp Ho Hok]. simpl in *. pose proof (Forall_remove _ _ _ _ Hp) as Hp'.
  unfold live_outcome in Hrun. unfold mbind, M_mbind, get_state in Hrun.
  destruct (N.eqb_spec (circuit_epoch live) (permit_epoch p)) as [He|He]; simpl in Hrun.
  2:{ injection Hrun as <-. split; simpl; [done|done|].
      rewrite current_app. rewrite current_remove in Hok.
      destruct (N.eqb_spec (permit_epoch p) (circuit_epoch live)); [congruence|done]. }
  destruct (state_ok_member _ _ _ _ _ _ _ Hok (eq_sym He))
    as [(Hc & Ht & Hf & Hall)|(Hc & Ht & Hf & Hnil & Hos)].
  - rewrite Ht in Hrun. destruct o; [|injection Hrun as <-; by split; simpl; rewrite ?Hc].
    destruct live; simpl in *; subst. revert Hrun. run_live. rewrite saturating_small by done.
    destruct (_ <=? _)%N eqn:E.
    + destruct (checked_add _ _ _) eqn:Ea; intros [= <-]; apply checked_add_Some in Ea as [-> Ea].
      apply N.leb_le in E. eapply inv_opened; rsimpl; try done.
      unfold CIRCUIT_FAILURE_THRESHOLD in E. lia.
    + intros [= <-]. split; rsimpl; try done. apply N.leb_gt in E. split; [exact E|done].
  - rewrite Ht in Hrun. destruct live; simpl in *; subst. revert Hrun. run_live. destruct o.
    + destruct (checked_add _ _ _) eqn:Ea; rsimpl; intros [= <-].
      apply checked_add_Some in Ea as [-> Ea]. by eapply inv_opened.
    + intros [= <-]. split; rsimpl; try done.
Qed.

Lemma step_success_inv live live' p o ps1 ps2 os :
  live_success (permit_id p) (permit_epoch p) (trial p) live = (Done o, live') →
  circuit_inv (mkCircuitSystem live (ps1 ++ p :: ps2) os) →
  circuit_inv (mkCircuitSystem live' (ps1 ++ ps2) (option_list o ++ os)).
Proof.
  intros Hrun [Hp Ho Hok]. simpl in *. pose proof (Forall_remove _ _ _ _ Hp) as Hp'.
  unfold live_success in Hrun. unfold mbind, M_mbind, get_state in Hrun.
  destruct (N.eqb_spec (circuit_epoch live) (permit_epoch p)) as [He|He]; simpl in Hrun.
  2:{ injection Hrun as <- <-. split; simpl; [done|done|].
      rewrite current_app. rewrite current_remove in Hok.
      destruct (N.eqb_spec (permit_epoch p) (circuit_epoch live)); [congruence|done]. }
  destruct (state_ok_member _ _ _ _ _ _ _ Hok (eq_sym He))
    as [(Hc & Ht & Hf & Hall)|(Hc & Ht & Hf & Hnil & Hos)];
    rewrite Ht in Hrun; destruct live; simpl in *; subst; revert Hrun; run_live; rsimpl.
  - intros [= <- <-]. split; rsimpl; [done|by constructor|]. split; [lia|done].
  - destruct (checked_add _ _ _) eqn:Ea; rsimpl; intros [= <- <-].
    apply checked_add_Some in Ea as [-> Ea]. split; rsimpl; [by apply epoch_le_next| |].
    + constructor; [simpl; lia|]. by apply epoch_le_next.
    + split; [lia|]. by rewrite current_next.
Qed.

Lemma step_body_inv now live live' o ps os1 os2 :
  live_body_failure (observer_epoch o) (open_immediately o) now live = (Done (), live') →
  circuit_inv (mkCircuitSystem live ps (os1 ++ o :: os2)) →
  circuit_inv (mkCircuitSystem live' ps (os1 ++ os2)).
Proof.
  intros Hrun [Hp Ho Hok]. simpl in *. pose proof (Forall_remove _ _ _ _ Ho) as Ho'.
  unfold live_body_failure in Hrun. unfold mbind, M_mbind, get_state in Hrun.
  destruct (N.eqb_spec (circuit_epoch live) (observer_epoch o)) as [He|He]; simpl in Hrun.
  2:{ injection Hrun as <-. split; simpl; [done|done|].
      rewrite observed_app. rewrite observed_remove in Hok.
      destruct (N.eqb_spec (observer_epoch o) (circuit_epoch live)); [congruence|done]. }
  destruct (state_ok_observer _ _ _ _ _ _ _ Hok (eq_sym He)) as (Hc & Hf & Hall).
  destruct live; simpl in *; subst. revert Hrun. run_live. rewrite saturating_small by done.
  set (failures := if open_immediately o then _ else _).
  destruct (CIRCUIT_FAILURE_THRESHOLD <=? failures)%N eqn:E; rsimpl.
  - destruct (checked_add _ _ _) eqn:Ea; rsimpl; intros [= <-].
    apply checked_add_Some in Ea as [-> Ea]. eapply inv_opened; rsimpl; try done.
    apply N.leb_le in E. revert E. unfold failures, CIRCUIT_FAILURE_THRESHOLD.
    destruct (open_immediately o); lia.
  - intros [= <-]. split; rsimpl; try done. apply N.leb_gt in E. split; [exact E|done].
Qed.

Lemma circuit_step_inv a b : circuit_step a b → circuit_inv a → circuit_inv b.
Proof.
  destruct 1 as [id now live live' p ps os Hrun|o now live live' p ps1 ps2 os Hrun
    |live live' p o ps1 ps2 os Hrun|now live live' o ps os1 os2 Hrun|live o ps os1 os2
    |op live live' ps os Hrun].
  - by apply (step_permit_inv id now).
  - by apply (step_outcome_inv o now).
  - by apply step_success_inv.
  - by apply (step_body_inv now).
  - intros [Hp Ho Hok]. split; simpl in *; [done|by eapply Forall_remove|].
    eapply state_ok_fewer; [exact Hok|by left|].
    rewrite observed_app, observed_remove. apply sublist_app; [done|]. by apply sublist_inserts_l.
  - pose proof (health_same_circuit op live) as (H1 & H2 & H3). rewrite Hrun in *. simpl in *.
    intros [Hp Ho Hok]. split; simpl in *; rewrite ?H1, ?H2, ?H3; done.
Qed.

(** An unresolved trial belongs to the epoch the circuit is in. *)
Definition trials_current (sys : CircuitSystem) : Prop :=
  Forall (λ p, trial p = true → permit_epoch p = circuit_epoch (cs_live sys)) (permits sys).

(** With no trial among the current permits there is none at all, in whatever epoch comes next. *)
Lemma no_trial_left e ps :
  Forall (λ p, trial p = true → permit_epoch p = e) ps →
  Forall (λ p, trial p = false) (current e ps) → keep trial ps = [].
Proof.
  induction 1 as [|p ps Hp _ IH]; simpl; [done|].
  destruct (N.eqb_spec (permit_epoch p) e) as [_|Hne].
  - by intros [-> H]%Forall_cons; apply IH.
  - intros H. destruct (trial p); [by destruct Hne; apply Hp|by apply IH].
Qed.

Lemma trials_none live ps os : keep trial ps = [] → trials_current (mkCircuitSystem live ps os).
Proof.
  unfold trials_current. simpl. induction ps as [|p ps IH]; simpl; [done|].
  destruct (trial p) eqn:Ht; [done|]. intros H. constructor; [congruence|by apply IH].
Qed.

(** A trial is current when every trial is. *)
Lemma trials_kept e ps :
  Forall (λ p, trial p = true → permit_epoch p = e) ps → keep trial ps = keep trial (current e ps).
Proof.
  induction 1 as [|p ps Hp _ IH]; simpl; [done|].
  destruct (N.eqb_spec (permit_epoch p) e) as [_|Hne]; simpl; destruct (trial p); try by rewrite IH.
  by destruct Hne; apply Hp.
Qed.

(** The permit is of another epoch and changes nothing, or none of the others is a trial. *)
Lemma permit_gone_trials live live' p ps1 ps2 os os' :
  (circuit_epoch live ≠ permit_epoch p → live' = live) →
  circuit_inv (mkCircuitSystem live (ps1 ++ p :: ps2) os) →
  trials_current (mkCircuitSystem live (ps1 ++ p :: ps2) os) →
  trials_current (mkCircuitSystem live' (ps1 ++ ps2) os').
Proof.
  intros Hstale [_ _ Hok] Ht. apply Forall_remove in Ht. simpl in *.
  destruct (N.eq_dec (circuit_epoch live) (permit_epoch p)) as [He|He]; [|by rewrite Hstale].
  apply trials_none, (no_trial_left (circuit_epoch live)); [done|].
  destruct (state_ok_member _ _ _ _ _ _ _ Hok (eq_sym He)) as [(_ & _ & _ & Hall)|(_ & _ & _ & -> & _)];
    [done|constructor].
Qed.

Lemma circuit_step_trials a b :
  circuit_step a b → circuit_inv a → trials_current a → trials_current b.
Proof.
  destruct 1 as [id now live live' p ps os Hrun|o now live live' p ps1 ps2 os Hrun
    |live live' p o ps1 ps2 os Hrun|now live live' o ps os1 os2 Hrun|live o ps os1 os2
    |op live live' ps os Hrun]; intros Hinv Ht; try done.
  - revert Hrun Ht. unfold trials_current. simpl. run_live.
    destruct (circuit live) as [|until|[]]; [|destruct (until <=? now)%N|..]; intros [= <- <-] Ht;
      destruct live; rsimpl; try done; constructor; done.
  - eapply permit_gone_trials; [|done..]. intros He. apply N.eqb_neq in He. revert Hrun. run_live.
    rewrite He. by intros [= <-].
  - eapply permit_gone_trials; [|done..]. intros He. apply N.eqb_neq in He. revert Hrun. run_live.
    rewrite He. by intros [= _ <-].
  - destruct Hinv as [_ _ Hok]. simpl in Hok.
    destruct (N.eq_dec (circuit_epoch live) (observer_epoch o)) as [He|He].
    + destruct (state_ok_observer _ _ _ _ _ _ _ Hok (eq_sym He)) as (_ & _ & Hall).
      by apply trials_none, (no_trial_left (circuit_epoch live)).
    + apply N.eqb_neq in He. revert Hrun. run_live. rewrite He. by intros [= <-].
  - pose proof (health_same_circuit op live) as (_ & He & _). rewrite Hrun in He.
    unfold trials_current in *. simpl in *. by rewrite He.
Qed.

Lemma circuit_reachable_inv generation sys :
  rtc circuit_step (mkCircuitSystem (LiveBackend_new generation) [] []) sys →
  circuit_inv sys ∧ trials_current sys.
Proof.
  assert (∀ a b, rtc circuit_step a b → circuit_inv a ∧ trials_current a →
    circuit_inv b ∧ trials_current b) as Hinv.
  { induction 1 as [|a b c Hab _ IH]; [done|]. intros [Ha Ht]. apply IH.
    split; [by apply (circuit_step_inv a)|by apply (circuit_step_trials a)]. }
  intros Hr. apply (Hinv _ _ Hr). split; [|constructor]. split; simpl; [constructor|constructor|].
  by split; [lia|].
Qed.

(** C5: on every reachable state of the circuit breaker, whatever the order in which permits
    are granted, outcomes and body failures reported and probes recorded: while it is closed
    fewer than three failures are counted and no trial is out; while it is open nobody holds a
    permit or an observer that could still change it; while it is half open exactly one trial
    is out or none, as the circuit says.  A trial is out from its permit until the outcome of its
    answer's head is reported or its permit is dropped.  Among all the permits that are out,
    those of earlier epochs included, at most one is a trial, and while it is out every request
    for a permit is refused: a backend under recovery is asked to answer one request at a time.
    (The body of an answered trial may go on while the circuit is closed again.) *)
Theorem circuit_invariant (generation : N) (sys : CircuitSystem) :
  rtc circuit_step (mkCircuitSystem (LiveBackend_new generation) [] []) sys →
  let live := cs_live sys in
  let now_out := current (circuit_epoch live) (permits sys) in
  (length (keep trial (permits sys)) ≤ 1)%nat
  ∧ (keep trial (permits sys) ≠ [] → ∀ id now, live_permit id now live = (Done None, live))
  ∧ match circuit live with
    | Closed => (consecutive_request_failures live < 3)%N ∧ keep trial (permits sys) = []
    | Open _ => now_out = [] ∧ observed_current (circuit_epoch live) (observers sys) = []
    | HalfOpen trial_in_flight =>
        length now_out = (if trial_in_flight then 1 else 0)%nat
        ∧ Forall (λ p, trial p = true) now_out
        ∧ observed_current (circuit_epoch live) (observers sys) = []
    end.
Proof.
  intros Hr. apply circuit_reachable_inv in Hr as [[_ _ Hok] Ht].
  simpl. rewrite (trials_kept _ _ Ht). set (out := current _ (permits sys)) in *.
  run_live. destruct (circuit (cs_live sys)) as [|until|[]]; simpl in Hok.
  - destruct Hok as [Hf Hall]. assert (keep trial out = []) as ->; [|by split; [simpl; lia|]].
    clear -Hall. induction Hall as [|p l Hp _ IH]; simpl; [done|]. by rewrite Hp.
  - destruct Hok as (_ & -> & ->). by split; [simpl; lia|].
  - destruct Hok as (_ & (p & -> & Hp) & ->). simpl. rewrite Hp.
    split; [simpl; lia|]. split; [done|]. split; [done|]. split; [by constructor|done].
  - destruct Hok as (_ & -> & ->). split; [simpl; lia|]. by split_and!.
Qed.

(** A permit of an answered request and of three that fail, the third of which opens the circuit; one
    that fails too late; and the trial of ten seconds later. *)
Definition demo_permit (epoch : N) (is_trial : bool) : CircuitPermit :=
  {| permit_id := "east"; permit_epoch := epoch; trial := is_trial; resolved := false |}.

Definition demo_recovering : LiveBackend :=
  (live_permit "east" 10000000009
    (for_each [7; 8; 9]%N (live_outcome 0 false Failure) (LiveBackend_new 1)).2).2.

Lemma demo_recovery :
  rtc circuit_step (mkCircuitSystem (LiveBackend_new 1) [] [])
    (mkCircuitSystem demo_recovering [demo_permit 1 true; demo_permit 0 false] []).
Proof.
  do 4 (eapply rtc_l; [apply (step_permit "east" 1); reflexivity|]; simpl).
  eapply rtc_l; [eapply (step_outcome Failure 7 _ _ _ []); vm_compute; reflexivity|]; simpl.
  eapply rtc_l; [eapply (step_outcome Failure 8 _ _ _ []); vm_compute; reflexivity|]; simpl.
  eapply rtc_l; [eapply (step_outcome Failure 9 _ _ _ []); vm_compute; reflexivity|]; simpl.
  eapply rtc_l; [apply (step_permit "east" 10000000009); vm_compute; reflexivity|].
  apply rtc_refl.
Qed.

Theorem circuit_invariant_witness :
  (length (keep trial [demo_permit 1 true; demo_permit 0 false]) ≤ 1)%nat
  ∧ live_permit "east" 99999999999 demo_recovering = (Done None, demo_recovering)
  ∧ circuit demo_recovering = HalfOpen true.
Proof.
  destruct (circuit_invariant 1 _ demo_recovery) as (H1 & H2 & _).
  split; [exact H1|]. split; [|vm_compute; reflexivity]. apply H2. discriminate.
Defined.
