(* ===== verification/Health.v ===== *)
(** * Properties of the health records of [src/src/routing.rs]

    [readiness_hysteresis] characterises the readiness a sequence of probes
    leaves by the runs of equal results in it; [metrics_order] says which of
    the scrapes that complete, in any order, are kept. *)

From S2P Require Import Prelude RustStd Float64 Telemetry Backend Runtime Routing Circuit.

(** ** Readiness *)

(** The result of a probe, and when it was recorded. *)
Inductive Probe :=
| PSuccess (now : N)
| PFailure (kind : ReadinessFailureKind) (error : string) (now : N).

Definition is_success (p : Probe) : bool := match p with PSuccess _ => true | _ => false end.
Definition is_failure (p : Probe) : bool := negb (is_success p).

Definition probe_run (config : ReadinessConfig) (generation : N) (p : Probe) : M LiveBackend () :=
  match p with
  | PSuccess now => _ ← live_readiness_success config generation now; mret ()
  | PFailure kind error now =>
      _ ← live_readiness_failure config generation kind error now; mret ()
  end.

(** The readiness after the probes [h], the most recent first: that of the last run of equal
    results that reached its threshold; the kind is the one of the failure that was last then. *)
Fixpoint verdict (config : ReadinessConfig) (h : list Probe) : ReadinessState :=
  match h with
  | [] => Checking
  | PSuccess _ :: h' =>
      if (success_threshold config <=? run_of is_success h)%N then Ready else verdict config h'
  | PFailure kind _ _ :: h' =>
      if (failure_threshold config <=? run_of is_failure h)%N
      then match kind with KUnready => Unready | KUnreachable => Unreachable end
      else verdict config h'
  end.

Definition probed (config : ReadinessConfig) (generation : N) (l : list Probe)
    (live : LiveBackend) : Prop :=
  topology_generation live = generation
  ∧ lb_readiness live = verdict config (rev l)
  ∧ readiness_successes live = N.min U32_MAX (run_of is_success (rev l))
  ∧ readiness_failures live = N.min U32_MAX (run_of is_failure (rev l)).

Lemma saturated_threshold t n :
  (t ≤ U32_MAX)%N →
  (t <=? saturating_add U32_MAX (N.min U32_MAX n) 1)%N = (t <=? n + 1)%N
  ∧ saturating_add U32_MAX (N.min U32_MAX n) 1 = N.min U32_MAX (n + 1).
Proof.
  intros Ht. unfold saturating_add. split; [|lia].
  destruct (N.leb_spec t (N.min U32_MAX (N.min U32_MAX n + 1))), (N.leb_spec t (n + 1)); lia || done.
Qed.

Lemma probed_step config generation l p live :
  (success_threshold config ≤ U32_MAX)%N → (failure_threshold config ≤ U32_MAX)%N →
  probed config generation l live →
  ∃ live', probe_run config generation p live = (Done (), live')
    ∧ probed config generation (l ++ [p]) live'.
Proof.
  intros Hs Hf (Hg & Hr & Hn & Hm). unfold probed. rewrite rev_app_distr. cbn [rev app].
  destruct live; simpl in Hg, Hr, Hn, Hm; subst.
  destruct p as [now|kind error now]; cbn [probe_run]; run_live; rewrite !run_of_cons; simpl;
    rewrite N.eqb_refl; simpl.
  - destruct (saturated_threshold _ (run_of is_success (rev l)) Hs) as [H1 H2].
    rewrite H1, H2. clear H1.
    destruct (success_threshold config <=? run_of is_success (rev l) + 1)%N eqn:E;
      (eexists; split; [reflexivity|]; rsimpl; rewrite !run_of_cons; simpl; by rewrite E).
  - destruct (saturated_threshold _ (run_of is_failure (rev l)) Hf) as [H1 H2].
    rewrite H1, H2. clear H1.
    destruct (failure_threshold config <=? run_of is_failure (rev l) + 1)%N eqn:E;
      (eexists; split; [reflexivity|]; rsimpl; rewrite !run_of_cons; simpl; by rewrite E).
Qed.

(** Readiness has hysteresis.  After any sequence of probes of a new backend the readiness
    is the one of the last run of consecutive equal results that reached its threshold
    ([Checking] when none did): one lost probe neither removes a ready backend nor does one
    success admit a failed one, and the counters, which saturate, never lose that. *)
Theorem readiness_hysteresis (config : ReadinessConfig) (generation : N) (l : list Probe) :
  (success_threshold config ≤ U32_MAX)%N → (failure_threshold config ≤ U32_MAX)%N →
  ∃ live, for_each l (probe_run config generation) (LiveBackend_new generation) = (Done (), live)
    ∧ lb_readiness live = verdict config (rev l).
Proof.
  intros Hs Hf.
  destruct (for_each_snoc_inv (probed config generation) (probe_run config generation)
    (LiveBackend_new generation)) with (l := l) as (live & Hrun & _ & Hr & _).
  - by split.
  - intros k p live. by apply probed_step.
  - by exists live.
Qed.

Theorem readiness_hysteresis_witness :
  ∃ live, for_each [PSuccess 1; PSuccess 2; PFailure KUnready "HTTP 503" 3; PSuccess 4;
                    PFailure KUnreachable "refused" 5; PFailure KUnready "HTTP 503" 6]
            (probe_run ReadinessConfig_default 1) (LiveBackend_new 1) = (Done (), live)
    ∧ lb_readiness live = Ready.
Proof.
  exact (readiness_hysteresis ReadinessConfig_default 1
    [PSuccess 1; PSuccess 2; PFailure KUnready "HTTP 503" 3; PSuccess 4;
     PFailure KUnreachable "refused" 5; PFailure KUnready "HTTP 503" 6]
    ltac:(vm_compute; discriminate) ltac:(vm_compute; discriminate)).
Defined.

(** ** Telemetry *)

(** A scrape that completes: what it observed, or the error. *)
Inductive Completion :=
| Scraped (m : MistralRsMetrics) (scrape : MetricsScrapeContext) (now : N)
| Failed (serial : N) (error : string) (now : N).

Definition completion_serial (c : Completion) : N :=
  match c with Scraped _ scrape _ => ctx_serial scrape | Failed serial _ _ => serial end.

Definition completion_run (generation : N) (c : Completion) : M LiveBackend () :=
  match c with
  | Scraped m scrape now => live_metrics_success generation m scrape now
  | Failed serial error now => live_metrics_failure generation serial error now
  end.

(** The completions that arrive before none that was begun later. *)
Fixpoint in_order (last : N) (l : list Completion) : list Completion :=
  match l with
  | [] => []
  | c :: l => if (completion_serial c <=? last)%N then in_order last l
              else c :: in_order (completion_serial c) l
  end.

Definition observation_of (c : Completion) : option MetricsObservation :=
  match c with
  | Scraped m scrape _ =>
      Some {| obs_metrics := m; observed_at := ctx_observed_at scrape;
              dispatches_at_observation := ctx_dispatches scrape;
              scrape_serial := ctx_serial scrape |}
  | Failed _ _ _ => None
  end.

Definition error_of (c : Completion) : option string :=
  match c with Scraped _ _ _ => None | Failed _ error _ => Some error end.

(** An observation of an engine with nothing running and nothing waiting. *)
Definition idle (c : Completion) : bool :=
  match c with
  | Scraped m _ _ => (sequences_running m =? 0)%N && (sequences_waiting m =? 0)%N
  | Failed _ _ _ => false
  end.

Definition last_serial (l : list Completion) : N :=
  match rev l with c :: _ => completion_serial c | [] => 0%N end.

Lemma in_order_snoc l c last :
  in_order last (l ++ [c])
  = in_order last l ++ (if (completion_serial c <=?
      match rev (in_order last l) with d :: _ => completion_serial d | [] => last end)%N
      then [] else [c]).
Proof.
  revert last. induction l as [|x l IH]; intros last; simpl; [by destruct (_ <=? _)%N|].
  destruct (completion_serial x <=? last)%N; [apply IH|].
  rewrite IH. simpl. by destruct (rev (in_order (completion_serial x) l)).
Qed.

Definition recorded (generation : N) (l : list Completion) (live : LiveBackend) : Prop :=
  let kept := rev (in_order 0 l) in
  topology_generation live = generation
  ∧ metrics_last_completed_scrape live = last_serial (in_order 0 l)
  ∧ metrics live = head (omap observation_of kept)
  ∧ metrics_error live = (c ← head kept; error_of c)
  ∧ engine_idle_streak live = N.min U64_MAX (run_of idle kept).

Lemma saturated_streak n :
  saturating_add U64_MAX (N.min U64_MAX n) 1 = N.min U64_MAX (n + 1).
Proof. unfold saturating_add. lia. Qed.

Lemma recorded_step generation l c live :
  recorded generation l live →
  ∃ live', completion_run generation c live = (Done (), live') ∧ recorded generation (l ++ [c]) live'.
Proof.
  unfold recorded, last_serial. rewrite in_order_snoc.
  set (kept := in_order 0 l). intros (Hg & Hl & Hm & He & Hi).
  rewrite rev_app_distr. destruct live; simpl in Hg, Hl, Hm, He, Hi; subst.
  destruct c as [m scrape now|serial error now]; simpl; run_live; simpl; rewrite N.eqb_refl; simpl.
  - destruct (ctx_serial scrape <=? _)%N; simpl; [eexists; split; [reflexivity|done]|].
    destruct (tokens_processed_total m), (prefill_tokens_processed_total m),
      (decode_tokens_processed_total m); rsimpl; (eexists; split; [reflexivity|]); simpl;
      rewrite saturated_streak, run_of_cons; simpl; by destruct (_ && _).
  - destruct (serial <=? _)%N; simpl; [eexists; split; [reflexivity|done]|].
    eexists; (split; [reflexivity|]); rsimpl. by rewrite run_of_cons.
Qed.

(** Out-of-order scrapes are ignored.  Whatever the order in which the scrapes of a
    backend complete, exactly those that no later-begun scrape overtook are kept: the stored
    observation is the last successful one of them, the stored error belongs to the last of
    them, and the idle streak counts the successful observations of an idle engine since the
    last other completion (the evidence a drain is certified by). *)
Theorem metrics_order (generation : N) (l : list Completion) :
  ∃ live, for_each l (completion_run generation) (LiveBackend_new generation) = (Done (), live)
    ∧ let kept := rev (in_order 0 l) in
      metrics_last_completed_scrape live = last_serial (in_order 0 l)
      ∧ metrics live = head (omap observation_of kept)
      ∧ metrics_error live = (c ← head kept; error_of c)
      ∧ engine_idle_streak live = N.min U64_MAX (run_of idle kept).
Proof.
  destruct (for_each_snoc_inv (recorded generation) (completion_run generation)
    (LiveBackend_new generation)) with (l := l) as (live & Hrun & _ & Hrec).
  - by split_and!.
  - intros k c live. apply recorded_step.
  - by exists live.
Qed.
