(* ===== verification/Selection.v ===== *)
(** * Properties of the selection of [src/src/routing.rs]

    [candidate_at] says, of a state of the router, what a candidate is.
    [select_spec] and [reserve_spec] characterise the backend a request is
    sent to; [statuses_agree] relates the status report to it. *)

From S2P Require Import Prelude RustStd Float64 Telemetry Backend Runtime Routing.

(** ** Reserving a lease *)

Definition acquirable (slots : BackendRegistry) (id : string) : bool :=
  match slots !! id with
  | Some s => registered (state s) && bool_decide (mode (state s) = Active)
  | None => false
  end.

(** Slots whose counters can still grow. *)
Definition acquire_room (slots : BackendRegistry) : Prop :=
  ∀ id s, slots !! id = Some s →
    slot_wf s ∧ (next_lease_serial (state s) < U64_MAX)%N ∧ (sequence (state s) < U64_MAX)%N.

(** What an acquisition leaves: one lease more on that slot, everything else as it was. *)
Definition leased (slots : BackendRegistry) (id : string) (lease : BackendLease)
    (slots' : BackendRegistry) : Prop :=
  ∃ slot slot' key, slots !! id = Some slot ∧ slots' = <[id := slot']> slots
    ∧ registered (state slot) = true ∧ mode (state slot) = Active
    ∧ lease_spec lease = spec (state slot) ∧ lease_key lease = Some key
    ∧ key ∉ leases (state slot) ∧ leases (state slot') ≡ₚ key :: leases (state slot)
    ∧ total_acquired (state slot') = (total_acquired (state slot) + 1)%N.

Lemma registry_acquire_refused slots id now :
  acquirable slots id = false → ∃ e, registry_try_acquire id now slots = (Done (Err e), slots).
Proof.
  unfold acquirable, registry_try_acquire, on_slot, mbind, M_mbind, mret, M_mret.
  destruct (slots !! id) as [s|] eqn:E; [|by eexists].
  intros Ha. run_slot. destruct (registered (state s)); simpl in *.
  - apply bool_decide_eq_false in Ha. rewrite (bool_decide_true (mode (state s) ≠ Active)) by done.
    rewrite insert_id by done. by eexists.
  - rewrite insert_id by done. by eexists.
Qed.

Lemma registry_acquire_granted slots id now :
  acquirable slots id = true → acquire_room slots →
  ∃ lease slots', registry_try_acquire id now slots = (Done (Ok lease), slots')
    ∧ leased slots id lease slots'.
Proof.
  unfold acquirable, registry_try_acquire, on_slot, leased, mbind, M_mbind, mret, M_mret.
  destruct (slots !! id) as [[[sp rg md ep sq rv nx tot ls] pub]|] eqn:E; [|done].
  simpl. intros [Hr Hm]%andb_true_iff Hroom. apply bool_decide_eq_true in Hm.
  destruct (Hroom _ _ E) as ([_ _ Hb Ht _ _] & Hn & Hq). simpl in *. subst.
  run_slot. simpl. no_overflow. eexists _, _. split; [reflexivity|].
  eexists _, _, _. split; [done|]. split; [reflexivity|]. split_and!; try done; simpl.
  - intros Hk. rewrite Forall_forall in Hb. specialize (Hb _ Hk). simpl in Hb. lia.
  - apply btree_insert_perm. intros (k & Hs & Hk)%list_elem_of_fmap.
    rewrite Forall_forall in Hb. specialize (Hb _ Hk). simpl in *. lia.
Qed.

(** ** Permits *)

Definition permitted (c : Circuit) (now : N) : bool :=
  match c with
  | Closed => true
  | Open until => (until <=? now)%N
  | HalfOpen trial_in_flight => negb trial_in_flight
  end.

Lemma live_permit_refused id now live :
  permitted (circuit live) now = false → live_permit id now live = (Done None, live).
Proof.
  unfold permitted, live_permit, get_state, mbind, M_mbind. intros Hp.
  destruct (circuit live) as [|until|[]]; simpl in *; by rewrite ?Hp.
Qed.

Lemma live_permit_granted id now live :
  permitted (circuit live) now = true →
  ∃ p live', live_permit id now live = (Done (Some p), live')
    ∧ permit_id p = id ∧ permit_epoch p = circuit_epoch live ∧ resolved p = false
    ∧ trial p = match circuit live with Closed => false | _ => true end
    ∧ circuit_epoch live' = circuit_epoch live.
Proof.
  unfold permitted, live_permit, get_state, modify, mbind, M_mbind, mret, M_mret. intros Hp.
  destruct (circuit live) as [|until|[]] eqn:Hc; simpl in *; rewrite ?Hp; try done;
    (eexists _, _; split; [reflexivity|]); split_and!; try done; by destruct live.
Qed.

(** ** The reservation loop *)

Section Reserve.
Context {Uri : Type} `{UriOps Uri}.
Implicit Types (s : RoutingState (Uri:=Uri)) (clock : string → N * N).

Definition slots_of s : BackendRegistry := registry (Routing.runtime s).

(** An attempt at a candidate would succeed: its circuit grants a permit and its gate a lease. *)
Definition admits clock s (c : Candidate) : bool :=
  match live_backends (inner s) !! cand_id c with
  | Some live => permitted (circuit live) (clock (cand_id c)).1
  | None => false
  end && acquirable (slots_of s) (cand_id c).

(** The request is sent to [c]. *)
Record dispatched s (c : Candidate) (eligible : N) (sel : RouteSelection) s' : Prop := {
  d_decision : decision sel = decision_of c eligible;
  d_permit : permit_id (circuit_permit sel) = cand_id c ∧ resolved (circuit_permit sel) = false;
  d_lease : leased (slots_of s) (cand_id c) (sel_lease sel) (slots_of s');
  d_runtime : published_runtime (Routing.runtime s') = published_runtime (Routing.runtime s);
}.

Lemma on_live_Done {A} id (m : M LiveBackend A) s live a live' :
  live_backends (inner s) !! id = Some live → m live = (Done a, live') →
  on_live id m s = (Done (Some a),
    {| Routing.runtime := Routing.runtime s;
       inner := {| live_backends := <[id := live']> (live_backends (inner s));
                   rotating_cursor := rotating_cursor (inner s) |} |}).
Proof. intros Hl Hm. unfold on_live. by rewrite Hl, Hm. Qed.

Lemma live_neutral_run live p now :
  permit_epoch p = circuit_epoch live →
  ∃ live', live_outcome (permit_epoch p) (trial p) Neutral now live = (Done (), live').
Proof.
  intros ->. unfold live_outcome, get_state, modify, mbind, M_mbind, mret, M_mret.
  rewrite N.eqb_refl. simpl. destruct (trial p); by eexists.
Qed.

(** Other identities are not touched. *)
Definition same_others id s s' : Prop :=
  Routing.runtime s' = Routing.runtime s
  ∧ ∀ i, i ≠ id → live_backends (inner s') !! i = live_backends (inner s) !! i.

Lemma attempt_refused clock c eligible s :
  admits clock s c = false →
  ∃ s', attempt c eligible (clock (cand_id c)).1 (clock (cand_id c)).2 s = (Done None, s')
    ∧ same_others (cand_id c) s s'.
Proof.
  unfold admits. destruct (clock (cand_id c)) as [t1 t2]; simpl. intros Ha.
  unfold attempt, try_circuit_permit, mbind, M_mbind, mret, M_mret.
  destruct (live_backends (inner s) !! cand_id c) as [live|] eqn:El.
  2:{ unfold on_live. rewrite El. simpl. by exists s. }
  destruct (permitted (circuit live) t1) eqn:Hp; simpl in Ha.
  2:{ rewrite (on_live_Done _ _ _ _ _ _ El (live_permit_refused _ _ _ Hp)). simpl.
      eexists. split; [reflexivity|]. split; [done|]. intros i Hi. simpl. by apply lookup_insert_ne. }
  destruct (live_permit_granted (cand_id c) t1 live Hp) as (p & live' & Hrun & Hid & He & Hr & _ & He').
  rewrite (on_live_Done _ _ _ _ _ _ El Hrun). simpl.
  destruct (registry_acquire_refused _ _ t2 Ha) as [e Hacq].
  unfold on_backends, on_registry. simpl. unfold slots_of in Hacq. rewrite Hacq. simpl.
  destruct p as [pid pe pt pr]; simpl in *; subst.
  unfold CircuitPermit_drop, CircuitPermit_neutral, resolve, record_circuit_outcome,
    mbind, M_mbind, mret, M_mret. rsimpl.
  destruct (live_neutral_run live' (mkCircuitPermit (cand_id c) (circuit_epoch live) pt true) t2)
    as [live2 Hn]; [simpl; congruence|].
  erewrite on_live_Done; [|simpl; by apply lookup_insert_eq|exact Hn]. simpl.
  eexists. split; [reflexivity|]. split; [by destruct s as [[]]|].
  intros i Hi. simpl. by rewrite !lookup_insert_ne.
Qed.

Lemma attempt_admitted clock c eligible s :
  admits clock s c = true → acquire_room (slots_of s) →
  ∃ sel s', attempt c eligible (clock (cand_id c)).1 (clock (cand_id c)).2 s = (Done (Some sel), s')
    ∧ dispatched s c eligible sel s'.
Proof.
  unfold admits. destruct (clock (cand_id c)) as [t1 t2]; simpl. intros [Ha Hacq]%andb_true_iff Hroom.
  unfold attempt, try_circuit_permit, mbind, M_mbind, mret, M_mret.
  destruct (live_backends (inner s) !! cand_id c) as [live|] eqn:El; [|done].
  destruct (live_permit_granted (cand_id c) t1 live Ha) as (p & live' & Hrun & Hid & He & Hr & _).
  rewrite (on_live_Done _ _ _ _ _ _ El Hrun). simpl.
  destruct (registry_acquire_granted _ _ t2 Hacq Hroom) as (lease & slots' & Hg & Hl).
  unfold on_backends, on_registry. simpl. unfold slots_of in Hg. rewrite Hg. simpl.
  eexists _, _. split; [reflexivity|]. by split.
Qed.

Lemma admits_same clock s s' c id :
  same_others id s s' → cand_id c ≠ id → admits clock s' c = admits clock s c.
Proof. intros [Hr Hl] Hne. unfold admits, slots_of. by rewrite Hr, Hl. Qed.

(** The loop sends the request to the first candidate whose attempt would succeed. *)
Lemma reserve_run clock eligible l s :
  NoDup (cand_id <$> l) → acquire_room (slots_of s) →
  ∃ r s', reserve clock eligible l s = (Done r, s')
    ∧ match head (keep (admits clock s) l) with
      | None => r = None ∧ Routing.runtime s' = Routing.runtime s
      | Some c => ∃ sel, r = Some sel ∧ dispatched s c eligible sel s'
      end.
Proof.
  revert s. induction l as [|c l IH]; intros s Hnd Hroom; simpl.
  { by exists None, s. }
  apply NoDup_cons in Hnd as [Hc Hnd].
  destruct (clock (cand_id c)) as [t1 t2] eqn:Et. unfold mbind at 1, M_mbind at 1.
  destruct (admits clock s c) eqn:Ha.
  - destruct (attempt_admitted clock c eligible s Ha Hroom) as (sel & s' & Hrun & Hd).
    rewrite Et in Hrun. simpl in Hrun. rewrite Hrun. simpl. exists (Some sel), s'. split; [done|].
    by exists sel.
  - destruct (attempt_refused clock c eligible s Ha) as (s1 & Hrun & Hsame).
    rewrite Et in Hrun. simpl in Hrun. rewrite Hrun.
    pose proof Hsame as [Hrt _].
    destruct (IH s1 Hnd) as (r & s' & Hr & Hm); [unfold slots_of; by rewrite Hrt|].
    exists r, s'. split; [done|].
    rewrite (keep_ext _ (admits clock s)) in Hm.
    2:{ intros d Hd. eapply admits_same; [done|]. intros E. apply Hc. rewrite <- E.
        apply list_elem_of_fmap. by exists d. }
    destruct (head _) as [d|]; [|by rewrite <- Hrt].
    destruct Hm as (sel & -> & [H1 H2 H3 H4]). exists sel. split; [done|].
    unfold slots_of in *. split; [done|done| |by rewrite <- Hrt].
    unfold slots_of. by rewrite <- Hrt.
Qed.
End Reserve.

(** ** Candidates *)

Section Candidates.
Context {Uri : Type} `{UriOps Uri}.
Implicit Types (s : RoutingState (Uri:=Uri)) (rt : RuntimeState (Uri:=Uri)).

Lemma instances_spec rt :
  runtime_wf rt → ∃ l, backend_instances rt = Done l
    ∧ NoDup ((λ x, b_id x.1) <$> l)
    ∧ ∀ b g, (b, g) ∈ l ↔ b ∈ backends (config (published_runtime rt))
                         ∧ backend_generations (published_runtime rt) !! b_id b = Some g.
Proof.
  intros Hwf. unfold backend_instances.
  pose proof (rw_ids _ Hwf) as Hnd. pose proof (rw_generations _ Hwf) as Hg.
  set (gens := backend_generations (published_runtime rt)) in *.
  assert (∃ l, mapM (λ b, generation ← gens !! b_id b; Some (b, generation))
                 (backends (config (published_runtime rt))) = Some l
    ∧ l.*1 = backends (config (published_runtime rt))
    ∧ ∀ b g, (b, g) ∈ l ↔ b ∈ backends (config (published_runtime rt)) ∧ gens !! b_id b = Some g)
    as (l & -> & Hl & Hin).
  { clear Hnd. induction (backends (config (published_runtime rt))) as [|b bs IH].
    - exists []. split; [done|]. split; [done|]. intros b g. rewrite !elem_of_nil. tauto.
    - destruct IH as (l & Hrun & Hl & Hin); [intros b' Hb'; apply Hg; by right|].
      destruct (Hg b) as (g & Hgb & _); [left|]. exists ((b, g) :: l). cbn [mapM]. rewrite Hgb. cbn.
      rewrite Hrun. cbn. split; [done|]. split; [by rewrite Hl|]. intros b' g'.
      rewrite !elem_of_cons, Hin. naive_solver. }
  exists l. split; [done|]. split; [|done].
  replace ((λ x : Backend * N, b_id x.1) <$> l) with (b_id <$> l.*1) by by rewrite <- list_fmap_compose.
  by rewrite Hl.
Qed.

Lemma configs_lookup rt l id b g :
  runtime_wf rt → backend_instances rt = Done l →
  configs_of l !! id = Some (b, g)
  ↔ b ∈ backends (config (published_runtime rt)) ∧ b_id b = id
    ∧ backend_generations (published_runtime rt) !! id = Some g.
Proof.
  intros Hwf Hl. destruct (instances_spec rt Hwf) as (l' & Hl' & Hnd & Hin).
  rewrite Hl in Hl'. injection Hl' as <-. unfold configs_of.
  rewrite (foldl_insert_lookup (λ x, b_id x.1) (λ x : Backend * N, x) _ l ∅ id (b, g)) by (try (intros ? []); done).
  rewrite lookup_empty. split.
  - intros [([b' g'] & Hb & Hk & [= -> ->])|[? _]]; [|done]. simpl in Hk. subst.
    by apply Hin in Hb as [? ?].
  - intros (Hb & <- & Hg). left. exists (b, g). split; [by apply Hin|done].
Qed.

Lemma generations_lookup rt l id g :
  runtime_wf rt → backend_instances rt = Done l →
  generations_of l !! id = Some g
  ↔ id ∈ b_id <$> backends (config (published_runtime rt))
    ∧ backend_generations (published_runtime rt) !! id = Some g.
Proof.
  intros Hwf Hl. destruct (instances_spec rt Hwf) as (l' & Hl' & Hnd & Hin).
  rewrite Hl in Hl'. injection Hl' as <-. unfold generations_of.
  rewrite (foldl_insert_lookup (λ x, b_id x.1) snd _ l ∅ id g) by (try (intros ? []); done).
  rewrite lookup_empty, (list_elem_of_fmap b_id). split.
  - intros [([b' g'] & Hb & <- & <-)|[? _]]; [|done]. simpl.
    apply Hin in Hb as [? ?]. split; [by exists b'|done].
  - intros ((b & -> & Hb) & Hg). left. exists (b, g). split; [by apply Hin|done].
Qed.

(** The generation published for a configured identity. *)
Definition configured_generation rt (id : string) : option N :=
  if bool_decide (id ∈ b_id <$> backends (config (published_runtime rt)))
  then backend_generations (published_runtime rt) !! id else None.

Lemma ensure_run s :
  runtime_wf (Routing.runtime s) → ∃ live,
  ensure_backends s = (Done (), {| Routing.runtime := Routing.runtime s;
     inner := {| live_backends := live; rotating_cursor := rotating_cursor (inner s) |} |})
  ∧ ∀ id, live !! id = ensured (configured_generation (Routing.runtime s) id)
                        (live_backends (inner s) !! id).
Proof.
  intros Hwf. destruct (instances_spec _ Hwf) as (l & Hl & _ & _).
  unfold ensure_backends, instances, modify, mbind, M_mbind. rewrite Hl.
  eexists. split; [reflexivity|]. intros id. rewrite ensure_lookup. f_equal.
  unfold configured_generation. apply option_eq. intros g.
  rewrite (generations_lookup _ _ _ _ Hwf Hl). case_bool_decide; naive_solver.
Qed.

(** [c] is what the scoring phase sees of a backend that may serve: registered and active,
    configured, with a live record of the published generation that is ready and whose circuit
    is not open. *)
Definition candidate_at s (now : N) (c : Candidate) : Prop :=
  let published := published_runtime (Routing.runtime s) in
  ∃ slot b live,
    slots_of s !! cand_id c = Some slot ∧ registered (state slot) = true ∧ mode (state slot) = Active
    ∧ b ∈ backends (config published) ∧ b_id b = cand_id c
    ∧ live_backends (inner s) !! cand_id c = Some live
    ∧ backend_generations published !! cand_id c = Some (topology_generation live)
    ∧ lb_readiness live = Ready ∧ Circuit_state (circuit live) now ≠ COpen
    ∧ local_active c = N.of_nat (length (leases (state slot)))
    ∧ score_candidate (BackendSlot_snapshot slot now) live b now
        (from_millis (stale_after_ms (telemetry (config published))))
        (kv_soft_limit (routing (config published)))
      = (cand_score c, cand_metrics c).

Lemma snapshots_elem slots now snap :
  snap ∈ registry_snapshots slots now
  ↔ ∃ id slot, slots !! id = Some slot ∧ registered (state slot) = true
               ∧ snap = BackendSlot_snapshot slot now.
Proof.
  unfold registry_snapshots. rewrite sort_by_elem_of, list_elem_of_filter, list_elem_of_fmap. split.
  - intros (Hr & [id slot] & -> & Hs). apply elem_of_map_to_list in Hs. by exists id, slot.
  - intros (id & slot & Hs & Hr & ->). split; [done|]. exists (id, slot). split; [done|].
    by apply elem_of_map_to_list.
Qed.

Lemma candidate_of_spec s live l now snap c :
  runtime_wf (Routing.runtime s) → backend_instances (Routing.runtime s) = Done l →
  (∀ id, live !! id = ensured (configured_generation (Routing.runtime s) id)
                        (live_backends (inner s) !! id)) →
  snap ∈ registry_snapshots (slots_of s) now →
  candidate_of live (configs_of l) now
    (from_millis (stale_after_ms (telemetry (config (published_runtime (Routing.runtime s))))))
    (kv_soft_limit (routing (config (published_runtime (Routing.runtime s))))) snap = Some c
  ↔ candidate_at s now c ∧ cand_id c = snapshot_id snap.
Proof.
  intros Hwf Hl Hlive Hsnap. apply snapshots_elem in Hsnap as (id & slot & Hslot & Hreg & ->).
  destruct (rw_registry _ Hwf id slot Hslot) as [_ Hid].
  unfold candidate_of. rewrite Hlive.
  change (snapshot_id (BackendSlot_snapshot slot now)) with (spec_id (spec (state slot))).
  change (snap_mode (BackendSlot_snapshot slot now)) with (mode (state slot)).
  change (snap_local_active (BackendSlot_snapshot slot now))
    with (N.of_nat (length (leases (state slot)))).
  rewrite Hid. split.
  - case_bool_decide as Hm; [done|].
    unfold configured_generation. case_bool_decide as Hc; [|done].
    destruct (backend_generations _ !! id) as [g|] eqn:Hg; [|done].
    destruct (live_backends (inner s) !! id) as [lv|] eqn:Hlv; simpl; [|done].
    destruct (N.eqb_spec (topology_generation lv) g) as [<-|Hne]; [|done].
    destruct (_ || _) eqn:Hrc; [done|]. apply orb_false_iff in Hrc as [Hr Hci].
    apply bool_decide_eq_false, dec_stable in Hr. apply bool_decide_eq_false in Hci.
    destruct (configs_of l !! id) as [[b g']|] eqn:Hcf; [|done]. simpl.
    apply (configs_lookup _ _ _ _ _ Hwf Hl) in Hcf as (Hb & Hbid & Hg').
    destruct (N.eqb_spec (topology_generation lv) g') as [<-|]; [|done]. simpl.
    destruct (score_candidate _ _ _ _ _ _) as [sc me] eqn:Hsc. intros [= <-]. simpl.
    split; [|done]. exists slot, b, lv. simpl. by split_and!.
  - intros [(slot' & b & lv & Hs' & _ & Hm & Hb & Hbid & Hlv & Hg & Hr & Hci & Hla & Hsc) Hcid].
    rewrite Hcid in *. unfold slots_of in *. rewrite Hslot in Hs'. injection Hs' as <-.
    rewrite bool_decide_false by (by intros ?).
    unfold configured_generation. rewrite bool_decide_true.
    2:{ apply list_elem_of_fmap. by exists b. }
    rewrite Hg, Hlv. simpl. rewrite N.eqb_refl.
    rewrite (bool_decide_false (lb_readiness lv ≠ Ready)) by (by intros ?).
    rewrite bool_decide_false by done. simpl.
    assert (configs_of l !! id = Some (b, topology_generation lv)) as ->.
    { apply (configs_lookup _ _ _ _ _ Hwf Hl). by split_and!. }
    simpl. rewrite N.eqb_refl. simpl. rewrite Hsc. f_equal. destruct c; simpl in *. by subst.
Qed.

Lemma candidate_of_id live (configs : gmap string (Backend (Uri:=Uri) * N)) now stale limit snap c :
  candidate_of live configs now stale limit snap = Some c → cand_id c = snapshot_id snap.
Proof.
  unfold candidate_of. case_bool_decide; [done|].
  destruct (live !! _) as [lv|]; [|done]. simpl. destruct (_ || _); [done|].
  destruct (configs !! _) as [[b g]|]; [|done]. simpl. destruct (negb _); [done|].
  destruct (score_candidate _ _ _ _ _ _). by intros [= <-].
Qed.

Lemma omap_sublist (f : BackendSnapshot → option Candidate) snaps :
  (∀ snap c, f snap = Some c → cand_id c = snapshot_id snap) →
  sublist (cand_id <$> omap f snaps) (snapshot_id <$> snaps).
Proof.
  intros Hf. induction snaps as [|snap snaps IH]; simpl; [done|].
  destruct (f snap) as [c|] eqn:E; simpl; [rewrite (Hf _ _ E)|]; by constructor.
Qed.

(** The scoring phase collects the candidates, each once, and moves the cursor. *)
Lemma phase_run s now :
  runtime_wf (Routing.runtime s) →
  ∃ cands s1, candidates_phase now s = (Done (cands, rotating_cursor (inner s)), s1)
    ∧ (∀ c, c ∈ cands ↔ candidate_at s now c) ∧ NoDup (cand_id <$> cands)
    ∧ Routing.runtime s1 = Routing.runtime s
    ∧ rotating_cursor (inner s1) = wrapping_add U64_MAX (rotating_cursor (inner s)) 1
    ∧ ∀ c, c ∈ cands → live_backends (inner s1) !! cand_id c = live_backends (inner s) !! cand_id c.
Proof.
  intros Hwf. destruct (instances_spec _ Hwf) as (l & Hl & _ & _).
  destruct (ensure_run s Hwf) as (live & Hens & Hlive).
  unfold candidates_phase, get_state, instances, runtime_config, gets, modify, mbind, M_mbind,
    mret, M_mret.
  rewrite Hl, Hens. cbn -[registry_snapshots]. eexists _, _. split; [reflexivity|].
  set (cands := omap _ _).
  assert (∀ c, c ∈ cands ↔ candidate_at s now c) as Hin.
  { intros c. unfold cands. rewrite list_elem_of_omap. split.
    - intros (snap & Hsnap & Hc). by eapply (candidate_of_spec s live l).
    - intros Hc. pose proof Hc as (slot & b & lv & Hslot & Hreg & _).
      assert (BackendSlot_snapshot slot now ∈ registry_snapshots (registry (Routing.runtime s)) now)
        as Hsnap by (apply snapshots_elem; by eexists _, _).
      eexists. split; [exact Hsnap|]. eapply (candidate_of_spec s live l); try done.
      split; [done|]. symmetry. exact (proj2 (rw_registry _ Hwf _ _ Hslot)). }
  split_and!; try done.
  - destruct (registered_ids_spec (registry (Routing.runtime s)) now (rw_registry _ Hwf)) as [Hnd _].
    eapply sublist_NoDup; [exact Hnd|]. apply omap_sublist. intros snap c.
    apply candidate_of_id.
  - intros c (slot & b & lv & _ & _ & _ & Hb & Hbid & Hlv & Hg & _)%Hin. simpl.
    rewrite Hlive, Hlv. unfold configured_generation.
    rewrite bool_decide_true by (apply list_elem_of_fmap; by exists b).
    rewrite Hg. simpl. by rewrite N.eqb_refl.
Qed.

(** ** The choice *)

#[local] Instance rotated_Comparator cursor : Comparator (λ x y, rotated_cmp x y cursor).
Proof.
  unfold rotated_cmp. destruct (_ =? _)%N; [apply _|]. exact (flip_Comparator String.compare).
Qed.

#[local] Instance fallback_Comparator cursor : Comparator (fallback_cmp cursor).
Proof.
  apply then_with_Comparator; [exact (on_Comparator local_active N.compare)|].
  exact (on_Comparator cand_id (λ x y, rotated_cmp x y cursor)).
Qed.

#[local] Instance scored_Comparator cursor : Comparator (scored_cmp cursor).
Proof.
  apply then_with_Comparator; [exact (on_Comparator pressure_of total_cmp)|].
  apply (fallback_Comparator cursor).
Qed.

(** The candidates an attempt is made at: the scored ones, all when none is. *)
Definition considered s (now : N) (c : Candidate) : Prop :=
  candidate_at s now c ∧ (is_scored c = true ∨ ∀ d, candidate_at s now d → is_scored d = false).

(** [c] is not worse than [d]: less pressure, or the same and no more requests in flight;
    without scores the requests in flight alone. *)
Definition preferred (c d : Candidate) : Prop :=
  if is_scored c
  then total_cmp (pressure_of c) (pressure_of d) = Lt
       ∨ (total_cmp (pressure_of c) (pressure_of d) = Eq ∧ (local_active c ≤ local_active d)%N)
  else (local_active c ≤ local_active d)%N.

Lemma rank_first (cands : list Candidate) cursor (p : Candidate → bool) s now :
  (∀ c, c ∈ cands ↔ candidate_at s now c) →
  match head (keep p (rank cands cursor)) with
  | None => ∀ c, considered s now c → p c = false
  | Some c => considered s now c ∧ p c = true
              ∧ ∀ d, considered s now d → p d = true → preferred c d
  end.
Proof.
  intros Hin. unfold rank, considered.
  destruct (existsb is_scored cands) eqn:Hex.
  - apply existsb_exists in Hex as (c0 & Hc0%list_elem_of_In & Hs0).
    assert (∀ c, candidate_at s now c ∧ (is_scored c = true
        ∨ ∀ d, candidate_at s now d → is_scored d = false) ↔ c ∈ keep is_scored cands) as Hcons.
    { intros c. rewrite elem_of_keep, Hin. split; [|tauto]. intros [Hc [Hs|Hall]]; [done|].
      rewrite (Hall c0) in Hs0; [done|]. by apply Hin. }
    destruct (head (keep p _)) as [c|] eqn:Eh.
    + apply sort_by_first in Eh as (Hc & Hp & Hmin); [|apply _]. split; [by apply Hcons|].
      split; [done|]. intros d Hd%Hcons Hpd. specialize (Hmin d Hd Hpd). unfold preferred.
      apply elem_of_keep in Hc as [_ ->]. unfold cmp_le, scored_cmp, then_with in Hmin.
      destruct (total_cmp _ _); [right; split; [done|]|by left|done].
      rewrite <- N.compare_le_iff. intros E. by rewrite E in Hmin.
    + intros c Hc%Hcons. assert (keep p (sort_by (scored_cmp cursor) (keep is_scored cands)) = [])
        as En by by destruct (keep p _).
      apply (proj1 (keep_none _ _) En). by apply sort_by_elem_of.
  - assert (∀ c, candidate_at s now c → is_scored c = false) as Hall.
    { intros c Hc%Hin. destruct (is_scored c) eqn:E; [|done]. exfalso.
      assert (existsb is_scored cands = true); [|congruence].
      apply existsb_exists. exists c. by split; [apply list_elem_of_In|]. }
    destruct (head (keep p _)) as [c|] eqn:Eh.
    + apply sort_by_first in Eh as (Hc & Hp & Hmin); [|apply _]. apply Hin in Hc.
      split; [by auto|]. split; [done|]. intros d [Hd%Hin _] Hpd. specialize (Hmin d Hd Hpd).
      unfold preferred. rewrite (Hall c Hc). unfold cmp_le, fallback_cmp, then_with in Hmin.
      rewrite <- N.compare_le_iff. intros E. by rewrite E in Hmin.
    + intros c [Hc%Hin _]. assert (keep p (sort_by (fallback_cmp cursor) cands) = [])
        as En by by destruct (keep p _).
      apply (proj1 (keep_none _ _) En). by apply sort_by_elem_of.
Qed.

Lemma rank_NoDup (cands : list Candidate) cursor :
  NoDup (cand_id <$> cands) → NoDup (cand_id <$> rank cands cursor).
Proof.
  intros Hnd. unfold rank. destruct (existsb _ _); rewrite sort_by_perm; [|done].
  eapply sublist_NoDup; [exact Hnd|]. apply fmap_sublist, keep_sublist.
Qed.
End Candidates.

Section Choice.
Context {Uri : Type} `{UriOps Uri}.
Implicit Types (s : RoutingState (Uri:=Uri)) (clock : string → N * N).

Lemma admits_candidate clock s s1 c :
  Routing.runtime s1 = Routing.runtime s →
  live_backends (inner s1) !! cand_id c = live_backends (inner s) !! cand_id c →
  admits clock s1 c = admits clock s c.
Proof. intros Hr Hl. unfold admits, slots_of. by rewrite Hr, Hl. Qed.

(** C4: what [select] chooses.  On a well-formed runtime whose counters have room [select]
    returns.  The candidates are exactly the registered, active backends whose live record
    belongs to the published generation, is ready and whose circuit is not open.  It answers
    nothing only when no considered candidate has a free circuit and an open gate; otherwise
    the request goes to one that has, and no other such candidate has less pressure, nor the
    same pressure and fewer requests in flight (without fresh metrics: fewer in flight).  The
    chosen backend has exactly one more counted lease and nothing else of the registry moved,
    so the next selection sees the reservation. *)
Theorem select_spec s (now : N) clock :
  runtime_wf (Routing.runtime s) → acquire_room (slots_of s) →
  ∃ r s', select now clock s = (Done r, s')
    ∧ match r with
      | None => (∀ c, considered s now c → admits clock s c = false)
                ∧ Routing.runtime s' = Routing.runtime s
      | Some sel =>
          ∃ c cands, considered s now c ∧ admits clock s c = true
            ∧ (∀ d, considered s now d → admits clock s d = true → preferred c d)
            ∧ NoDup cands ∧ (∀ d, d ∈ cands ↔ candidate_at s now d)
            ∧ dispatched s c (N.of_nat (length cands)) sel s'
      end.
Proof.
  intros Hwf Hroom.
  destruct (phase_run s now Hwf) as (cands & s1 & Hph & Hin & Hnd & Hrt & _ & Hlive).
  unfold select, mbind, M_mbind. rewrite Hph. case_bool_decide as Hnil.
  { subst. exists None, s1. split; [done|]. split; [|done].
    intros c [Hc _]. apply Hin in Hc. by apply elem_of_nil in Hc. }
  destruct (reserve_run clock (N.of_nat (length cands)) (rank cands (rotating_cursor (inner s))) s1)
    as (r & s' & Hrun & Hr); [by apply rank_NoDup|unfold slots_of in *; by rewrite Hrt|].
  exists r, s'. split; [done|].
  pose proof (rank_first cands (rotating_cursor (inner s)) (admits clock s1) s now Hin) as Hfirst.
  assert (∀ c, considered s now c → admits clock s1 c = admits clock s c) as Hadm.
  { intros c [Hc%Hin _]. by apply admits_candidate, Hlive. }
  destruct (head _) as [c|].
  - destruct Hr as (sel & -> & [H1 H2 H3 H4]), Hfirst as (Hc & Ha & Hmin).
    exists c, cands. split_and!; try done; [by rewrite <- Hadm| |by eapply NoDup_fmap_1|].
    + intros d Hd Had. apply Hmin; [done|]. by rewrite Hadm.
    + unfold slots_of in *. split; [done|done| |by rewrite <- Hrt]. unfold slots_of. by rewrite <- Hrt.
  - destruct Hr as [-> Hr]. split; [|by rewrite Hr]. intros c Hc. rewrite <- Hadm; auto.
Qed.

(** Reservation under interleaving.  Whatever other operations did since the candidates
    were ranked, the reservation loop, run in any later state, sends the request to the first
    of them that is still admitted in that state: every candidate tried before was refused by
    its circuit or its gate there, the lease is on an active registered backend, and a loop
    that finds nobody leaves the runtime as it was. *)
Theorem reserve_spec s clock (eligible : N) (ranked : list Candidate) :
  NoDup (cand_id <$> ranked) → acquire_room (slots_of s) →
  ∃ r s', reserve clock eligible ranked s = (Done r, s')
    ∧ match r with
      | None => (∀ c, c ∈ ranked → admits clock s c = false)
                ∧ Routing.runtime s' = Routing.runtime s
      | Some sel =>
          ∃ c before after, ranked = before ++ c :: after ∧ admits clock s c = true
            ∧ (∀ d, d ∈ before → admits clock s d = false) ∧ dispatched s c eligible sel s'
      end.
Proof.
  intros Hnd Hroom. destruct (reserve_run clock eligible ranked s Hnd Hroom) as (r & s' & Hrun & Hr).
  exists r, s'. split; [done|]. destruct (head _) as [c|] eqn:Eh.
  - destruct Hr as (sel & -> & Hd). apply keep_first in Eh as (l1 & l2 & -> & Hc & Hl).
    by exists c, l1, l2.
  - destruct Hr as [-> Hr]. split; [|done].
    apply keep_none. by destruct (keep _ ranked).
Qed.
End Choice.

(** ** The status report *)

Section Statuses.
Context {Uri : Type} `{UriOps Uri}.
Implicit Types (s : RoutingState (Uri:=Uri)).

(** The displayed state of a snapshot and its eligibility. *)
Definition displayed_ok (st : BackendStatusSnapshot) : Prop :=
  (st_eligible st = true ↔ st_state st = DReady ∨ st_state st = DDegraded ∨ st_state st = DProbing)
  ∧ (st_state st = DReady ↔
       st_eligible st = true ∧ st_circuit st = CClosed ∧ st_telemetry st = Fresh)
  ∧ (∀ p, st_pressure st = Some p → st_eligible st = true ∧ st_telemetry st = Fresh).

Lemma status_snapshot_ok snap live (b : Backend (Uri:=Uri)) now stale limit :
  displayed_ok (status_snapshot snap live b now stale limit).
Proof.
  unfold displayed_ok, status_snapshot. simpl.
  set (t := match metrics live with Some _ => _ | None => _ end).
  set (c := Circuit_state (circuit live) now).
  set (p := mbind _ _). clearbody t c p.
  destruct (snap_mode snap), (lb_readiness live), c, t; simpl; naive_solver.
Qed.

Lemma status_of_spec s live l now snap :
  runtime_wf (Routing.runtime s) → backend_instances (Routing.runtime s) = Done l →
  (∀ id, live !! id = ensured (configured_generation (Routing.runtime s) id)
                        (live_backends (inner s) !! id)) →
  snap ∈ registry_snapshots (slots_of s) now → ∀ stale limit,
  ∃ st, status_of live (configs_of l) now stale limit snap = Some st
    ∧ st_id st = snapshot_id snap ∧ displayed_ok st
    ∧ bool_decide (is_Some (candidate_of live (configs_of l) now stale limit snap)) = st_eligible st.
Proof.
  intros Hwf Hl Hlive Hsnap stale limit. apply snapshots_elem in Hsnap as (id & slot & Hslot & Hreg & ->).
  destruct (rw_registry _ Hwf id slot Hslot) as [_ Hid].
  set (snap := BackendSlot_snapshot slot now). assert (snapshot_id snap = id) as Hsid by exact Hid.
  assert (id ∈ b_id <$> backends (config (published_runtime (Routing.runtime s)))) as Hmem.
  { apply (rw_members _ Hwf). by exists slot. }
  pose proof Hmem as (b & Hb & Hbin)%list_elem_of_fmap.
  destruct (rw_generations _ Hwf b Hbin) as (g & Hg & _). rewrite <- Hb in Hg.
  assert (configs_of l !! id = Some (b, g)) as Hcf by by apply (configs_lookup _ _ _ _ _ Hwf Hl).
  assert (∃ lv, live !! id = Some lv ∧ topology_generation lv = g) as (lv & Hlv & Htg).
  { rewrite Hlive. unfold configured_generation. rewrite bool_decide_true, Hg by done. simpl.
    eexists. split; [reflexivity|]. destruct (live_backends _ !! id) as [e|]; [|done].
    destruct (N.eqb_spec (topology_generation e) g); done. }
  unfold status_of, candidate_of. rewrite Hsid, Hcf, Hlv. simpl. rewrite Htg, N.eqb_refl. simpl.
  eexists. split; [reflexivity|]. split; [exact Hid|]. split; [apply status_snapshot_ok|]. simpl.
  destruct (score_candidate _ _ _ _ _ _) as [sc me].
  destruct (mode (state slot)), (lb_readiness lv), (Circuit_state (circuit lv) now); done.
Qed.

(** The status report and the router agree.  On a well-formed runtime both answer; every
    registered backend is reported, in the order of the snapshots; the backends reported as
    eligible are exactly the candidates a selection at the same instant would have, in the
    same order; a backend is shown [ready] exactly when it is eligible, its circuit closed and
    its telemetry fresh, eligible ones are shown ready, degraded or probing, and a pressure is
    reported for eligible backends with fresh telemetry only. *)
Theorem statuses_agree s (now : N) :
  runtime_wf (Routing.runtime s) →
  ∃ l s1 cands cursor s2, statuses now s = (Done l, s1)
    ∧ candidates_phase now s = (Done (cands, cursor), s2)
    ∧ st_id <$> l = registered_ids (slots_of s) now
    ∧ cand_id <$> cands = st_id <$> keep st_eligible l
    ∧ Forall displayed_ok l.
Proof.
  intros Hwf. destruct (instances_spec _ Hwf) as (l & Hl & _ & _).
  destruct (ensure_run s Hwf) as (live & Hens & Hlive).
  unfold statuses, candidates_phase, get_state, instances, runtime_config, gets, modify,
    mbind, M_mbind, mret, M_mret.
  rewrite Hl, Hens. cbn -[registry_snapshots].
  eexists _, _, _, _, _. split; [reflexivity|]. split; [reflexivity|].
  unfold registered_ids, slots_of.
  assert (∀ snap, snap ∈ registry_snapshots (registry (Routing.runtime s)) now →
    snap ∈ registry_snapshots (slots_of s) now) as Hall by done.
  revert Hall. generalize (registry_snapshots (registry (Routing.runtime s)) now). intros snaps.
  induction snaps as [|snap snaps IH]; intros Hall; [by split_and!|].
  destruct IH as (IH1 & IH2 & IH3); [intros x Hx; apply Hall; by right|].
  destruct (status_of_spec s live l now snap Hwf Hl Hlive) with
    (stale := from_millis (stale_after_ms (telemetry (config (published_runtime (Routing.runtime s))))))
    (limit := kv_soft_limit (routing (config (published_runtime (Routing.runtime s)))))
    as (st & Hst & Hid & Hok & Hel); [apply Hall; left|].
  cbn -[status_of candidate_of]. rewrite Hst.
  destruct (candidate_of _ _ _ _ _ snap) as [c|] eqn:Hc.
  - apply candidate_of_id in Hc. cbn -[status_of candidate_of] in *. rewrite <- Hel.
    split_and!; [by rewrite Hid, <- IH1|by rewrite fmap_cons, Hc, Hid, IH2|by constructor].
  - cbn -[status_of candidate_of] in *. rewrite <- Hel.
    split_and!; [by rewrite Hid, <- IH1|exact IH2|by constructor].
Qed.
End Statuses.

(** ** A concrete router *)

Definition empty_router : RoutingState (Uri:=SimpleUri) :=
  {| Routing.runtime := empty_runtime;
     inner := {| live_backends := ∅; rotating_cursor := 0 |} |}.

Definition demo_router : RoutingState (Uri:=SimpleUri) :=
  match RoutingState_new_assume_ready demo_runtime with Done s => s | Panicked => empty_router end.

Lemma demo_router_wf : runtime_wf (Routing.runtime demo_router).
Proof.
  destruct (from_config_stage demo_config 0) as (st & E & Hwf & _); [apply demo_ids|apply demo_ids|].
  assert (Routing.runtime demo_router = st) as ->; [|done].
  assert (st = demo_runtime) as -> by (unfold demo_runtime; by rewrite E).
  vm_compute. reflexivity.
Qed.

Lemma demo_router_room : acquire_room (slots_of demo_router).
Proof.
  intros id s Hs. split; [by apply (rw_registry _ demo_router_wf) in Hs as [? _]|].
  assert (map_Forall (λ _ s, (next_lease_serial (state s) < U64_MAX)%N
    ∧ (sequence (state s) < U64_MAX)%N) (slots_of demo_router)) as Hall; [|exact (Hall id s Hs)].
  apply (bool_decide_unpack _). vm_compute. exact I.
Qed.

Definition demo_clock (id : string) : N * N := (10%N, 11%N).

Theorem select_spec_witness :
  ∃ r s', select 10 demo_clock demo_router = (Done r, s')
    ∧ match r with
      | None => ∀ c, considered demo_router 10 c → admits demo_clock demo_router c = false
      | Some sel => ∃ c, considered demo_router 10 c ∧ admits demo_clock demo_router c = true
      end.
Proof.
  destruct (select_spec demo_router 10 demo_clock demo_router_wf demo_router_room)
    as (r & s' & Hrun & Hr).
  exists r, s'. split; [exact Hrun|]. destruct r as [sel|]; [|exact (proj1 Hr)].
  destruct Hr as (c & cands & Hc & Ha & _). exists c. split; [exact Hc|exact Ha].
Defined.

Theorem reserve_spec_witness :
  let ranked := [mkCandidate "gone" 0 None None; mkCandidate "east" 0 None None] in
  ∃ r s', reserve demo_clock 1 ranked demo_router = (Done r, s')
    ∧ (r = None → ∀ c, c ∈ ranked → admits demo_clock demo_router c = false).
Proof.
  destruct (reserve_spec demo_router demo_clock 1
    [mkCandidate "gone" 0 None None; mkCandidate "east" 0 None None]) as (r & s' & Hrun & Hr).
  - apply (bool_decide_unpack _). vm_compute. exact I.
  - exact demo_router_room.
  - exists r, s'. split; [exact Hrun|]. intros ->. exact (proj1 Hr).
Defined.

Theorem statuses_agree_witness :
  ∃ l s1 cands cursor s2, statuses 10 demo_router = (Done l, s1)
    ∧ candidates_phase 10 demo_router = (Done (cands, cursor), s2)
    ∧ st_id <$> l = registered_ids (slots_of demo_router) 10.
Proof.
  destruct (statuses_agree demo_router 10 demo_router_wf) as (l & s1 & cs & cu & s2 & H1 & H2 & H3 & _).
  exists l, s1, cs, cu, s2. split; [exact H1|]. split; [exact H2|exact H3].
Defined.
