(* ===== verification/Disk.v ===== *)
(** * Files that are replaced atomically

    The two durable stores, [src/src/backend_state.rs] and [src/src/keys.rs],
    write a sibling temporary file, sync it and rename it over the target.
    This file models what they use of [std::fs] for one target: every step may
    fail ([Faults]), and [crash_points] collects the content of the target
    after each of them, which is what a crash at that point leaves.  The JSON
    codec of [serde_json] is a parameter ([JsonOps], [JsonLaws]). *)

From S2P Require Import Prelude RustStd.

(** ** [io::Result] *)

(** The [io::ErrorKind]s the program tells apart. *)
Inductive ErrorKind :=
  NotFound | InvalidData | Unsupported | BrokenPipe | AlreadyExists | AddrInUse | ConnectionRefused | TimedOut | OtherKind.

#[export] Instance ErrorKind_eq_dec : EqDecision ErrorKind.
Proof. solve_decision. Defined.

Record IoError := mkIoError { kind : ErrorKind; io_message : string }.

(** [?] on an action that returns a [Result]. *)
Definition try_bind {S E A B} (m : M S (result E A)) (f : A → M S (result E B)) :
    M S (result E B) :=
  r ← m;
  match r with Ok a => f a | Err e => mret (Err e) end.

Notation "x ←? m ; k" := (try_bind m (λ x, k))
  (at level 20, m at level 100, k at level 200, only parsing) : stdpp_scope.

(** ** One target and its temporary sibling *)

Record Disk := mkDisk {
  target : option bytes;
  temporary : option bytes;
  crash_points : list (option bytes);
}.

Definition disk_of (contents : option bytes) : Disk :=
  {| target := contents; temporary := None; crash_points := [] |}.

(** The steps of a replacement. *)
Inductive IoStep := CreateDir | OpenTemp | WriteAll | SyncFile | Harden | Rename | SyncDir.

(** Which steps fail and how, and what a failing write leaves in the file. *)
Record Faults := mkFaults { fault : IoStep → option IoError; written : bytes }.

Definition no_faults : Faults := {| fault := λ _, None; written := [] |}.

(** A step: on success its effect, on a fault [partial]; a crash right after it leaves the
    target it left. *)
Definition io_step (faults : Faults) (step : IoStep) (effect partial : Disk → Disk) :
    M Disk (result IoError ()) :=
  λ d, let '(r, d') := match fault faults step with
                       | None => (Ok (), effect d)
                       | Some e => (Err e, partial d)
                       end in
       (Done r, {| target := target d'; temporary := temporary d';
                   crash_points := crash_points d' ++ [target d'] |}).

(** [fs::create_dir_all]: no content moves. *)
Definition create_dir_all (faults : Faults) : M Disk (result IoError ()) :=
  io_step faults CreateDir id id.

(** [OpenOptions::create(true).truncate(true).write(true).open(temporary)]. *)
Definition open_temporary (faults : Faults) : M Disk (result IoError ()) :=
  io_step faults OpenTemp (λ d, d <| temporary := Some [] |>) id.

(** [file.write_all(contents)]. *)
Definition write_all (faults : Faults) (contents : bytes) : M Disk (result IoError ()) :=
  io_step faults WriteAll (λ d, d <| temporary := Some contents |>)
    (λ d, d <| temporary := Some (written faults) |>).

(** [file.sync_all()]. *)
Definition sync_all (faults : Faults) : M Disk (result IoError ()) := io_step faults SyncFile id id.

(** [harden_permissions(file)]: the mode bits, not the contents. *)
Definition harden_permissions (faults : Faults) : M Disk (result IoError ()) :=
  io_step faults Harden id id.

(** [fs::rename(temporary, target)]. *)
Definition rename (faults : Faults) : M Disk (result IoError ()) :=
  io_step faults Rename (λ d, d <| target := temporary d |> <| temporary := None |>) id.

(** [File::open(directory)?.sync_all()]. *)
Definition sync_dir (faults : Faults) : M Disk (result IoError ()) := io_step faults SyncDir id id.

(** [let _ = fs::remove_file(temporary)]: best effort, an error is dropped. *)
Definition remove_temporary : M Disk () := modify (λ d, d <| temporary := None |>).

(** Reading the target back. *)
Definition read_target (d : Disk) : result IoError bytes :=
  ok_or (target d) {| kind := NotFound; io_message := "No such file or directory" |}.

(** ** The JSON codec *)

Class JsonOps (T : Type) := {
  to_vec_pretty : T → result string bytes;
  from_str : bytes → result string T;
}.

(** What [serde_json] promises of a type whose serialized form it can read back. *)
Class JsonLaws (T : Type) `{JsonOps T} : Prop := {
  json_total : ∀ t, ∃ json, to_vec_pretty t = Ok json;
  json_roundtrip : ∀ t json, to_vec_pretty t = Ok json → from_str (json ++ [LF]) = Ok t;
}.

(** A concrete codec for every countable type: the code of the value in binary. *)
Fixpoint bits_of (p : positive) : bytes :=
  match p with
  | xH => []
  | xO p => "0"%char :: bits_of p
  | xI p => "1"%char :: bits_of p
  end.

Fixpoint of_bits (s : bytes) : positive :=
  match s with
  | [] => xH
  | c :: s => if decide (c = LF) then xH
              else if decide (c = "1"%char) then xI (of_bits s) else xO (of_bits s)
  end.

Lemma of_bits_of p : of_bits (bits_of p ++ [LF]) = p.
Proof.
  induction p as [p IH|p IH|]; simpl; [| |done]; rewrite IH; done.
Qed.

Definition countable_json T `{Countable T} : JsonOps T :=
  {| to_vec_pretty := λ t, Ok (bits_of (encode t));
     from_str := λ s, ok_or (decode (of_bits s)) "not an encoding" |}.

Lemma countable_json_laws T `{Countable T} : @JsonLaws T (countable_json T).
Proof.
  split; simpl; [by eexists|]. intros t json [= <-].
  by rewrite of_bits_of, decode_encode.
Qed.
