(* ===== verification/BackendState.v ===== *)
(** * [src/src/backend_state.rs]: the durable drain fences

    The overlay of modes that survives a restart: what is accepted when it is
    loaded, how a mode transition is persisted, and what a fault or a crash in
    the middle of that leaves in memory and on disk. *)

From S2P Require Import Prelude RustStd Backend Disk.

(** src/src/backend_state.rs:23-23 [STATE_SCHEMA_VERSION] *)
Definition STATE_SCHEMA_VERSION : N := 1.

(** src/src/backend_state.rs:27-30 [PersistedBackend] *)
Record PersistedBackend := mkPersistedBackend { pb_mode : BackendMode; changed_at_unix_ms : N }.

(** src/src/backend_state.rs:34-37 [StateFile] *)
Record StateFile := mkStateFile {
  schema_version : N;
  stored : gmap string PersistedBackend;
}.

(** src/src/backend_state.rs:39-46 [StateFile::Default] *)
Definition StateFile_default : StateFile :=
  {| schema_version := STATE_SCHEMA_VERSION; stored := ∅ |}.

(** The entries in the order the [BTreeMap] iterates: by identity. *)
Definition stored_entries (state : StateFile) : list (string * PersistedBackend) :=
  sort_by (λ x y, String.compare x.1 y.1) (map_to_list (stored state)).

(** src/src/backend_state.rs, lines 141-151 of [validate]: the loop *)
Fixpoint validate_entries (l : list (string * PersistedBackend)) : result string () :=
  match l with
  | [] => Ok ()
  | (id, backend) :: l =>
      if bool_decide (id = "") then Err "an entry has an empty backend id" else
      if bool_decide (pb_mode backend = Active)
      then Err ("backend " +:+ fmt_debug id
                +:+ " stores mode active; active backends must be omitted")
      else validate_entries l
  end.

(** src/src/backend_state.rs:134-152 [validate] *)
Definition validate (state : StateFile) : result string () :=
  if negb (schema_version state =? STATE_SCHEMA_VERSION)%N
  then Err ("unsupported schema version " +:+ to_string (schema_version state)
            +:+ " (this build understands 1)")
  else validate_entries (stored_entries state).

(** src/src/backend_state.rs:50-53 [BackendStateStore]; the memory and the file *)
Record BackendStateStore := mkBackendStateStore {
  store_path : string;
  store_state : StateFile;
  disk : Disk;
}.

Section Store.
Context `{JsonOps StateFile}.

(** src/src/backend_state.rs:56-87 [BackendStateStore::load]; [read] is what reading the file gave *)
Definition load (path : string) (read : result IoError bytes) : result IoError StateFile :=
  match read with
  | Ok contents =>
      state ← map_err (λ error, {| kind := InvalidData;
          io_message := "could not parse backend state " +:+ path +:+ ": " +:+ error |})
        (from_str contents);
      _ ← map_err (λ message, {| kind := InvalidData;
          io_message := "invalid backend state " +:+ path +:+ ": " +:+ message |})
        (validate state);
      mret state
  | Err error =>
      if bool_decide (kind error = NotFound) then Ok StateFile_default
      else Err {| kind := kind error;
                  io_message := "could not read backend state " +:+ path +:+ ": "
                                +:+ io_message error |}
  end.

(** src/src/backend_state.rs:93-99 [BackendStateStore::modes] *)
Definition modes (self : BackendStateStore) : gmap string BackendMode :=
  pb_mode <$> stored (store_state self).

(** src/src/backend_state.rs:154-185 [save_file] *)
Definition save_file (faults : Faults) (state : StateFile) : M Disk (result IoError ()) :=
  _ ←? mret (map_err (λ message, {| kind := InvalidData; io_message := message |})
               (validate state));
  json ←? mret (map_err (λ message, {| kind := OtherKind; io_message := message |})
                  (to_vec_pretty state));
  let json := json ++ [LF] in
  _ ←? create_dir_all faults;
  _ ←? open_temporary faults;
  result ← (_ ←? write_all faults json;
            _ ←? sync_all faults;
            _ ←? harden_permissions faults;
            _ ←? rename faults;
            sync_dir faults);
  _ ← (if negb (is_ok result) then remove_temporary else mret ());
  mret result.

(** An action on the disk of the store. *)
Definition on_disk {A} (m : M Disk A) : M BackendStateStore A :=
  λ s, let '(r, d) := m (disk s) in (r, s <| disk := d |>).

(** src/src/backend_state.rs:103-125 [BackendStateStore::set_mode] *)
Definition set_mode (faults : Faults) (backend_id : string) (mode : BackendMode) (now_unix_ms : N) :
    M BackendStateStore (result IoError ()) :=
  s ← get_state;
  let previous := store_state s in
  _ ← match mode with
      | Active =>
          modify (λ s, s <| store_state :=
            (store_state s) <| stored := delete backend_id (stored (store_state s)) |> |>)
      | Draining | Disabled =>
          modify (λ s, s <| store_state :=
            (store_state s) <| stored :=
              <[backend_id := {| pb_mode := mode; changed_at_unix_ms := now_unix_ms |}]>
                (stored (store_state s)) |> |>)
      end;
  s ← get_state;
  saved ← on_disk (save_file faults (store_state s));
  match saved with
  | Err error => _ ← modify (λ s, s <| store_state := previous |>); mret (Err error)
  | Ok _ => mret (Ok ())
  end.
End Store.

(** ** What is stored *)

(** A state file this build accepts: only drained or disabled backends, named. *)
Definition state_valid (state : StateFile) : Prop :=
  schema_version state = STATE_SCHEMA_VERSION
  ∧ ∀ id b, stored state !! id = Some b → id ≠ "" ∧ pb_mode b ≠ Active.

Lemma validate_entries_Ok l :
  validate_entries l = Ok () ↔ Forall (λ x, x.1 ≠ "" ∧ pb_mode x.2 ≠ Active) l.
Proof.
  induction l as [|[id b] l IH]; simpl; [by split|].
  rewrite Forall_cons. simpl. repeat case_bool_decide; naive_solver.
Qed.

Lemma validate_Ok state : validate state = Ok () ↔ state_valid state.
Proof.
  unfold validate, state_valid. destruct (N.eqb_spec (schema_version state) STATE_SCHEMA_VERSION)
    as [Hv|Hv]; simpl; [|naive_solver].
  rewrite validate_entries_Ok. unfold stored_entries. rewrite sort_by_perm, Forall_forall. split.
  - intros Hall. split; [done|]. intros id b Hb. apply (Hall (id, b)). by apply elem_of_map_to_list.
  - intros [_ Hall] [id b] Hb. apply elem_of_map_to_list in Hb. by apply (Hall id b).
Qed.

(** The state a transition asks for. *)
Definition with_mode (backend_id : string) (mode : BackendMode) (now_unix_ms : N)
    (state : StateFile) : StateFile :=
  {| schema_version := schema_version state;
     stored := match mode with
               | Active => delete backend_id (stored state)
               | _ => <[backend_id := {| pb_mode := mode; changed_at_unix_ms := now_unix_ms |}]>
                        (stored state)
               end |}.

Lemma with_mode_valid id mode now state :
  state_valid state → mode = Active ∨ id ≠ "" → state_valid (with_mode id mode now state).
Proof.
  intros [Hv Hs] Hid. split; [done|]. simpl. intros i b.
  destruct mode; simpl; [intros [_ ?]%lookup_delete_Some; by apply Hs| |];
    (destruct (decide (i = id)) as [->|Hne];
     [rewrite lookup_insert_eq; intros [= <-]; by destruct Hid|
      rewrite lookup_insert_ne by done; apply Hs]).
Qed.

Section StoreProperties.
Context `{JsonLaws StateFile}.

(** The faults that leave the target as it was. *)
Definition before_rename (faults : Faults) : Prop :=
  is_Some (fault faults CreateDir) ∨ is_Some (fault faults OpenTemp)
  ∨ is_Some (fault faults WriteAll) ∨ is_Some (fault faults SyncFile)
  ∨ is_Some (fault faults Harden) ∨ is_Some (fault faults Rename).

Lemma save_run faults state d json :
  state_valid state → to_vec_pretty state = Ok json →
  ∃ r d', save_file faults state d = (Done r, d')
    ∧ (∃ pts, crash_points d' = crash_points d ++ pts
              ∧ Forall (λ p, p = target d ∨ p = Some (json ++ [LF])) pts)
    ∧ match r with
      | Ok _ => target d' = Some (json ++ [LF]) ∧ fault faults SyncDir = None
      | Err _ => (before_rename faults ∧ target d' = target d)
                 ∨ (is_Some (fault faults SyncDir) ∧ target d' = Some (json ++ [LF]))
      end.
Proof.
  intros Hv%validate_Ok Hj. destruct d as [t tmp cp], faults as [fl w].
  unfold save_file, create_dir_all, open_temporary, write_all, sync_all, harden_permissions,
    rename, sync_dir, remove_temporary, modify, before_rename, try_bind, mbind, M_mbind,
    mret, M_mret, io_step. rewrite Hv, Hj. simpl.
  destruct (fl CreateDir) eqn:E1; rsimpl; [|destruct (fl OpenTemp) eqn:E2; rsimpl;
    [|destruct (fl WriteAll) eqn:E3; rsimpl; [|destruct (fl SyncFile) eqn:E4; rsimpl;
    [|destruct (fl Harden) eqn:E5; rsimpl; [|destruct (fl Rename) eqn:E6; rsimpl;
    [|destruct (fl SyncDir) eqn:E7; rsimpl]]]]]];
    eexists _, _; (split; [reflexivity|]); simpl; rewrite <- ?app_assoc; simpl;
    (split; [eexists; split; [reflexivity|]; repeat (constructor; [by auto|]); constructor|]);
    try done; try (right; by eauto); left; split; try done;
    repeat (try (left; by eexists); right); by eexists.
Qed.

(** What the end of a save makes of the store: memory keeps the new state when it succeeded. *)
Definition after_save id mode now (s : BackendStateStore) (saved : outcome (result IoError ()) * Disk) :
    outcome (result IoError ()) * BackendStateStore :=
  let state := with_mode id mode now (store_state s) in
  match saved with
  | (Done (Ok _), d) => (Done (Ok ()), {| store_path := store_path s; store_state := state; disk := d |})
  | (Done (Err e), d) =>
      (Done (Err e), {| store_path := store_path s; store_state := store_state s; disk := d |})
  | (Panicked, d) => (Panicked, {| store_path := store_path s; store_state := state; disk := d |})
  end.

(** A mode change is a save of the changed state. *)
Lemma set_mode_saves faults id mode now s :
  set_mode faults id mode now s
  = after_save id mode now s (save_file faults (with_mode id mode now (store_state s)) (disk s)).
Proof.
  assert (∀ s1, s1 = {| store_path := store_path s; store_state := with_mode id mode now (store_state s);
                        disk := disk s |} →
    (s2 ← get_state; saved ← on_disk (save_file faults (store_state s2));
     match saved with
     | Err error => _ ← modify (λ s3, s3 <| store_state := store_state s |>); mret (Err error)
     | Ok _ => mret (Ok ())
     end) s1
    = after_save id mode now s (save_file faults (with_mode id mode now (store_state s)) (disk s))) as Htail.
  { intros s1 ->. unfold get_state, on_disk, modify, mbind, M_mbind, mret, M_mret. simpl.
    by destruct (save_file _ _ _) as [[[u|e]|] d']; rsimpl. }
  unfold set_mode, get_state at 1, mbind at 1, M_mbind at 1.
  destruct s as [p st d]. destruct mode; unfold modify at 1, mbind at 1, M_mbind at 1;
    rsimpl; by apply Htail.
Qed.

Lemma set_mode_run faults id mode now s json :
  state_valid (store_state s) → mode = Active ∨ id ≠ "" →
  to_vec_pretty (with_mode id mode now (store_state s)) = Ok json →
  ∃ r d', set_mode faults id mode now s = (Done r, {| store_path := store_path s;
      store_state := if is_ok r then with_mode id mode now (store_state s) else store_state s;
      disk := d' |})
    ∧ (∃ pts, crash_points d' = crash_points (disk s) ++ pts
              ∧ Forall (λ p, p = target (disk s) ∨ p = Some (json ++ [LF])) pts)
    ∧ match r with
      | Ok _ => target d' = Some (json ++ [LF]) ∧ fault faults SyncDir = None
      | Err _ => (before_rename faults ∧ target d' = target (disk s))
                 ∨ (is_Some (fault faults SyncDir) ∧ target d' = Some (json ++ [LF]))
      end.
Proof.
  intros Hv Hid Hj.
  destruct (save_run faults _ (disk s) json (with_mode_valid id mode now _ Hv Hid) Hj)
    as (r & d' & Hrun & Hcp & Hr).
  exists r, d'. split; [|done]. rewrite set_mode_saves, Hrun. by destruct r as [[]|e].
Qed.

Lemma load_saved path state json :
  state_valid state → to_vec_pretty state = Ok json → load path (Ok (json ++ [LF])) = Ok state.
Proof.
  intros Hv%validate_Ok Hj. unfold load. rewrite (json_roundtrip _ _ Hj). simpl. by rewrite Hv.
Qed.

(** The path is only for the messages of errors. *)
Lemma load_any_path path path' read state : load path read = Ok state → load path' read = Ok state.
Proof.
  unfold load. destruct read as [contents|error]; [|by case_bool_decide].
  destruct (from_str contents) as [st|]; simpl; [|done]. by destruct (validate st).
Qed.

(** The contents that may be found in the file while a mode is set: what it held, or the state asked for. *)
Lemma set_mode_writes faults id mode now s r s' :
  set_mode faults id mode now s = (Done r, s') →
  ∃ pts, crash_points (disk s') = crash_points (disk s) ++ pts
    ∧ Forall (λ t, t = target (disk s)
        ∨ load (store_path s) (read_target (disk_of t)) = Ok (with_mode id mode now (store_state s)))
        (target (disk s') :: pts).
Proof.
  rewrite set_mode_saves. set (st := with_mode id mode now (store_state s)).
  destruct (validate st) as [[]|e] eqn:Hv.
  - pose proof (proj1 (validate_Ok _) Hv) as Hvalid. destruct (json_total st) as [json Hj].
    destruct (save_run faults st (disk s) json Hvalid Hj) as (r' & d' & -> & (pts & Hp & Hall) & Hr).
    intros Hrun. assert (disk s' = d') as -> by (destruct r' as [[]|e]; by injection Hrun as _ <-).
    exists pts. split; [done|].
    assert (load (store_path s) (read_target (disk_of (Some (json ++ [LF])))) = Ok st) as Hload
      by by apply load_saved.
    constructor; [|eapply Forall_impl; [exact Hall|]; intros t [->| ->]; [by left|by right]].
    simpl. destruct r' as [u|e]; [destruct Hr as [-> _]; by right|].
    destruct Hr as [[_ ->]|[_ ->]]; [by left|by right].
  - unfold save_file, try_bind at 1, mbind at 1, M_mbind at 1. rewrite Hv. simpl. intros [= _ <-].
    exists []. split; [by rewrite app_nil_r|]. constructor; [by left|constructor].
Qed.

(** The store and its file agree. *)
Definition in_sync (s : BackendStateStore) : Prop :=
  state_valid (store_state s)
  ∧ load (store_path s) (read_target (disk s)) = Ok (store_state s).

(** The file holds the state in memory, or that state with one backend's mode changed: what an update
    that was answered with an error leaves there when the file was renamed and only the directory
    could not be synced. *)
Definition file_follows (s : BackendStateStore) (state : StateFile) : Prop :=
  load (store_path s) (read_target (disk s)) = Ok state
  ∧ (state = store_state s ∨ ∃ id mode now, state = with_mode id mode now (store_state s)).

Lemma load_valid path read state : load path read = Ok state → state_valid state.
Proof.
  unfold load. destruct read as [contents|error].
  - destruct (from_str contents) as [st|]; simpl; [|done].
    destruct (validate st) as [[]|] eqn:Hv; simpl; [|done]. intros [= <-]. by apply validate_Ok.
  - case_bool_decide; [|done]. intros [= <-]. split; [done|]. intros id b Hb.
    simpl in Hb. by rewrite lookup_empty in Hb.
Qed.

Lemma in_sync_follows s : in_sync s → file_follows s (store_state s).
Proof. intros [_ Hl]. by split; [|left]. Qed.

Lemma set_mode_follows faults id mode now s r s' :
  set_mode faults id mode now s = (Done r, s') →
  (∃ state, file_follows s state) → ∃ state, file_follows s' state.
Proof.
  rewrite set_mode_saves. set (st := with_mode id mode now (store_state s)).
  intros Hrun (f & Hl & Hf). destruct (validate st) as [[]|e] eqn:Hv.
  - pose proof (proj1 (validate_Ok _) Hv) as Hvalid. destruct (json_total st) as [json Hj].
    destruct (save_run faults st (disk s) json Hvalid Hj) as (r' & d' & E & _ & Hr).
    rewrite E in Hrun. assert (∀ path, target d' = Some (json ++ [LF]) → load path (read_target d') = Ok st) as Hnew.
    { intros path Ht. unfold read_target. rewrite Ht. simpl. by apply load_saved. }
    destruct r' as [[]|e]; injection Hrun as _ <-.
    + exists st. split; [by apply Hnew, Hr|by left].
    + destruct Hr as [[_ Ht]|[_ Ht]].
      * exists f. split; [|done]. simpl. unfold read_target in *. by rewrite Ht.
      * exists st. split; [by apply Hnew|]. right. by exists id, mode, now.
  - unfold save_file, try_bind at 1, mbind at 1, M_mbind at 1 in Hrun. rewrite Hv in Hrun. simpl in Hrun.
    injection Hrun as _ <-. by exists f.
Qed.

(** Persisting a mode.  [set_mode] always returns.  When it succeeds the modes in memory
    are the old ones with that backend's replaced (removed when it becomes active), the store
    stays valid and loading the file gives exactly the state in memory.  When it fails, memory
    is as it was, and so is the file unless the fault was the final directory sync. *)
Theorem set_mode_spec (faults : Faults) (id : string) (mode : BackendMode) (now : N)
    (s : BackendStateStore) :
  in_sync s → mode = Active ∨ id ≠ "" →
  ∃ r s', set_mode faults id mode now s = (Done r, s')
    ∧ match r with
      | Ok _ => in_sync s'
                ∧ modes s' = match mode with
                             | Active => delete id (modes s)
                             | _ => <[id := mode]> (modes s)
                             end
      | Err _ => store_state s' = store_state s
                 ∧ (fault faults SyncDir = None → in_sync s')
      end.
Proof.
  intros [Hv Hl] Hid.
  destruct (json_total (with_mode id mode now (store_state s))) as [json Hj].
  destruct (set_mode_run faults id mode now s json Hv Hid Hj) as (r & d' & Hrun & _ & Hr).
  eexists _, _. split; [exact Hrun|].
  pose proof (with_mode_valid id mode now _ Hv Hid) as Hv'. destruct r as [[]|e]; simpl in *.
  - split.
    + split; [done|]. simpl. unfold read_target. destruct Hr as [-> _]. simpl. by apply load_saved.
    + unfold modes. simpl. destruct mode; simpl; by rewrite ?fmap_delete, ?fmap_insert.
  - split; [done|]. intros Hs. destruct Hr as [[_ Ht]|[[? ?] _]]; [|congruence].
    split; [done|]. simpl. unfold read_target in *. by rewrite Ht.
Qed.

(** C11: a crash leaves one of the two states.  Whatever fails and wherever the process dies
    while a mode is persisted, loading the file afterwards gives the state before the call or
    the state it asked for, never a mixture and never an unreadable file. *)
Theorem set_mode_crash (faults : Faults) (id : string) (mode : BackendMode) (now : N)
    (s : BackendStateStore) :
  in_sync s → crash_points (disk s) = [] → mode = Active ∨ id ≠ "" →
  ∃ r s', set_mode faults id mode now s = (Done r, s')
    ∧ ∀ t, t ∈ target (disk s') :: crash_points (disk s') →
        load (store_path s) (read_target (disk_of t)) = Ok (store_state s)
        ∨ load (store_path s) (read_target (disk_of t)) = Ok (with_mode id mode now (store_state s)).
Proof.
  intros [Hv Hl] Hcp Hid.
  destruct (json_total (with_mode id mode now (store_state s))) as [json Hj].
  destruct (set_mode_run faults id mode now s json Hv Hid Hj) as (r & d' & Hrun & (pts & Hp & Hall) & Hr).
  eexists _, _. split; [exact Hrun|]. simpl.
  assert (∀ t, t = target (disk s) ∨ t = Some (json ++ [LF]) →
    load (store_path s) (read_target (disk_of t)) = Ok (store_state s)
    ∨ load (store_path s) (read_target (disk_of t)) = Ok (with_mode id mode now (store_state s))) as Hload.
  { intros t [-> | ->]; [by left|right]. unfold read_target. simpl. apply load_saved; [|done].
    by apply with_mode_valid. }
  intros t [->|Ht]%elem_of_cons; apply Hload.
  - destruct r; [by right; destruct Hr|]. destruct Hr as [[_ ->]|[_ ->]]; [by left|by right].
  - rewrite Hp, Hcp in Ht. simpl in Ht. by apply (proj1 (Forall_forall _ _) Hall).
Qed.

(** An unsynced directory.  When only the directory sync fails, the call reports an error and memory keeps the old
    modes, but the rename has already happened: the file holds the new ones, which a restart
    will load. *)
Theorem set_mode_sync_dir_diverges (e : IoError) (id : string) (mode : BackendMode) (now : N)
    (s : BackendStateStore) :
  in_sync s → mode = Active ∨ id ≠ "" →
  let faults := {| fault := λ step, match step with SyncDir => Some e | _ => None end;
                   written := [] |} in
  ∃ e' s', set_mode faults id mode now s = (Done (Err e'), s')
    ∧ store_state s' = store_state s
    ∧ load (store_path s) (read_target (disk s')) = Ok (with_mode id mode now (store_state s)).
Proof.
  intros [Hv Hl] Hid faults.
  destruct (json_total (with_mode id mode now (store_state s))) as [json Hj].
  pose proof (with_mode_valid id mode now _ Hv Hid) as Hv'.
  destruct (set_mode_run faults id mode now s json Hv Hid Hj) as (r & d' & Hrun & _ & Hr).
  destruct r as [[]|e'].
  - by destruct Hr as [_ ?].
  - eexists _, _. split; [exact Hrun|]. split; [done|]. simpl.
    destruct Hr as [[Hb _]|[_ Ht]].
    + exfalso. unfold before_rename in Hb. simpl in Hb.
      destruct Hb as [[? ?]|[[? ?]|[[? ?]|[[? ?]|[[? ?]|[? ?]]]]]]; done.
    + unfold read_target. rewrite Ht. simpl. by apply load_saved.
Qed.
End StoreProperties.

(** ** A concrete store *)

Definition mode_code (m : BackendMode) : N :=
  (match m with Active => 0 | Draining => 1 | Disabled => 2 end)%N.
Definition mode_of_code (n : N) : option BackendMode :=
  (match n with 0 => Some Active | 1 => Some Draining | 2 => Some Disabled | _ => None end)%N.

#[export] Instance BackendMode_countable : Countable BackendMode.
Proof. by apply (inj_countable mode_code mode_of_code); intros []. Defined.

#[export] Instance PersistedBackend_eq_dec : EqDecision PersistedBackend.
Proof. solve_decision. Defined.
#[export] Instance PersistedBackend_countable : Countable PersistedBackend.
Proof.
  by apply (inj_countable' (λ b, (pb_mode b, changed_at_unix_ms b)) (λ '(m, t), mkPersistedBackend m t));
    intros [].
Defined.

#[export] Instance StateFile_eq_dec : EqDecision StateFile.
Proof. solve_decision. Defined.
#[export] Instance BackendStateStore_eq_dec : EqDecision BackendStateStore.
Proof.
  assert (EqDecision Disk) by solve_decision. solve_decision.
Defined.
#[export] Instance StateFile_countable : Countable StateFile.
Proof.
  by apply (inj_countable' (λ s, (schema_version s, stored s)) (λ '(v, m), mkStateFile v m)); intros [].
Defined.

#[export] Instance StateFile_json : JsonOps StateFile := countable_json StateFile.
#[export] Instance StateFile_json_laws : JsonLaws StateFile := countable_json_laws StateFile.

Definition demo_store : BackendStateStore :=
  {| store_path := "backend-state.json"; store_state := StateFile_default; disk := disk_of None |}.

Lemma demo_store_sync : in_sync demo_store.
Proof. split; [split; [done|intros id b Hb; simpl in Hb; by rewrite lookup_empty in Hb]|reflexivity]. Qed.

Theorem set_mode_spec_witness :
  ∃ s', set_mode no_faults "east" Draining 7 demo_store = (Done (Ok ()), s')
    ∧ modes s' = {[ "east" := Draining ]} ∧ in_sync s'.
Proof.
  destruct (set_mode_spec no_faults "east" Draining 7 demo_store demo_store_sync) as (r & s' & Hrun & Hr).
  { by right. }
  destruct r as [[]|e].
  - destruct Hr as [H1 H2]. exists s'. split; [exact Hrun|]. split; [exact H2|exact H1].
  - exfalso. assert (match (set_mode no_faults "east" Draining 7 demo_store).1 with
      Done (Ok _) => true | _ => false end = true) as Hok by (vm_compute; reflexivity).
    rewrite Hrun in Hok. discriminate.
Defined.

Definition demo_faults : Faults :=
  {| fault := λ step, match step with
                      | SyncFile => Some {| kind := OtherKind; io_message := "disk full" |}
                      | _ => None
                      end;
     written := [] |}.

Theorem set_mode_crash_witness :
  ∃ r s', set_mode demo_faults "east" Draining 7 demo_store = (Done r, s')
    ∧ ∀ t, t ∈ target (disk s') :: crash_points (disk s') →
        load (store_path demo_store) (read_target (disk_of t)) = Ok (store_state demo_store)
        ∨ load (store_path demo_store) (read_target (disk_of t))
          = Ok (with_mode "east" Draining 7 (store_state demo_store)).
Proof.
  apply (set_mode_crash demo_faults "east" Draining 7 demo_store demo_store_sync).
  - reflexivity.
  - right. discriminate.
Defined.

Theorem set_mode_sync_dir_diverges_witness :
  ∃ s', store_state s' = store_state demo_store
    ∧ load (store_path demo_store) (read_target (disk s'))
      = Ok (with_mode "east" Draining 7 (store_state demo_store)).
Proof.
  destruct (set_mode_sync_dir_diverges {| kind := OtherKind; io_message := "EIO" |} "east" Draining 7
    demo_store demo_store_sync) as (e & s' & _ & H1 & H2); [by right|].
  exists s'. split; [exact H1|exact H2].
Defined.
