(* ===== verification/Control.v ===== *)
(** * [src/src/control.rs]: the operator's control plane

    Draining, activating and disabling backends, reloading the runtime, and
    the task that certifies a drain.  A [ControlState] pairs the router (and
    with it the runtime) with the durable fences and the drain operations; the
    handlers take the [lifecycle] lock, so each is one action.  The drain task
    releases everything between its observation and its confirmation under the
    lock: those are two actions, [drive_observe] and [drive_confirm].  HTTP
    framing, the socket and the log lines are not modelled. *)

From S2P Require Import Prelude RustStd Float64 Telemetry Backend Runtime Routing Disk BackendState.

(** [uuid::Uuid], by its text. *)
Notation Uuid := string.

(** src/src/control.rs:59-64 [DrainPhase] *)
Inductive DrainPhase := PhaseDraining | PhaseComplete | PhaseFailed | PhaseCancelled.

#[export] Instance DrainPhase_eq_dec : EqDecision DrainPhase.
Proof. solve_decision. Defined.

(** src/src/control.rs:67-78 [DrainProgress] *)
Record DrainProgress := mkDrainProgress {
  dp_operation_id : Uuid;
  dp_backend_id : string;
  phase : DrainPhase;
  safe_to_stop : bool;
  dp_elapsed_ms : N;
  dp_proxy_active : N;
  engine_running : option N;
  engine_waiting : option N;
  dp_telemetry : TelemetryState;
  dp_message : option string;
}.

(** src/src/control.rs:49-55 [DrainOperation]; [progress] is the value of the watch channel *)
Record DrainOperation := mkDrainOperation {
  op_id : Uuid;
  op_backend_id : string;
  op_started_at : N;
  metrics_scrapes_started_at_start : N;
  progress : DrainProgress;
}.

(** src/src/control.rs:81-107 [BackendView] *)
Record BackendView := mkBackendView {
  v_id : string;
  v_url : string;
  v_mode : BackendMode;
  v_state : BackendDisplayState;
  v_readiness : ReadinessState;
  v_telemetry : TelemetryState;
  v_circuit : CircuitState;
  v_eligible : bool;
  v_proxy_active : N;
  v_oldest_proxy_request_ms : option N;
  v_running : option N;
  v_waiting : option N;
  v_reported_capacity : option N;
  v_configured_capacity : option N;
  v_effective_capacity : option N;
  v_capacity_mismatch : bool;
  v_kv_ratio : option f64;
  v_token_rate : option f64;
  v_prefill_token_rate : option f64;
  v_decode_token_rate : option f64;
  v_pressure : option f64;
  v_metrics_age_ms : option N;
  v_readiness_age_ms : option N;
  v_metrics_error : option string;
  v_readiness_error : option string;
}.

(** src/src/control.rs:109-139 [BackendView::From] *)
Definition BackendView_from (status : BackendStatusSnapshot) : BackendView :=
  {| v_id := st_id status;
     v_url := st_url status;
     v_mode := st_mode status;
     v_state := st_state status;
     v_readiness := st_readiness status;
     v_telemetry := st_telemetry status;
     v_circuit := st_circuit status;
     v_eligible := st_eligible status;
     v_proxy_active := st_proxy_active status;
     v_oldest_proxy_request_ms := st_oldest_proxy_request_ms status;
     v_running := st_running status;
     v_waiting := st_waiting status;
     v_reported_capacity := st_reported_capacity status;
     v_configured_capacity := st_configured_capacity status;
     v_effective_capacity := st_effective_capacity status;
     v_capacity_mismatch := st_capacity_mismatch status;
     v_kv_ratio := st_kv_ratio status;
     v_token_rate := st_token_rate status;
     v_prefill_token_rate := st_prefill_token_rate status;
     v_decode_token_rate := st_decode_token_rate status;
     v_pressure := st_pressure status;
     v_metrics_age_ms := st_metrics_age_ms status;
     v_readiness_age_ms := st_readiness_age_ms status;
     v_metrics_error := st_metrics_error status;
     v_readiness_error := st_readiness_error status |}.

(** src/src/control.rs:142-146 [BackendListResponse] *)
Record BackendListResponse := mkBackendListResponse {
  runtime_revision : N;
  list_routing_policy : string;
  views : list BackendView;
}.

(** src/src/control.rs:149-154 [DrainStartedResponse] *)
Record DrainStartedResponse := mkDrainStartedResponse {
  ds_operation_id : Uuid;
  ds_backend_id : string;
  ds_mode : BackendMode;
  ds_safe_to_stop : bool;
}.

(** src/src/control.rs:157-161 [ActionResponse] *)
Record ActionResponse := mkActionResponse {
  ar_backend_id : string;
  ar_mode : BackendMode;
  ar_message : string;
}.

(** src/src/control.rs:164-170 [ReloadResponse] *)
Record ReloadResponse := mkReloadResponse {
  rr_revision : N;
  rr_added : list string;
  rr_revived : list string;
  rr_updated : list string;
  rr_retired : list string;
}.

(** src/src/control.rs:179-183 [UdsPeer] *)
Record UdsPeer := mkUdsPeer { uid : option N; gid : option N; pid : option N }.

(** src/src/control.rs:187-200 [UdsPeer::from_stream]; the credentials of the peer, with its pid as an [i32], if they
    can be read *)
Definition UdsPeer_from_stream (peer_cred : result string (N * N * option Z)) : UdsPeer :=
  match peer_cred with
  | Ok (uid, gid, pid) =>
      {| uid := Some uid; gid := Some gid;
         pid := pid ← pid; if (0 <=? pid)%Z then Some (Z.to_N pid) else None |}
  | Err _ => {| uid := None; gid := None; pid := None |}
  end.

(** src/src/control.rs:758-761 [ControlError] *)
Record ControlError := mkControlError { ce_status : N; ce_message : string }.

(** src/src/control.rs:764-769 [ControlError::not_found] *)
Definition not_found (message : string) : ControlError := mkControlError 404 message.
(** src/src/control.rs:771-776 [ControlError::conflict] *)
Definition conflict (message : string) : ControlError := mkControlError 409 message.
(** src/src/control.rs:778-783 [ControlError::bad_request] *)
Definition bad_request (message : string) : ControlError := mkControlError 400 message.
(** src/src/control.rs:785-790 [ControlError::internal] *)
Definition internal (message : string) : ControlError := mkControlError 500 message.

(** src/src/control.rs:801-811 [ControlError::IntoResponse]; the status and the [error] field of the
    body *)
Definition into_response (self : ControlError) : N * string := (ce_status self, ce_message self).

(** src/src/control.rs:618-624 [elapsed_ms] *)
Definition elapsed_ms (started_at now : N) : N := duration_ms (now - started_at).

(** src/src/control.rs:597-616 [progress_from_status] *)
Definition progress_from_status (operation : DrainOperation) (status : BackendStatusSnapshot)
    (phase : DrainPhase) (safe_to_stop : bool) (message : option string) (now : N) : DrainProgress :=
  {| dp_operation_id := op_id operation;
     dp_backend_id := op_backend_id operation;
     phase := phase;
     safe_to_stop := safe_to_stop;
     dp_elapsed_ms := elapsed_ms (op_started_at operation) now;
     dp_proxy_active := st_proxy_active status;
     engine_running := st_running status;
     engine_waiting := st_waiting status;
     dp_telemetry := st_telemetry status;
     dp_message := message |}.

(** src/src/control.rs:626-654 [reload_response] *)
Definition reload_response (report : RuntimeReloadReport) : ReloadResponse :=
  {| rr_revision := report_revision report;
     rr_added := added (reconciled report);
     rr_revived := revived (reconciled report);
     rr_updated := updated (reconciled report);
     rr_retired := retired (reconciled report) |}.

Definition unknown_backend (id : string) : ControlError :=
  not_found ("unknown backend " +:+ fmt_debug id).

(** The [s] of a plural. *)
Definition plural (n : N) : string := if (n =? 1)%N then "" else "s".

(** What the drain task does next. *)
Inductive DriveStep :=
| DriveReturn
| DriveSleep (ms : N)
| DriveConfirm (status : BackendStatusSnapshot)
| DriveContinue.

Section Control.
Context {Uri : Type} `{UriOps Uri} `{JsonOps StateFile}.

(** src/src/control.rs:38-46 [ControlState]; [runtime] is the router's *)
Record ControlState := mkControlState {
  c_routing : RoutingState (Uri:=Uri);
  state_store : BackendStateStore;
  operations : gmap Uuid DrainOperation;
}.

(** src/src/control.rs:211-227 [ControlState::new] *)
Definition ControlState_new (routing : RoutingState) (store : BackendStateStore) : ControlState :=
  {| c_routing := routing; state_store := store; operations := ∅ |}.

(** Actions on the router, the durable store, a slot, the operations. *)
Definition on_routing {A} (m : M RoutingState A) : M ControlState A :=
  λ s, let '(r, x) := m (c_routing s) in
       (r, {| c_routing := x; state_store := state_store s; operations := operations s |}).

Definition on_store {A} (m : M BackendStateStore A) : M ControlState A :=
  λ s, let '(r, x) := m (state_store s) in
       (r, {| c_routing := c_routing s; state_store := x; operations := operations s |}).

Definition on_backend {A} (id : string) (m : M BackendSlot A) : M ControlState (option A) :=
  on_routing (on_backends (on_slot id m)).

Definition set_operation (operation : DrainOperation) : M ControlState () :=
  modify (λ s, {| c_routing := c_routing s; state_store := state_store s;
                  operations := <[op_id operation := operation]> (operations s) |}).

(** [operation.progress.send_replace(progress)]. *)
Definition send_replace (operation : DrainOperation) (new : DrainProgress) : M ControlState () :=
  modify (λ s, {| c_routing := c_routing s; state_store := state_store s;
                  operations := alter (λ o, o <| progress := new |>) (op_id operation)
                                  (operations s) |}).

(** The registered slot of an identity. *)
Definition control_slot (id : string) : M ControlState (option BackendSlot) :=
  gets (λ s, registry_get (registry (Routing.runtime (c_routing s))) id).

Definition control_status (id : string) (now : N) : M ControlState (option BackendStatusSnapshot) :=
  on_routing (status id now).

(** A running drain of the backend. *)
Definition drains (backend_id : string) (operation : DrainOperation) : bool :=
  bool_decide (op_backend_id operation = backend_id)
  && bool_decide (phase (progress operation) = PhaseDraining).

(** src/src/control.rs:285-329 [ControlState::ensure_drain_operation]; [fresh] is the new
    [Uuid::new_v4()]; spawning the drain task is the caller's next [drive_observe] *)
Definition ensure_drain_operation (backend_id : string) (fresh : Uuid) (now : N) :
    M ControlState DrainOperation :=
  s ← get_state;
  match head (keep (drains backend_id) ((map_to_list (operations s)).*2)) with
  | Some existing => mret existing
  | None =>
      status ← control_status backend_id now;
      let initial :=
        {| dp_operation_id := fresh;
           dp_backend_id := backend_id;
           phase := PhaseDraining;
           safe_to_stop := false;
           dp_elapsed_ms := 0;
           dp_proxy_active := match status with Some st => st_proxy_active st | None => 0%N end;
           engine_running := status ← status; st_running status;
           engine_waiting := status ← status; st_waiting status;
           dp_telemetry := match status with Some st => st_telemetry st | None => Unavailable_ end;
           dp_message := None |} in
      let operation :=
        {| op_id := fresh;
           op_backend_id := backend_id;
           op_started_at := now;
           metrics_scrapes_started_at_start :=
             match status with Some st => st_metrics_scrapes_started st | None => 0%N end;
           progress := initial |} in
      _ ← set_operation operation;
      mret operation
  end.

(** src/src/control.rs:249-283 [ControlState::begin_drain] *)
Definition begin_drain (id : string) (faults : Faults) (fresh : Uuid) (now unix_ms : N) :
    M ControlState (result ControlError DrainOperation) :=
  slot ← control_slot id;
  match slot with
  | None => mret (Err (unknown_backend id))
  | Some slot =>
      let before := snap_mode (BackendSlot_snapshot slot now) in
      _ ← on_backend id Backend.begin_drain;
      persisted ← (if bool_decide (before ≠ Draining)
                   then on_store (set_mode faults id Draining unix_ms) else mret (Ok ()));
      match persisted with
      | Err error =>
          _ ← match before with
              | Active => _ ← on_backend id (Backend.activate now); mret ()
              | Disabled => _ ← on_backend id (Backend.disable now); mret ()
              | Draining => panic
              end;
          mret (Err (internal ("could not persist drain fence: " +:+ io_message error)))
      | Ok _ => operation ← ensure_drain_operation id fresh now; mret (Ok operation)
      end
  end.

(** src/src/control.rs, lines 242-246 of [ControlState::resume_persisted_drains]: the snapshots,
    each with its new operation id *)
Fixpoint resume_drains (l : list (string * Uuid)) (now : N) : M ControlState () :=
  match l with
  | [] => mret ()
  | (id, fresh) :: l => _ ← ensure_drain_operation id fresh now; resume_drains l now
  end.

(** src/src/control.rs:241-247 [ControlState::resume_persisted_drains]; [fresh] gives the ids *)
Definition resume_persisted_drains (fresh : string → Uuid) (now : N) : M ControlState () :=
  s ← get_state;
  let snapshots := registry_snapshots (registry (Routing.runtime (c_routing s))) now in
  resume_drains
    ((λ snapshot, (snapshot_id snapshot, fresh (snapshot_id snapshot)))
       <$> filter (λ snapshot, snap_mode snapshot = Draining) snapshots) now.

(** ** The drain task *)

(** src/src/control.rs, lines 368-375 of [ControlState::drive_drain] *)
Definition idle_evidence (operation : DrainOperation) (status : BackendStatusSnapshot) : bool :=
  let post_drain_samples :=
    (st_metrics_observation_serial status - metrics_scrapes_started_at_start operation)%N in
  let idle_samples := N.min (st_engine_idle_streak status) post_drain_samples in
  bool_decide (st_telemetry status = Fresh) && bool_decide (st_running status = Some 0%N)
  && bool_decide (st_waiting status = Some 0%N) && (2 <=? idle_samples)%N.

(** src/src/control.rs, lines 332-441 of [ControlState::drive_drain]: one round, up to taking the
    lifecycle lock or the sleep *)
Definition drive_observe (operation : DrainOperation) (now : N) : M ControlState DriveStep :=
  status ← control_status (op_backend_id operation) now;
  match status with
  | None =>
      _ ← send_replace operation
            {| dp_operation_id := op_id operation;
               dp_backend_id := op_backend_id operation;
               phase := PhaseFailed;
               safe_to_stop := false;
               dp_elapsed_ms := elapsed_ms (op_started_at operation) now;
               dp_proxy_active := 0;
               engine_running := None;
               engine_waiting := None;
               dp_telemetry := Unavailable_;
               dp_message := Some "backend disappeared while draining" |};
      mret DriveReturn
  | Some status =>
      if bool_decide (st_mode status ≠ Draining) then
        let complete := bool_decide (st_mode status = Disabled) in
        _ ← send_replace operation
              (progress_from_status operation status
                 (if complete then PhaseComplete else PhaseCancelled) complete
                 (Some (if complete then "backend is disabled" else "drain was superseded")) now);
        mret DriveReturn
      else if (st_proxy_active status =? 0)%N && idle_evidence operation status
      then mret (DriveConfirm status)
      else
        _ ← send_replace operation
              (progress_from_status operation status PhaseDraining false None now);
        s ← get_state;
        let interval :=
          N.min (scrape_interval_ms (telemetry (config (published_runtime
                   (Routing.runtime (c_routing s)))))) 1000 in
        mret (DriveSleep (N.max interval 100))
  end.

(** src/src/control.rs, lines 378-430 of [ControlState::drive_drain]: the confirmation, under the
    lifecycle lock *)
Definition drive_confirm (operation : DrainOperation) (status : BackendStatusSnapshot)
    (faults : Faults) (now unix_ms : N) : M ControlState DriveStep :=
  confirmed ← control_status (op_backend_id operation) now;
  match confirmed with
  | None => mret DriveContinue
  | Some confirmed =>
      if bool_decide (st_mode confirmed ≠ Draining)
         || negb (st_proxy_active confirmed =? 0)%N
         || negb (idle_evidence operation confirmed)
      then mret DriveContinue
      else
        persisted ← on_store (set_mode faults (op_backend_id operation) Disabled unix_ms);
        match persisted with
        | Err error =>
            _ ← send_replace operation
                  (progress_from_status operation status PhaseFailed false
                     (Some ("could not persist disabled state: " +:+ io_message error)) now);
            mret DriveReturn
        | Ok _ =>
            slot ← control_slot (op_backend_id operation);
            _ ← match slot with
                | Some _ => _ ← on_backend (op_backend_id operation) (Backend.disable now); mret ()
                | None => mret ()
                end;
            final ← control_status (op_backend_id operation) now;
            let final_status := default confirmed final in
            _ ← send_replace operation
                  (progress_from_status operation final_status PhaseComplete true
                     (Some "proxy and engine are idle") now);
            mret DriveReturn
        end
  end.

(** ** Operator actions *)

(** src/src/control.rs:444-508 [ControlState::activate] *)
Definition activate (id : string) (faults rollback_faults : Faults) (now unix_ms : N) :
    M ControlState (result ControlError ActionResponse) :=
  status ← control_status id now;
  match status with
  | None => mret (Err (unknown_backend id))
  | Some status =>
      match st_mode status with
      | Active => mret (Ok {| ar_backend_id := id; ar_mode := Active;
                              ar_message := "backend is already active" |})
      | Draining =>
          mret (Err (conflict
            "backend is draining; wait for it to become disabled before activating"))
      | Disabled =>
          if bool_decide (st_readiness status ≠ Ready)
          then mret (Err (conflict ("backend is not ready ("
                 +:+ ReadinessState_display (st_readiness status) +:+ ")"))) else
          if bool_decide (st_telemetry status ≠ Fresh)
          then mret (Err (conflict ("backend telemetry is "
                 +:+ TelemetryState_display (st_telemetry status)))) else
          slot ← control_slot id;
          match slot with
          | None => mret (Err (unknown_backend id))
          | Some _ =>
              removed ← on_store (set_mode faults id Active unix_ms);
              match removed with
              | Err error =>
                  mret (Err (internal ("could not remove drain fence: " +:+ io_message error)))
              | Ok _ =>
                  activated ← on_backend id (Backend.activate now);
                  match activated with
                  | Some (Err error) =>
                      rollback ← on_store (set_mode rollback_faults id Disabled unix_ms);
                      let rollback_note :=
                        match rollback with
                        | Err rollback => "; rollback failed: " +:+ io_message rollback
                        | Ok _ => ""
                        end in
                      mret (Err (conflict ("could not activate backend: "
                              +:+ ModeChangeError_display error +:+ rollback_note)))
                  | _ => mret (Ok {| ar_backend_id := id; ar_mode := Active;
                                     ar_message := "backend activated" |})
                  end
              end
          end
      end
  end.

(** src/src/control.rs:518-569 [ControlState::disable] *)
Definition disable (id : string) (force : bool) (faults : Faults) (now unix_ms : N) :
    M ControlState (result ControlError ActionResponse) :=
  status ← control_status id now;
  match status with
  | None => mret (Err (unknown_backend id))
  | Some status =>
      if bool_decide (st_mode status = Disabled)
      then mret (Ok {| ar_backend_id := id; ar_mode := Disabled;
                       ar_message := "backend is already disabled" |}) else
      if negb force && (0 <? st_proxy_active status)%N
      then mret (Err (conflict ("backend has " +:+ to_string (st_proxy_active status)
             +:+ " in-flight proxy request" +:+ plural (st_proxy_active status)
             +:+ "; rerun with --force to disable anyway"))) else
      slot ← control_slot id;
      match slot with
      | None => mret (Err (unknown_backend id))
      | Some _ =>
          persisted ← on_store (set_mode faults id Disabled unix_ms);
          match persisted with
          | Err error =>
              mret (Err (internal ("could not persist disabled state: " +:+ io_message error)))
          | Ok _ =>
              let in_flight := st_proxy_active status in
              _ ← on_backend id (Backend.disable now);
              let message :=
                if force && (0 <? in_flight)%N
                then "backend disabled with " +:+ to_string in_flight +:+ " in-flight request"
                     +:+ plural in_flight +:+ " still running"
                else "backend disabled" in
              mret (Ok {| ar_backend_id := id; ar_mode := Disabled; ar_message := message |})
          end
      end
  end.

(** The runtime of the router. *)
Definition on_runtime {A} (m : M RuntimeState A) : M ControlState A :=
  on_routing (λ s, let '(r, rt) := m (Routing.runtime s) in
                   (r, {| Routing.runtime := rt; inner := inner s |})).

(** src/src/control.rs:571-588 [ControlState::reload]; [loaded] is what loading the runtime file gave *)
Definition reload (loaded : result RuntimeConfigError RuntimeConfig) (fresh : string → Uuid)
    (now : N) : M ControlState (result ControlError ReloadResponse) :=
  s ← get_state;
  report ← on_runtime (reload_with_modes loaded (modes (state_store s)) now);
  match report with
  | Err error => mret (Err (bad_request (RuntimeReloadError_display error)))
  | Ok report =>
      _ ← resume_persisted_drains fresh now;
      mret (Ok (reload_response report))
  end.

(** ** Handlers *)

(** src/src/control.rs:656-670 [list_backends] *)
Definition list_backends (now : N) : M ControlState BackendListResponse :=
  s ← get_state;
  let published := published_runtime (Routing.runtime (c_routing s)) in
  l ← on_routing (statuses now);
  mret {| runtime_revision := revision published;
          list_routing_policy := RoutingPolicy_display (policy (routing (config published)));
          views := BackendView_from <$> l |}.

(** src/src/control.rs:672-683 [get_backend] *)
Definition get_backend (id : string) (now : N) : M ControlState (result ControlError BackendView) :=
  status ← control_status id now;
  mret (ok_or (BackendView_from <$> status) (unknown_backend id)).

(** The progress an operation's channel holds. *)
Definition current_progress (operation : DrainOperation) : M ControlState DrainProgress :=
  gets (λ s, match operations s !! op_id operation with
             | Some o => progress o
             | None => progress operation
             end).

(** src/src/control.rs:685-709 [start_drain]; the status code and the body *)
Definition start_drain (id : string) (faults : Faults) (fresh : Uuid) (now unix_ms : N) :
    M ControlState (result ControlError (N * DrainStartedResponse)) :=
  operation ← begin_drain id faults fresh now unix_ms;
  match operation with
  | Err error => mret (Err error)
  | Ok operation =>
      progress ← current_progress operation;
      mret (Ok (if safe_to_stop progress then 200%N else 202%N,
                {| ds_operation_id := op_id operation;
                   ds_backend_id := id;
                   ds_mode := if safe_to_stop progress then Disabled else Draining;
                   ds_safe_to_stop := safe_to_stop progress |}))
  end.

(** src/src/control.rs:711-723 [get_operation] *)
Definition get_operation (id : Uuid) : M ControlState (result ControlError DrainProgress) :=
  s ← get_state;
  mret (ok_or (progress <$> operations s !! id) (not_found ("unknown operation " +:+ id))).

(** src/src/control.rs:725-731 [activate_backend] *)
Definition activate_backend (id : string) (faults rollback_faults : Faults) (now unix_ms : N) :
    M ControlState (result ControlError ActionResponse) :=
  activate id faults rollback_faults now unix_ms.

(** src/src/control.rs:738-748 [disable_backend]; [force] is the query's, if given *)
Definition disable_backend (id : string) (force : option bool) (faults : Faults) (now unix_ms : N) :
    M ControlState (result ControlError ActionResponse) :=
  disable id (default false force) faults now unix_ms.

(** src/src/control.rs:750-755 [reload_runtime] *)
Definition reload_runtime (loaded : result RuntimeConfigError RuntimeConfig)
    (fresh : string → Uuid) (now : N) : M ControlState (result ControlError ReloadResponse) :=
  reload loaded fresh now.
End Control.
