(* ===== verification/Fences.v ===== *)
(** * Gates and durable fences

    The gate of a backend is the mode of its slot, its fence the entry of the
    durable overlay.  [control_step] lists what may happen to a control plane:
    the operator's handlers, the two halves of the drain task, reloads, the
    requests' selections and releases, and whatever the workers record.
    [fences_agree] shows that every reachable state has a fence exactly for
    the registered backends whose gate is closed. *)

From S2P Require Import Prelude RustStd Float64 Telemetry Backend Runtime Routing Selection Disk BackendState Control.

(** ** One operation on one slot, when it returns *)

Lemma begin_drain_done s tok s' :
  slot_wf s → Backend.begin_drain s = (Done tok, s') →
  mode (state s') = Draining ∧ same_membership s s' ∧ slot_wf s'.
Proof.
  intros Hwf Hrun. pose proof (begin_drain_preserves s Hwf) as Hp. rewrite Hrun in Hp.
  split_and!; [| |exact Hp]; clear Hp Hwf; revert Hrun; destruct s as [[sp rg md ep sq rv nx tot ls] pub];
    run_slot; simpl; case_bool_decide as Hm; simpl; split_adds; intros Hrun; simplify_eq; done.
Qed.

Lemma disable_done now s a s' :
  slot_wf s → Backend.disable now s = (Done a, s') →
  mode (state s') = Disabled ∧ same_membership s s' ∧ slot_wf s'.
Proof.
  intros Hwf Hrun. pose proof (disable_preserves now s Hwf) as Hp. rewrite Hrun in Hp.
  split_and!; [| |exact Hp]; clear Hp Hwf; revert Hrun; destruct s as [[sp rg md ep sq rv nx tot ls] pub];
    run_slot; simpl; case_bool_decide as Hm; simpl; split_adds; intros Hrun; simplify_eq; try done;
    by destruct md.
Qed.

Lemma activate_done now s r s' :
  slot_wf s → Backend.activate now s = (Done r, s') →
  match r with
  | Ok _ => registered (state s) = true ∧ mode (state s') = Active ∧ same_membership s s' ∧ slot_wf s'
  | Err _ => registered (state s) = false ∧ s' = s
  end.
Proof.
  intros Hwf Hrun. pose proof (set_mode_preserves Active true now (λ _, eq_refl) s Hwf) as Hp.
  unfold Backend.activate in Hrun. rewrite Hrun in Hp. revert Hrun Hp. clear Hwf.
  destruct s as [[sp rg md ep sq rv nx tot ls] pub]. run_slot; simpl.
  destruct rg; simpl; [|by intros [= <- <-]].
  case_bool_decide as Hm; simpl; split_adds; intros Hrun; simplify_eq; try done; by destruct md.
Qed.

(** Traffic on a slot leaves its gate alone. *)
Definition same_gate (s s' : BackendSlot) : Prop :=
  spec (state s') = spec (state s) ∧ registered (state s') = registered (state s)
  ∧ mode (state s') = mode (state s).

Lemma try_acquire_done now s r s' :
  slot_wf s → BackendSlot_try_acquire now s = (Done r, s') → same_gate s s' ∧ slot_wf s'.
Proof.
  intros Hwf Hrun. pose proof (try_acquire_preserves now s Hwf) as Hp. rewrite Hrun in Hp.
  split; [|exact Hp]. clear Hp Hwf. revert Hrun. destruct s as [[sp rg md ep sq rv nx tot ls] pub].
  run_slot; simpl. destruct rg; simpl; [|by intros [= <- <-]].
  case_bool_decide; simpl; [by intros [= <- <-]|]. split_adds; intros Hrun; simplify_eq; done.
Qed.

Lemma lease_drop_done lease s a s' :
  slot_wf s → BackendLease_drop lease s = (Done a, s') → same_gate s s' ∧ slot_wf s'.
Proof.
  intros Hwf. unfold BackendLease_drop. destruct (lease_key lease) as [key|]; [|by intros [= <- <-]].
  unfold mbind, M_mbind, mret, M_mret. destruct (release key s) as [[[]|] s1] eqn:Hrel; [|done].
  intros [= <- <-]. pose proof (release_preserves key s Hwf) as Hp. rewrite Hrel in Hp.
  split; [|exact Hp]. clear Hp Hwf. revert Hrel. destruct s as [[sp rg md ep sq rv nx tot ls] pub].
  run_slot; simpl. destruct (btree_remove key ls) as [[] r]; simpl; [|done].
  split_adds; intros Hrun; simplify_eq; done.
Qed.

(** ** Registries that differ in one slot *)

Section Gates.
Context {Uri : Type} `{UriOps Uri}.
Implicit Types (rt : RuntimeState (Uri:=Uri)).

Definition with_slot rt (id : string) (slot : BackendSlot) : RuntimeState :=
  {| published_runtime := published_runtime rt; registry := <[id := slot]> (registry rt) |}.

Lemma runtime_wf_with_slot rt id slot slot' :
  runtime_wf rt → registry rt !! id = Some slot →
  spec (state slot') = spec (state slot) → registered (state slot') = registered (state slot) →
  slot_wf slot' → runtime_wf (with_slot rt id slot').
Proof.
  intros [Hreg Hids Hgens Hmem] Hs Hsp Hr Hw. split; simpl; try done.
  - intros i s Hi. destruct (decide (id = i)) as [<-|Hne].
    + rewrite lookup_insert_eq in Hi. injection Hi as <-. split; [done|].
      rewrite Hsp. by apply (Hreg id slot).
    + rewrite lookup_insert_ne in Hi by done. by apply Hreg.
  - intros i. rewrite <- Hmem. destruct (decide (id = i)) as [<-|Hne].
    + rewrite lookup_insert_eq. split.
      * intros (s & [= <-] & Hrs). exists slot. by rewrite <- Hr.
      * intros (s & Hs' & Hrs). rewrite Hs in Hs'. injection Hs' as <-. exists slot'. by rewrite Hr.
    + by rewrite lookup_insert_ne by done.
Qed.

Lemma registry_get_spec (slots : BackendRegistry) id slot :
  registry_get slots id = Some slot ↔ slots !! id = Some slot ∧ registered (state slot) = true.
Proof.
  unfold registry_get, get_retained. destruct (slots !! id) as [s|]; cbn; [|naive_solver].
  destruct (registered (state s)) eqn:E; split; [by intros [= <-]|by intros [[= <-] _]|done|].
  intros [[= <-] ?]. congruence.
Qed.

Lemma registry_get_None (slots : BackendRegistry) id :
  registry_get slots id = None ↔ ∀ s, slots !! id = Some s → registered (state s) = false.
Proof.
  unfold registry_get, get_retained. destruct (slots !! id) as [s|]; cbn; [|by split].
  destruct (registered (state s)) eqn:E; split; [done| |by intros _ s' [= <-]|done].
  intros Hs. specialize (Hs s eq_refl). congruence.
Qed.
End Gates.

(** ** The status of one backend *)

Section Status.
Context {Uri : Type} `{UriOps Uri}.
Implicit Types (s : RoutingState (Uri:=Uri)).

(** The report on a registered slot. *)
Definition reports s (id : string) (now : N) (st : BackendStatusSnapshot) : Prop :=
  let published := published_runtime (Routing.runtime s) in
  ∃ slot b live, slots_of s !! id = Some slot ∧ registered (state slot) = true
    ∧ b ∈ backends (config published) ∧ b_id b = id
    ∧ ensured (configured_generation (Routing.runtime s) id) (live_backends (inner s) !! id)
      = Some live
    ∧ st = status_snapshot (BackendSlot_snapshot slot now) live b now
             (from_millis (stale_after_ms (telemetry (config published))))
             (kv_soft_limit (routing (config published))).

Lemma status_of_reports s live l now snap st :
  runtime_wf (Routing.runtime s) → backend_instances (Routing.runtime s) = Done l →
  (∀ id, live !! id = ensured (configured_generation (Routing.runtime s) id)
                        (live_backends (inner s) !! id)) →
  snap ∈ registry_snapshots (slots_of s) now →
  status_of live (configs_of l) now
    (from_millis (stale_after_ms (telemetry (config (published_runtime (Routing.runtime s))))))
    (kv_soft_limit (routing (config (published_runtime (Routing.runtime s))))) snap = Some st →
  reports s (snapshot_id snap) now st.
Proof.
  intros Hwf Hl Hlive Hsnap Hst. apply snapshots_elem in Hsnap as (id & slot & Hslot & Hreg & ->).
  destruct (rw_registry _ Hwf id slot Hslot) as [_ Hid].
  assert (snapshot_id (BackendSlot_snapshot slot now) = id) as Hsid by exact Hid.
  unfold status_of in Hst. rewrite Hsid in *.
  destruct (configs_of l !! id) as [[b g]|] eqn:Hcf; [|done]. simpl in Hst.
  apply (configs_lookup _ _ _ _ _ Hwf Hl) in Hcf as (Hb & Hbid & _).
  destruct (live !! id) as [lv|] eqn:Hlv; [|done]. simpl in Hst.
  destruct (negb _); [done|]. injection Hst as <-.
  exists slot, b, lv. split_and!; try done. by rewrite <- Hlive.
Qed.

Lemma statuses_run s now :
  runtime_wf (Routing.runtime s) →
  ∃ l s1, statuses now s = (Done l, s1) ∧ Routing.runtime s1 = Routing.runtime s
    ∧ (∀ id, live_backends (inner s1) !! id
             = ensured (configured_generation (Routing.runtime s) id) (live_backends (inner s) !! id))
    ∧ st_id <$> l = registered_ids (slots_of s) now
    ∧ ∀ st, st ∈ l → reports s (st_id st) now st.
Proof.
  intros Hwf. destruct (instances_spec _ Hwf) as (l & Hl & _ & _).
  destruct (ensure_run s Hwf) as (live & Hens & Hlive).
  unfold statuses, get_state, instances, runtime_config, gets, mbind, M_mbind, mret, M_mret.
  rewrite Hl, Hens. cbn -[registry_snapshots status_of]. eexists _, _. split; [reflexivity|].
  split; [done|]. split; [exact Hlive|].
  unfold registered_ids, slots_of.
  assert (∀ snap, snap ∈ registry_snapshots (registry (Routing.runtime s)) now →
    snap ∈ registry_snapshots (slots_of s) now) as Hall by done.
  revert Hall. generalize (registry_snapshots (registry (Routing.runtime s)) now). intros snaps.
  induction snaps as [|snap snaps IH]; intros Hall; [split; [done|]; intros st Hst; by apply elem_of_nil in Hst|].
  destruct IH as [IH1 IH2]; [intros x Hx; apply Hall; by right|].
  destruct (status_of_spec s live l now snap Hwf Hl Hlive) with
    (stale := from_millis (stale_after_ms (telemetry (config (published_runtime (Routing.runtime s))))))
    (limit := kv_soft_limit (routing (config (published_runtime (Routing.runtime s)))))
    as (st & Hst & Hid & _ & _); [apply Hall; left|].
  cbn -[status_of]. rewrite Hst. split; [rewrite !fmap_cons; by rewrite Hid, <- IH1|].
  intros st' [->|Hst']%elem_of_cons; [|by apply IH2].
  rewrite Hid. eapply status_of_reports; try done. apply Hall; left.
Qed.

Lemma status_run s id now :
  runtime_wf (Routing.runtime s) →
  ∃ r s1, status id now s = (Done r, s1) ∧ Routing.runtime s1 = Routing.runtime s
    ∧ (∀ id, live_backends (inner s1) !! id
             = ensured (configured_generation (Routing.runtime s) id) (live_backends (inner s) !! id))
    ∧ match r with
      | Some st => reports s id now st
      | None => registry_get (slots_of s) id = None
      end.
Proof.
  intros Hwf. destruct (statuses_run s now Hwf) as (l & s1 & Hrun & Hrt & Hlive & Hids & Hrep).
  unfold status, mbind, M_mbind, mret, M_mret. rewrite Hrun. eexists _, s1. split; [reflexivity|].
  split; [done|]. split; [done|].
  destruct (head (keep _ l)) as [st|] eqn:Eh.
  - apply keep_first in Eh as (l1 & l2 & -> & Hid%bool_decide_eq_true & _). subst.
    apply Hrep. apply elem_of_app. right. left.
  - apply registry_get_None. intros slot Hslot. destruct (registered (state slot)) eqn:Hr; [|done].
    exfalso. destruct (registered_ids_spec (slots_of s) now (rw_registry _ Hwf)) as [_ Hel].
    assert (id ∈ st_id <$> l) as Hin by (rewrite Hids; apply Hel; by exists slot).
    apply list_elem_of_fmap in Hin as (st & -> & Hst).
    assert (keep (λ status, bool_decide (st_id status = st_id st)) l = []) as Hn
      by by destruct (keep _ l).
    apply (proj1 (keep_none _ _)) with (x := st) in Hn; [|done].
    by rewrite bool_decide_true in Hn.
Qed.
End Status.

(** ** Traffic: what requests do to the router *)

Section Traffic.
Context {Uri : Type} `{UriOps Uri}.
Implicit Types (s : RoutingState (Uri:=Uri)).

Definition slot_traffic (a b : option BackendSlot) : Prop :=
  match a, b with
  | Some a, Some b => slot_wf a → same_gate a b ∧ slot_wf b
  | None, None => True
  | _, _ => False
  end.

Definition traffic s s' : Prop :=
  published_runtime (Routing.runtime s') = published_runtime (Routing.runtime s)
  ∧ ∀ id, slot_traffic (slots_of s !! id) (slots_of s' !! id).

Lemma slot_traffic_refl a : slot_traffic a a.
Proof. destruct a; simpl; [|done]. intros Hw. by split. Qed.

#[export] Instance traffic_preorder : PreOrder traffic.
Proof.
  split.
  - intros s. split; [done|]. intros id. apply slot_traffic_refl.
  - intros s1 s2 s3 [H1 H2] [H3 H4]. split; [congruence|]. intros id.
    specialize (H2 id). specialize (H4 id). unfold slot_traffic in *.
    destruct (slots_of s1 !! id), (slots_of s2 !! id), (slots_of s3 !! id); try done.
    intros Hw. destruct (H2 Hw) as [(E1 & E2 & E3) Hw2]. destruct (H4 Hw2) as [(E4 & E5 & E6) Hw3].
    split; [|done]. split_and!; congruence.
Qed.

Definition traffics {A} (m : M (RoutingState (Uri:=Uri)) A) : Prop :=
  ∀ s a s', m s = (Done a, s') → traffic s s'.

Lemma traffics_bind {A B} (m : M RoutingState A) (f : A → M RoutingState B) :
  traffics m → (∀ a, traffics (f a)) → traffics (m ≫= f).
Proof.
  intros Hm Hf s b s' (a & s1 & H1 & H2)%M_bind_Done.
  transitivity s1; [by eapply Hm|by eapply Hf].
Qed.

Lemma traffics_same {A} (m : M RoutingState A) :
  (∀ s a s', m s = (Done a, s') → Routing.runtime s' = Routing.runtime s) → traffics m.
Proof.
  intros Hm s a s' Hrun. unfold traffic, slots_of. rewrite (Hm _ _ _ Hrun).
  split; [done|]. intros id. apply slot_traffic_refl.
Qed.

Lemma on_live_runtime {A} id (m : M LiveBackend A) s a s' :
  on_live id m s = (Done a, s') → Routing.runtime s' = Routing.runtime s.
Proof.
  unfold on_live. destruct (live_backends (inner s) !! id) as [lv|]; [|by intros [= _ <-]].
  destruct (m lv) as [[]]; by intros [= _ <-].
Qed.

Lemma traffics_live {A B} id (m : M LiveBackend A) (f : option A → B) :
  traffics (r ← on_live id m; mret (f r)).
Proof.
  apply traffics_same. intros s a s' (r & s1 & Hr & [= _ <-])%M_bind_Done.
  by apply on_live_runtime in Hr.
Qed.

Lemma traffics_mret {A} (a : A) : traffics (mret a).
Proof. apply traffics_same. by intros s b s' [= _ <-]. Qed.

Lemma traffics_slot {A} id (m : M BackendSlot A) :
  (∀ slot a slot', slot_wf slot → m slot = (Done a, slot') → same_gate slot slot' ∧ slot_wf slot') →
  traffics (on_backends (on_slot id m)).
Proof.
  intros Hm s a s'. unfold on_backends, on_registry, on_slot, traffic, slots_of.
  destruct (registry (Routing.runtime s) !! id) as [slot|] eqn:Es; simpl.
  2:{ intros [= _ <-]. split; [done|]. intros i. simpl. apply slot_traffic_refl. }
  destruct (m slot) as [[b|] slot'] eqn:Hrun; [|done]. intros [= _ <-]. simpl. split; [done|].
  intros i. destruct (decide (id = i)) as [<-|Hne].
  - rewrite Es, lookup_insert_eq. simpl. intros Hw. by eapply Hm.
  - rewrite lookup_insert_ne by done. apply slot_traffic_refl.
Qed.

Lemma on_backends_bind {A B} (m : M BackendRegistry A) (f : A → B) s :
  on_backends (r ← m; mret (f r)) s = (r ← on_backends m; mret (f r)) s.
Proof.
  unfold on_backends, on_registry, mbind, M_mbind, mret, M_mret.
  by destruct (m (registry (Routing.runtime s))) as [[a|] slots].
Qed.

Lemma traffics_acquire id now : traffics (on_backends (registry_try_acquire id now)).
Proof.
  intros s a s'. unfold registry_try_acquire. rewrite on_backends_bind. revert s a s'.
  apply traffics_bind; [|intros; apply traffics_mret].
  apply traffics_slot. intros s a s' Hw. by apply try_acquire_done.
Qed.

Lemma traffics_drop_lease lease : traffics (drop_lease lease).
Proof.
  apply traffics_bind; [|intros; apply traffics_mret].
  apply traffics_slot. intros s a s' Hw. by apply lease_drop_done.
Qed.

Lemma traffics_permit_drop permit now : traffics (CircuitPermit_drop permit now).
Proof.
  unfold CircuitPermit_drop. destruct (negb _); [|apply traffics_mret].
  apply traffics_bind; [|intros; apply traffics_mret].
  unfold CircuitPermit_neutral, resolve. destruct (resolved permit); [apply traffics_mret|].
  apply traffics_bind; [|intros; apply traffics_mret].
  apply (traffics_live _ _ (λ _, ())).
Qed.

Lemma traffics_attempt c eligible t1 t2 : traffics (attempt c eligible t1 t2).
Proof.
  apply traffics_bind; [apply traffics_live|]. intros [p|]; [|apply traffics_mret].
  apply traffics_bind; [apply traffics_acquire|]. intros [lease|e]; [apply traffics_mret|].
  apply traffics_bind; [apply traffics_permit_drop|]. intros; apply traffics_mret.
Qed.

Lemma traffics_reserve clock eligible l : traffics (reserve clock eligible l).
Proof.
  induction l as [|c l IH]; simpl; [apply traffics_mret|]. destruct (clock (cand_id c)) as [t1 t2].
  apply traffics_bind; [apply traffics_attempt|]. intros [sel|]; [apply traffics_mret|exact IH].
Qed.

Lemma ensure_runtime s a s' :
  ensure_backends s = (Done a, s') → Routing.runtime s' = Routing.runtime s.
Proof.
  unfold ensure_backends, instances, modify, mbind, M_mbind.
  destruct (backend_instances _); [|done]. by intros [= _ <-].
Qed.

Lemma candidates_runtime now s a s' :
  candidates_phase now s = (Done a, s') → Routing.runtime s' = Routing.runtime s.
Proof.
  unfold candidates_phase, get_state, instances, runtime_config, gets, modify, mbind, M_mbind, mret, M_mret.
  simpl. destruct (backend_instances _); [|done].
  destruct (ensure_backends s) as [[[]|] s1] eqn:He; [|done]. intros [= _ <-]. simpl.
  by apply ensure_runtime in He.
Qed.

Lemma traffics_select now clock : traffics (select now clock).
Proof.
  apply traffics_bind; [apply traffics_same; intros s a s'; apply candidates_runtime|].
  intros [cands cursor]. case_bool_decide; [apply traffics_mret|apply traffics_reserve].
Qed.

Lemma runtime_wf_traffic s s' :
  traffic s s' → runtime_wf (Routing.runtime s) → runtime_wf (Routing.runtime s').
Proof.
  intros [Hp Ht] [Hreg Hids Hgens Hmem]. rewrite <- Hp in *. split; [|done|done|].
  - intros id slot' Hs'. specialize (Ht id). unfold slot_traffic, slots_of in Ht. rewrite Hs' in Ht.
    destruct (registry (Routing.runtime s) !! id) as [slot|] eqn:Es; [|done].
    destruct (Hreg id slot Es) as [Hw Hid]. destruct (Ht Hw) as [(Hsp & _ & _) Hw'].
    split; [done|]. by rewrite Hsp.
  - intros id. rewrite <- Hmem. specialize (Ht id). unfold slot_traffic, slots_of in Ht.
    destruct (registry (Routing.runtime s) !! id) as [slot|] eqn:Es,
      (registry (Routing.runtime s') !! id) as [slot'|] eqn:Es'; try done.
    destruct (Hreg id slot Es) as [Hw _]. destruct (Ht Hw) as [(_ & Hr & _) _].
    split; intros (x & [= <-] & Hx); eexists; (split; [done|]); congruence.
Qed.
End Traffic.

(** ** The durable store, when an update returns *)

Section Persist.
Context `{JsonOps StateFile}.

Lemma save_file_Ok faults state d d' :
  save_file faults state d = (Done (Ok ()), d') → state_valid state.
Proof.
  unfold save_file, try_bind at 1, mbind at 1, M_mbind at 1, mret at 1, M_mret at 1.
  destruct (BackendState.validate state) as [[]|e] eqn:Hv; simpl; [|done].
  intros _. by apply validate_Ok.
Qed.

Lemma set_mode_done faults id mode now s r s' :
  set_mode faults id mode now s = (Done r, s') →
  match r with
  | Ok _ => store_state s' = with_mode id mode now (store_state s) ∧ state_valid (store_state s')
  | Err _ => store_state s' = store_state s
  end.
Proof.
  destruct s as [p st d].
  assert (∀ st', (s2 ← get_state; saved ← on_disk (save_file faults (store_state s2));
     match saved with
     | Err error => _ ← modify (λ s3, s3 <| store_state := st |>); mret (Err error)
     | Ok _ => mret (Ok ())
     end) (mkBackendStateStore p st' d) = (Done r, s') →
    match r with
    | Ok _ => store_state s' = st' ∧ state_valid (store_state s')
    | Err _ => store_state s' = st
    end) as Htail.
  { intros st'. unfold get_state, on_disk, modify, mbind, M_mbind, mret, M_mret. simpl.
    destruct (save_file faults st' d) as [[[[]|e]|] d'] eqn:Hs; rsimpl; try done;
      intros [= <- <-]; rsimpl; [|done]. split; [done|]. by eapply save_file_Ok. }
  unfold set_mode, get_state at 1, mbind at 1, M_mbind at 1.
  destruct mode; unfold modify at 1, mbind at 1, M_mbind at 1; rsimpl; apply Htail.
Qed.
End Persist.

(** ** The control plane *)

Section Fences.
Context {Uri : Type} `{UriOps Uri} `{JsonOps StateFile}.
Implicit Types (s : ControlState (Uri:=Uri)).

Definition control_runtime s : RuntimeState := Routing.runtime (c_routing s).
Definition control_slots s : BackendRegistry := registry (control_runtime s).

(** The fence a gate asks for. *)
Definition fence_of (m : BackendMode) : option BackendMode :=
  match m with Active => None | m => Some m end.

(** Every registered backend has a fence exactly when its gate is closed, and the same mode. *)
Definition fenced s : Prop :=
  ∀ id slot, control_slots s !! id = Some slot → registered (state slot) = true →
    modes (state_store s) !! id = fence_of (mode (state slot)).

Record control_inv s : Prop := {
  ci_runtime : runtime_wf (control_runtime s);
  ci_store : state_valid (store_state (state_store s));
  ci_fenced : fenced s;
}.

(** Steps that touch neither the runtime nor the fences. *)
Definition same_gates s s' : Prop :=
  control_runtime s' = control_runtime s ∧ state_store s' = state_store s.

Lemma inv_same_gates s s' : same_gates s s' → control_inv s → control_inv s'.
Proof.
  intros [H1 H2] [Hr Hs Hf]. split; [by rewrite H1|by rewrite H2|].
  intros id slot. unfold control_slots. rewrite H1, H2. apply Hf.
Qed.

#[export] Instance same_gates_preorder : PreOrder same_gates.
Proof.
  split; [by intros s|]. intros s1 s2 s3 [? ?] [? ?]. split; congruence.
Qed.

Lemma modes_with_mode (store store' : BackendStateStore) id m now i :
  store_state store' = with_mode id m now (store_state store) →
  modes store' !! i = if decide (i = id) then fence_of m else modes store !! i.
Proof.
  intros E. unfold modes. rewrite E. simpl. case_decide as Hi.
  - subst. destruct m; simpl; by rewrite lookup_fmap, ?lookup_delete_eq, ?lookup_insert_eq.
  - destruct m; simpl; by rewrite !lookup_fmap, ?lookup_delete_ne, ?lookup_insert_ne by done.
Qed.

(** An identity's gate and fence move together; the others stay. *)
Lemma inv_moved s s' id slot slot' :
  control_inv s → control_slots s !! id = Some slot →
  control_runtime s' = with_slot (control_runtime s) id slot' →
  spec (state slot') = spec (state slot) → registered (state slot') = registered (state slot) →
  slot_wf slot' → state_valid (store_state (state_store s')) →
  (∀ i, modes (state_store s') !! i
        = if decide (i = id) then fence_of (mode (state slot')) else modes (state_store s) !! i) →
  control_inv s'.
Proof.
  intros [Hr Hs Hf] Hslot Hrt Hsp Hreg Hw Hv Hm. split; [|done|].
  - rewrite Hrt. by eapply runtime_wf_with_slot.
  - intros i x Hx Hxr. rewrite Hm. unfold control_slots in Hx. rewrite Hrt in Hx. simpl in Hx.
    case_decide as Hi.
    + subst. rewrite lookup_insert_eq in Hx. by injection Hx as <-.
    + rewrite lookup_insert_ne in Hx by done. by apply Hf.
Qed.

Lemma on_backend_done {A} id (m : M BackendSlot A) s a s' :
  on_backend id m s = (Done a, s') →
  (control_slots s !! id = None ∧ a = None ∧ s' = s)
  ∨ ∃ slot b slot', control_slots s !! id = Some slot ∧ m slot = (Done b, slot') ∧ a = Some b
      ∧ control_runtime s' = with_slot (control_runtime s) id slot'
      ∧ state_store s' = state_store s.
Proof.
  unfold on_backend, on_routing, on_backends, on_registry, on_slot, control_slots, control_runtime.
  destruct s as [[rt inn] st ops]. destruct rt as [pub reg]. simpl.
  destruct (reg !! id) as [slot|] eqn:E; simpl.
  - destruct (m slot) as [[b|] slot'] eqn:Hm; simpl; [|done]. intros [= <- <-]. right.
    by exists slot, b, slot'.
  - intros [= <- <-]. by left.
Qed.

Lemma control_status_done id now s r s' :
  runtime_wf (control_runtime s) → control_status id now s = (Done r, s') →
  same_gates s s'
  ∧ match r with
    | Some st => reports (c_routing s) id now st
    | None => registry_get (control_slots s) id = None
    end.
Proof.
  intros Hwf. unfold control_status, on_routing.
  destruct (status_run (c_routing s) id now Hwf) as (r0 & s1 & Hrun & Hrt & _ & Hr).
  rewrite Hrun. intros [= <- <-]. split; [|done]. by split.
Qed.

Lemma on_store_done {A} (m : M BackendStateStore A) s a s' :
  on_store m s = (Done a, s') →
  control_runtime s' = control_runtime s ∧ m (state_store s) = (Done a, state_store s').
Proof.
  unfold on_store, control_runtime. destruct (m (state_store s)) as [r x]. by intros [= -> <-].
Qed.

Lemma with_slot_twice (rt : RuntimeState (Uri:=Uri)) id a b :
  with_slot (with_slot rt id a) id b = with_slot rt id b.
Proof. unfold with_slot. simpl. by rewrite insert_insert_eq. Qed.

Lemma ensure_operation_gates backend_id fresh now s op s' :
  runtime_wf (control_runtime s) →
  ensure_drain_operation backend_id fresh now s = (Done op, s') → same_gates s s'.
Proof.
  intros Hwf. unfold ensure_drain_operation, get_state, mbind at 1, M_mbind at 1.
  destruct (head _); [by intros [= _ <-]|].
  intros (r & s1 & Hst & (u & s2 & [= _ <-] & [= _ <-])%M_bind_Done)%M_bind_Done.
  apply control_status_done in Hst as [Hg _]; [|done]. destruct Hg as [H1 H2]. by split.
Qed.

(** A fence that is already there agrees with its gate. *)
Lemma modes_already s id slot i :
  control_inv s → control_slots s !! id = Some slot → registered (state slot) = true →
  modes (state_store s) !! i
  = if decide (i = id) then fence_of (mode (state slot)) else modes (state_store s) !! i.
Proof.
  intros [_ _ Hf] Hs Hr. case_decide; [|done]. subst. by apply Hf.
Qed.

(** The gate goes back to the mode it had when the fence could not be stored. *)
Lemma rollback_inv id now before s s2 slot slot1 u s3 :
  control_inv s → control_slots s !! id = Some slot → registered (state slot) = true →
  mode (state slot) = before → slot_wf slot1 → same_membership slot slot1 →
  control_runtime s2 = with_slot (control_runtime s) id slot1 →
  store_state (state_store s2) = store_state (state_store s) →
  match before with
  | Active => _ ← on_backend id (Backend.activate now); mret ()
  | Disabled => _ ← on_backend id (Backend.disable now); mret ()
  | Draining => panic
  end s2 = (Done u, s3) →
  control_inv s3.
Proof.
  intros Hinv Hslot Hreg Hbefore Hw1 (Hsp1 & Hr1 & _) Hrt2 Hst2.
  assert (control_slots s2 !! id = Some slot1) as Hs2.
  { unfold control_slots. rewrite Hrt2. apply lookup_insert_eq. }
  assert (∀ slot', control_runtime s3 = with_slot (control_runtime s2) id slot' →
    state_store s3 = state_store s2 → mode (state slot') = mode (state slot) →
    same_membership slot1 slot' → slot_wf slot' → control_inv s3) as Hback.
  { intros slot' Hrt3 Hst3 Hm3 (Hsp3 & Hr3 & _) Hw3.
    eapply (inv_moved s s3 id slot slot'); try done.
    - by rewrite Hrt3, Hrt2, with_slot_twice.
    - by rewrite Hsp3.
    - by rewrite Hr3.
    - rewrite Hst3, Hst2. apply Hinv.
    - intros i. rewrite Hm3. unfold modes at 1. rewrite Hst3, Hst2. by apply (modes_already s id slot i). }
  destruct before; [|done|]; intros (b & s4 & Hb & [= _ <-])%M_bind_Done;
    apply on_backend_done in Hb as [(Hn & _)|(sl & c & sl' & Hsl & Hact & _ & Hrt4 & Hst4)];
    try congruence; assert (sl = slot1) as -> by congruence.
  - apply activate_done in Hact; [|done]. destruct c as [snap|e].
    + destruct Hact as (_ & Hma & Hsame & Hwa). eapply Hback; try done. congruence.
    + destruct Hact as [Hr' _]. rewrite Hr1 in Hr'. congruence.
  - apply disable_done in Hact; [|done]. destruct Hact as (Hma & Hsame & Hwa).
    eapply Hback; try done. congruence.
Qed.

Lemma begin_drain_inv id faults fresh now unix_ms s r s' :
  control_inv s → Control.begin_drain id faults fresh now unix_ms s = (Done r, s') → control_inv s'.
Proof.
  intros Hinv. pose proof Hinv as [Hwf Hv Hf]. unfold Control.begin_drain, control_slot.
  intros (found & s0 & [= <- <-] & Hrun)%M_bind_Done.
  destruct (registry_get _ id) as [slot|] eqn:Hget; [|by injection Hrun as _ <-].
  apply registry_get_spec in Hget as [Hslot Hreg].
  apply M_bind_Done in Hrun as (a & s1 & Hb & Hrun).
  apply on_backend_done in Hb as [(Hn & _)|(slot0 & tok & slot1 & Hs0 & Hd & -> & Hrt1 & Hst1)].
  { unfold control_slots, control_runtime in Hn. congruence. }
  assert (slot0 = slot) as -> by (unfold control_slots, control_runtime in Hs0; congruence).
  destruct (rw_registry _ Hwf id slot Hslot) as [Hw _].
  destruct (begin_drain_done _ _ _ Hw Hd) as (Hm1 & Hsame1 & Hw1).
  pose proof Hsame1 as (Hsp1 & Hr1 & _).
  change (snap_mode (BackendSlot_snapshot slot now)) with (mode (state slot)) in Hrun.
  case_bool_decide as Hbefore.
  - apply M_bind_Done in Hrun as (p & s2 & Hp & Hrun).
    apply on_store_done in Hp as [Hrt2 Hp]. apply set_mode_done in Hp. rewrite Hst1 in Hp.
    destruct p as [[]|e].
    + destruct Hp as [Hp Hv2].
      assert (control_inv s2) as Hinv2.
      { eapply (inv_moved s s2 id slot slot1); try done; [by rewrite Hrt2|].
        intros i. rewrite Hm1. by apply modes_with_mode with (now := unix_ms). }
      apply M_bind_Done in Hrun as (op & s3 & He & [= _ <-]).
      apply ensure_operation_gates in He; [|apply Hinv2]. by eapply inv_same_gates.
    + apply M_bind_Done in Hrun as (u & s3 & Hrb & [= _ <-]).
      eapply (rollback_inv id now (mode (state slot)) s s2); try done. by rewrite Hrt2.
  - assert (mode (state slot) = Draining) as Hm by by destruct (mode (state slot)).
    apply M_bind_Done in Hrun as (p & s2 & [= <- <-] & Hrun).
    apply M_bind_Done in Hrun as (op & s3 & He & [= _ <-]).
    assert (control_inv s1) as Hinv1.
    { eapply (inv_moved s s1 id slot slot1); try done; [by rewrite Hst1|].
      intros i. rewrite Hm1, Hst1, <- Hm. by apply modes_already. }
    apply ensure_operation_gates in He; [|apply Hinv1]. by eapply inv_same_gates.
Qed.

(** A failed update changes nothing that matters. *)
Lemma inv_same_store s s' :
  control_inv s → control_runtime s' = control_runtime s →
  store_state (state_store s') = store_state (state_store s) → control_inv s'.
Proof.
  intros [Hr Hs Hf] H1 H2. split; [by rewrite H1|by rewrite H2|].
  intros id slot. unfold control_slots, modes. rewrite H1, H2. apply Hf.
Qed.

(** Persisting the disabled fence, then closing the gate. *)
Lemma persist_disable_inv id slot faults now unix_ms s s2 a s3 :
  control_inv s → control_slots s !! id = Some slot → registered (state slot) = true →
  on_store (set_mode faults id Disabled unix_ms) s = (Done (Ok ()), s2) →
  on_backend id (Backend.disable now) s2 = (Done a, s3) → control_inv s3.
Proof.
  intros Hinv Hslot Hreg [Hrt2 Hp]%on_store_done Hb. apply set_mode_done in Hp as [Hp Hv2].
  apply on_backend_done in Hb as [(Hn & _)|(sl & c & sl' & Hsl & Hdis & -> & Hrt3 & Hst3)].
  { unfold control_slots in *. rewrite Hrt2 in Hn. congruence. }
  assert (sl = slot) as -> by (unfold control_slots in *; rewrite Hrt2 in Hsl; congruence).
  apply disable_done in Hdis; [|by apply (rw_registry _ (ci_runtime _ Hinv) id)].
  destruct Hdis as (Hm & (Hsp & Hr & _) & Hw).
  eapply (inv_moved s s3 id slot sl'); try done.
  - by rewrite Hrt3, Hrt2.
  - by rewrite Hst3.
  - intros i. rewrite Hst3, Hm. by eapply (modes_with_mode _ _ id Disabled).
Qed.

Lemma activate_inv id faults rollback_faults now unix_ms s r s' :
  control_inv s → Control.activate id faults rollback_faults now unix_ms s = (Done r, s') →
  control_inv s'.
Proof.
  intros Hinv. unfold Control.activate. intros (status & s1 & Hst & Hrun)%M_bind_Done.
  apply control_status_done in Hst as [Hg _]; [|apply Hinv].
  assert (control_inv s1) as Hinv1 by by eapply inv_same_gates. clear s Hinv Hg.
  destruct status as [status|]; [|by injection Hrun as _ <-].
  destruct (st_mode status); [by injection Hrun as _ <-|by injection Hrun as _ <-|].
  case_bool_decide; [by injection Hrun as _ <-|]. case_bool_decide; [by injection Hrun as _ <-|].
  apply M_bind_Done in Hrun as (found & s0 & [= <- <-] & Hrun).
  destruct (registry_get _ id) as [slot|] eqn:Hget; [|by injection Hrun as _ <-].
  apply registry_get_spec in Hget as [Hslot Hreg].
  apply M_bind_Done in Hrun as (p & s2 & Hp & Hrun).
  apply on_store_done in Hp as [Hrt2 Hp]. apply set_mode_done in Hp.
  destruct p as [[]|e].
  2:{ injection Hrun as _ <-. eapply inv_same_store; try done. }
  destruct Hp as [Hp Hv2]. apply M_bind_Done in Hrun as (b & s3 & Hb & Hrun).
  apply on_backend_done in Hb as [(Hn & _)|(sl & c & sl' & Hsl & Hact & -> & Hrt3 & Hst3)].
  { unfold control_slots in Hn. rewrite Hrt2 in Hn. unfold control_runtime in Hn. congruence. }
  assert (sl = slot) as ->.
  { unfold control_slots in Hsl. rewrite Hrt2 in Hsl. unfold control_runtime in Hsl. congruence. }
  apply activate_done in Hact; [|by apply (rw_registry _ (ci_runtime _ Hinv1) id)].
  destruct c as [snap|e]; [|destruct Hact; congruence].
  destruct Hact as (_ & Hma & (Hsp & Hr & _) & Hwa). injection Hrun as _ <-.
  eapply (inv_moved s1 s3 id slot sl'); try done.
  - by rewrite Hrt3, Hrt2.
  - by rewrite Hst3.
  - intros i. rewrite Hst3, Hma. by eapply (modes_with_mode _ _ id Active).
Qed.

Lemma disable_inv id force faults now unix_ms s r s' :
  control_inv s → Control.disable id force faults now unix_ms s = (Done r, s') → control_inv s'.
Proof.
  intros Hinv. unfold Control.disable. intros (status & s1 & Hst & Hrun)%M_bind_Done.
  apply control_status_done in Hst as [Hg _]; [|apply Hinv].
  assert (control_inv s1) as Hinv1 by by eapply inv_same_gates. clear s Hinv Hg.
  destruct status as [status|]; [|by injection Hrun as _ <-].
  case_bool_decide; [by injection Hrun as _ <-|]. destruct (_ && _); [by injection Hrun as _ <-|].
  apply M_bind_Done in Hrun as (found & s0 & [= <- <-] & Hrun).
  destruct (registry_get _ id) as [slot|] eqn:Hget; [|by injection Hrun as _ <-].
  apply registry_get_spec in Hget as [Hslot Hreg].
  apply M_bind_Done in Hrun as (p & s2 & Hp & Hrun). destruct p as [[]|e].
  - apply M_bind_Done in Hrun as (b & s3 & Hb & [= _ <-]).
    eapply (persist_disable_inv id slot faults now unix_ms s1 s2); try done.
  - apply on_store_done in Hp as [Hrt2 Hp]. apply set_mode_done in Hp.
    injection Hrun as _ <-. by eapply inv_same_store.
Qed.

Lemma observe_inv operation now s r s' :
  control_inv s → drive_observe operation now s = (Done r, s') → control_inv s'.
Proof.
  intros Hinv. unfold drive_observe. intros (status & s1 & Hst & Hrun)%M_bind_Done.
  apply control_status_done in Hst as [Hg _]; [|apply Hinv].
  eapply inv_same_gates; [|exact Hinv]. transitivity s1; [exact Hg|]. clear -Hrun.
  destruct status as [status|].
  - case_bool_decide; [|destruct (_ && _)].
    + apply M_bind_Done in Hrun as (u & s2 & [= _ <-] & [= _ <-]). by split.
    + by injection Hrun as _ <-.
    + apply M_bind_Done in Hrun as (u & s2 & [= _ <-] & Hrun). by injection Hrun as _ <-.
  - apply M_bind_Done in Hrun as (u & s2 & [= _ <-] & [= _ <-]). by split.
Qed.

Lemma confirm_inv operation status faults now unix_ms s r s' :
  control_inv s → drive_confirm operation status faults now unix_ms s = (Done r, s') →
  control_inv s'.
Proof.
  intros Hinv. unfold drive_confirm. intros (confirmed & s1 & Hst & Hrun)%M_bind_Done.
  apply control_status_done in Hst as [Hg Hrep]; [|apply Hinv].
  assert (control_inv s1) as Hinv1 by by eapply inv_same_gates.
  destruct confirmed as [confirmed|]; [|by injection Hrun as _ <-].
  destruct (_ || _); [by injection Hrun as _ <-|].
  apply M_bind_Done in Hrun as (p & s2 & Hp & Hrun). destruct p as [[]|e].
  2:{ apply on_store_done in Hp as [Hrt2 Hp]. apply set_mode_done in Hp.
      apply M_bind_Done in Hrun as (u & s3 & [= _ <-] & [= _ <-]).
      eapply inv_same_gates; [|eapply (inv_same_store s1 s2); done]. by split. }
  destruct Hrep as (slot & b & lv & Hslot & Hreg & _). destruct Hg as [Hg1 Hg2].
  assert (control_slots s1 !! op_backend_id operation = Some slot) as Hslot1.
  { unfold control_slots. by rewrite Hg1. }
  pose proof Hp as Hp'. apply on_store_done in Hp' as [Hrt2 _].
  apply M_bind_Done in Hrun as (found & s2' & [= <- <-] & Hrun).
  assert (registry_get (registry (Routing.runtime (c_routing s2))) (op_backend_id operation) = Some slot)
    as Hget.
  { apply registry_get_spec. split; [|done]. unfold control_slots in Hslot1.
    unfold control_runtime in *. by rewrite Hrt2. }
  rewrite Hget in Hrun.
  apply M_bind_Done in Hrun as (u & s3 & (a & s3' & Hb & [= _ <-])%M_bind_Done & Hrun).
  assert (control_inv s3') as Hinv3.
  { eapply (persist_disable_inv (op_backend_id operation) slot faults now unix_ms s1 s2); try done. }
  apply M_bind_Done in Hrun as (final & s4 & Hst & Hrun).
  apply control_status_done in Hst as [Hg4 _]; [|apply Hinv3].
  apply M_bind_Done in Hrun as (v & s5 & [= _ <-] & [= _ <-]).
  eapply inv_same_gates; [|exact Hinv3]. transitivity s4; [done|by split].
Qed.

Lemma resume_gates l now s u s' :
  runtime_wf (control_runtime s) → resume_drains l now s = (Done u, s') → same_gates s s'.
Proof.
  revert s. induction l as [|[id fresh] l IH]; intros s Hwf; simpl; [by intros [= _ <-]|].
  intros (op & s1 & He & Hrun)%M_bind_Done. apply ensure_operation_gates in He; [|done].
  destruct He as [H1 H2]. destruct (IH s1) as [H3 H4]; [by rewrite H1|done|].
  split; congruence.
Qed.

Lemma reload_inv loaded fresh now s r s' :
  control_inv s →
  (∀ candidate, loaded = Ok candidate →
     NoDup (b_id <$> backends candidate) ∧ reload_room (control_runtime s) candidate) →
  reload loaded fresh now s = (Done r, s') → control_inv s'.
Proof.
  intros Hinv Hroom. unfold reload, get_state, mbind at 1, M_mbind at 1.
  intros (report & s1 & Hre & Hrun)%M_bind_Done. unfold on_runtime, on_routing in Hre.
  destruct loaded as [candidate|e]; simpl in Hre.
  2:{ injection Hre as <- <-. injection Hrun as _ <-. eapply inv_same_gates; [|done]. by split. }
  destruct (Hroom candidate eq_refl) as [Hnd Hr]. unfold mbind, M_mbind in Hre.
  destruct (apply_with_modes candidate (modes (state_store s)) now (Routing.runtime (c_routing s)))
    as [[[rep|e]|] rt'] eqn:Happ; simpl in Hre; [| |done].
  - injection Hre as <- <-.
    apply apply_ok_reloaded in Happ; [|apply Hinv|done|done]. destruct Happ as [Hwf' Hcfg _ _ Hslots _ _ _].
    apply M_bind_Done in Hrun as (u & s2 & Hres & [= _ <-]).
    unfold resume_persisted_drains, get_state, mbind at 1, M_mbind at 1 in Hres.
    apply resume_gates in Hres; [|done]. eapply inv_same_gates; [exact Hres|].
    split; [done|apply Hinv|]. intros id slot Hslot Hreg. simpl.
    assert (id ∈ b_id <$> backends (config (published_runtime rt'))) as Hmem
      by (apply (rw_members _ Hwf'); by exists slot).
    rewrite Hcfg in Hmem. apply list_elem_of_fmap in Hmem as (b & -> & Hb).
    destruct (Hslots b Hb) as (slot' & Hs' & _ & _ & Hm & _).
    assert (slot' = slot) as -> by (unfold control_slots, control_runtime in Hslot; simpl in *; congruence).
    rewrite Hm. unfold mode_after. destruct (modes (state_store s) !! b_id b) as [m|] eqn:Em.
    + destruct (ci_store _ Hinv) as [_ Hv]. unfold modes in Em. rewrite lookup_fmap in Em.
      destruct (stored _ !! b_id b) as [pb|] eqn:Epb; [|done]. injection Em as <-.
      destruct (Hv _ _ Epb) as [_ Hna]. by destruct (pb_mode pb).
    + destruct (registry (Routing.runtime (c_routing s)) !! b_id b) as [old|] eqn:Eo; [|done].
      destruct (registered (state old)) eqn:Er; [|done].
      pose proof (ci_fenced _ Hinv (b_id b) old Eo Er) as Hf. rewrite Em in Hf.
      by destruct (mode (state old)).
  - injection Hre as <- <-. injection Hrun as _ <-.
    apply apply_refused_run in Happ as [-> _]. eapply inv_same_gates; [|done].
    by split; [by destruct s as [[]]|].
Qed.

(** ** Every reachable state *)

(** What the operator's handlers, the drain task, reloads and the workers do. *)
Inductive operator_step s s' : Prop :=
| step_begin_drain id faults fresh now unix_ms r :
    Control.begin_drain id faults fresh now unix_ms s = (Done r, s') → operator_step s s'
| step_activate id faults rollback now unix_ms r :
    Control.activate id faults rollback now unix_ms s = (Done r, s') → operator_step s s'
| step_disable id force faults now unix_ms r :
    Control.disable id force faults now unix_ms s = (Done r, s') → operator_step s s'
| step_observe operation now r :
    drive_observe operation now s = (Done r, s') → operator_step s s'
| step_confirm operation status faults now unix_ms r :
    drive_confirm operation status faults now unix_ms s = (Done r, s') → operator_step s s'
| step_reload loaded fresh now r :
    (∀ candidate, loaded = Ok candidate →
       NoDup (b_id <$> backends candidate) ∧ reload_room (control_runtime s) candidate) →
    reload loaded fresh now s = (Done r, s') → operator_step s s'
| step_record inner' :
    s' = {| c_routing := {| Routing.runtime := control_runtime s; inner := inner' |};
            state_store := state_store s; operations := operations s |} → operator_step s s'.

(** With the requests' selections and releases. *)
Inductive control_step s s' : Prop :=
| step_operator : operator_step s s' → control_step s s'
| step_select now clock r :
    on_routing (select now clock) s = (Done r, s') → control_step s s'
| step_release lease r :
    on_routing (drop_lease lease) s = (Done r, s') → control_step s s'.

Lemma inv_traffic s s' :
  traffic (c_routing s) (c_routing s') → state_store s' = state_store s → control_inv s → control_inv s'.
Proof.
  intros Ht Hst [Hr Hs Hf]. split; [by eapply runtime_wf_traffic|by rewrite Hst|].
  intros id slot' Hs' Hreg'. rewrite Hst. destruct Ht as [_ Ht]. specialize (Ht id).
  unfold control_slots, control_runtime in Hs'. unfold slot_traffic, slots_of in Ht. rewrite Hs' in Ht.
  destruct (registry (Routing.runtime (c_routing s)) !! id) as [slot|] eqn:Es; [|done].
  destruct (rw_registry _ Hr id slot Es) as [Hw _]. destruct (Ht Hw) as [(_ & Hreg & Hm') _].
  rewrite Hm'. apply Hf; [done|congruence].
Qed.

Lemma traffic_inv {A} (m : M RoutingState A) s a s' :
  traffics m → control_inv s → on_routing m s = (Done a, s') → control_inv s'.
Proof.
  intros Hm Hinv. unfold on_routing. destruct (m (c_routing s)) as [r x] eqn:Hrun.
  intros [= -> <-]. eapply inv_traffic; [by eapply Hm|done|done].
Qed.

Lemma operator_step_inv s s' : operator_step s s' → control_inv s → control_inv s'.
Proof.
  intros Hstep Hinv. destruct Hstep as [id f fr now ux r Hrun|id f rb now ux r Hrun
    |id fo f now ux r Hrun|op now r Hrun|op st f now ux r Hrun|ld fr now r Hroom Hrun|inner' ->].
  - by eapply begin_drain_inv.
  - by eapply activate_inv.
  - by eapply disable_inv.
  - by eapply observe_inv.
  - by eapply confirm_inv.
  - by eapply reload_inv.
  - eapply inv_same_gates; [|done]. by split.
Qed.

Lemma control_step_inv s s' : control_step s s' → control_inv s → control_inv s'.
Proof.
  intros [Hstep|now clock r Hrun|lease r Hrun] Hinv.
  - by eapply operator_step_inv.
  - eapply traffic_inv; [apply traffics_select|done|done].
  - eapply traffic_inv; [apply traffics_drop_lease|done|done].
Qed.

End Fences.

(** ** The file of fences *)

Section File.
Context {Uri : Type} `{UriOps Uri} `{JsonLaws StateFile}.
Implicit Types s : ControlState (Uri:=Uri).

(** The file follows the overlay through an action that returns. *)
Definition follows {A} (m : M (ControlState (Uri:=Uri)) A) : Prop :=
  ∀ s a s', m s = (Done a, s') →
    (∃ file, file_follows (state_store s) file) → ∃ file, file_follows (state_store s') file.

Lemma follows_bind {A B} (m : M ControlState A) (f : A → M ControlState B) :
  follows m → (∀ a, follows (f a)) → follows (m ≫= f).
Proof. intros Hm Hf s b s' (a & s1 & E1 & E2)%M_bind_Done Hs. eapply Hf; [done|]. by eapply Hm. Qed.

Lemma follows_same {A} (m : M ControlState A) :
  (∀ s a s', m s = (Done a, s') → state_store s' = state_store s) → follows m.
Proof. intros Hm s a s' Hrun. by rewrite (Hm _ _ _ Hrun). Qed.

Lemma follows_routing {A} (m : M RoutingState A) : follows (on_routing m).
Proof.
  apply follows_same. intros s a s'. unfold on_routing. destruct (m _) as [r x]. by intros [= _ <-].
Qed.

Lemma follows_store faults id m now : follows (on_store (set_mode faults id m now)).
Proof. intros s a s' [_ Hrun]%on_store_done. by eapply set_mode_follows. Qed.

Lemma follows_mret {A} (a : A) : follows (mret a).
Proof. apply follows_same. by intros s b s' [= _ <-]. Qed.
Lemma follows_panic {A} : follows (panic (A:=A)).
Proof. by intros s a s'. Qed.
Lemma follows_get : follows get_state.
Proof. apply follows_same. by intros s b s' [= _ <-]. Qed.
Lemma follows_slot id : follows (control_slot id).
Proof. apply follows_same. by intros s b s' [= _ <-]. Qed.
Lemma follows_send operation new : follows (send_replace operation new).
Proof. apply follows_same. by intros s b s' [= _ <-]. Qed.
Lemma follows_operation operation : follows (set_operation operation).
Proof. apply follows_same. by intros s b s' [= _ <-]. Qed.
Lemma follows_backend {A} id (m : M BackendSlot A) : follows (on_backend id m).
Proof. apply follows_routing. Qed.
Lemma follows_status id now : follows (control_status id now).
Proof. apply follows_routing. Qed.
Lemma follows_runtime {A} (m : M RuntimeState A) : follows (on_runtime m).
Proof. apply follows_routing. Qed.

#[local] Hint Resolve follows_routing follows_store follows_mret follows_panic follows_get follows_slot
  follows_send follows_operation follows_backend follows_status follows_runtime : proxy.

(** Walk through a handler. *)
Ltac follow :=
  repeat first [solve [eauto with proxy] | apply follows_bind; [solve [follow]|intros ?]
               | case_bool_decide | case_match].

Lemma follows_ensure id fresh now : follows (ensure_drain_operation id fresh now).
Proof. unfold ensure_drain_operation. follow. Qed.
#[local] Hint Resolve follows_ensure : proxy.

Lemma follows_resume fresh now : follows (resume_persisted_drains fresh now).
Proof.
  apply follows_bind; [apply follows_get|]. intros s.
  assert (∀ l, follows (resume_drains l now)) as Hl; [|intros; apply Hl].
  intros l. induction l as [|[id f] l IH]; simpl; follow.
Qed.
#[local] Hint Resolve follows_resume : proxy.

Lemma operator_step_file s s' :
  operator_step s s' →
  (∃ file, file_follows (state_store s) file) → ∃ file, file_follows (state_store s') file.
Proof.
  destruct 1 as [id f fr now ux r Hrun|id f rb now ux r Hrun
    |id fo f now ux r Hrun|op now r Hrun|op st f now ux r Hrun|ld fr now r _ Hrun|inner' ->]; [..|done];
    revert Hrun; match goal with |- ?m s = _ → _ => enough (follows m) as Hm by apply Hm end.
  - unfold Control.begin_drain. follow.
  - unfold Control.activate. follow.
  - unfold Control.disable. follow.
  - unfold drive_observe. follow.
  - unfold drive_confirm. follow.
  - unfold reload. follow.
Qed.

Lemma control_step_file s s' :
  control_step s s' →
  (∃ file, file_follows (state_store s) file) → ∃ file, file_follows (state_store s') file.
Proof.
  intros [Hstep|now clock r Hrun|lease r Hrun]; [by apply operator_step_file|by eapply follows_routing..].
Qed.

(** The fences a state holds. *)
Definition fences (state : StateFile) : gmap string BackendMode := pb_mode <$> stored state.

Lemma with_mode_others i mode now state id : id ≠ i → fences (with_mode i mode now state) !! id = fences state !! id.
Proof.
  intros Hne. unfold fences. rewrite !lookup_fmap. simpl.
  destruct mode; by rewrite ?lookup_delete_ne, ?lookup_insert_ne.
Qed.

(** C10: gates and fences agree.  From a state where they do, whatever the operator, the drain
    task, the requests and the workers do, in any order and whatever storage faults the
    updates meet, the runtime and the overlay in memory stay well formed, and the overlay has a
    fence for a registered backend exactly when its gate is closed, naming the same mode.  A reload
    therefore never reopens a drained backend and never closes an active one.  The state file can
    always be read back and says the same as the gates, for every registered backend but at most
    one; it is the overlay itself, or the overlay with that one backend's mode changed.  (That
    exception is real: an update whose directory sync fails is answered with an error and
    taken back in memory, but the file was renamed already.) *)
Theorem fences_agree s s' :
  control_inv s → in_sync (state_store s) → rtc control_step s s' →
  runtime_wf (control_runtime s') ∧ state_valid (store_state (state_store s'))
  ∧ (∀ id slot, control_slots s' !! id = Some slot → registered (state slot) = true →
       (mode (state slot) = Active ↔ modes (state_store s') !! id = None)
       ∧ (mode (state slot) ≠ Active → modes (state_store s') !! id = Some (mode (state slot))))
  ∧ ∃ file exception,
      load (store_path (state_store s')) (read_target (disk (state_store s'))) = Ok file
      ∧ state_valid file
      ∧ (exception = None → file = store_state (state_store s'))
      ∧ (∀ i, exception = Some i → ∃ m at_, file = with_mode i m at_ (store_state (state_store s')))
      ∧ ∀ id slot, exception ≠ Some id →
          control_slots s' !! id = Some slot → registered (state slot) = true →
          (mode (state slot) = Active ↔ fences file !! id = None)
          ∧ (mode (state slot) ≠ Active → fences file !! id = Some (mode (state slot))).
Proof.
  intros Hinv Hsync Hr.
  assert (control_inv s' ∧ ∃ file, file_follows (state_store s') file) as [[Hrt Hst H3] (file & Hl & Hf)].
  { assert (∃ file, file_follows (state_store s) file) as Hfile by by eexists; apply in_sync_follows.
    clear Hsync. induction Hr as [s|a b c Hab _ IH]; [done|].
    by apply IH; [eapply control_step_inv|eapply control_step_file]. }
  assert (∀ id slot, control_slots s' !! id = Some slot → registered (state slot) = true →
    ∀ fence, fence = modes (state_store s') !! id →
    (mode (state slot) = Active ↔ fence = None) ∧ (mode (state slot) ≠ Active → fence = Some (mode (state slot))))
    as Hagree.
  { intros id slot Hslot Hreg fence ->. rewrite (H3 id slot Hslot Hreg). by destruct (mode (state slot)). }
  split; [done|]. split; [done|]. split; [intros id slot Hs Hreg; by apply (Hagree id slot)|].
  exists file. destruct Hf as [Hf|(i & m & at_ & Hf)].
  - exists None. split_and!; [done|by eapply load_valid|done|done|].
    intros id slot _ Hs Hreg. apply (Hagree id slot); [done|done|]. by rewrite Hf.
  - exists (Some i). split_and!; [done|by eapply load_valid|done|intros ? [= <-]; by eexists _, _|].
    intros id slot Hne Hs Hreg. apply (Hagree id slot); [done|done|].
    rewrite Hf, with_mode_others by congruence. done.
Qed.
End File.

(** ** A concrete control plane *)

Definition demo_control : ControlState (Uri:=SimpleUri) :=
  {| c_routing := demo_router; state_store := demo_store; operations := ∅ |}.

Lemma demo_control_inv : control_inv demo_control.
Proof.
  split; [exact demo_router_wf|apply demo_store_sync|].
  assert (map_Forall (λ _ slot, mode (state slot) = Active) (control_slots demo_control)) as Hall.
  { apply (bool_decide_unpack _). vm_compute. exact I. }
  intros id slot Hslot _. rewrite (Hall id slot Hslot). unfold modes. simpl.
  by rewrite lookup_fmap, lookup_empty.
Qed.

(** Backend [east] after its drain began. *)
Definition demo_draining : ControlState (Uri:=SimpleUri) :=
  (Control.begin_drain "east" no_faults "op-1" 10 7 demo_control).2.

Lemma demo_draining_ran :
  ∃ r, Control.begin_drain "east" no_faults "op-1" 10 7 demo_control = (Done r, demo_draining).
Proof.
  unfold demo_draining.
  destruct (Control.begin_drain "east" no_faults "op-1" 10 7 demo_control) as [[r|] s'] eqn:E;
    [by exists r|exfalso].
  apply (f_equal (λ x, match x.1 with Done _ => true | Panicked => false end)) in E.
  vm_compute in E. discriminate E.
Qed.

Lemma demo_draining_step : control_step demo_control demo_draining.
Proof. destruct demo_draining_ran as [r Hr]. by eapply step_operator, step_begin_drain. Qed.

Theorem fences_agree_witness :
  ∃ slot, control_slots demo_draining !! "east" = Some slot ∧ mode (state slot) = Draining
    ∧ modes (state_store demo_draining) !! "east" = Some Draining
    ∧ ∃ file, load (store_path (state_store demo_draining)) (read_target (disk (state_store demo_draining)))
        = Ok file ∧ state_valid file.
Proof.
  destruct (fences_agree demo_control demo_draining demo_control_inv demo_store_sync)
    as (_ & _ & Hmem & file & _ & Hload & Hvalid & _); [apply rtc_once, demo_draining_step|].
  assert ((λ slot, (registered (state slot), mode (state slot))) <$> control_slots demo_draining !! "east"
          = Some (true, Draining)) as Heast by (vm_compute; reflexivity).
  apply fmap_Some in Heast as (slot & Hs & [= Hreg Hmode]). exists slot.
  split; [exact Hs|]. split; [done|]. split; [|exists file; split; [exact Hload|exact Hvalid]].
  destruct (Hmem "east"%string slot Hs (eq_sym Hreg)) as [_ Hm]. rewrite <- Hmode in Hm. by apply Hm.
Defined.
