(* ===== verification/Leases.v ===== *)
(** * Leases as linear resources

    In the source a lease is released when its owner is dropped, so the type
    system accounts for it.  Here an action of the router states which leases
    it is given and which it leaves in its result ([hands]); the leases a slot
    counts are then always those that somebody holds ([accounted]).  The
    actions of the requests of [src/src/routing.rs] are [hands], and those of
    the operator in [src/src/control.rs] move no lease and lift no fence, in
    memory or in the file, but an activation's own ([steady]). *)

From S2P Require Import Prelude RustStd Float64 Telemetry Backend Runtime Routing Selection Disk BackendState Control Fences.

(** The keys of the leases held on a backend. *)
Definition lease_keys (id : string) (l : list BackendLease) : list LeaseKey :=
  omap (λ lease, if decide (lease_slot lease = id) then lease_key lease else None) l.

#[export] Instance lease_keys_Permutation id : Proper ((≡ₚ) ==> (≡ₚ)) (lease_keys id).
Proof. apply omap_Permutation. Qed.

Lemma lease_keys_app id l k : lease_keys id (l ++ k) = lease_keys id l ++ lease_keys id k.
Proof. apply omap_app. Qed.

(** ** Acquiring and releasing on one slot *)

Lemma try_acquire_leases now s r s' :
  slot_wf s → BackendSlot_try_acquire now s = (Done r, s') →
  match r with
  | Ok lease => registered (state s) = true ∧ mode (state s) = Active
      ∧ lease_slot lease = spec_id (spec (state s))
      ∧ ∃ key, lease_key lease = Some key ∧ leases (state s') ≡ₚ key :: leases (state s)
  | Err _ => leases (state s') = leases (state s)
  end.
Proof.
  intros [_ _ Hb _ _ _]. destruct s as [[sp rg md ep sq rv nx tot ls] pub]. run_slot; simpl in *.
  destruct rg; simpl; [|by intros [= <- <-]].
  case_bool_decide as Hm; simpl; [by intros [= <- <-]|]. split_adds; intros Hrun; simplify_eq; try done.
  split; [done|]. split; [done || by apply dec_stable|]. split; [done|]. eexists. split; [done|].
  apply btree_insert_perm. intros (k & Hs & Hk)%list_elem_of_fmap. simpl in Hs.
  rewrite Forall_forall in Hb. specialize (Hb _ Hk). lia.
Qed.

(** ** Handing leases over *)

Section Leases.
Context {Uri : Type} `{UriOps Uri}.
Implicit Types (s : RoutingState (Uri:=Uri)) (l given rest : list BackendLease).

(** The slots count exactly the leases in the list. *)
Definition accounted s l : Prop := ∀ id, leases_before (slots_of s) id ≡ₚ lease_keys id l.

#[export] Instance accounted_Permutation s : Proper ((≡ₚ) ==> iff) (accounted s).
Proof. intros l k E. unfold accounted. by setoid_rewrite E. Qed.

(** A lease as an open gate grants it. *)
Definition granted s (lease : BackendLease) : Prop :=
  is_Some (lease_key lease) ∧ acquirable (slots_of s) (lease_slot lease) = true.

(** Given the leases [given], the action leaves in its result the leases [taken]; one that was not
    given was granted by an open gate, and no gate moves.  [view] is the router in the state. *)
Definition hands_in {S A} (view : S → RoutingState) given (m : M S A) (taken : A → list BackendLease) : Prop :=
  ∀ rest x a x', runtime_wf (Routing.runtime (view x)) → accounted (view x) (given ++ rest) →
    m x = (Done a, x') →
    accounted (view x') (taken a ++ rest) ∧ traffic (view x) (view x')
    ∧ ∀ lease, lease ∈ taken a → lease ∈ given ∨ granted (view x) lease.

(** Of an action of the router. *)
Definition hands {A} given (m : M RoutingState A) taken : Prop := hands_in (λ s, s) given m taken.

Lemma acquirable_traffic s s' id :
  traffic s s' → runtime_wf (Routing.runtime s) →
  acquirable (slots_of s') id = acquirable (slots_of s) id.
Proof.
  intros [_ Ht] Hwf. specialize (Ht id). unfold acquirable, slot_traffic in *. unfold slots_of in *.
  destruct (registry (Routing.runtime s) !! id) as [slot|] eqn:E,
    (registry (Routing.runtime s') !! id) as [slot'|]; try done.
  destruct (rw_registry _ Hwf id slot E) as [Hw _]. destruct (Ht Hw) as [(_ & Hr & Hm) _].
  by rewrite Hr, Hm.
Qed.

Lemma hands_in_bind {S A B} (view : S → RoutingState) given (m : M S A) taken (f : A → M S B) taken' :
  hands_in view given m taken → (∀ a, hands_in view (taken a) (f a) taken') →
  hands_in view given (m ≫= f) taken'.
Proof.
  intros Hm Hf rest x b x' Hwf Hacc (a & x1 & H1 & H2)%M_bind_Done.
  destruct (Hm rest x a x1 Hwf Hacc H1) as (Hacc1 & Ht1 & Hg1).
  pose proof (runtime_wf_traffic _ _ Ht1 Hwf) as Hwf1.
  destruct (Hf a rest x1 b x' Hwf1 Hacc1 H2) as (Hacc2 & Ht2 & Hg2).
  split; [done|]. split; [by etransitivity|]. intros lease [Hl|[Hk Ha]]%Hg2; [by apply Hg1|].
  right. split; [done|]. by rewrite <- (acquirable_traffic (view x) (view x1)).
Qed.

Lemma hands_in_unseen {S A} (view : S → RoutingState) given (m : M S A) :
  (∀ x a x', m x = (Done a, x') → Routing.runtime (view x') = Routing.runtime (view x)) →
  hands_in view given m (λ _, given).
Proof.
  intros Hm rest s a s' Hwf Hacc Hrun. pose proof (Hm _ _ _ Hrun) as E.
  unfold accounted, traffic, slots_of in *. rewrite E. split; [exact Hacc|].
  split; [split; [done|]; intros id; apply slot_traffic_refl|]. intros lease Hl. by left.
Qed.

Lemma hands_in_mret {S A} (view : S → RoutingState) given (a : A) (taken : A → list BackendLease) :
  taken a = given → hands_in view given (mret a) taken.
Proof.
  intros E rest s b s' Hwf Hacc [= <- <-]. rewrite E. split; [done|]. split; [reflexivity|].
  intros lease Hl. by left.
Qed.

Lemma hands_bind {A B} given (m : M RoutingState A) taken (f : A → M RoutingState B) taken' :
  hands given m taken → (∀ a, hands (taken a) (f a) taken') → hands given (m ≫= f) taken'.
Proof. apply hands_in_bind. Qed.

Lemma hands_same {A} given (m : M RoutingState A) :
  (∀ s a s', m s = (Done a, s') → Routing.runtime s' = Routing.runtime s) →
  hands given m (λ _, given).
Proof. apply hands_in_unseen. Qed.

Lemma hands_mret {A} given (a : A) (taken : A → list BackendLease) :
  taken a = given → hands given (mret a) taken.
Proof. apply hands_in_mret. Qed.

Lemma hands_on_live {A B} given id (m : M LiveBackend A) (f : option A → B) :
  hands given (r ← on_live id m; mret (f r)) (λ _, given).
Proof.
  apply hands_same. intros s a s' (r & s1 & Hr & [= _ <-])%M_bind_Done. by apply on_live_runtime in Hr.
Qed.

(** An acquisition on a slot adds the lease it returns. *)
Lemma hands_acquire id now :
  hands [] (on_backends (registry_try_acquire id now)) (λ r, match r with Ok lease => [lease] | Err _ => [] end).
Proof.
  intros rest s a s' Hwf Hacc Hrun. pose proof (traffics_acquire id now _ _ _ Hrun) as Ht.
  split; [|split; [exact Ht|]]; revert Hrun; unfold registry_try_acquire; rewrite on_backends_bind;
    unfold on_backends, on_registry, on_slot, mbind, M_mbind, mret, M_mret;
    destruct (registry (Routing.runtime s) !! id) as [slot|] eqn:E; simpl.
  2: intros [= <- <-]; exact Hacc.
  3: intros [= <- <-]; intros ? Hl; by apply elem_of_nil in Hl.
  all: destruct (BackendSlot_try_acquire now slot) as [[r|] slot'] eqn:Hacq; [|done]; simpl; intros [= <- <-];
    destruct (rw_registry _ Hwf id slot E) as [Hw Hid];
    apply try_acquire_leases in Hacq; [|done]; destruct r as [lease|e]; simpl.
  - destruct Hacq as (Hr & Hm & Hs & key & Hk & Hl). intros i. specialize (Hacc i). simpl in Hacc.
    unfold leases_before, slots_of, lease_keys in *. simpl. rewrite Hs, Hid. case_decide as Hi.
    + subst i. rewrite lookup_insert_eq, Hl, Hk. simpl. constructor. by rewrite E in Hacc.
    + by rewrite lookup_insert_ne by done.
  - intros i. specialize (Hacc i). unfold leases_before, slots_of in *. simpl.
    destruct (decide (id = i)) as [<-|Hne].
    + rewrite lookup_insert_eq, Hacq. by rewrite E in Hacc.
    + by rewrite lookup_insert_ne by done.
  - destruct Hacq as (Hr & Hm & Hs & key & Hk & Hl). intros x ->%list_elem_of_singleton. right.
    split; [by rewrite Hk|]. unfold acquirable, slots_of. rewrite Hs, Hid, E, Hr. by apply bool_decide_eq_true.
  - intros x Hx. by apply elem_of_nil in Hx.
Qed.

(** Dropping a lease takes it off its slot. *)
Lemma hands_drop_lease lease : hands [lease] (drop_lease lease) (λ _, []).
Proof.
  intros rest s a s' Hwf Hacc Hrun. pose proof (traffics_drop_lease lease _ _ _ Hrun) as Ht.
  split; [|split; [exact Ht|by intros x Hx%elem_of_nil]]. clear Ht Hwf.
  apply M_bind_Done in Hrun as (r & s1 & Hrun & [= _ <-]).
  intros i. pose proof (Hacc i) as Hi. pose proof (Hacc (lease_slot lease)) as Hl. simpl. revert Hrun Hi Hl.
  unfold on_backends, on_registry, on_slot, leases_before, slots_of, lease_keys. simpl.
  destruct (decide (lease_slot lease = lease_slot lease)) as [_|]; [|done]. unfold BackendLease_drop.
  destruct (lease_key lease) as [key|] eqn:Ek.
  - destruct (registry (Routing.runtime s) !! lease_slot lease) as [slot|] eqn:E; simpl.
    2:{ intros _ _ Hl. by apply Permutation_nil_cons in Hl. }
    unfold mbind, M_mbind, mret, M_mret. destruct (release key slot) as [[[]|] slot'] eqn:Hrel; [|done].
    simpl. intros [= _ <-]. apply release_leases in Hrel. simpl.
    destruct (decide (lease_slot lease = i)) as [<-|Hne].
    + rewrite lookup_insert_eq, E, Hrel. by intros Hi%(Permutation_cons_inv).
    + by rewrite lookup_insert_ne by done.
  - unfold mret, M_mret. destruct (registry (Routing.runtime s) !! lease_slot lease) as [slot|] eqn:E; simpl;
      intros [= _ <-]; simpl; rewrite ?insert_id by done; by destruct (decide _).
Qed.

(** *** The requests' actions *)

Lemma hands_permit_drop given permit now : hands given (CircuitPermit_drop permit now) (λ _, given).
Proof.
  unfold CircuitPermit_drop, CircuitPermit_neutral, resolve. destruct (resolved permit); simpl;
    [by apply hands_mret|].
  eapply hands_bind; [|intros; by apply hands_mret].
  eapply hands_bind; [|intros; by apply hands_mret].
  apply (hands_on_live _ _ _ (λ _, ())).
Qed.

Lemma hands_resolve given permit outcome now : hands given (resolve permit outcome now) (λ _, given).
Proof.
  unfold resolve. destruct (resolved permit); [by apply hands_mret|].
  eapply hands_bind; [|intros; by apply hands_mret].
  apply (hands_on_live _ _ _ (λ _, ())).
Qed.

(** The leases of a selection, if there is one. *)
Definition selected_lease (r : option RouteSelection) : list BackendLease :=
  match r with Some sel => [sel_lease sel] | None => [] end.

Lemma hands_attempt c eligible t1 t2 : hands [] (attempt c eligible t1 t2) selected_lease.
Proof.
  eapply hands_bind; [apply hands_on_live|]. intros [p|]; [|by apply hands_mret].
  eapply hands_bind; [apply hands_acquire|]. intros [lease|e]; [by apply hands_mret|].
  eapply hands_bind; [apply hands_permit_drop|]. intros; by apply hands_mret.
Qed.

Lemma hands_reserve clock eligible cands : hands [] (reserve clock eligible cands) selected_lease.
Proof.
  induction cands as [|c cands IH]; simpl; [by apply hands_mret|]. destruct (clock (cand_id c)) as [t1 t2].
  eapply hands_bind; [apply hands_attempt|]. intros [sel|]; [by apply hands_mret|exact IH].
Qed.

Lemma hands_select now clock : hands [] (select now clock) selected_lease.
Proof.
  eapply hands_bind; [apply hands_same|].
  - intros s a s'. apply candidates_runtime.
  - intros [cands cursor]. case_bool_decide; [by apply hands_mret|apply hands_reserve].
Qed.

Lemma hands_selection_drop sel now : hands [sel_lease sel] (RouteSelection_drop sel now) (λ _, []).
Proof. eapply hands_bind; [apply hands_drop_lease|]. intros u. apply hands_permit_drop. Qed.

Lemma hands_transport_failure sel now :
  hands [sel_lease sel] (record_transport_failure sel now) (λ _, []).
Proof.
  eapply hands_bind; [apply hands_resolve|]. intros permit. eapply hands_bind; [apply hands_drop_lease|].
  intros u. apply hands_permit_drop.
Qed.

Lemma hands_response_guard sel status now :
  hands [sel_lease sel] (into_response_guard sel status now) (λ guard, [guard_lease guard]).
Proof.
  eapply (hands_bind _ _ (λ _, [sel_lease sel])).
  - case_bool_decide; [|destruct (negb _)].
    + eapply hands_bind; [apply hands_resolve|]. intros; by apply hands_mret.
    + unfold success_with_body_observer. destruct (resolved _); [by apply hands_mret|].
      eapply hands_bind; [apply hands_on_live|]. intros; by apply hands_mret.
    + eapply hands_bind; [apply hands_resolve|]. intros; by apply hands_mret.
  - intros [failure permit]. eapply hands_bind; [apply hands_permit_drop|]. intros; by apply hands_mret.
Qed.

Lemma hands_body_error guard now :
  hands [guard_lease guard] (body_error guard now) (λ guard, [guard_lease guard]).
Proof.
  eapply (hands_bind _ _ (λ _, [guard_lease guard])); [|intros; by apply hands_mret].
  destruct (body_failure guard); [|by apply hands_mret].
  apply (hands_on_live _ _ _ (λ _, ())).
Qed.

Lemma hands_guard_drop guard : hands [guard_lease guard] (guard_drop guard) (λ _, []).
Proof. apply hands_drop_lease. Qed.
End Leases.

(** ** The operator's actions *)

Lemma absent_slot_leases s : leases (state (absent_slot s)) = leases (state s).
Proof.
  unfold absent_slot. destruct s as [[sp rg md ep sq rv nx tot ls] pub]. run_slot; simpl.
  destruct rg; simpl; [|done]. case_bool_decide; simpl; unfold checked_add;
    repeat (case_match; simpl; simplify_eq); done.
Qed.

(** A change of a slot's gate and of nothing else. *)
Definition gate_only {A} (m : M BackendSlot A) : Prop :=
  ∀ slot a slot', slot_wf slot → m slot = (Done a, slot') → same_membership slot slot' ∧ slot_wf slot'.

Lemma gate_begin_drain : gate_only Backend.begin_drain.
Proof. intros slot a slot' Hw Hrun. by apply begin_drain_done in Hrun as (_ & ? & ?). Qed.
Lemma gate_disable now : gate_only (Backend.disable now).
Proof. intros slot a slot' Hw Hrun. by apply disable_done in Hrun as (_ & ? & ?). Qed.
Lemma gate_activate now : gate_only (Backend.activate now).
Proof.
  intros slot a slot' Hw Hrun. apply activate_done in Hrun; [|done].
  destruct a as [snap|e]; [by destruct Hrun as (_ & _ & ? & ?)|]. by destruct Hrun as [_ ->].
Qed.

(** ** The fence file *)

(** The content holds a fence of the backend. *)
Definition fenced_in `{JsonOps StateFile} (id : string) (content : option bytes) : Prop :=
  ∃ path state, load path (read_target (disk_of content)) = Ok state ∧ is_Some (stored state !! id).

(** The backend has its fence, in memory and in the file. *)
Definition durable `{JsonOps StateFile} (id : string) (store : BackendStateStore) : Prop :=
  is_Some (modes store !! id) ∧ fenced_in id (target (disk store)).

(** Whatever an update from one store to the other put into the file, the fences of [P] stood in it. *)
Definition writes_keep `{JsonOps StateFile} (P : string → Prop) (store store' : BackendStateStore) : Prop :=
  ∃ pts, crash_points (disk store') = crash_points (disk store) ++ pts
    ∧ ∀ id, P id → durable id store →
        is_Some (modes store' !! id) ∧ Forall (fenced_in id) (target (disk store') :: pts).

(** The contents the file may be found with when the process dies during the update, before or after it. *)
Definition content_during (store store' : BackendStateStore) (content : option bytes) : Prop :=
  content ∈ [target (disk store); target (disk store')]
  ∨ ∃ pts, crash_points (disk store') = crash_points (disk store) ++ pts ∧ content ∈ pts.

Section FenceFile.
Context `{JsonLaws StateFile}.
Implicit Types (P : string → Prop) (store : BackendStateStore).

Lemma writes_keep_refl P store : writes_keep P store store.
Proof.
  exists []. split; [by rewrite app_nil_r|]. intros id _ [Hm Hf]. split; [done|]. by constructor.
Qed.

Lemma writes_keep_trans P st1 st2 st3 : writes_keep P st1 st2 → writes_keep P st2 st3 → writes_keep P st1 st3.
Proof.
  intros (p1 & E1 & H1) (p2 & E2 & H2). exists (p1 ++ p2). split; [by rewrite E2, E1, app_assoc|].
  intros id Hp Hd. destruct (H1 id Hp Hd) as [Hm1 Hf1]. apply Forall_cons in Hf1 as [Ht1 Hf1].
  destruct (H2 id Hp) as [Hm2 Hf2]; [by split|]. split; [done|].
  apply Forall_cons in Hf2 as [Ht2 Hf2]. constructor; [done|]. by apply Forall_app.
Qed.

Lemma writes_keep_content P store store' id content :
  P id → writes_keep P store store' → durable id store → content_during store store' content →
  fenced_in id content.
Proof.
  intros Hp (pts & E & Hk) Hd. destruct (Hk id Hp Hd) as [_ [Ht Hall]%Forall_cons].
  intros [[->|[->|[]%elem_of_nil]%elem_of_cons]%elem_of_cons|(pts' & E' & Hin)]; [apply Hd|done|].
  rewrite E in E'. apply app_inv_head in E' as <-. rewrite Forall_forall in Hall. by apply Hall.
Qed.

Lemma writes_keep_durable P store store' id :
  P id → writes_keep P store store' → durable id store → durable id store'.
Proof. intros Hp (pts & _ & Hk) Hd. destruct (Hk id Hp Hd) as [Hm [Ht _]%Forall_cons]. by split. Qed.

(** An update that lifts none of them. *)
Lemma set_mode_keeps P faults i m now store r store' :
  (m = Active → ¬ P i) → set_mode faults i m now store = (Done r, store') → writes_keep P store store'.
Proof.
  intros Hm Hrun. pose proof (set_mode_writes _ _ _ _ _ _ _ Hrun) as (pts & E & Hall).
  apply set_mode_done in Hrun. exists pts. split; [done|]. intros id Hp [Hmem Hfile].
  assert (is_Some (stored (with_mode i m now (store_state store)) !! id)) as Hnew.
  { unfold modes in Hmem. rewrite lookup_fmap, fmap_is_Some in Hmem. simpl.
    destruct (decide (i = id)) as [->|Hne].
    - destruct m; [by destruct (Hm eq_refl)|by rewrite lookup_insert_eq..].
    - destruct m; by rewrite ?lookup_delete_ne, ?lookup_insert_ne. }
  split.
  - unfold modes in *. rewrite lookup_fmap, fmap_is_Some in *. destruct r; [|by rewrite Hrun].
    by destruct Hrun as [-> _].
  - eapply Forall_impl; [exact Hall|]. intros t [->|Hload]; [done|by eexists _, _].
Qed.
End FenceFile.

Section Operator.
Context {Uri : Type} `{UriOps Uri} `{JsonLaws StateFile}.
Implicit Types (s : ControlState (Uri:=Uri)) (P : string → Prop).

Definition control_leases s (id : string) : list LeaseKey := leases_before (control_slots s) id.

(** Every lease stays with its slot, and the fences of [P] stand. *)
Definition held P s s' : Prop :=
  runtime_wf (control_runtime s') ∧ (∀ id, control_leases s' id = control_leases s id)
  ∧ writes_keep P (state_store s) (state_store s').

Definition steady P {A} (m : M (ControlState (Uri:=Uri)) A) : Prop :=
  ∀ s a s', runtime_wf (control_runtime s) → m s = (Done a, s') → held P s s'.

Lemma held_same P s s' :
  same_gates s s' → runtime_wf (control_runtime s) → held P s s'.
Proof.
  intros [E1 E2] Hwf. unfold held, control_leases, control_slots. rewrite E1, E2.
  split; [done|]. split; [done|]. apply writes_keep_refl.
Qed.

Lemma held_trans P s1 s2 s3 : held P s1 s2 → held P s2 s3 → held P s1 s3.
Proof.
  intros (_ & L1 & F1) (Hwf & L2 & F2). split; [done|]. split; [congruence|]. by eapply writes_keep_trans.
Qed.

Lemma steady_bind P {A B} (m : M ControlState A) (f : A → M ControlState B) :
  steady P m → (∀ a, steady P (f a)) → steady P (m ≫= f).
Proof.
  intros Hm Hf s b s' Hwf (a & s1 & E1 & E2)%M_bind_Done. pose proof (Hm _ _ _ Hwf E1) as Hh.
  eapply held_trans; [exact Hh|]. eapply Hf; [apply Hh|done].
Qed.

Lemma steady_gates P {A} (m : M ControlState A) :
  (∀ s a s', runtime_wf (control_runtime s) → m s = (Done a, s') → same_gates s s') → steady P m.
Proof. intros Hm s a s' Hwf Hrun. apply held_same; [by eapply Hm|done]. Qed.

Lemma steady_mret P {A} (a : A) : steady P (mret a).
Proof. apply steady_gates. by intros s b s' _ [= _ <-]. Qed.
Lemma steady_panic P {A} : steady P (panic (A:=A)).
Proof. by intros s b s'. Qed.
Lemma steady_slot P id : steady P (control_slot id).
Proof. apply steady_gates. by intros s b s' _ [= _ <-]. Qed.
Lemma steady_get P : steady P get_state.
Proof. apply steady_gates. by intros s b s' _ [= _ <-]. Qed.
Lemma steady_send P operation new : steady P (send_replace operation new).
Proof. apply steady_gates. by intros s b s' _ [= _ <-]. Qed.
Lemma steady_status P id now : steady P (control_status id now).
Proof. apply steady_gates. by intros s b s' Hwf [? _]%control_status_done. Qed.
Lemma steady_ensure P id fresh now : steady P (ensure_drain_operation id fresh now).
Proof. apply steady_gates. intros s b s' Hwf Hrun. by eapply ensure_operation_gates. Qed.

Lemma steady_backend P {A} id (m : M BackendSlot A) : gate_only m → steady P (on_backend id m).
Proof.
  intros Hm s a s' Hwf [(_ & _ & ->)|(slot & b & slot' & Hs & Hrun & _ & Hrt & Hst)]%on_backend_done.
  { by apply held_same. }
  destruct (rw_registry _ Hwf id slot Hs) as [Hw _].
  destruct (Hm _ _ _ Hw Hrun) as [(Hsp & Hr & Hl & _) Hw'].
  unfold held, control_leases, control_slots. rewrite Hrt, Hst.
  split; [by eapply runtime_wf_with_slot|]. split; [|apply writes_keep_refl]. intros i. unfold leases_before. simpl.
  destruct (decide (id = i)) as [<-|Hne]; [|by rewrite lookup_insert_ne].
  rewrite lookup_insert_eq. unfold control_slots in Hs. by rewrite Hs.
Qed.

Lemma steady_store P faults id m now :
  (m = Active → ¬ P id) → steady P (on_store (set_mode faults id m now)).
Proof.
  intros Hm s a s' Hwf [Hrt Hrun]%on_store_done. unfold held, control_leases, control_slots. rewrite Hrt.
  split; [done|]. split; [done|]. by eapply set_mode_keeps.
Qed.

Lemma steady_close P faults id m now : m ≠ Active → steady P (on_store (set_mode faults id m now)).
Proof. intros Hm. by apply steady_store. Qed.

Lemma steady_open faults id now : steady (λ i, i ≠ id) (on_store (set_mode faults id Active now)).
Proof. apply steady_store. by intros _ []. Qed.

Hint Resolve steady_open steady_mret steady_panic steady_slot steady_get steady_send steady_status steady_ensure
  steady_backend steady_close gate_begin_drain gate_disable gate_activate : proxy.

Hint Extern 1 (_ ≠ Active) => discriminate : proxy.

(** Walk through a handler. *)
Ltac stay :=
  repeat first [solve [eauto with proxy] | apply steady_bind; [solve [stay]|intros ?]
               | case_bool_decide | case_match].

Lemma steady_begin_drain P id faults fresh now ux : steady P (Control.begin_drain id faults fresh now ux).
Proof. unfold Control.begin_drain. stay. Qed.

Lemma steady_disable P id force faults now ux : steady P (Control.disable id force faults now ux).
Proof. unfold Control.disable. stay. Qed.

Lemma steady_observe P operation now : steady P (drive_observe operation now).
Proof. unfold drive_observe. stay. Qed.

Lemma steady_confirm P operation observed faults now ux :
  steady P (drive_confirm operation observed faults now ux).
Proof. unfold drive_confirm. stay. Qed.

(** An activation lifts no other backend's fence. *)
Lemma steady_activate id faults rollback now ux :
  steady (λ i, i ≠ id) (Control.activate id faults rollback now ux).
Proof. unfold Control.activate. stay. Qed.

Lemma steady_resume P l now : steady P (resume_drains l now).
Proof. induction l as [|[id fresh] l IH]; simpl; [auto with proxy|]. by apply steady_bind; [auto with proxy|]. Qed.

Lemma steady_reload P loaded fresh now s r s' :
  runtime_wf (control_runtime s) →
  (∀ candidate, loaded = Ok candidate →
     NoDup (b_id <$> backends candidate) ∧ reload_room (control_runtime s) candidate) →
  reload loaded fresh now s = (Done r, s') → held P s s'.
Proof.
  intros Hwf Hroom. unfold reload, get_state, mbind at 1, M_mbind at 1.
  intros (report & s1 & Hre & Hrun)%M_bind_Done.
  assert (held P s s1) as Hh.
  { clear Hrun. unfold on_runtime, on_routing in Hre. destruct loaded as [candidate|e]; simpl in Hre.
    2:{ injection Hre as _ <-. by apply held_same. }
    destruct (Hroom candidate eq_refl) as [Hnd Hr]. unfold mbind, M_mbind in Hre.
    destruct (apply_with_modes _ _ _ _) as [[[rep|e]|] rt'] eqn:Happ; simpl in Hre; [| |done];
      injection Hre as _ <-.
    - apply apply_ok_reloaded in Happ; [|done..]. split; [apply Happ|]. split; [|apply writes_keep_refl].
      intros id. unfold control_leases, control_slots, control_runtime, leases_before. simpl.
      destruct (decide (id ∈ b_id <$> backends candidate)) as [Hin|Hout].
      + apply list_elem_of_fmap in Hin as (b & -> & Hb).
        destruct (rl_slots _ _ _ _ _ Happ b Hb) as (slot & -> & _ & _ & _ & ->). done.
      + rewrite (rl_absent _ _ _ _ _ Happ id Hout).
        destruct (registry _ !! id); simpl; [apply absent_slot_leases|done].
    - apply apply_refused_run in Happ as [-> _]. apply held_same; [|done]. by split; [by destruct s as [[]]|]. }
  eapply held_trans; [exact Hh|]. destruct Hh as [Hwf1 _]. revert Hwf1 Hrun.
  assert (steady P (match report with
    | Ok report => _ ← resume_persisted_drains fresh now; mret (Ok (reload_response report))
    | Err error => mret (Err (bad_request (RuntimeReloadError_display error))) end)) as Hs; [|apply Hs].
  unfold resume_persisted_drains. destruct report; [|auto with proxy].
  apply steady_bind; [|intros; auto with proxy]. apply steady_bind; [auto with proxy|].
  intros. apply steady_resume.
Qed.

(** The operator asked for the backend's activation, and that got to the fence file. *)
Definition asked (id : string) s s' : Prop :=
  (∃ faults rollback now ux r, Control.activate id faults rollback now ux s = (Done r, s'))
  ∧ state_store s' ≠ state_store s.

(** An operator's step moves no lease, and lifts no fence but by asking for that backend. *)
Lemma operator_held s s' id :
  control_inv s → operator_step s s' →
  (∀ i, control_leases s' i = control_leases s i)
  ∧ (writes_keep (λ i, i = id) (state_store s) (state_store s') ∨ asked id s s').
Proof.
  intros Hinv Hstep.
  assert (held (λ i, i = id) s s' → (∀ i, control_leases s' i = control_leases s i)
    ∧ (writes_keep (λ i, i = id) (state_store s) (state_store s') ∨ asked id s s')) as Hsame.
  { intros (_ & Hl & Hf). split; [done|by left]. }
  destruct Hstep as [i f fr now ux r Hrun|i f rb now ux r Hrun|i fo f now ux r Hrun|op now r Hrun
    |op st f now ux r Hrun|ld fr now r Hroom Hrun|inner' ->].
  - eapply Hsame, steady_begin_drain; [apply Hinv|done].
  - destruct (steady_activate i f rb now ux s r s') as (_ & Hl & pts & E & Hf); [apply Hinv|done|].
    split; [done|]. destruct (decide (id = i)) as [->|Hne].
    + destruct (decide (state_store s' = state_store s)) as [->|Hst]; [left; apply writes_keep_refl|right].
      split; [by exists f, rb, now, ux, r|done].
    + left. exists pts. split; [done|]. intros j ->. by apply Hf.
  - eapply Hsame, steady_disable; [apply Hinv|done].
  - eapply Hsame, steady_observe; [apply Hinv|done].
  - eapply Hsame, steady_confirm; [apply Hinv|done].
  - eapply Hsame, steady_reload; [apply Hinv|done..].
  - apply Hsame, held_same; [by split|apply Hinv].
Qed.
End Operator.
