(* ===== verification/Drain.v ===== *)
(** * Drains

    What a drain that reports [safe_to_stop] has established.  [Evidence]
    follows one backend's telemetry through the worker's cycles: the idle
    evidence of a status can only come from two observations of an idle engine
    whose scrapes both began after the drain.  [Certification] describes the
    two halves of the drain task on every branch, and the start of a drain. *)

From S2P Require Import Prelude RustStd Float64 Telemetry Backend Runtime Routing Circuit Health Selection Disk BackendState Control Fences.

(** ** The evidence of an idle engine *)

(** One cycle of the telemetry worker for one backend: the worker begins no scrape of it before
    the previous one was recorded. *)
Record Cycle := mkCycle {
  cy_dispatches : N;
  cy_begun : N;
  cy_result : result string MistralRsMetrics;
  cy_recorded : N;
}.

Definition cycle_run (generation : N) (c : Cycle) : M LiveBackend () :=
  scrape ← live_begin_scrape generation (cy_dispatches c) (cy_begun c);
  match scrape, cy_result c with
  | Some scrape, Ok m => live_metrics_success generation m scrape (cy_recorded c)
  | Some scrape, Err error =>
      live_metrics_failure generation (ctx_serial scrape) error (cy_recorded c)
  | None, _ => mret ()
  end.

(** The cycle saw the engine with nothing running and nothing waiting. *)
Definition saw_idle (c : Cycle) : bool :=
  match cy_result c with
  | Ok m => (sequences_running m =? 0)%N && (sequences_waiting m =? 0)%N
  | Err _ => false
  end.

(** Cycles, then perhaps a scrape that has begun and is not recorded yet. *)
Definition cycles_run (generation : N) (l : list Cycle) (outstanding : option (N * N)) :
    M LiveBackend () :=
  _ ← for_each l (cycle_run generation);
  match outstanding with
  | Some (dispatches, begun) => _ ← live_begin_scrape generation dispatches begun; mret ()
  | None => mret ()
  end.

Definition cycled (generation : N) (l : list Cycle) (live : LiveBackend) : Prop :=
  topology_generation live = generation
  ∧ metrics_scrapes_started live = N.of_nat (length l)
  ∧ metrics_last_completed_scrape live = N.of_nat (length l)
  ∧ engine_idle_streak live = N.min U64_MAX (run_of saw_idle (rev l))
  ∧ ∀ c k m, rev l = c :: k → cy_result c = Ok m →
      ∃ obs, metrics live = Some obs ∧ scrape_serial obs = N.of_nat (length l)
             ∧ observed_at obs = cy_begun c.

Lemma cycled_step generation l c live :
  (N.of_nat (length l) < U64_MAX)%N → cycled generation l live →
  ∃ live', cycle_run generation c live = (Done (), live') ∧ cycled generation (l ++ [c]) live'.
Proof.
  unfold cycled. rewrite rev_app_distr, length_app. simpl. rewrite run_of_cons.
  intros Hb (Hg & Hs & Hl & Hi & _). destruct live; simpl in Hg, Hs, Hl, Hi; subst.
  replace (N.of_nat (length l + 1)) with (N.of_nat (length l) + 1)%N by lia.
  assert (∀ n, (n + 1 <=? n)%N = false) as Hn by (intros n; apply N.leb_gt; lia).
  unfold saw_idle, cycle_run. destruct c as [d b [m|e] n]; run_live; rsimpl; rewrite N.eqb_refl; simpl;
    no_overflow; rsimpl; rewrite N.eqb_refl; simpl; rewrite Hn; simpl.
  - destruct (tokens_processed_total m), (prefill_tokens_processed_total m),
      (decode_tokens_processed_total m); rsimpl; (eexists; split; [reflexivity|]); simpl;
      rewrite saturated_streak; (split_and!; try done; [by destruct (_ && _)|]);
      intros c k m' [= <- <-]; simpl; intros [= <-]; by eexists.
  - eexists; split; [reflexivity|]. rsimpl. split_and!; try done.
    by intros c k m' [= <- <-].
Qed.

Lemma cycles_recorded generation l :
  (N.of_nat (length l) ≤ U64_MAX)%N →
  ∃ live, for_each l (cycle_run generation) (LiveBackend_new generation) = (Done (), live)
          ∧ cycled generation l live.
Proof.
  induction l as [|c l IH] using rev_ind.
  { intros _. eexists. split; [reflexivity|]. split_and!; try done. }
  rewrite length_app. simpl. intros Hb. destruct IH as (live & Hrun & Hc); [lia|].
  destruct (cycled_step generation l c live) as (live' & Hstep & Hc'); [lia|done|].
  exists live'. split; [|done]. rewrite (for_each_app _ _ _ _ live) by done.
  simpl. unfold mbind, M_mbind. by rewrite Hstep.
Qed.

(** Two or more leading elements with the property. *)
Lemma run_of_two {A} (p : A → bool) l :
  (2 ≤ run_of p l)%N → ∃ x y l', l = x :: y :: l' ∧ p x = true ∧ p y = true.
Proof.
  destruct l as [|x [|y l]]; rewrite ?run_of_cons.
  - unfold run_of. simpl. lia.
  - destruct (p x); unfold run_of; simpl; lia.
  - destruct (p x) eqn:Ex, (p y) eqn:Ey; try lia. intros _. by exists x, y, l.
Qed.

(** The evidence, from the record of a backend that went through those cycles. *)
Lemma cycles_evidence {Uri} (l : list Cycle) (live : LiveBackend) (operation : DrainOperation)
    (snap : BackendSnapshot) (config : Backend (Uri:=Uri)) (print : UriOps Uri) (now stale_after : N) (limit : f64) :
  engine_idle_streak live = N.min U64_MAX (run_of saw_idle (rev l)) →
  (∀ c k m, rev l = c :: k → cy_result c = Ok m →
      ∃ obs, metrics live = Some obs ∧ scrape_serial obs = N.of_nat (length l)
             ∧ observed_at obs = cy_begun c) →
  idle_evidence operation (status_snapshot snap live config now stale_after limit) = true →
  ∃ l0 c1 c2, l = l0 ++ [c1; c2] ∧ saw_idle c1 = true ∧ saw_idle c2 = true
    ∧ (metrics_scrapes_started_at_start operation ≤ N.of_nat (length l0))%N
    ∧ (now - cy_begun c2 ≤ stale_after)%N.
Proof.
  intros Hi Hobs. unfold idle_evidence, status_snapshot. cbn [st_metrics_observation_serial
    st_engine_idle_streak st_telemetry st_running st_waiting]. rewrite Hi. intros He.
  apply andb_true_iff in He as [He H2%N.leb_le]. apply andb_true_iff in He as [He _].
  apply andb_true_iff in He as [Hf%bool_decide_eq_true _].
  destruct (run_of_two saw_idle (rev l)) as (c2 & c1 & k & Hrev & Hc2 & Hc1); [lia|].
  assert (l = rev k ++ [c1; c2]) as Hl.
  { rewrite <- (rev_involutive l), Hrev. simpl. by rewrite <- app_assoc. }
  pose proof Hc2 as Hm. unfold saw_idle in Hm. destruct (cy_result c2) as [m|] eqn:Em; [|done].
  destruct (Hobs c2 _ m Hrev Em) as (obs & Eobs & Hser & Hat). rewrite Eobs in *.
  exists (rev k), c1, c2. split_and!; try done.
  - assert (length l = (length (rev k) + 2)%nat) as Hlen by (rewrite Hl at 1; by rewrite length_app).
    rewrite Hser, Hlen in H2. lia.
  - destruct (now - observed_at obs <=? stale_after)%N eqn:Ef; [|done]. apply N.leb_le in Ef. by rewrite <- Hat.
Qed.

(** What the idle evidence of a drain is worth.  Take a backend through any number of the
    telemetry worker's cycles, perhaps with one more scrape under way, and a drain that began
    when [started] scrapes had begun.  If the status at that point is evidence of an idle
    engine for that drain, then the last two cycles both observed an engine with nothing
    running and nothing waiting, both of those scrapes began after the drain did, and the
    last of them is no older than the freshness limit. *)
Theorem drain_evidence {Uri} (generation : N) (l : list Cycle) (outstanding : option (N * N))
    (operation : DrainOperation) (snap : BackendSnapshot) (config : Backend (Uri:=Uri))
    (print : UriOps Uri) (now stale_after : N) (limit : f64) :
  (N.of_nat (length l) < U64_MAX)%N →
  ∃ live, cycles_run generation l outstanding (LiveBackend_new generation) = (Done (), live)
    ∧ (idle_evidence operation (status_snapshot snap live config now stale_after limit) = true →
       ∃ l0 c1 c2, l = l0 ++ [c1; c2] ∧ saw_idle c1 = true ∧ saw_idle c2 = true
         ∧ (metrics_scrapes_started_at_start operation ≤ N.of_nat (length l0))%N
         ∧ (now - cy_begun c2 ≤ stale_after)%N).
Proof.
  intros Hb. destruct (cycles_recorded generation l) as (live & Hrun & Hc); [lia|].
  assert (∃ live', cycles_run generation l outstanding (LiveBackend_new generation) = (Done (), live')
    ∧ metrics live' = metrics live ∧ engine_idle_streak live' = engine_idle_streak live)
    as (live' & Hrun' & Hm' & Hi').
  { unfold cycles_run, mbind, M_mbind. rewrite Hrun. destruct outstanding as [[d b]|]; [|by eexists].
    destruct Hc as (Hg & Hs & _). destruct live; simpl in Hg, Hs; subst. run_live. simpl.
    rewrite N.eqb_refl. simpl. no_overflow. eexists. by split_and!. }
  exists live'. split; [done|]. destruct Hc as (_ & _ & _ & Hi & Hobs). apply cycles_evidence.
  - by rewrite Hi'.
  - by rewrite Hm'.
Qed.

(** ** Certification *)

(** The leading mode change of [enter_mode], with the value it returns. *)
Lemma begin_drain_run s k :
  slot_wf s → registered (state s) = true → slot_room (k + 1) s →
  ∃ tok s', Backend.begin_drain s = (Done tok, s') ∧ mode (state s') = Draining
    ∧ same_membership s s' ∧ (mode (state s) = Draining → s' = s) ∧ slot_wf s' ∧ slot_room k s'.
Proof.
  intros Hw Hr Hk. destruct (enter_mode_run Draining 0 s k Hw Hr Hk) as (s' & Hrun & H).
  cbn [enter_mode] in Hrun. apply M_bind_Done in Hrun as (tok & s1 & Hrun & [= <-]). by exists tok, s1.
Qed.

Lemma disable_run now s k :
  slot_wf s → registered (state s) = true → slot_room (k + 1) s →
  ∃ a s', Backend.disable now s = (Done a, s') ∧ mode (state s') = Disabled
    ∧ same_membership s s' ∧ slot_wf s' ∧ slot_room k s'.
Proof.
  intros Hw Hr Hk. destruct (enter_mode_run Disabled now s k Hw Hr Hk) as (s' & Hrun & H).
  cbn [enter_mode] in Hrun. apply M_bind_Done in Hrun as (a & s1 & Hrun & [= <-]).
  exists a, s1. naive_solver.
Qed.

Section Certification.
Context {Uri : Type} `{UriOps Uri} `{JsonLaws StateFile}.
Implicit Types (s : ControlState (Uri:=Uri)) (operation : DrainOperation).

(** The same control plane with one slot replaced. *)
Definition put_slot s (id : string) (slot : BackendSlot) : ControlState :=
  {| c_routing := {| Routing.runtime := with_slot (control_runtime s) id slot;
                     inner := inner (c_routing s) |};
     state_store := state_store s;
     operations := operations s |}.

Definition put_store s (store : BackendStateStore) : ControlState :=
  {| c_routing := c_routing s; state_store := store; operations := operations s |}.

(** The backend's counters are not about to overflow. *)
Definition gate_room s (id : string) : Prop :=
  ∀ slot, control_slots s !! id = Some slot → slot_room 2 slot.

Lemma on_backend_run {A} id (m : M BackendSlot A) s slot b slot' :
  control_slots s !! id = Some slot → m slot = (Done b, slot') →
  on_backend id m s = (Done (Some b), put_slot s id slot').
Proof.
  unfold on_backend, on_routing, on_backends, on_registry, on_slot, control_slots, control_runtime,
    put_slot, with_slot. destruct s as [[[pub reg] inn] st ops]. simpl. intros -> Hm. simpl.
  by rewrite Hm.
Qed.

Lemma on_store_run {A} (m : M BackendStateStore A) s a st' :
  m (state_store s) = (Done a, st') → on_store m s = (Done a, put_store s st').
Proof. unfold on_store, put_store. by intros ->. Qed.

Lemma control_status_run id now s :
  runtime_wf (control_runtime s) →
  ∃ r s1, control_status id now s = (Done r, s1) ∧ same_gates s s1 ∧ operations s1 = operations s
    ∧ match r with
      | Some st => reports (c_routing s) id now st
      | None => registry_get (control_slots s) id = None
      end.
Proof.
  intros Hwf. destruct (status_run (c_routing s) id now Hwf) as (r & s1 & Hrun & Hrt & _ & Hr).
  unfold control_status, on_routing. rewrite Hrun. eexists _, _. split; [reflexivity|].
  split; [by split|]. by split.
Qed.

Lemma set_mode_total faults id m now (store : BackendStateStore) :
  state_valid (store_state store) → m = Active ∨ id ≠ "" →
  ∃ r store', set_mode faults id m now store = (Done r, store')
    ∧ store_state store' = (if is_ok r then with_mode id m now (store_state store)
                            else store_state store)
    ∧ (is_ok r = false → ∃ step, is_Some (fault faults step))
    ∧ (is_ok r = true → in_sync store').
Proof.
  intros Hv Hid. destruct (json_total (with_mode id m now (store_state store))) as [json Hj].
  destruct (set_mode_run faults id m now store json Hv Hid Hj) as (r & d' & Hrun & _ & Hr).
  pose proof (with_mode_valid id m now _ Hv Hid) as Hv'.
  eexists _, _. split; [exact Hrun|]. split; [done|]. destruct r as [u|e].
  { split; [done|]. intros _. split; [done|]. simpl. unfold read_target. destruct Hr as [-> _]. by apply load_saved. }
  split; [|done]. intros _. destruct Hr as [[Hf _]|[Hf _]]; [|by eexists].
  unfold before_rename in Hf. naive_solver.
Qed.

(** A registered backend has a name when it has a fence. *)
Lemma fenced_named s id slot :
  control_inv s → control_slots s !! id = Some slot → registered (state slot) = true →
  mode (state slot) ≠ Active → id ≠ "".
Proof.
  intros [_ [_ Hv] Hf] Hs Hr Hm. specialize (Hf id slot Hs Hr). unfold modes in Hf.
  rewrite lookup_fmap in Hf. destruct (stored _ !! id) as [b|] eqn:E; [by apply (Hv id b)|].
  by destruct (mode (state slot)).
Qed.

(** What the report says of the gate is the gate's. *)
Lemma reports_gate (s : RoutingState (Uri:=Uri)) id now st :
  reports s id now st →
  ∃ slot, slots_of s !! id = Some slot ∧ registered (state slot) = true
    ∧ st_mode st = mode (state slot)
    ∧ st_proxy_active st = N.of_nat (length (leases (state slot))).
Proof. intros (slot & b & live & Hs & Hr & _ & _ & _ & ->). by exists slot. Qed.

(** The drain may be certified on this status. *)
Definition certifiable operation (st : BackendStatusSnapshot) : bool :=
  bool_decide (st_mode st = Draining) && (st_proxy_active st =? 0)%N && idle_evidence operation st.

Lemma not_certifiable operation st :
  bool_decide (st_mode st ≠ Draining) || negb (st_proxy_active st =? 0)%N
    || negb (idle_evidence operation st) = negb (certifiable operation st).
Proof.
  unfold certifiable. rewrite !negb_andb. f_equal. f_equal.
  by destruct (st_mode st).
Qed.

(** The progress an operation shows after a step. *)
Definition shows s s' operation (p : DrainProgress) : Prop :=
  operations s' = alter (λ o, o <| progress := p |>) (op_id operation) (operations s).

(** What a confirmed drain does once its fence is recorded. *)
Lemma close_run operation confirmed now s slot :
  let id := op_backend_id operation in
  runtime_wf (control_runtime s) → control_slots s !! id = Some slot →
  registered (state slot) = true → slot_room 2 slot →
  ∃ s' slot' p,
    (found ← control_slot id;
     _ ← match found with
         | Some _ => _ ← on_backend id (Backend.disable now); mret ()
         | None => mret ()
         end;
     final ← control_status id now;
     _ ← send_replace operation
           (progress_from_status operation (default confirmed final) PhaseComplete true
              (Some "proxy and engine are idle") now);
     mret DriveReturn) s = (Done DriveReturn, s')
    ∧ shows s s' operation p ∧ safe_to_stop p = true ∧ phase p = PhaseComplete
    ∧ control_slots s' !! id = Some slot' ∧ mode (state slot') = Disabled
    ∧ leases (state slot') = leases (state slot) ∧ state_store s' = state_store s.
Proof.
  intros id Hwf Hslot Hreg Hroom.
  destruct (disable_run now slot 1) as (a & slot' & Hdis & Hm & (Hsp & Hr & Hl & _) & Hw & _);
    [by apply (rw_registry _ Hwf id)|done|done|].
  assert (runtime_wf (control_runtime (put_slot s id slot'))) as Hwf'
    by by eapply runtime_wf_with_slot.
  destruct (control_status_run id now _ Hwf') as (final & s2 & Hst & [Hg1 Hg2] & Hops & _).
  eexists _, slot', _. split.
  - assert (registry_get (registry (control_runtime s)) id = Some slot) as Hget
      by by apply registry_get_spec.
    cbv [mbind M_mbind control_slot gets]. fold (control_runtime s). rewrite Hget.
    rewrite (on_backend_run _ _ _ _ _ _ Hslot Hdis). cbn. rewrite Hst.
    unfold send_replace, modify. cbn. reflexivity.
  - split; [unfold shows; cbn; by rewrite Hops|]. split_and!; try done. unfold control_slots, control_runtime in *. simpl in *. rewrite Hg1. apply lookup_insert_eq.
Qed.

(** The confirmation, on every branch. *)
Lemma confirm_run s operation observed faults now unix_ms :
  control_inv s → gate_room s (op_backend_id operation) →
  let id := op_backend_id operation in
  ∃ report s1 next s', control_status id now s = (Done report, s1)
    ∧ drive_confirm operation observed faults now unix_ms s = (Done next, s')
    ∧ if match report with Some st => certifiable operation st | None => false end
      then next = DriveReturn
        ∧ ∃ slot p, control_slots s !! id = Some slot ∧ mode (state slot) = Draining
          ∧ leases (state slot) = [] ∧ shows s s' operation p
          ∧ if safe_to_stop p
            then phase p = PhaseComplete
              ∧ (∃ slot', control_slots s' !! id = Some slot' ∧ mode (state slot') = Disabled
                          ∧ leases (state slot') = [])
              ∧ modes (state_store s') = <[id := Disabled]> (modes (state_store s))
              ∧ in_sync (state_store s')
            else phase p = PhaseFailed ∧ control_runtime s' = control_runtime s
              ∧ modes (state_store s') = modes (state_store s)
              ∧ ∃ step, is_Some (fault faults step)
      else next = DriveContinue ∧ same_gates s s' ∧ operations s' = operations s.
Proof.
  intros Hinv Hroom id. destruct (control_status_run id now s) as (report & s1 & Hst & Hg & Hops & Hrep);
    [apply Hinv|].
  exists report, s1. unfold drive_confirm. fold id.
  destruct report as [st|].
  2:{ eexists _, _. split; [exact Hst|]. split; [|done]. unfold mbind, M_mbind. by rewrite Hst. }
  destruct (certifiable operation st) eqn:Ec.
  2:{ eexists _, _. split; [exact Hst|]. split; [|done]. unfold mbind, M_mbind. rewrite Hst.
      by rewrite not_certifiable, Ec. }
  pose proof Ec as Hc. unfold certifiable in Hc. apply andb_true_iff in Hc as [[Hm Hp]%andb_true_iff _].
  apply bool_decide_eq_true in Hm. apply N.eqb_eq in Hp.
  destruct (reports_gate _ _ _ _ Hrep) as (slot & Hslot & Hreg & Hms & Hps).
  rewrite Hms in Hm. rewrite Hps in Hp. assert (leases (state slot) = []) as Hl
    by (destruct (leases (state slot)); [done|simpl in Hp; lia]).
  assert (id ≠ "") as Hid by (eapply fenced_named; [exact Hinv|done|done|by rewrite Hm]).
  assert (control_inv s1) as Hinv1 by by eapply inv_same_gates.
  destruct Hg as [Hg1 Hg2].
  destruct (set_mode_total faults id Disabled unix_ms (state_store s1)) as (r & st' & Hset & Hst' & Hf & Hsync);
    [apply Hinv1|by right|].
  apply on_store_run in Hset.
  cbv [mbind M_mbind]. destruct r as [[]|e]; simpl in *.
  - destruct (close_run operation st now (put_store s1 st') slot) as (s' & slot' & p & Hrun & Hsh & Hsafe
      & Hph & Hs' & Hm' & Hl' & Hst'').
    + apply Hinv1.
    + unfold control_slots, control_runtime in *. simpl. by rewrite Hg1.
    + done.
    + by apply Hroom.
    + exists DriveReturn, s'. split; [exact Hst|]. rewrite Hst, not_certifiable, Ec. simpl.
      rewrite Hset. split; [exact Hrun|]. split; [done|]. exists slot, p. split_and!; try done.
      * unfold shows in *. simpl in Hsh. by rewrite Hsh, Hops.
      * rewrite Hsafe. split; [done|]. split; [exists slot'; split_and!; [exact Hs'|exact Hm'|by rewrite Hl']|].
        rewrite Hst''. split; [|by apply Hsync].
        unfold modes. rewrite <- Hg2. simpl. rewrite Hst'. simpl. by rewrite fmap_insert.
  - eexists DriveReturn, _. split; [exact Hst|]. rewrite Hst, not_certifiable, Ec. simpl.
    rewrite Hset. split; [reflexivity|]. split; [done|]. eexists slot, _. split_and!; try done.
    + unfold shows. simpl. by rewrite Hops.
    + simpl. split_and!; [done|exact Hg1| |by apply Hf]. unfold modes. simpl. by rewrite Hst', <- Hg2.
Qed.

(** C13: what [safe_to_stop] certifies.  The confirmation of a drain always finishes.  It acts
    exactly when the backend's report at that moment shows a closed, empty gate and the idle
    evidence of the engine.  Then the drain is complete and safe, with the gate disabled, still
    empty and the disabled fence recorded, in memory and in the file; or a storage fault kept the fence from being
    recorded, and the drain failed, unsafe, with gate and fences as they were.  Otherwise
    nothing changes and the task goes round again. *)
Theorem drain_certified s operation observed faults now unix_ms :
  control_inv s → gate_room s (op_backend_id operation) →
  let id := op_backend_id operation in
  ∃ report s1 next s', control_status id now s = (Done report, s1)
    ∧ drive_confirm operation observed faults now unix_ms s = (Done next, s')
    ∧ if match report with Some st => certifiable operation st | None => false end
      then next = DriveReturn
        ∧ ∃ slot p, control_slots s !! id = Some slot ∧ mode (state slot) = Draining
          ∧ leases (state slot) = [] ∧ shows s s' operation p
          ∧ if safe_to_stop p
            then phase p = PhaseComplete
              ∧ (∃ slot', control_slots s' !! id = Some slot' ∧ mode (state slot') = Disabled
                          ∧ leases (state slot') = [])
              ∧ modes (state_store s') = <[id := Disabled]> (modes (state_store s))
              ∧ in_sync (state_store s')
            else phase p = PhaseFailed ∧ control_runtime s' = control_runtime s
              ∧ modes (state_store s') = modes (state_store s)
              ∧ ∃ step, is_Some (fault faults step)
      else next = DriveContinue ∧ same_gates s s' ∧ operations s' = operations s.
Proof. apply confirm_run. Qed.

(** *** The start of a drain *)

Lemma activate_run now slot k :
  slot_wf slot → registered (state slot) = true → slot_room (k + 1) slot →
  ∃ a slot', Backend.activate now slot = (Done a, slot') ∧ mode (state slot') = Active
    ∧ same_membership slot slot' ∧ slot_wf slot'.
Proof.
  intros Hw Hr Hk. destruct (enter_mode_run Active now slot k Hw Hr Hk) as (s' & Hrun & H2).
  cbn [enter_mode] in Hrun. apply M_bind_Done in Hrun as (a & s1 & Hrun & Hex).
  destruct a as [a|e]; [|done]. injection Hex as <-. exists (Ok a), s1. naive_solver.
Qed.

(** Reopening or disabling the gate a failed drain had closed. *)
Lemma rollback_run id now s slot m :
  m ≠ Draining → control_slots s !! id = Some slot → slot_wf slot →
  registered (state slot) = true → slot_room 1 slot →
  ∃ slot', match m with
    | Active => _ ← on_backend id (Backend.activate now); mret ()
    | Disabled => _ ← on_backend id (Backend.disable now); mret ()
    | Draining => panic
    end s = (Done (), put_slot s id slot')
    ∧ mode (state slot') = m ∧ same_membership slot slot'.
Proof.
  intros Hm Hs Hw Hr Hroom. destruct m; [|done|].
  - destruct (activate_run now slot 0 Hw Hr Hroom) as (a & slot' & Hrun & Hm' & Hsame & _).
    exists slot'. cbv [mbind M_mbind]. by rewrite (on_backend_run _ _ _ _ _ _ Hs Hrun).
  - destruct (disable_run now slot 0 Hw Hr Hroom) as (a & slot' & Hrun & Hm' & Hsame & _).
    exists slot'. cbv [mbind M_mbind]. by rewrite (on_backend_run _ _ _ _ _ _ Hs Hrun).
Qed.

(** The operation a drain reports: the one under way, or a new one. *)
Definition operation_for (ops ops' : gmap Uuid DrainOperation) (id : string) (fresh : Uuid)
    operation : Prop :=
  drains id operation = true
  ∧ ((ops' = ops ∧ ∃ k, ops !! k = Some operation)
     ∨ (ops' = <[fresh := operation]> ops ∧ op_id operation = fresh
        ∧ ∀ k o, ops !! k = Some o → drains id o = false)).

Lemma ensure_operation_run id fresh now s :
  runtime_wf (control_runtime s) →
  ∃ operation s', ensure_drain_operation id fresh now s = (Done operation, s')
    ∧ same_gates s s' ∧ operation_for (operations s) (operations s') id fresh operation.
Proof.
  intros Hwf. unfold ensure_drain_operation, get_state, mbind at 1, M_mbind at 1.
  destruct (head _) as [o|] eqn:Eh.
  - apply keep_first in Eh as (l1 & l2 & El & Hd & _). exists o, s. split; [done|]. split; [done|].
    split; [done|]. left. split; [done|].
    assert (o ∈ (map_to_list (operations s)).*2) as Ho by (rewrite El; apply elem_of_app; right; left).
    apply list_elem_of_fmap in Ho as ([k o'] & -> & Hk%elem_of_map_to_list). by exists k.
  - destruct (control_status_run id now s Hwf) as (r & s1 & Hst & Hg & Hops & _).
    eexists _, _. cbv [mbind M_mbind]. rewrite Hst. cbn. split; [reflexivity|].
    split; [exact Hg|]. rewrite Hops. split; [unfold drains; cbn; by rewrite !bool_decide_true by done|].
    right. split; [done|]. split; [done|]. intros k o Ho.
    destruct (drains id o) eqn:Ed; [|done]. exfalso.
    assert (keep (drains id) ((map_to_list (operations s)).*2) = []) as Hk
      by by destruct (keep _ _).
    apply (proj1 (keep_none _ _)) with (x := o) in Hk; [congruence|].
    apply list_elem_of_fmap. exists (k, o). split; [done|]. by apply elem_of_map_to_list.
Qed.

(** Recording the draining fence, unless the gate was already draining. *)
Lemma persist_fence_run id faults unix_ms s s1 slot :
  control_inv s → control_slots s !! id = Some slot → registered (state slot) = true → id ≠ "" →
  state_store s1 = state_store s →
  ∃ p st2, (if bool_decide (mode (state slot) ≠ Draining)
            then on_store (set_mode faults id Draining unix_ms) else mret (Ok ())) s1
      = (Done p, put_store s1 st2)
    ∧ modes st2 = (if is_ok p then <[id := Draining]> (modes (state_store s))
                   else modes (state_store s))
    ∧ (is_ok p = false → mode (state slot) ≠ Draining ∧ ∃ step, is_Some (fault faults step)).
Proof.
  intros Hinv Hslot Hreg Hid Hst. case_bool_decide as Hm.
  - destruct (set_mode_total faults id Draining unix_ms (state_store s1)) as (r & st' & Hset & Hst' & Hf & _).
    + rewrite Hst. apply Hinv.
    + by right.
    + exists r, st'. split; [by apply on_store_run|]. split; [|intros Hr; by split; [|apply Hf]].
      unfold modes. rewrite Hst', Hst. destruct r; simpl; [by rewrite fmap_insert|done].
  - exists (Ok ()), (state_store s1). split; [by destruct s1|]. simpl. split; [|done]. rewrite Hst.
    apply map_eq. intros i. destruct (decide (i = id)) as [->|Hne].
    + rewrite lookup_insert_eq, (ci_fenced _ Hinv id slot Hslot Hreg).
      by destruct (mode (state slot)); try (exfalso; by apply Hm).
    + by rewrite lookup_insert_ne by done.
Qed.

(** Starting a drain.  [begin_drain] always finishes.  An unknown backend is a 404 that
    changes nothing.  A drain that started has closed the gate with every lease kept, recorded
    the fence, and reports the drain of that backend already under way or, when there is none, a
    new one under the fresh id.  A storage fault is a 500 that puts the gate back to the mode it
    had, keeps every lease and fence, and starts no operation. *)
Theorem drain_started s id faults fresh now unix_ms :
  control_inv s → id ≠ "" → gate_room s id →
  ∃ r s', Control.begin_drain id faults fresh now unix_ms s = (Done r, s')
    ∧ match r with
      | Ok operation => ∃ slot slot',
          control_slots s !! id = Some slot ∧ control_slots s' !! id = Some slot'
          ∧ mode (state slot') = Draining ∧ leases (state slot') = leases (state slot)
          ∧ modes (state_store s') = <[id := Draining]> (modes (state_store s))
          ∧ operation_for (operations s) (operations s') id fresh operation
      | Err e =>
          (ce_status e = 404%N ∧ registry_get (control_slots s) id = None ∧ s' = s)
          ∨ (ce_status e = 500%N ∧ (∃ step, is_Some (fault faults step))
             ∧ (∃ slot slot', control_slots s !! id = Some slot ∧ control_slots s' !! id = Some slot'
                ∧ mode (state slot') = mode (state slot)
                ∧ leases (state slot') = leases (state slot))
             ∧ modes (state_store s') = modes (state_store s) ∧ operations s' = operations s)
      end.
Proof.
  intros Hinv Hid Hroom. unfold Control.begin_drain.
  cbv [mbind M_mbind control_slot gets]. fold (control_runtime s). fold (control_slots s).
  destruct (registry_get (control_slots s) id) as [slot|] eqn:Hget;
    [|eexists _, s; split; [reflexivity|]; by left].
  apply registry_get_spec in Hget as [Hslot Hreg]. pose proof (Hroom slot Hslot) as Hr2.
  assert (slot_wf slot) as Hw by by apply (rw_registry _ (ci_runtime _ Hinv) id).
  destruct (begin_drain_run slot 1 Hw Hreg Hr2) as (tok & slot1 & Hrun & Hm1 & Hsame & Hstill & Hw1 & Hr1).
  pose proof Hsame as (Hsp1 & Hreg1 & Hl1 & _). rewrite Hreg in Hreg1.
  rewrite (on_backend_run _ _ _ _ _ _ Hslot Hrun).
  set (s1 := put_slot s id slot1). change (snap_mode _) with (mode (state slot)).
  assert (runtime_wf (control_runtime s1)) as Hwf1.
  { eapply runtime_wf_with_slot; try done; [apply Hinv|congruence]. }
  assert (control_slots s1 !! id = Some slot1) as Hs1 by apply lookup_insert_eq.
  assert (∃ p st2, (if bool_decide (mode (state slot) ≠ Draining)
                    then on_store (set_mode faults id Draining unix_ms) else mret (Ok ())) s1
            = (Done p, put_store s1 st2)
          ∧ modes st2 = (if is_ok p then <[id := Draining]> (modes (state_store s))
                         else modes (state_store s))
          ∧ (is_ok p = false → mode (state slot) ≠ Draining ∧ ∃ step, is_Some (fault faults step)))
    as (p & st2 & Hpers & Hmodes & Hfault).
  { by apply persist_fence_run. }
  cbv [mbind M_mbind] in Hpers. rewrite Hpers. destruct p as [[]|e]; simpl in Hmodes.
  - destruct (ensure_operation_run id fresh now (put_store s1 st2) Hwf1) as (operation & s3 & Hens & Hg3 & Hop).
    rewrite Hens. eexists _, s3. split; [reflexivity|]. destruct Hg3 as [Hg3 Hg4].
    exists slot, slot1. split_and!; try done.
    + unfold control_slots. rewrite Hg3. apply Hs1.
    + by rewrite Hg4.
  - destruct (Hfault eq_refl) as [Hnd Hstep].
    destruct (rollback_run id now (put_store s1 st2) slot1 (mode (state slot))) as (slot2 & Hroll & Hm2 & Hsame2);
      try done.
    cbv [mbind M_mbind] in Hroll. rewrite Hroll. eexists _, _. split; [reflexivity|]. right.
    split_and!; try done. exists slot, slot2. split_and!; try done.
    + unfold control_slots. simpl. apply lookup_insert_eq.
    + destruct Hsame2 as (_ & _ & Hl2 & _). congruence.
Qed.
End Certification.

(** ** The book of drain operations

    The abstract view of the operations: whose drain each is, and its phase.
    A drain may be entered when none of that backend is under way, and may
    end once. *)

Notation Book := (gmap Uuid (string * DrainPhase)).

Inductive book_step (b b' : Book) : Prop :=
| book_enter k id :
    b !! k = None → (∀ k', b !! k' ≠ Some (id, PhaseDraining)) →
    b' = <[k := (id, PhaseDraining)]> b → book_step b b'
| book_end k id p :
    b !! k = Some (id, PhaseDraining) → p ≠ PhaseDraining → b' = <[k := (id, p)]> b → book_step b b'.

(** At most one drain of a backend is under way. *)
Definition one_running (b : Book) : Prop :=
  ∀ k1 k2 id, b !! k1 = Some (id, PhaseDraining) → b !! k2 = Some (id, PhaseDraining) → k1 = k2.

Lemma book_step_one b b' : book_step b b' → one_running b → one_running b'.
Proof.
  intros [k id Hk Hno ->|k id p Hk Hp ->] Hone k1 k2 i H1 H2.
  - apply lookup_insert_Some in H1 as [[? E1]|[? H1]]; apply lookup_insert_Some in H2 as [[? E2]|[? H2]];
      simplify_eq; [done| | |by eapply Hone].
    + by destruct (Hno k2).
    + by destruct (Hno k1).
  - apply lookup_insert_Some in H1 as [[? E1]|[? H1]]; apply lookup_insert_Some in H2 as [[? E2]|[? H2]];
      simplify_eq. by eapply Hone.
Qed.

(** An ended drain stays as it ended. *)
Lemma book_step_ended b b' k e :
  book_step b b' → b !! k = Some e → e.2 ≠ PhaseDraining → b' !! k = Some e.
Proof.
  intros [k' id Hk Hno ->|k' id p Hk Hp ->] He Hd.
  - rewrite lookup_insert_ne; [done|]. intros ->. congruence.
  - rewrite lookup_insert_ne; [done|]. intros ->. rewrite Hk in He. by injection He as <-.
Qed.

Section Operations.
Context {Uri : Type} `{UriOps Uri} `{JsonOps StateFile}.
Implicit Types (s : ControlState (Uri:=Uri)) (operation : DrainOperation).

Definition book s : Book := (λ o, (op_backend_id o, phase (progress o))) <$> operations s.

(** Each operation is filed under its id, and safe exactly when complete. *)
Definition filed (ops : gmap Uuid DrainOperation) : Prop :=
  map_Forall (λ k o, op_id o = k
    ∧ safe_to_stop (progress o) = bool_decide (phase (progress o) = PhaseComplete)) ops.

(** Steps of the control plane; a drain task is at work while its operation is draining, and
    new operations get ids that are not in use. *)
Inductive task_step s s' : Prop :=
| task_begin id faults fresh now unix_ms r :
    operations s !! fresh = None →
    Control.begin_drain id faults fresh now unix_ms s = (Done r, s') → task_step s s'
| task_activate id faults rollback now unix_ms r :
    Control.activate id faults rollback now unix_ms s = (Done r, s') → task_step s s'
| task_disable id force faults now unix_ms r :
    Control.disable id force faults now unix_ms s = (Done r, s') → task_step s s'
| task_reload loaded fresh now r :
    (∀ id, operations s !! fresh id = None) → Inj (=) (=) fresh →
    reload loaded fresh now s = (Done r, s') → task_step s s'
| task_observe k operation now r :
    operations s !! k = Some operation → phase (progress operation) = PhaseDraining →
    drive_observe operation now s = (Done r, s') → task_step s s'
| task_confirm k operation status faults now unix_ms r :
    operations s !! k = Some operation → phase (progress operation) = PhaseDraining →
    drive_confirm operation status faults now unix_ms s = (Done r, s') → task_step s s'
| task_routing {A} (m : M RoutingState A) r :
    on_routing m s = (Done r, s') → task_step s s'.

(** What a step may do to the operations. *)
Definition refines s s' : Prop := rtc book_step (book s) (book s') ∧ filed (operations s').

Lemma refines_same s s' : operations s' = operations s → filed (operations s) → refines s s'.
Proof. intros E Hf. split; [|by rewrite E]. unfold book. by rewrite E. Qed.

Lemma on_routing_operations {A} (m : M RoutingState A) s a s' :
  on_routing m s = (Done a, s') → operations s' = operations s.
Proof. unfold on_routing. destruct (m (c_routing s)). by intros [= _ <-]. Qed.

Lemma on_store_operations {A} (m : M BackendStateStore A) s a s' :
  on_store m s = (Done a, s') → operations s' = operations s.
Proof. unfold on_store. destruct (m (state_store s)). by intros [= _ <-]. Qed.

(** The progress of a drain under way changes. *)
Lemma send_refines k operation p s s' :
  operations s !! k = Some operation → phase (progress operation) = PhaseDraining →
  filed (operations s) → safe_to_stop p = bool_decide (phase p = PhaseComplete) →
  operations s' = alter (λ o, o <| progress := p |>) (op_id operation) (operations s) →
  refines s s'.
Proof.
  intros Hk Hd Hf Hp Hs. destruct (Hf k operation Hk) as [Hid _].
  assert (operations s' = <[k := operation <| progress := p |>]> (operations s)) as Hs'.
  { rewrite Hs, Hid. apply map_eq. intros i. destruct (decide (i = k)) as [->|Hne].
    - by rewrite lookup_alter_eq, lookup_insert_eq, Hk.
    - by rewrite lookup_alter_ne, lookup_insert_ne by done. }
  split.
  - unfold book. rewrite Hs', fmap_insert.
    destruct (decide (phase p = PhaseDraining)) as [Ep|Ep].
    + rewrite insert_id; [done|]. rewrite lookup_fmap, Hk. unfold fmap, option_fmap. rsimpl. by rewrite Ep, Hd.
    + apply rtc_once. eapply (book_end _ _ k (op_backend_id operation) (phase p)); [|done|done].
      rewrite lookup_fmap, Hk. cbn. by rewrite Hd.
  - rewrite Hs'. intros i o. destruct (decide (i = k)) as [->|Hne].
    + rewrite lookup_insert_eq. intros [= <-]. by split.
    + rewrite lookup_insert_ne by done. apply Hf.
Qed.

(** A drain of the backend is under way. *)
Definition running s (id : string) : Prop :=
  ∃ k o, operations s !! k = Some o ∧ drains id o = true.

Lemma drains_true id o : drains id o = true ↔ op_backend_id o = id ∧ phase (progress o) = PhaseDraining.
Proof. unfold drains. by rewrite andb_true_iff, !bool_decide_eq_true. Qed.

(** Whether one is under way does not depend on the order the operations are searched in. *)
Lemma head_running s id :
  head (keep (drains id) ((map_to_list (operations s)).*2)) = None ↔ ¬ running s id.
Proof.
  transitivity (keep (drains id) ((map_to_list (operations s)).*2) = []); [by destruct (keep _ _)|].
  rewrite keep_none. split.
  - intros Hall (k & o & Ho & Hd). rewrite Hall in Hd; [done|].
    apply list_elem_of_fmap. exists (k, o). split; [done|]. by apply elem_of_map_to_list.
  - intros Hno o ([k o'] & -> & Hk%elem_of_map_to_list)%list_elem_of_fmap.
    destruct (drains id _) eqn:E; [|done]. exfalso. apply Hno. by exists k, o'.
Qed.

Lemma ensure_refines id fresh now s operation s' :
  ensure_drain_operation id fresh now s = (Done operation, s') →
  operations s !! fresh = None ∨ running s id → filed (operations s) →
  refines s s'
  ∧ (running s id ∧ s' = s
     ∨ operations s !! fresh = None ∧ operations s' = <[fresh := operation]> (operations s)
       ∧ drains id operation = true).
Proof.
  unfold ensure_drain_operation, get_state, mbind at 1, M_mbind at 1.
  destruct (head _) as [o|] eqn:Eh.
  { intros [= <- <-] _ Hf. split; [by apply refines_same|left]. split; [|done].
    destruct (decide (head (keep (drains id) ((map_to_list (operations s)).*2)) = None)) as [E|E];
      [by rewrite Eh in E|]. apply keep_first in Eh as (l1 & l2 & El & Hd & _).
    assert (o ∈ (map_to_list (operations s)).*2) as Ho by (rewrite El; apply elem_of_app; right; left).
    apply list_elem_of_fmap in Ho as ([k o'] & -> & Hk%elem_of_map_to_list). by exists k, o'. }
  apply head_running in Eh.
  intros (r & s1 & Hst & (u & s2 & [= _ <-] & [= <- <-])%M_bind_Done)%M_bind_Done [Hfresh|?] Hf; [|done].
  apply on_routing_operations in Hst. simpl. rewrite Hst. split; [|right; split; [done|]; by rewrite drains_true]. split.
  - unfold book. simpl. rewrite ?Hst, fmap_insert. apply rtc_once.
    eapply (book_enter _ _ fresh id); [by rewrite lookup_fmap, Hfresh| |done].
    intros k Hk. rewrite lookup_fmap in Hk. destruct (operations s !! k) as [o|] eqn:Eo; [|done].
    cbn in Hk. injection Hk as Hb Hp. apply Eh. exists k, o. by rewrite drains_true.
  - simpl. rewrite ?Hst. intros k o. destruct (decide (k = fresh)) as [->|Hne].
    + rewrite lookup_insert_eq. by intros [= <-].
    + rewrite lookup_insert_ne by done. apply Hf.
Qed.

Lemma refines_trans s1 s2 s3 : refines s1 s2 → refines s2 s3 → refines s1 s3.
Proof. intros [H1 _] [H2 H3]. split; [by etrans|done]. Qed.

Lemma resume_refines (fresh : string → Uuid) ids now s u s' :
  Inj (=) (=) fresh → filed (operations s) →
  (∀ id, id ∈ ids → operations s !! fresh id = None ∨ running s id) →
  resume_drains ((λ id, (id, fresh id)) <$> ids) now s = (Done u, s') → refines s s'.
Proof.
  intros Hinj. revert s. induction ids as [|id ids IH]; intros s Hf Hids; simpl.
  { intros [= _ <-]. by apply refines_same. }
  intros (op & s1 & He & Hrun)%M_bind_Done.
  apply ensure_refines in He as [Hr Hops]; [|apply Hids; left|done].
  eapply refines_trans; [exact Hr|]. apply IH; [apply Hr| |done]. intros i Hi.
  destruct Hops as [[_ ->]|(Hn & Hops & Hd)]; [apply Hids; by right|].
  destruct (decide (i = id)) as [->|Hne].
  { right. exists (fresh id), op. by rewrite Hops, lookup_insert_eq. }
  assert (fresh i ≠ fresh id) as Hfi by (by intros ?%Hinj).
  destruct (Hids i) as [Hi'|(k & o & Hk & Ho)]; [by right|left; by rewrite Hops, lookup_insert_ne|].
  right. exists k, o. rewrite Hops, lookup_insert_ne; [done|congruence].
Qed.

(** Actions that leave the operations alone. *)
Definition quiet {A} (m : M (ControlState (Uri:=Uri)) A) : Prop :=
  ∀ s a s', m s = (Done a, s') → operations s' = operations s.

Lemma quiet_bind {A B} (m : M ControlState A) (f : A → M ControlState B) :
  quiet m → (∀ a, quiet (f a)) → quiet (m ≫= f).
Proof.
  intros Hm Hf s b s' (a & s1 & H1 & H2)%M_bind_Done.
  transitivity (operations s1); [by eapply Hf|by eapply Hm].
Qed.

Lemma quiet_mret {A} (a : A) : quiet (mret a).
Proof. by intros s b s' [= _ <-]. Qed.
Lemma quiet_panic {A} : quiet (panic (A:=A)).
Proof. by intros s b s'. Qed.
Lemma quiet_slot id : quiet (control_slot id).
Proof. by intros s b s' [= _ <-]. Qed.
Lemma quiet_get : quiet get_state.
Proof. by intros s b s' [= _ <-]. Qed.
Lemma quiet_routing {A} (m : M RoutingState A) : quiet (on_routing m).
Proof. intros s a s'. apply on_routing_operations. Qed.
Lemma quiet_store {A} (m : M BackendStateStore A) : quiet (on_store m).
Proof. intros s a s'. apply on_store_operations. Qed.
Lemma quiet_status id now : quiet (control_status id now).
Proof. apply quiet_routing. Qed.
Lemma quiet_backend {A} id (m : M BackendSlot A) : quiet (on_backend id m).
Proof. apply quiet_routing. Qed.

Hint Resolve quiet_mret quiet_panic quiet_slot quiet_get quiet_routing quiet_store quiet_status
  quiet_backend : proxy.

(** Walk through an action. *)
Ltac quieten :=
  repeat first [apply quiet_bind; [solve [auto with proxy]|intros ?] | case_bool_decide | case_match
               | solve [auto with proxy]].

Lemma quiet_activate id faults rollback now unix_ms :
  quiet (Control.activate id faults rollback now unix_ms).
Proof. unfold Control.activate. quieten. Qed.

Lemma quiet_disable id force faults now unix_ms :
  quiet (Control.disable id force faults now unix_ms).
Proof. unfold Control.disable. quieten. Qed.

Lemma begin_drain_refines id faults fresh now unix_ms s r s' :
  Control.begin_drain id faults fresh now unix_ms s = (Done r, s') →
  operations s !! fresh = None → filed (operations s) → refines s s'.
Proof.
  unfold Control.begin_drain. intros (slot & s1 & Hs1%quiet_slot & Hrun)%M_bind_Done Hfresh Hf.
  destruct slot as [slot|]; [|injection Hrun as _ <-; by apply refines_same].
  apply M_bind_Done in Hrun as (u & s2 & Hs2%quiet_backend & Hrun).
  apply M_bind_Done in Hrun as (p & s3 & Hs3 & Hrun).
  assert (operations s3 = operations s) as Hs.
  { rewrite <- Hs1, <- Hs2. revert Hs3. case_bool_decide; [apply quiet_store|apply quiet_mret]. }
  destruct p as [[]|e].
  - apply M_bind_Done in Hrun as (op & s4 & He & [= _ <-]). apply ensure_refines in He as [Hr _].
    + eapply refines_trans; [|exact Hr]. by apply refines_same.
    + left. by rewrite Hs.
    + by rewrite Hs.
  - apply M_bind_Done in Hrun as (v & s4 & Hs4 & [= _ <-]). apply refines_same; [|done].
    rewrite <- Hs. revert Hs4. generalize s3 v s4.
    change (quiet match snap_mode (BackendSlot_snapshot slot now) with
      | Active => _ ← on_backend id (Backend.activate now); mret ()
      | Draining => panic
      | Disabled => _ ← on_backend id (Backend.disable now); mret () end). quieten.
Qed.

Lemma observe_refines k operation now s r s' :
  drive_observe operation now s = (Done r, s') →
  operations s !! k = Some operation → phase (progress operation) = PhaseDraining →
  filed (operations s) → refines s s'.
Proof.
  unfold drive_observe. intros (status & s1 & Hs1%quiet_status & Hrun)%M_bind_Done Hk Hd Hf.
  assert (∀ p, safe_to_stop p = bool_decide (phase p = PhaseComplete) →
    refines s {| c_routing := c_routing s1; state_store := state_store s1;
                 operations := alter (λ o, o <| progress := p |>) (op_id operation) (operations s1) |})
    as Hsend.
  { intros p Hp. apply (send_refines k operation p); try done. simpl. by rewrite Hs1. }
  destruct status as [status|].
  - case_bool_decide; [|destruct (_ && _)].
    + apply M_bind_Done in Hrun as (u & s2 & [= _ <-] & [= _ <-]). apply Hsend.
      by destruct (st_mode status).
    + injection Hrun as _ <-. by apply refines_same.
    + apply M_bind_Done in Hrun as (u & s2 & [= _ <-] & Hrun). injection Hrun as _ <-. by apply Hsend.
  - apply M_bind_Done in Hrun as (u & s2 & [= _ <-] & [= _ <-]). by apply Hsend.
Qed.

Lemma confirm_refines k operation status faults now unix_ms s r s' :
  drive_confirm operation status faults now unix_ms s = (Done r, s') →
  operations s !! k = Some operation → phase (progress operation) = PhaseDraining →
  filed (operations s) → refines s s'.
Proof.
  unfold drive_confirm. intros (confirmed & s1 & Hs1%quiet_status & Hrun)%M_bind_Done Hk Hd Hf.
  destruct confirmed as [confirmed|]; [|injection Hrun as _ <-; by apply refines_same].
  destruct (_ || _); [injection Hrun as _ <-; by apply refines_same|].
  apply M_bind_Done in Hrun as (p & s2 & Hs2%quiet_store & Hrun).
  assert (∀ s3 q, operations s3 = operations s → safe_to_stop q = bool_decide (phase q = PhaseComplete) →
    refines s {| c_routing := c_routing s3; state_store := state_store s3;
                 operations := alter (λ o, o <| progress := q |>) (op_id operation) (operations s3) |})
    as Hsend.
  { intros s3 q Hs3 Hq. apply (send_refines k operation q); try done. simpl. by rewrite Hs3. }
  destruct p as [[]|e].
  - apply M_bind_Done in Hrun as (slot & s3 & Hs3%quiet_slot & Hrun).
    apply M_bind_Done in Hrun as (u & s4 & Hs4 & Hrun).
    apply M_bind_Done in Hrun as (final & s5 & Hs5%quiet_status & Hrun).
    apply M_bind_Done in Hrun as (v & s6 & [= _ <-] & [= _ <-]). apply Hsend; [|done].
    rewrite Hs5, <- Hs1, <- Hs2, <- Hs3. revert Hs4. generalize s3 u s4.
    change (quiet match slot with
      | Some _ => _ ← on_backend (op_backend_id operation) (Backend.disable now); mret ()
      | None => mret () end). quieten.
  - apply M_bind_Done in Hrun as (u & s3 & [= _ <-] & [= _ <-]). apply Hsend; [|done]. congruence.
Qed.

Lemma reload_refines loaded (fresh : string → Uuid) now s r s' :
  reload loaded fresh now s = (Done r, s') →
  (∀ id, operations s !! fresh id = None) → Inj (=) (=) fresh →
  filed (operations s) → refines s s'.
Proof.
  unfold reload, on_runtime. intros (s0 & s1 & [= <- <-] & Hrun)%M_bind_Done Hfresh Hinj Hf.
  apply M_bind_Done in Hrun as (report & s2 & Hs2%quiet_routing & Hrun).
  destruct report as [report|e]; [|injection Hrun as _ <-; by apply refines_same].
  apply M_bind_Done in Hrun as (u & s3 & Hres & [= _ <-]).
  unfold resume_persisted_drains in Hres. apply M_bind_Done in Hres as (s4 & s5 & [= <- <-] & Hres).
  eapply refines_trans; [by apply refines_same|].
  rewrite (list_fmap_compose snapshot_id (λ id, (id, fresh id))) in Hres.
  eapply resume_refines; [done| |left|exact Hres]; by rewrite ?Hs2.
Qed.

Lemma task_refines s s' : task_step s s' → filed (operations s) → refines s s'.
Proof.
  intros Hstep Hf. destruct Hstep as [id f fr now ux r Hn Hrun|id f rb now ux r Hrun
    |id fo f now ux r Hrun|ld fr now r Hn Hi Hrun|k op now r Hk Hd Hrun|k op st f now ux r Hk Hd Hrun
    |A m r Hrun].
  - by eapply begin_drain_refines.
  - apply refines_same; [by eapply quiet_activate|done].
  - apply refines_same; [by eapply quiet_disable|done].
  - by eapply reload_refines.
  - by eapply observe_refines.
  - by eapply confirm_refines.
  - apply refines_same; [by eapply quiet_routing|done].
Qed.

(** C28: the drain operations refine the book of drains.  Whatever the operator, the drain tasks,
    reloads and requests do, in any order, the operations only ever enter a drain of a backend
    that has none under way and end one once.  So at most one drain of a backend is under way,
    an operation that has ended keeps its phase, and an operation reports [safe_to_stop]
    exactly when it completed. *)
Theorem drains_refine s s' :
  filed (operations s) → one_running (book s) → rtc task_step s s' →
  rtc book_step (book s) (book s') ∧ one_running (book s')
  ∧ (∀ k e, book s !! k = Some e → e.2 ≠ PhaseDraining → book s' !! k = Some e)
  ∧ filed (operations s').
Proof.
  intros Hf Hone Hr.
  assert (rtc book_step (book s) (book s') ∧ filed (operations s')) as [Hbook Hf'].
  { induction Hr as [s|a b c Hab _ IH]; [done|]. destruct (task_refines a b Hab Hf) as [H1 H2].
    destruct (IH H2) as [H3 H4]; [|split; [by etrans|done]].
    clear -H1 Hone. induction H1 as [|x y z Hxy _ IH]; [done|]. by eapply IH, book_step_one. }
  split; [done|]. split; [|split; [|done]].
  - clear -Hbook Hone. induction Hbook as [|x y z Hxy _ IH]; [done|]. by eapply IH, book_step_one.
  - intros k e He Hd. clear -Hbook He Hd. induction Hbook as [|x y z Hxy _ IH]; [done|].
    by eapply IH, book_step_ended.
Qed.
End Operations.

(** ** A concrete drain *)

Definition demo_idle_metrics : MistralRsMetrics :=
  {| sequences_running := 0; sequences_waiting := 0; sequences_capacity := None; kv_cache := None;
     tokens_processed_total := None; prefill_tokens_processed_total := None;
     decode_tokens_processed_total := None; sequences_completed_total := None |}.

Definition demo_cycle (at_ : N) (running : N) : Cycle :=
  {| cy_dispatches := 0; cy_begun := at_;
     cy_result := Ok (demo_idle_metrics <| sequences_running := running |>); cy_recorded := at_ |}.

(** The drain of [east], begun after one scrape. *)
Definition demo_operation : DrainOperation :=
  {| op_id := "op-1"; op_backend_id := "east"; op_started_at := 10;
     metrics_scrapes_started_at_start := 1;
     progress := {| dp_operation_id := "op-1"; dp_backend_id := "east"; phase := PhaseDraining;
                    safe_to_stop := false; dp_elapsed_ms := 0; dp_proxy_active := 0;
                    engine_running := None; engine_waiting := None; dp_telemetry := Unavailable_;
                    dp_message := None |} |}.

Definition demo_cycles : list Cycle := [demo_cycle 5 2; demo_cycle 20 0; demo_cycle 30 0].

Definition demo_endpoint : Backend (Uri:=SimpleUri) :=
  let u := mkSimpleUri "http" "127.0.0.1:1234" (bs "/") None in
  {| b_id := "east"; b_url := u; b_metrics_url := u; b_readiness_url := u; b_capacity := None |}.

Definition demo_live : LiveBackend :=
  (cycles_run 1 demo_cycles (Some (0, 40)%N) (LiveBackend_new 1)).2.

Theorem drain_evidence_witness :
  idle_evidence demo_operation
    (status_snapshot (BackendSlot_snapshot demo_busy 41) demo_live demo_endpoint 41 5000 (f64_of_N 1))
  = true
  ∧ ∃ l0 c1 c2, demo_cycles = l0 ++ [c1; c2] ∧ saw_idle c1 = true ∧ saw_idle c2 = true
      ∧ (1 ≤ N.of_nat (length l0))%N.
Proof.
  assert (idle_evidence demo_operation
    (status_snapshot (BackendSlot_snapshot demo_busy 41) demo_live demo_endpoint 41 5000 (f64_of_N 1))
    = true) as He by (vm_compute; reflexivity).
  split; [exact He|].
  destruct (drain_evidence 1 demo_cycles (Some (0, 40)%N) demo_operation
    (BackendSlot_snapshot demo_busy 41) demo_endpoint _ 41 5000 (f64_of_N 1))
    as (live & Hrun & Hev); [vm_compute; reflexivity|].
  unfold demo_live in He. rewrite Hrun in He. destruct (Hev He) as (l0 & c1 & c2 & E & H1 & H2 & H3 & _).
  exists l0, c1, c2. split; [exact E|]. split; [exact H1|]. split; [exact H2|exact H3].
Defined.

(** [east] while it drains, after two more scrapes of an idle engine. *)
Definition demo_scrapes : M (ControlState (Uri:=SimpleUri)) () :=
  _ ← on_routing (record_metrics_success "east" demo_idle_metrics 20);
  _ ← on_routing (record_metrics_success "east" demo_idle_metrics 30);
  on_routing (record_metrics_success "east" demo_idle_metrics 40).

Definition demo_idle : ControlState (Uri:=SimpleUri) := (demo_scrapes demo_draining).2.

Lemma demo_idle_inv : control_inv demo_idle.
Proof.
  apply (inv_same_gates demo_draining); [|apply (control_step_inv demo_control);
    [exact demo_draining_step|exact demo_control_inv]].
  split; vm_compute; reflexivity.
Qed.

Lemma demo_room (s : ControlState (Uri:=SimpleUri)) id :
  bool_decide (map_Forall (λ _ slot, slot_room 2 slot) (control_slots s)) = true → gate_room s id.
Proof. intros Hall%bool_decide_eq_true slot Hs. exact (Hall id slot Hs). Qed.

(** What the task observed before it took the lock; the confirmation only reads its own report. *)
Definition demo_observed : BackendStatusSnapshot :=
  status_snapshot (BackendSlot_snapshot demo_busy 41) demo_live demo_endpoint 41 5000 (f64_of_N 1).

Theorem drain_certified_witness :
  ∃ s', drive_confirm demo_operation demo_observed no_faults 45 9 demo_idle
        = (Done DriveReturn, s')
    ∧ modes (state_store s') = <["east" := Disabled]> (modes (state_store demo_idle)).
Proof.
  destruct (drain_certified demo_idle demo_operation demo_observed no_faults 45 9
    demo_idle_inv) as (report & s1 & next & s' & Hst & Hrun & Hif).
  - apply demo_room. vm_compute. reflexivity.
  - change (op_backend_id demo_operation) with "east" in *.
    assert (match (control_status "east" 45 demo_idle).1 with
            | Done (Some st) => certifiable demo_operation st | _ => false end = true) as Hc
      by (vm_compute; reflexivity).
    rewrite Hst in Hc. simpl in Hc. rewrite Hc in Hif.
    destruct Hif as (-> & slot & p & _ & _ & _ & _ & Hp). exists s'. split; [exact Hrun|].
    destruct (safe_to_stop p); [exact (proj1 (proj2 (proj2 Hp)))|].
    exfalso. destruct Hp as (_ & _ & _ & step & x & Hx). discriminate Hx.
Defined.

Theorem drain_started_witness :
  ∃ r s', Control.begin_drain "east" no_faults "op-1" 10 7 demo_control = (Done r, s')
    ∧ match r with
      | Ok operation => modes (state_store s') = <["east" := Draining]> (modes (state_store demo_control))
                        ∧ drains "east" operation = true
      | Err e => ce_status e = 404%N
      end.
Proof.
  destruct (drain_started demo_control "east" no_faults "op-1" 10 7 demo_control_inv)
    as (r & s' & Hrun & Hr); [discriminate|apply demo_room; vm_compute; reflexivity|].
  exists r, s'. split; [exact Hrun|]. destruct r as [operation|e].
  - destruct Hr as (slot & slot' & _ & _ & _ & _ & Hm & Hop). split; [exact Hm|exact (proj1 Hop)].
  - destruct Hr as [[H1 _]|(_ & (step & x & Hx) & _)]; [exact H1|discriminate Hx].
Defined.

Theorem drains_refine_witness :
  rtc task_step demo_control demo_draining ∧ one_running (book demo_draining).
Proof.
  assert (rtc task_step demo_control demo_draining) as Hr.
  { destruct demo_draining_ran as [r Hr]. apply rtc_once.
    by apply (task_begin demo_control _ "east" no_faults "op-1" 10 7 r). }
  split; [exact Hr|].
  destruct (drains_refine demo_control demo_draining) as (_ & H1 & _ & _).
  - apply map_Forall_empty.
  - intros k1 k2 id Hk. unfold book, demo_control in Hk. simpl in Hk.
    by rewrite lookup_fmap, lookup_empty in Hk.
  - exact Hr.
  - exact H1.
Defined.
