(* ===== verification/Usage.v ===== *)
(** * [src/src/usage.rs]: token accounting on the response stream

    The sniffer reads the response one byte at a time and keeps the counts of
    the last [usage] object.  It indexes fixed arrays and counts braces in a
    [u32]; an index out of bounds or an overflow is a panic of the model.
    [scan] is the reference: it looks for the field name, then reads one
    object, on the whole body at once.  [serde_json] is a parameter. *)

From S2P Require Import Prelude RustStd.

(** src/src/usage.rs:16-16 [MAX_OBJECT_BYTES] *)
Definition MAX_OBJECT_BYTES : N := 4096.

(** src/src/usage.rs:18-18 [NEEDLE] *)
Definition NEEDLE : bytes := Eval cbv in QUOTE :: bs "usage" ++ [QUOTE].

(** src/src/usage.rs:19-19 [NULL] *)
Definition NULL : bytes := Eval cbv in bs "null".

(** src/src/usage.rs:23-30 [Usage] *)
Record Usage := mkUsage {
  input_tokens : option N;
  output_tokens : option N;
  total_tokens : option N;
  cached_tokens : option N;
}.

#[export] Instance Usage_eq_dec : EqDecision Usage.
Proof. solve_decision. Defined.

(** src/src/usage.rs:33-35 [Usage::is_informative] *)
Definition is_informative (self : Usage) : bool :=
  bool_decide (is_Some (input_tokens self)) || bool_decide (is_Some (output_tokens self))
  || bool_decide (is_Some (total_tokens self)).

(** src/src/usage.rs:54-56 [TokensDetails] *)
Record TokensDetails := mkTokensDetails { details_cached_tokens : option N }.

(** src/src/usage.rs:41-51 [UsageFields] *)
Record UsageFields := mkUsageFields {
  f_prompt_tokens : option N;
  f_completion_tokens : option N;
  f_input_tokens : option N;
  f_output_tokens : option N;
  f_total_tokens : option N;
  f_prompt_tokens_details : option TokensDetails;
  f_input_tokens_details : option TokensDetails;
}.

(** [Option::or]. *)
Definition or {A} (a b : option A) : option A := match a with Some _ => a | None => b end.

(** src/src/usage.rs:58-70 [Usage::From] *)
Definition Usage_from (fields : UsageFields) : Usage :=
  {| input_tokens := or (f_input_tokens fields) (f_prompt_tokens fields);
     output_tokens := or (f_output_tokens fields) (f_completion_tokens fields);
     total_tokens := f_total_tokens fields;
     cached_tokens := details ← or (f_prompt_tokens_details fields) (f_input_tokens_details fields);
                      details_cached_tokens details |}.

(** src/src/usage.rs:72-87 [State] *)
Inductive State :=
| Searching (matched : N)
| AwaitingColon
| AwaitingValue
| SkippingNull (matched : N)
| Capturing (depth : N) (in_string escaped : bool).

(** src/src/usage.rs:93-97 [UsageSniffer] *)
Record UsageSniffer := mkUsageSniffer {
  state : State;
  object : bytes;
  latest : option Usage;
}.

(** src/src/usage.rs:106-112 [UsageSniffer::new] *)
Definition UsageSniffer_new : UsageSniffer :=
  {| state := Searching 0; object := []; latest := None |}.

(** src/src/usage.rs:99-103 [UsageSniffer::Default] *)
Definition UsageSniffer_default : UsageSniffer := UsageSniffer_new.

(** src/src/usage.rs:115-117 [UsageSniffer::usage] *)
Definition usage (self : UsageSniffer) : option Usage := latest self.

Definition set_sniffing (st : State) : M UsageSniffer () := modify (λ s, s <| state := st |>).

(** [usize::from(byte == b'\'')]: whether the byte opens a needle. *)
Definition opens (byte : ascii) : N := if Ascii.eqb byte QUOTE then 1 else 0.

(** src/src/usage.rs:218-223 [UsageSniffer::restart] *)
Definition restart (byte : ascii) : M UsageSniffer () :=
  _ ← modify (λ s, s <| object := [] |>);
  set_sniffing (Searching (opens byte)).

(** src/src/usage.rs, lines 177-191 of [UsageSniffer::feed_byte]: what a byte of a captured value
    does to the brace depth and the string state *)
Definition lex_byte (byte : ascii) (depth : N) (in_string escaped : bool) :
    option (N * bool * bool) :=
  if in_string then
    Some (if escaped then (depth, true, false)
          else if Ascii.eqb byte BACKSLASH then (depth, true, true)
          else if Ascii.eqb byte QUOTE then (depth, false, false)
          else (depth, true, false))
  else if Ascii.eqb byte QUOTE then Some (depth, true, escaped)
  else if Ascii.eqb byte "{" then
    depth ← checked_add U32_MAX depth 1; Some (depth, false, escaped)
  else if Ascii.eqb byte "}" then
    depth ← checked_sub depth 1; Some (depth, false, escaped)
  else Some (depth, false, escaped).

Section Sniffer.
Context (from_slice : bytes → option UsageFields).

(** src/src/usage.rs:207-216 [UsageSniffer::finish_object] *)
Definition finish_object : M UsageSniffer () :=
  s ← get_state;
  _ ← match from_slice (object s) with
      | Some fields =>
          let usage := Usage_from fields in
          if is_informative usage then modify (λ s, s <| latest := Some usage |>) else mret ()
      | None => mret ()
      end;
  _ ← modify (λ s, s <| object := [] |>);
  set_sniffing (Searching 0).

(** src/src/usage.rs:126-205 [UsageSniffer::feed_byte] *)
Definition feed_byte (byte : ascii) : M UsageSniffer () :=
  s ← get_state;
  match state s with
  | Searching matched =>
      expected ← expect (NEEDLE !! N.to_nat matched);
      if Ascii.eqb byte expected then
        if (matched + 1 =? N.of_nat (length NEEDLE))%N
        then set_sniffing AwaitingColon
        else set_sniffing (Searching (matched + 1))
      else set_sniffing (Searching (opens byte))
  | AwaitingColon =>
      if Ascii.eqb byte ":" then set_sniffing AwaitingValue
      else if negb (is_ascii_whitespace byte) then restart byte
      else mret ()
  | AwaitingValue =>
      if Ascii.eqb byte "{" then
        _ ← modify (λ s, s <| object := [byte] |>);
        set_sniffing (Capturing 1 false false)
      else if Ascii.eqb byte "n" then set_sniffing (SkippingNull 1)
      else if negb (is_ascii_whitespace byte) then restart byte
      else mret ()
  | SkippingNull matched =>
      expected ← expect (NULL !! N.to_nat matched);
      if Ascii.eqb byte expected then
        if (matched + 1 =? N.of_nat (length NULL))%N
        then set_sniffing (Searching 0)
        else set_sniffing (SkippingNull (matched + 1))
      else restart byte
  | Capturing depth in_string escaped =>
      lexed ← expect (lex_byte byte depth in_string escaped);
      let '(depth, in_string, escaped) := lexed in
      _ ← modify (λ s, s <| state := Capturing depth in_string escaped |>
                         <| object := object s ++ [byte] |>);
      s ← get_state;
      if (depth =? 0)%N then finish_object
      else if (MAX_OBJECT_BYTES <=? N.of_nat (length (object s)))%N then
        _ ← modify (λ s, s <| object := [] |>);
        set_sniffing (Searching 0)
      else mret ()
  end.

(** src/src/usage.rs:120-124 [UsageSniffer::feed] *)
Definition feed (chunk : bytes) : M UsageSniffer () := for_each chunk feed_byte.
End Sniffer.

(** ** The reference scan *)

(** The text after the first field name. *)
Fixpoint find_needle (l : bytes) : option bytes :=
  match strip_prefix NEEDLE l with
  | Some rest => Some rest
  | None => match l with [] => None | _ :: l => find_needle l end
  end.

Fixpoint skip_whitespace (l : bytes) : bytes :=
  match l with
  | x :: l' => if is_ascii_whitespace x then skip_whitespace l' else l
  | [] => []
  end.

(** The rest of an object, up to its closing brace, reading at most [budget] bytes; and the text
    that follows. *)
Fixpoint read_object (budget : nat) (depth : N) (in_string escaped : bool) (l : bytes)
    {struct l} :
    option bytes * bytes :=
  match l with
  | [] => (None, [])
  | x :: l =>
      match lex_byte x depth in_string escaped with
      | None => (None, l)
      | Some (depth, in_string, escaped) =>
          if (depth =? 0)%N then (Some [x], l) else
          match budget with
          | O | 1%nat => (None, l)
          | S budget =>
              let '(object, rest) := read_object budget depth in_string escaped l in
              (cons x <$> object, rest)
          end
      end
  end.

(** The objects that follow a field name, in order. *)
Fixpoint scan_with (fuel : nat) (l : bytes) : list bytes :=
  match fuel with
  | O => []
  | S fuel =>
      match find_needle l with
      | None => []
      | Some rest =>
          match skip_whitespace rest with
          | x :: rest =>
              if Ascii.eqb x ":" then
                match skip_whitespace rest with
                | y :: rest =>
                    if Ascii.eqb y "{" then
                      let '(object, rest) := read_object 4095 1 false false rest in
                      match object with
                      | Some object => (y :: object) :: scan_with fuel rest
                      | None => scan_with fuel rest
                      end
                    else scan_with fuel (y :: rest)
                | [] => []
                end
              else scan_with fuel (x :: rest)
          | [] => []
          end
      end
  end.

Definition scan (l : bytes) : list bytes := scan_with (S (length l)) l.

(** ** The scan does not depend on its fuel *)

Lemma find_needle_shorter l rest : find_needle l = Some rest → length rest < length l.
Proof.
  induction l as [|x l IH]; cbn [find_needle]; [done|].
  destruct (strip_prefix NEEDLE (x :: l)) as [r|] eqn:E.
  - intros [= <-]. apply strip_prefix_Some in E. rewrite E, length_app. simpl. lia.
  - intros ?%IH. simpl. lia.
Qed.

Lemma skip_whitespace_shorter l : length (skip_whitespace l) ≤ length l.
Proof. induction l as [|x l IH]; simpl; [done|]. destruct (is_ascii_whitespace x); simpl; lia. Qed.

Lemma read_object_shorter budget d i e l : length (read_object budget d i e l).2 ≤ length l.
Proof.
  revert budget d i e. induction l as [|x l IH]; intros budget d i e; simpl; [done|].
  destruct (lex_byte x d i e) as [[[d' i'] e']|]; simpl; [|lia].
  destruct (d' =? 0)%N; simpl; [lia|]. destruct budget as [|[|b]]; simpl; [lia..|].
  specialize (IH (S b) d' i' e'). destruct (read_object (S b) d' i' e' l). simpl in *. lia.
Qed.

Lemma scan_fuel n m l : length l < n → length l < m → scan_with n l = scan_with m l.
Proof.
  revert m l. induction n as [|n IH]; intros [|m] l Hn Hm; simpl; try lia.
  destruct (find_needle l) as [rest|] eqn:Ef; [|done]. apply find_needle_shorter in Ef.
  pose proof (skip_whitespace_shorter rest) as H1.
  destruct (skip_whitespace rest) as [|x r1]; [done|]. simpl in H1.
  destruct (Ascii.eqb x ":"); [|apply IH; simpl; lia].
  pose proof (skip_whitespace_shorter r1) as H2.
  destruct (skip_whitespace r1) as [|y r2]; [done|]. simpl in H2.
  destruct (Ascii.eqb y "{"); [|apply IH; simpl; lia].
  pose proof (read_object_shorter 4095 1 false false r2) as H3.
  destruct (read_object 4095 1 false false r2) as [[o|] r3]; simpl in *; [f_equal|]; apply IH; lia.
Qed.

(** The scan from behind a field name, and from behind its colon. *)
Definition captured (object : bytes) (budget : nat) (d : N) (i e : bool) (l : bytes) : list bytes :=
  let '(tail, rest) := read_object budget d i e l in
  match tail with
  | Some tail => (object ++ tail) :: scan rest
  | None => scan rest
  end.

Definition scan_value (l : bytes) : list bytes :=
  match skip_whitespace l with
  | y :: rest => if Ascii.eqb y "{" then captured ["{"%char] 4095 1 false false rest else scan (y :: rest)
  | [] => []
  end.

Definition scan_colon (l : bytes) : list bytes :=
  match skip_whitespace l with
  | x :: rest => if Ascii.eqb x ":" then scan_value rest else scan (x :: rest)
  | [] => []
  end.

Lemma scan_equation l :
  scan l = match find_needle l with Some rest => scan_colon rest | None => [] end.
Proof.
  unfold scan at 1. cbn [scan_with].
  destruct (find_needle l) as [rest|] eqn:Ef; [|done]. apply find_needle_shorter in Ef.
  unfold scan_colon. pose proof (skip_whitespace_shorter rest) as H1.
  destruct (skip_whitespace rest) as [|x r1]; [done|]. simpl in H1.
  destruct (Ascii.eqb x ":"); [|apply scan_fuel; simpl; lia].
  unfold scan_value. pose proof (skip_whitespace_shorter r1) as H2.
  destruct (skip_whitespace r1) as [|y r2]; [done|]. simpl in H2.
  destruct (Ascii.eqb_spec y "{") as [->|]; [|apply scan_fuel; simpl; lia].
  unfold captured. pose proof (read_object_shorter 4095 1 false false r2) as H3.
  destruct (read_object 4095 1 false false r2) as [[o|] r3]; simpl in *; [f_equal|];
    apply scan_fuel; lia.
Qed.

(** ** One byte at a time *)

(** What is still to be found from a state of the sniffer. *)
Definition pending (st : State) (object : bytes) (l : bytes) : list bytes :=
  match st with
  | Searching matched => scan (take (N.to_nat matched) NEEDLE ++ l)
  | AwaitingColon => scan_colon l
  | AwaitingValue => scan_value l
  | SkippingNull _ => scan l
  | Capturing d i e => captured object (4096 - length object) d i e l
  end.

(** The sniffer's state between two bytes: a partial match that can grow, and a buffer that is
    empty outside a capture, and shorter than the limit inside one. *)
Definition sniffer_ok (s : UsageSniffer) : Prop :=
  match state s with
  | Searching matched => (matched < 7)%N ∧ object s = []
  | AwaitingColon | AwaitingValue => object s = []
  | SkippingNull matched => (1 ≤ matched < 4)%N ∧ object s = []
  | Capturing depth _ _ =>
      (1 ≤ depth)%N ∧ (depth ≤ N.of_nat (length (object s)))%N
      ∧ length (object s) < 4096
  end.

Lemma find_needle_hit l r : strip_prefix NEEDLE l = Some r → find_needle l = Some r.
Proof. destruct l; cbn [find_needle]; [done|]. by intros ->. Qed.

Lemma find_needle_nil l : strip_prefix NEEDLE l = None → find_needle l = find_needle (tail l).
Proof. destruct l; cbn [find_needle tail]; [done|]. by intros ->. Qed.

(** No field name begins at a byte that is not a quote. *)
Lemma find_needle_skip q l : Forall (λ x, x ≠ QUOTE) q → find_needle (q ++ l) = find_needle l.
Proof.
  induction 1 as [|x q Hx _ IH]; [done|]. rewrite find_needle_nil; [exact IH|].
  destruct (strip_prefix NEEDLE ((x :: q) ++ l)) as [r|] eqn:E; [|done].
  apply strip_prefix_Some in E. by injection E as -> _.
Qed.

(** A byte that cannot continue a partial match begins the search again. *)
Lemma search_again k x l :
  k < 7 → NEEDLE !! k ≠ Some x →
  find_needle (take k NEEDLE ++ x :: l) = find_needle (take (N.to_nat (opens x)) NEEDLE ++ l).
Proof.
  intros Hk Hx. assert (find_needle (x :: l) = find_needle (take (N.to_nat (opens x)) NEEDLE ++ l)) as <-.
  { unfold opens. destruct (Ascii.eqb_spec x QUOTE) as [->|Hq]; [done|].
    apply (find_needle_skip [x]). by constructor. }
  assert (strip_prefix NEEDLE (take k NEEDLE ++ x :: l) = None) as Hn.
  { destruct (strip_prefix NEEDLE _) as [r|] eqn:E; [|done]. apply strip_prefix_Some in E.
    exfalso. apply Hx. apply (f_equal (.!! k)) in E.
    rewrite (lookup_app_l NEEDLE r) in E by (simpl; lia). rewrite <- E.
    rewrite (list_lookup_middle (take k NEEDLE) l x k); [done|]. rewrite length_take. simpl. lia. }
  destruct k as [|k]; [done|]. rewrite (find_needle_nil _ Hn).
  change (tail (take (S k) NEEDLE ++ x :: l)) with (take k (tail NEEDLE) ++ x :: l).
  apply find_needle_skip. assert (Forall (λ x, x ≠ QUOTE) (take 5 (tail NEEDLE))) as H5.
  { repeat constructor; done. }
  replace (take k (tail NEEDLE)) with (take k (take 5 (tail NEEDLE))); [by apply Forall_take|].
  rewrite take_take. f_equal. lia.
Qed.

(** Searching on from a partial match. *)
Lemma scan_partial k x l :
  k < 7 → NEEDLE !! k ≠ Some x →
  scan (take k NEEDLE ++ x :: l) = scan (take (N.to_nat (opens x)) NEEDLE ++ l).
Proof. intros Hk Hx. by rewrite !scan_equation, search_again. Qed.

Lemma scan_not_quote x l : x ≠ QUOTE → scan (x :: l) = scan l.
Proof. 
  intros Hx. rewrite !scan_equation. change (x :: l) with ([x] ++ l).
  rewrite find_needle_skip; [done|by constructor].
Qed.

Lemma scan_opens x l : scan (take (N.to_nat (opens x)) NEEDLE ++ l) = scan (x :: l).
Proof.
  unfold opens. destruct (Ascii.eqb_spec x QUOTE) as [->|Hq]; [done|]. by rewrite scan_not_quote.
Qed.

Lemma scan_matched l : scan (NEEDLE ++ l) = scan_colon l.
Proof.
  rewrite scan_equation. by rewrite (find_needle_hit _ l) by by apply strip_prefix_Some.
Qed.

Lemma opens_small x : (opens x < 7)%N.
Proof. unfold opens. by destruct (Ascii.eqb x QUOTE). Qed.

Lemma scan_colon_cons x l :
  scan_colon (x :: l) = if Ascii.eqb x ":" then scan_value l
                        else if is_ascii_whitespace x then scan_colon l else scan (x :: l).
Proof.
  unfold scan_colon at 1. cbn [skip_whitespace].
  destruct (Ascii.eqb_spec x ":") as [->|Hx]; [done|].
  destruct (is_ascii_whitespace x); [done|]. by rewrite (proj2 (Ascii.eqb_neq x ":") Hx).
Qed.

Lemma scan_value_cons x l :
  scan_value (x :: l) = if Ascii.eqb x "{" then captured ["{"%char] 4095 1 false false l
                        else if is_ascii_whitespace x then scan_value l else scan (x :: l).
Proof.
  unfold scan_value at 1. cbn [skip_whitespace].
  destruct (Ascii.eqb_spec x "{") as [->|Hx]; [done|].
  destruct (is_ascii_whitespace x); [done|]. by rewrite (proj2 (Ascii.eqb_neq x "{") Hx).
Qed.

(** One byte of a captured object. *)
Lemma captured_step object k x d i e l :
  captured object (S k) d i e (x :: l)
  = match lex_byte x d i e with
    | None => scan l
    | Some (d, i, e) =>
        if (d =? 0)%N then (object ++ [x]) :: scan l
        else match k with O => scan l | S _ => captured (object ++ [x]) k d i e l end
    end.
Proof.
  unfold captured. cbn [read_object]. destruct (lex_byte x d i e) as [[[d' i'] e']|]; [|done].
  destruct (d' =? 0)%N; [done|]. destruct k as [|k]; [done|].
  destruct (read_object (S k) d' i' e' l) as [[o|] r]; cbn; [|done]. by rewrite <- app_assoc.
Qed.

(** What a captured byte does to the depth. *)
Lemma lex_byte_depth x d i e :
  (1 ≤ d)%N → (d < U32_MAX)%N →
  ∃ d' i' e', lex_byte x d i e = Some (d', i', e') ∧ (d' ≤ d + 1)%N ∧ (d - 1 ≤ d')%N.
Proof.
  intros H1 H2. unfold lex_byte. destruct i, e; simpl;
    repeat (match goal with |- context [Ascii.eqb x ?y] => destruct (Ascii.eqb x y) end; simpl);
    unfold checked_add, checked_sub;
    rewrite ?(proj2 (N.leb_le (d + 1) U32_MAX)) by lia; rewrite ?(proj2 (N.leb_le 1 d)) by lia; cbn;
    eexists _, _, _; (split; [reflexivity|]); lia.
Qed.

(** ** Where an object ends

    Said without the machine: the text outside quoted strings, in which a backslash takes the byte
    after it along, and the braces in it. *)
Fixpoint outside (s : bytes) : bytes :=
  match s with
  | [] => []
  | x :: s => if Ascii.eqb x QUOTE then quoted s else x :: outside s
  end
with quoted (s : bytes) : bytes :=
  match s with
  | [] => []
  | x :: s => if Ascii.eqb x QUOTE then outside s
              else if Ascii.eqb x BACKSLASH then match s with [] => [] | _ :: s => quoted s end
              else quoted s
  end.

Fixpoint braces (s : bytes) : Z :=
  match s with
  | [] => 0
  | x :: s => (if Ascii.eqb x "{" then 1 else if Ascii.eqb x "}" then -1 else 0) + braces s
  end.

(** The braces of a text that begins in this state of the machine. *)
Definition net_from (in_string escaped : bool) (s : bytes) : Z :=
  braces (if in_string then quoted (if escaped then tail s else s) else outside s).

Definition net : bytes → Z := net_from false false.

Lemma lex_net x d i e d' i' e' :
  lex_byte x d i e = Some (d', i', e') → (i = false → e = false) →
  (i' = false → e' = false) ∧ ∀ s, (Z.of_N d + net_from i e (x :: s) = Z.of_N d' + net_from i' e' s)%Z.
Proof.
  unfold lex_byte, net_from. intros Hlex He. destruct i.
  - destruct e; [by injection Hlex as <- <- <-|].
    destruct (Ascii.eqb_spec x BACKSLASH) as [->|Hb]; [injection Hlex as <- <- <-; split; [done|]; by intros [|y s]|].
    cbn [quoted]. rewrite (proj2 (Ascii.eqb_neq _ _) Hb).
    by destruct (Ascii.eqb x QUOTE); injection Hlex as <- <- <-.
  - rewrite (He eq_refl) in *. cbn [outside]. destruct (Ascii.eqb x QUOTE); [by injection Hlex as <- <- <-|].
    cbn [braces]. destruct (Ascii.eqb x "{"); [|destruct (Ascii.eqb x "}")].
    + unfold checked_add in Hlex. destruct (_ <=? _)%N; [|done]. injection Hlex as <- <- <-. split; [done|]. intros s. lia.
    + unfold checked_sub in Hlex. destruct (N.leb_spec 1 d); [|done]. injection Hlex as <- <- <-. split; [done|]. intros s. lia.
    + injection Hlex as <- <- <-. split; [done|]. intros s. lia.
Qed.

Lemma read_object_net l budget d i e :
  (1 ≤ budget)%nat → (i = false → e = false) → (1 ≤ d)%N → (d + N.of_nat budget < U32_MAX)%N →
  match read_object budget d i e l with
  | (Some o, rest) => l = o ++ rest ∧ length o ≤ budget ∧ (Z.of_N d + net_from i e o = 0)%Z
      ∧ ∀ k, k < length o → (0 < Z.of_N d + net_from i e (take k o))%Z
  | (None, rest) => rest = drop budget l ∧ ∀ k, k ≤ budget → (0 < Z.of_N d + net_from i e (take k l))%Z
  end.
Proof.
  assert (∀ i e, net_from i e [] = 0%Z) as Hnil by by intros [] [].
  revert budget d i e. induction l as [|x l IH]; intros budget d i e Hb He Hd Hroom.
  { cbn [read_object]. split; [by destruct budget|]. intros k _. rewrite take_nil, Hnil. lia. }
  cbn [read_object]. destruct (lex_byte_depth x d i e) as (d' & i' & e' & Hlex & Hup & _); [lia|lia|].
  rewrite Hlex. destruct (lex_net _ _ _ _ _ _ _ Hlex He) as [He' Hnet].
  destruct (N.eqb_spec d' 0) as [->|Hd'].
  { split_and!; [done|done| |]; [by rewrite Hnet, Hnil|]. intros [|k] Hk; [cbn [take]; rewrite Hnil; lia|simpl in Hk; lia]. }
  destruct budget as [|[|budget]]; [lia| |].
  { split; [done|]. intros [|[|k]] Hk; [cbn [take]; rewrite Hnil; lia| |lia]. cbn [take]. rewrite Hnet, Hnil. lia. }
  specialize (IH (S budget) d' i' e' ltac:(lia) He' ltac:(lia) ltac:(lia)).
  destruct (read_object (S budget) d' i' e' l) as [[o|] rest]; cbn [fmap option_fmap option_map].
  - destruct IH as (-> & Hlen & Hz & Hpos). split_and!; [done|simpl; lia|by rewrite Hnet|].
    intros [|k] Hk; [cbn [take]; rewrite Hnil; lia|]. cbn [take]. rewrite Hnet. apply Hpos. simpl in Hk. lia.
  - destruct IH as [-> Hpos]. split; [done|].
    intros [|k] Hk; [cbn [take]; rewrite Hnil; lia|]. cbn [take]. rewrite Hnet. apply Hpos. lia.
Qed.

Section SnifferProperties.
Context (from_slice : bytes → option UsageFields).

(** The counts an object carries, when it is a usage object. *)
Definition counts (object : bytes) : option Usage :=
  fields ← from_slice object;
  let usage := Usage_from fields in
  if is_informative usage then Some usage else None.

(** The last informative object wins. *)
Definition after (found : option Usage) (objects : list bytes) : option Usage :=
  foldl (λ found object, or (counts object) found) found objects.

Lemma after_last objects : after None objects = last (omap counts objects).
Proof.
  induction objects as [|o objects IH] using rev_ind; [done|].
  unfold after in *. rewrite foldl_app, IH, omap_app. cbn [foldl omap list_omap].
  destruct (counts o); cbn [or]; [by rewrite last_snoc|by rewrite app_nil_r].
Qed.

Lemma finish_run s :
  finish_object from_slice s
  = (Done (), {| state := Searching 0; object := []; latest := or (counts (object s)) (latest s) |}).
Proof.
  unfold finish_object, get_state, set_sniffing, modify, mbind, M_mbind, counts. destruct s as [st o lt].
  rsimpl. destruct (from_slice o) as [f|]; rsimpl; [|done].
  by destruct (is_informative (Usage_from f)); rsimpl.
Qed.

(** A byte keeps the state well formed and finds what the reference finds. *)
Lemma feed_byte_step x s :
  sniffer_ok s →
  ∃ s', feed_byte from_slice x s = (Done (), s') ∧ sniffer_ok s'
    ∧ ∀ l, after (latest s) (pending (state s) (object s) (x :: l))
           = after (latest s') (pending (state s') (object s') l).
Proof.
  intros Hok. destruct s as [st o lt]. unfold sniffer_ok in Hok. simpl in Hok.
  unfold feed_byte, restart, set_sniffing, get_state, modify, expect, mbind, M_mbind, mret, M_mret.
  change (N.of_nat (length NEEDLE)) with 7%N. change (N.of_nat (length NULL)) with 4%N.
  destruct st as [k| | |k|d i e]; simpl in Hok; rsimpl.
  - destruct Hok as [Hk ->]. destruct (lookup_lt_is_Some_2 NEEDLE (N.to_nat k)) as [y Hy]; [simpl; lia|].
    rewrite Hy. rsimpl. destruct (Ascii.eqb_spec x y) as [->|Hne].
    + destruct (N.eqb_spec (k + 1) 7) as [Hk7|Hk7]; rsimpl; (eexists; split; [reflexivity|]); simpl.
      * split; [done|]. intros l. replace (N.to_nat k) with 6 in * by lia.
        injection Hy as <-. by rewrite <- scan_matched.
      * split; [by split; [lia|]|]. intros l.
        replace (N.to_nat (k + 1)) with (S (N.to_nat k)) by lia.
        rewrite (take_S_r NEEDLE _ y) by done. by rewrite <- app_assoc.
    + eexists; split; [reflexivity|]. simpl. split; [split; [unfold opens; destruct (Ascii.eqb _ _); lia|done]|].
      intros l. by rewrite scan_partial; [|lia|congruence].
  - subst o. destruct (Ascii.eqb x ":") eqn:Ec; [|destruct (is_ascii_whitespace x) eqn:Ew]; rsimpl;
      (eexists; split; [reflexivity|]); simpl; (split; [try done; by split; [apply opens_small|]|]);
      intros l; rewrite scan_colon_cons, Ec, ?Ew; [done..|]. by rewrite scan_opens.
  - subst o. destruct (Ascii.eqb x "{") eqn:Ec; [|destruct (Ascii.eqb_spec x "n") as [->|Hn];
      [|destruct (is_ascii_whitespace x) eqn:Ew]]; rsimpl;
      (eexists; split; [reflexivity|]); simpl;
      (split; [try done; try (by split; [apply opens_small|]); try (split_and!; simpl; done || lia)|]);
      intros l; rewrite scan_value_cons, ?Ec, ?Ew.
    + apply Ascii.eqb_eq in Ec as ->. done.
    + simpl. by rewrite scan_not_quote.
    + done.
    + by rewrite scan_opens.
  - destruct Hok as [Hk ->]. destruct (lookup_lt_is_Some_2 NULL (N.to_nat k)) as [y Hy]; [simpl; lia|].
    rewrite Hy. rsimpl. destruct (Ascii.eqb_spec x y) as [->|Hne].
    + assert (y ≠ QUOTE) as Hq by by intros ->; assert (N.to_nat k < 4) by lia;
        destruct (N.to_nat k) as [|[|[|[|]]]]; simpl in Hy; try lia.
      destruct (N.eqb_spec (k + 1) 4) as [Hk4|Hk4]; rsimpl; (eexists; split; [reflexivity|]); simpl.
      * split; [done|]. intros l. by rewrite scan_not_quote.
      * split; [split; [lia|done]|]. intros l. by rewrite scan_not_quote.
    + eexists; split; [reflexivity|]. simpl. split; [split; [unfold opens; destruct (Ascii.eqb _ _); lia|done]|].
      intros l. by rewrite scan_opens.
  - cbn [pending]. destruct Hok as (Hd1 & Hd2 & Hlen).
    destruct (lex_byte_depth x d i e) as (d' & i' & e' & Hlex & Hu & Hl); [lia|unfold U32_MAX; lia|].
    assert (∀ l, captured o (4096 - length o) d i e (x :: l)
      = if (d' =? 0)%N then (o ++ [x]) :: scan l
        else match 4095 - length o with O => scan l | S _ => captured (o ++ [x]) (4095 - length o) d' i' e' l end)
      as Hstep.
    { intros l. replace (4096 - length o) with (S (4095 - length o)) by lia. by rewrite captured_step, Hlex. }
    rewrite Hlex. unfold constant. cbn [state object latest]. destruct (N.eqb_spec d' 0) as [->|Hd'].
    + rewrite finish_run. eexists; split; [reflexivity|]. split; [done|].
      intros l. unfold state at 1, object at 1. by rewrite Hstep.
    + change MAX_OBJECT_BYTES with 4096%N. rewrite length_app. simpl (length [x]).
      destruct (N.leb_spec 4096 (N.of_nat (length o + 1))) as [Hbig|Hsmall]; rsimpl;
        (eexists; split; [reflexivity|]).
      * split; [done|]. intros l. rewrite Hstep. by replace (4095 - length o) with 0 by lia.
      * split; [split_and!; simpl; rewrite ?length_app; simpl; lia|].
        intros l. rewrite Hstep. cbn [pending state object latest].
        rewrite length_app. simpl (length [x]). destruct (4095 - length o) as [|k] eqn:Ek; [lia|].
        by replace (4096 - (length o + 1)) with (S k) by lia.
Qed.

Lemma sniffer_new_ok : sniffer_ok UsageSniffer_new.
Proof. by split. Qed.

(** A chunk, then another. *)
Lemma feed_run chunk s :
  sniffer_ok s →
  ∃ s', feed from_slice chunk s = (Done (), s') ∧ sniffer_ok s'
    ∧ ∀ l, after (latest s) (pending (state s) (object s) (chunk ++ l))
           = after (latest s') (pending (state s') (object s') l).
Proof.
  unfold feed. revert s. induction chunk as [|x chunk IH]; intros s Hok; simpl; [by exists s|].
  destruct (feed_byte_step x s Hok) as (s1 & Hrun & Hok1 & H1).
  destruct (IH s1 Hok1) as (s2 & Hrun2 & Hok2 & H2). exists s2.
  unfold mbind, M_mbind. rewrite Hrun. split; [done|]. split; [done|]. intros l. by rewrite H1, H2.
Qed.

Lemma chunks_run chunks s :
  sniffer_ok s →
  ∃ s', for_each chunks (feed from_slice) s = (Done (), s') ∧ sniffer_ok s'
    ∧ ∀ l, after (latest s) (pending (state s) (object s) (concat chunks ++ l))
           = after (latest s') (pending (state s') (object s') l).
Proof.
  revert s. induction chunks as [|c chunks IH]; intros s Hok; simpl; [by exists s|].
  destruct (feed_run c s Hok) as (s1 & Hrun & Hok1 & H1).
  destruct (IH s1 Hok1) as (s2 & Hrun2 & Hok2 & H2). exists s2.
  unfold mbind, M_mbind. rewrite Hrun. split; [done|]. split; [done|].
  intros l. by rewrite <- app_assoc, H1, H2.
Qed.

(** At the end of the text nothing more is found. *)
Lemma pending_nil s : sniffer_ok s → pending (state s) (object s) [] = [].
Proof.
  destruct s as [[k| | |k|d i e] o lt]; simpl; try done.
  intros [Hk _]. rewrite scan_equation.
  assert (∀ k, k < 7 → find_needle (take k NEEDLE ++ []) = None) as Hn.
  { intros [|[|[|[|[|[|[|n]]]]]]] ?; try lia; reflexivity. }
  by rewrite Hn by lia.
Qed.

(** C21: the sniffer finds what the reference scan finds.  However a body is cut into chunks,
    feeding them never panics (no index is out of bounds, no counter overflows), and the counts
    reported are those of the last informative object the scan finds in the whole body.  An object of
    the scan ends where the braces outside its strings are balanced for the first time, if that is
    within its first 4096 bytes; one that does not end there is passed over. *)
Theorem sniffer_scan (chunks : list bytes) :
  (∃ s, for_each chunks (feed from_slice) UsageSniffer_new = (Done (), s)
     ∧ usage s = last (omap counts (scan (concat chunks))))
  ∧ ∀ l, match read_object 4095 1 false false l with
         | (Some o, rest) => l = o ++ rest ∧ length o ≤ 4095 ∧ net o = (-1)%Z
             ∧ ∀ k, k < length o → (-1 < net (take k o))%Z
         | (None, rest) => rest = drop 4095 l ∧ ∀ k, k ≤ 4095 → (-1 < net (take k l))%Z
         end.
Proof.
  split.
  - destruct (chunks_run chunks UsageSniffer_new sniffer_new_ok) as (s & Hrun & Hok & Hs).
    exists s. split; [done|]. specialize (Hs []). rewrite pending_nil, app_nil_r in Hs by done.
    change (after None (scan (concat chunks)) = latest s) in Hs. rewrite after_last in Hs. by symmetry.
  - intros l. pose proof (read_object_net l 4095 1 false false ltac:(lia) ltac:(done) ltac:(lia) ltac:(vm_compute; done)) as H.
    destruct (read_object 4095 1 false false l) as [[o|] rest]; unfold net.
    + destruct H as (H1 & H2 & H3 & H4). split_and!; [done|done|lia|]. intros k Hk. specialize (H4 k Hk). lia.
    + destruct H as [H1 H2]. split; [done|]. intros k Hk. specialize (H2 k Hk). lia.
Qed.

(** The sniffer's memory is bounded.  At every point of every body the capture buffer holds
    fewer than [MAX_OBJECT_BYTES] bytes, and none outside a capture. *)
Theorem sniffer_bounded (body : bytes) :
  ∃ s, feed from_slice body UsageSniffer_new = (Done (), s)
    ∧ (N.of_nat (length (object s)) < MAX_OBJECT_BYTES)%N
    ∧ (object s ≠ [] → ∃ depth i e, state s = Capturing depth i e ∧ (1 ≤ depth)%N).
Proof.
  destruct (feed_run body UsageSniffer_new sniffer_new_ok) as (s & Hrun & Hok & _).
  exists s. split; [done|]. destruct s as [st o lt]. unfold sniffer_ok, MAX_OBJECT_BYTES in *. simpl in *.
  destruct st as [k| | |k|d i e]; simpl in Hok.
  - by destruct Hok as [_ ->].
  - by subst.
  - by subst.
  - by destruct Hok as [_ ->].
  - split; [lia|]. intros _. exists d, i, e. by destruct Hok.
Qed.
End SnifferProperties.

(** ** On a concrete body *)

(** A JSON text, written with single quotes. *)
Definition json (s : string) : bytes := (λ x, if Ascii.eqb x "'" then QUOTE else x) <$> bs s.

Example scan_nested :
  scan (json "{'x':'usage','usage' : {'d':{'c':'}'},'p':1},'usage':null,'usage':{'p':2}}")
  = [json "{'d':{'c':'}'},'p':1}"; json "{'p':2}"].
Proof. vm_compute. reflexivity. Qed.

Example scan_escaped :
  scan (json "{'content':'the \'usage\': {\'a\':1}','usage':7}") = [].
Proof. vm_compute. reflexivity. Qed.
