(* ===== verification/Keys.v ===== *)
(** * [src/src/keys.rs]: the on-disk key database

    Key records and their text format, the hex codec of their digests,
    validation, and the file that is replaced as a whole when it is saved.
    SHA-256, base64 and the system's randomness are parameters ([KeyCrypto]),
    as is the JSON codec; the clock and what reading a file or drawing random
    bytes gave are arguments. *)

From S2P Require Import Prelude RustStd Disk.

(** [sha2], [base64] and [subtle]. *)
Class KeyCrypto := {
  sha256 : bytes → bytes;
  url_safe_no_pad : bytes → bytes;
  ct_eq : bytes → bytes → bool;
  conditional_select : N → N → bool → N;
}.

(** src/src/keys.rs:23-23 [KEY_PREFIX] *)
Definition KEY_PREFIX : bytes := Eval cbv in bs "eb".
(** src/src/keys.rs:25-25 [IDENTIFIER_LEN] *)
Definition IDENTIFIER_LEN : nat := 8.
(** src/src/keys.rs:27-27 [SECRET_LEN] *)
Definition SECRET_LEN : nat := 32.
(** src/src/keys.rs:29-29 [SCHEMA_VERSION] *)
Definition SCHEMA_VERSION : N := 1.

Definition UNDERSCORE : ascii := "_".

(** src/src/keys.rs:32-34 [default_path] *)
Definition default_path : string := "keys.json".

(** src/src/keys.rs:38-48 [KeyRecord] *)
Record KeyRecord := mkKeyRecord {
  name : string;
  identifier : string;
  key_sha256 : string;
  admin : bool;
  disabled : bool;
  created_at_unix_ms : N;
}.

#[export] Instance KeyRecord_eq_dec : EqDecision KeyRecord.
Proof. solve_decision. Defined.

(** src/src/keys.rs:73-76 [KeyFile] *)
Record KeyFile := mkKeyFile { version : N; keys : list KeyRecord }.

#[export] Instance KeyFile_eq_dec : EqDecision KeyFile.
Proof. solve_decision. Defined.

(** src/src/keys.rs:78-85 [KeyFile::Default] *)
Definition KeyFile_default : KeyFile := {| version := SCHEMA_VERSION; keys := [] |}.

(** ** Digests and their hex text *)

Definition byte_of (n : N) : ascii := ascii_of_N n.

(** src/src/keys.rs:240-247 [hex_value] *)
Definition hex_value (byte : ascii) : option N :=
  if in_range 48 57 byte then Some (code byte - 48)%N
  else if in_range 97 102 byte then Some (code byte - 97 + 10)%N
  else if in_range 65 70 byte then Some (code byte - 65 + 10)%N
  else None.

(** src/src/keys.rs, lines 233-235 of [decode_digest]: the loop over the pairs *)
Fixpoint decode_pairs (pairs : bytes) : option bytes :=
  match pairs with
  | high :: low :: pairs =>
      high ← hex_value high;
      low ← hex_value low;
      rest ← decode_pairs pairs;
      Some (byte_of (N.lor (N.shiftl high 4) low) :: rest)
  | _ => Some []
  end.

(** src/src/keys.rs:228-238 [decode_digest] *)
Definition decode_digest (hex : bytes) : option bytes :=
  if negb (length hex =? 64) then None else decode_pairs hex.

Definition HEX_DIGITS : bytes := Eval cbv in bs "0123456789abcdef".

Definition hex_digit (n : N) : ascii := default "0"%char (HEX_DIGITS !! N.to_nat n).

(** src/src/keys.rs:250-259 [hex_encode] *)
Fixpoint hex_encode (l : bytes) : bytes :=
  match l with
  | [] => []
  | byte :: l =>
      hex_digit (N.shiftr (code byte) 4) :: hex_digit (N.land (code byte) 15) :: hex_encode l
  end.

(** ** The text of a key *)

Definition is_base64_char (byte : ascii) : bool :=
  is_ascii_alphanumeric byte || Ascii.eqb byte "-" || Ascii.eqb byte UNDERSCORE.

(** src/src/keys.rs:276-281 [is_base64_segment] *)
Definition is_base64_segment (segment : bytes) (length_ : nat) : bool :=
  (length segment =? length_) && forallb is_base64_char segment.

(** src/src/keys.rs:265-274 [identifier_of]; [split_at] panics inside a character *)
Definition identifier_of (key : bytes) : outcome (option bytes) :=
  match rest ← strip_prefix KEY_PREFIX key; strip_prefix [UNDERSCORE] rest with
  | None => Done None
  | Some rest =>
      if negb (length rest =? IDENTIFIER_LEN + 1 + SECRET_LEN) then Done None else
      match split_at IDENTIFIER_LEN rest with
      | Panicked => Panicked
      | Done (identifier, rest) =>
          match strip_prefix [UNDERSCORE] rest with
          | None => Done None
          | Some secret =>
              Done (if is_base64_segment identifier IDENTIFIER_LEN
                       && is_base64_segment secret SECRET_LEN
                    then Some identifier else None)
          end
      end
  end.

Section Keys.
Context `{KeyCrypto}.

(** src/src/keys.rs:223-225 [digest] *)
Definition digest (key : bytes) : bytes := sha256 key.

(** src/src/keys.rs:284-294 [random_base64]; [filled] is what filling a buffer of
    [length / 4 * 3] bytes gave *)
Definition random_base64 (length_ : nat) (filled : nat → result string bytes) :
    fallible IoError bytes :=
  match filled (length_ / 4 * 3) with
  | Err error => Done (Err {| kind := OtherKind;
                              io_message := "could not read system randomness: " +:+ error |})
  | Ok drawn =>
      let encoded := url_safe_no_pad drawn in
      if negb (length encoded =? length_) then Panicked else Done (Ok encoded)
  end.

(** src/src/keys.rs:53-68 [KeyRecord::generate]; [filled1] and [filled2] are the two draws *)
Definition generate (name : string) (admin : bool) (filled1 filled2 : nat → result string bytes)
    (now_unix_ms : N) : fallible IoError (KeyRecord * bytes) :=
  identifier ← random_base64 IDENTIFIER_LEN filled1;
  secret ← random_base64 SECRET_LEN filled2;
  let key := KEY_PREFIX ++ [UNDERSCORE] ++ identifier ++ [UNDERSCORE] ++ secret in
  mret ({| name := name;
           identifier := str identifier;
           key_sha256 := str (hex_encode (digest key));
           admin := admin;
           disabled := false;
           created_at_unix_ms := now_unix_ms |}, key).
End Keys.

(** ** Validation *)

(** src/src/keys.rs, lines 127-158 of [KeyFile::validate]: the loop; [earlier] is
    [self.keys[..index]] *)
Fixpoint validate_keys (earlier l : list KeyRecord) : result string () :=
  match l with
  | [] => Ok ()
  | key :: l =>
      let position := to_string (N.of_nat (length earlier) + 1) in
      if bool_decide (trim (bs (name key)) = []) then Err ("key " +:+ position +:+ " has an empty name")
      else if negb (is_base64_segment (bs (identifier key)) IDENTIFIER_LEN)
      then Err ("key " +:+ position +:+ " has identifier " +:+ fmt_debug (identifier key)
                +:+ ", expected 8 base64 characters")
      else if bool_decide (decode_digest (bs (key_sha256 key)) = None)
      then Err ("key " +:+ position +:+ " has a key_sha256 that is not 64 hex characters")
      else if existsb (λ e, String.eqb (identifier e) (identifier key)) earlier
      then Err ("identifier " +:+ identifier key +:+ " appears twice")
      else if existsb (λ e, eq_ignore_ascii_case (bs (key_sha256 e)) (bs (key_sha256 key))) earlier
      then Err ("the digest for key " +:+ position +:+ " (" +:+ name key +:+ ") appears twice")
      else validate_keys (earlier ++ [key]) l
  end.

(** src/src/keys.rs:120-161 [KeyFile::validate] *)
Definition validate (self : KeyFile) : result string () :=
  if negb (version self =? SCHEMA_VERSION)%N
  then Err ("unsupported schema version " +:+ to_string (version self)
            +:+ " (this build understands 1)")
  else validate_keys [] (keys self).

(** ** The file *)

Section KeyFiles.
Context `{JsonOps KeyFile}.

(** src/src/keys.rs:89-110 [KeyFile::load]; [read] is what reading the file gave *)
Definition load (path : string) (read : result IoError bytes) : result IoError KeyFile :=
  contents ← map_err (λ error, {| kind := kind error;
      io_message := "could not read key file " +:+ path +:+ ": " +:+ io_message error |}) read;
  file ← map_err (λ error, {| kind := InvalidData;
      io_message := "could not parse key file " +:+ path +:+ ": " +:+ error |}) (from_str contents);
  _ ← map_err (λ message, {| kind := InvalidData;
      io_message := "invalid key file " +:+ path +:+ ": " +:+ message |}) (validate file);
  mret file.

(** src/src/keys.rs:113-118 [KeyFile::load_or_default] *)
Definition load_or_default (path : string) (read : result IoError bytes) : result IoError KeyFile :=
  match load path read with
  | Err error => if bool_decide (kind error = NotFound) then Ok KeyFile_default else Err error
  | other => other
  end.

(** src/src/keys.rs:200-206 [temporary_name]; the sibling that is written: the name of the file, if its path has one, and the
    process id *)
Definition temporary_name (file_name : option string) (process_id : N) : string :=
  "." +:+ default "keys.json" file_name +:+ "." +:+ to_string process_id +:+ ".tmp".

(** src/src/keys.rs:167-197 [KeyFile::save] *)
Definition save (faults : Faults) (self : KeyFile) : M Disk (result IoError ()) :=
  _ ←? mret (map_err (λ message, {| kind := InvalidData; io_message := message |}) (validate self));
  json ←? mret (map_err (λ message, {| kind := OtherKind; io_message := message |})
                  (to_vec_pretty self));
  let json := json ++ [LF] in
  _ ←? open_temporary faults;
  result ← (_ ←? write_all faults json;
            _ ←? sync_all faults;
            _ ←? harden_permissions faults;
            rename faults);
  _ ← (if negb (is_ok result) then remove_temporary else mret ());
  mret result.
End KeyFiles.

(** ** The hex codec *)

(** What the two digits of a byte denote. *)
Lemma hex_byte x :
  hex_value (hex_digit (N.shiftr (code x) 4)) = Some (N.shiftr (code x) 4)
  ∧ hex_value (hex_digit (N.land (code x) 15)) = Some (N.land (code x) 15)
  ∧ byte_of (N.lor (N.shiftl (N.shiftr (code x) 4) 4) (N.land (code x) 15)) = x.
Proof. revert x. refine (byte_decide _ _). vm_compute. reflexivity. Qed.

(** What a digit denotes is below 16, and its digit is its lowercase form. *)
Lemma hex_value_digit x n :
  hex_value x = Some n → (n < 16)%N ∧ hex_digit n = to_ascii_lowercase x.
Proof.
  intros Hn. assert (∀ x, let n := default 0%N (hex_value x) in
    (n < 16)%N ∧ (is_Some (hex_value x) → hex_digit n = to_ascii_lowercase x)) as Hall.
  { refine (byte_decide _ _). vm_compute. reflexivity. }
  destruct (Hall x) as [H1 H2]. rewrite Hn in H1, H2. split; [exact H1|by apply H2].
Qed.

Lemma nibbles h l :
  (h < 16)%N → (l < 16)%N →
  N.shiftr (code (byte_of (N.lor (N.shiftl h 4) l))) 4 = h
  ∧ N.land (code (byte_of (N.lor (N.shiftl h 4) l))) 15 = l.
Proof.
  intros Hh Hl. unfold code, byte_of.
  assert (Forall (λ h, Forall (λ l,
    N.shiftr (N_of_ascii (ascii_of_N (N.lor (N.shiftl h 4) l))) 4 = h
    ∧ N.land (N_of_ascii (ascii_of_N (N.lor (N.shiftl h 4) l))) 15 = l)
    (N.of_nat <$> seq 0 16)) (N.of_nat <$> seq 0 16)) as Hall.
  { apply (bool_decide_unpack _). vm_compute. exact I. }
  assert (∀ n, (n < 16)%N → n ∈ (N.of_nat <$> seq 0 16)) as Hin.
  { intros n Hn. apply list_elem_of_fmap. exists (N.to_nat n). split; [lia|]. apply elem_of_seq. lia. }
  exact (proj1 (Forall_forall _ _) (proj1 (Forall_forall _ _) Hall h (Hin h Hh)) l (Hin l Hl)).
Qed.

Lemma hex_encode_length l : length (hex_encode l) = 2 * length l.
Proof. induction l as [|x l IH]; simpl; [done|]. lia. Qed.

Lemma decode_encode_pairs l : decode_pairs (hex_encode l) = Some l.
Proof.
  induction l as [|x l IH]; cbn [hex_encode decode_pairs]; [done|].
  destruct (hex_byte x) as (-> & -> & Hx). cbn. rewrite IH. cbn. by rewrite Hx.
Qed.

Lemma decode_pairs_Some k h d :
  length h = 2 * k → decode_pairs h = Some d →
  length d = k ∧ hex_encode d = to_ascii_lowercase <$> h.
Proof.
  revert h d. induction k as [|k IH]; intros [|a [|b h]] d Hlen; try (simpl in Hlen; lia).
  { intros [= <-]. done. }
  cbn [decode_pairs]. destruct (hex_value a) as [x|] eqn:Ea; [|done].
  destruct (hex_value b) as [y|] eqn:Eb; [|done]. cbn.
  destruct (decode_pairs h) as [r|] eqn:Er; [|done]. intros [= <-].
  destruct (IH h r) as [H1 H2]; [simpl in Hlen; lia|done|].
  apply hex_value_digit in Ea as [Hx Ea]. apply hex_value_digit in Eb as [Hy Eb].
  destruct (nibbles x y Hx Hy) as [Nx Ny].
  split; [simpl; by rewrite H1|]. cbn [hex_encode]. by rewrite Nx, Ny, Ea, Eb, H2.
Qed.

(** The accepted texts. *)
Lemma decode_digest_Some h d :
  decode_digest h = Some d → length d = 32 ∧ hex_encode d = to_ascii_lowercase <$> h ∧ length h = 64.
Proof.
  unfold decode_digest. destruct (Nat.eqb_spec (length h) 64) as [Hh|Hh]; simpl; [|done].
  intros E. apply (decode_pairs_Some 32) in E as [H1 H2]; [by split_and!|lia].
Qed.

(** The hex codec.  Every 32-byte digest is read back from its text; and a text is accepted
    exactly when it is 64 hex digits, and then names one 32-byte digest whose text is the
    lowercase form of it. *)
Theorem hex_roundtrip (d h : bytes) :
  (length d = 32 → decode_digest (hex_encode d) = Some d)
  ∧ match decode_digest h with
    | Some d => length d = 32 ∧ hex_encode d = to_ascii_lowercase <$> h ∧ length h = 64
    | None => length h ≠ 64 ∨ ∃ x, x ∈ h ∧ hex_value x = None
    end.
Proof.
  split.
  - intros Hd. unfold decode_digest. rewrite hex_encode_length, Hd. simpl. apply decode_encode_pairs.
  - destruct (decode_digest h) as [e|] eqn:E; [by apply decode_digest_Some|]. revert E.
    unfold decode_digest. destruct (Nat.eqb_spec (length h) 64) as [Hh|Hh]; simpl; [|by left].
    destruct (decode_pairs h) as [e|] eqn:E; [done|intros _].
    right. revert E. assert (length h = 2 * 32) as Hlen by lia. revert Hlen. generalize 32 as k.
      clear. intros k. revert h. induction k as [|k IH]; intros [|a [|b h]] Hlen; try (simpl in Hlen; lia); [done|].
      cbn [decode_pairs]. destruct (hex_value a) eqn:Ea; [|intros _; exists a; split; [left|done]].
      destruct (hex_value b) eqn:Eb; [|intros _; exists b; split; [right; left|done]].
      cbn. destruct (decode_pairs h) eqn:Er; [done|]. intros _.
      destruct (IH h) as (x & Hx & Hn); [simpl in Hlen; lia|done|]. exists x. split; [by do 2 right|done].
Qed.

(** ** What validation accepts *)

Definition record_digest (key : KeyRecord) : option bytes := decode_digest (bs (key_sha256 key)).

Definition record_ok (key : KeyRecord) : Prop :=
  trim (bs (name key)) ≠ [] ∧ is_base64_segment (bs (identifier key)) IDENTIFIER_LEN = true
  ∧ record_digest key ≠ None.

Definition key_file_valid (file : KeyFile) : Prop :=
  version file = SCHEMA_VERSION ∧ Forall record_ok (keys file)
  ∧ NoDup (identifier <$> keys file) ∧ NoDup (record_digest <$> keys file).

Lemma eq_ignore_ascii_case_spec a b :
  eq_ignore_ascii_case a b = true ↔ to_ascii_lowercase <$> a = to_ascii_lowercase <$> b.
Proof.
  revert b. induction a as [|x a IH]; intros [|y b]; cbn [eq_ignore_ascii_case]; rewrite ?fmap_cons; [done..|].
  rewrite andb_true_iff, Ascii.eqb_eq, IH. split; [intros [? ?]; congruence|by intros [= ? ?]].
Qed.

(** Two digest texts of the same digest differ in case only. *)
Lemma same_digest a b da db :
  decode_digest a = Some da → decode_digest b = Some db →
  eq_ignore_ascii_case a b = true ↔ da = db.
Proof.
  intros Ha Hb. destruct (decode_digest_Some a da Ha) as (_ & E1 & _).
  destruct (decode_digest_Some b db Hb) as (_ & E2 & _).
  rewrite eq_ignore_ascii_case_spec, <- E1, <- E2. split; [|by intros ->].
  intros E. apply (f_equal decode_pairs) in E. rewrite !decode_encode_pairs in E. by injection E.
Qed.

(** No element of [l] repeats a value of [earlier] or of the elements before it. *)
Definition fresh_in {A} (f : KeyRecord → A) (earlier l : list KeyRecord) : Prop :=
  NoDup (f <$> l) ∧ ∀ x, x ∈ l → f x ∉ f <$> earlier.

Lemma fresh_in_cons {A} (f : KeyRecord → A) earlier k l :
  fresh_in f earlier (k :: l) ↔ f k ∉ f <$> earlier ∧ fresh_in f (earlier ++ [k]) l.
Proof.
  unfold fresh_in. rewrite fmap_cons, NoDup_cons, fmap_app. simpl. setoid_rewrite elem_of_app.
  setoid_rewrite list_elem_of_singleton. setoid_rewrite elem_of_cons. split.
  - intros [[Hk Hnd] Hf]. split; [apply Hf; by left|]. split; [done|].
    intros x Hx [Hin|Heq]; [by apply (Hf x); [right|]|]. apply Hk. rewrite <- Heq.
    by apply list_elem_of_fmap_2.
  - intros [Hk [Hnd Hf]]. split; [split; [|done]|].
    + intros (x & Hx & Hin)%list_elem_of_fmap. apply (Hf x Hin). by right.
    + intros x [->|Hx]; [done|]. intros Hin. apply (Hf x Hx). by left.
Qed.

Lemma fresh_in_nil {A} (f : KeyRecord → A) l : fresh_in f [] l ↔ NoDup (f <$> l).
Proof. unfold fresh_in. split; [by intros [? _]|]. intros ?. split; [done|]. intros x _ Hx. by apply elem_of_nil in Hx. Qed.

Lemma validate_keys_Ok earlier l :
  Forall record_ok earlier →
  validate_keys earlier l = Ok ()
  ↔ Forall record_ok l ∧ fresh_in identifier earlier l ∧ fresh_in record_digest earlier l.
Proof.
  revert earlier. induction l as [|k l IH]; intros earlier Hok; cbn [validate_keys].
  { split; [|done]. intros _. split; [done|].
    split; (split; [constructor|by intros x ?%elem_of_nil]). }
  rewrite Forall_cons, !fresh_in_cons. unfold record_ok at 1, record_digest at 1.
  case_bool_decide as H1; [naive_solver|].
  destruct (is_base64_segment _ _) eqn:H2; simpl; [|naive_solver].
  case_bool_decide as H3; [naive_solver|].
  assert (existsb (λ e, String.eqb (identifier e) (identifier k)) earlier = true
    ↔ identifier k ∈ identifier <$> earlier) as H4.
  { rewrite existsb_exists, list_elem_of_fmap. setoid_rewrite <- list_elem_of_In.
    setoid_rewrite String.eqb_eq. naive_solver. }
  assert (existsb (λ e, eq_ignore_ascii_case (bs (key_sha256 e)) (bs (key_sha256 k))) earlier = true
    ↔ record_digest k ∈ record_digest <$> earlier) as H5.
  { destruct (decode_digest (bs (key_sha256 k))) as [d|] eqn:Ed; [|done].
    rewrite existsb_exists, list_elem_of_fmap. setoid_rewrite <- list_elem_of_In.
    rewrite Forall_forall in Hok. unfold record_digest. rewrite Ed. split.
    - intros (e & He & Heq). destruct (Hok e He) as (_ & _ & Hd). unfold record_digest in Hd.
      destruct (decode_digest (bs (key_sha256 e))) as [d'|] eqn:Ed'; [|done].
      apply (same_digest _ _ d' d) in Heq as ->; [|done|done]. by exists e.
    - intros (e & He & Hin). exists e. split; [done|]. by apply (same_digest _ _ d d). }
  destruct (existsb (λ e, String.eqb (identifier e) (identifier k)) earlier); [naive_solver|].
  destruct (existsb (λ e, eq_ignore_ascii_case (bs (key_sha256 e)) (bs (key_sha256 k))) earlier);
    [naive_solver|].
  assert (record_ok k) as Hk by done.
  rewrite IH by (apply Forall_app; split; [done|by constructor]).
  split.
  - intros (Ha & Hb & Hc). split_and!; try done; [by intros ?%H4|by intros ?%H5].
  - intros ((_ & Ha) & (_ & Hb) & _ & Hc). by split_and!.
Qed.

Lemma key_validate_Ok (file : KeyFile) : validate file = Ok () ↔ key_file_valid file.
Proof.
  unfold validate, key_file_valid. destruct (N.eqb_spec (version file) SCHEMA_VERSION) as [Hv|Hv]; simpl.
  - rewrite validate_keys_Ok by constructor. rewrite !fresh_in_nil. naive_solver.
  - naive_solver.
Qed.

(** What a key file may hold.  Validation accepts exactly the files of the schema version
    whose keys each have a name that is not blank, an identifier of eight base64 characters and
    a digest, with no identifier and no digest (whatever its letter case) used twice. *)
Theorem validate_spec (file : KeyFile) : validate file = Ok () ↔ key_file_valid file.
Proof. apply key_validate_Ok. Qed.

(** ** The text of a key *)

Definition key_text (identifier secret : bytes) : bytes :=
  KEY_PREFIX ++ [UNDERSCORE] ++ identifier ++ [UNDERSCORE] ++ secret.

Lemma is_base64_segment_spec segment n :
  is_base64_segment segment n = true ↔ length segment = n ∧ Forall (λ x, is_base64_char x = true) segment.
Proof.
  unfold is_base64_segment. rewrite andb_true_iff, Nat.eqb_eq, forallb_forall, Forall_forall.
  by setoid_rewrite <- list_elem_of_In.
Qed.

Lemma base64_not_continuation x : is_base64_char x = true → is_continuation x = false.
Proof.
  revert x. refine (byte_decide (λ x, is_base64_char x = true → is_continuation x = false) _).
  vm_compute. reflexivity.
Qed.

(** The identifier of a key.  [identifier_of] returns the identifier of every text of the
    form [eb_<identifier>_<secret>] and of no other; but on a text of that length whose ninth
    character position after the prefix falls inside a multi-byte character it panics instead
    of returning [None]. *)
Theorem identifier_of_spec (key : bytes) :
  match identifier_of key with
  | Done (Some id) => ∃ secret, key = key_text id secret
      ∧ is_base64_segment id IDENTIFIER_LEN = true ∧ is_base64_segment secret SECRET_LEN = true
  | Done None => ¬ ∃ id secret, key = key_text id secret
      ∧ is_base64_segment id IDENTIFIER_LEN = true ∧ is_base64_segment secret SECRET_LEN = true
  | Panicked => ∃ before x after, key = KEY_PREFIX ++ [UNDERSCORE] ++ before ++ x :: after
      ∧ length before = IDENTIFIER_LEN ∧ length after = SECRET_LEN ∧ is_continuation x = true
  end.
Proof.
  unfold identifier_of.
  assert (∀ rest, (rest ← strip_prefix KEY_PREFIX key; strip_prefix [UNDERSCORE] rest) = Some rest
    ↔ key = KEY_PREFIX ++ [UNDERSCORE] ++ rest) as Hp.
  { intros rest. rewrite bind_Some. setoid_rewrite strip_prefix_Some. naive_solver. }
  assert (∀ rest id secret, key = KEY_PREFIX ++ [UNDERSCORE] ++ rest → key = key_text id secret →
    rest = id ++ [UNDERSCORE] ++ secret) as Htext.
  { intros rest id secret -> Hk. unfold key_text in Hk. by simplify_list_eq. }
  destruct (rest ← strip_prefix KEY_PREFIX key; _) as [rest|] eqn:Ep.
  2:{ intros (id & secret & Hk & _). specialize (Hp (id ++ [UNDERSCORE] ++ secret)).
      apply Hp in Hk. congruence. }
  assert (key = KEY_PREFIX ++ [UNDERSCORE] ++ rest) as Hkey by by apply Hp.
  destruct (Nat.eqb_spec (length rest) (IDENTIFIER_LEN + 1 + SECRET_LEN)) as [Hlen|Hlen]; simpl negb; cbv iota.
  2:{ intros (id & secret & Hk & Hid & Hs). apply is_base64_segment_spec in Hid as [Hid _], Hs as [Hs _].
      apply Hlen. rewrite (Htext _ _ _ Hkey Hk), !length_app, Hid, Hs. done. }
  destruct (drop IDENTIFIER_LEN rest) as [|x after] eqn:Ed.
  { apply (f_equal length) in Ed. rewrite length_drop, Hlen in Ed. done. }
  assert (rest = take IDENTIFIER_LEN rest ++ x :: after) as Hrest by (rewrite <- Ed; by rewrite take_drop).
  assert (length (take IDENTIFIER_LEN rest) = IDENTIFIER_LEN) as Ht by (rewrite length_take, Hlen; done).
  assert (length after = SECRET_LEN) as Ha.
  { apply (f_equal length) in Ed. rewrite length_drop, Hlen in Ed. simpl in Ed. unfold IDENTIFIER_LEN, SECRET_LEN in *. simpl in Ed. lia. }
  unfold split_at, is_char_boundary. rewrite Ed. simpl orb.
  destruct (is_continuation x) eqn:Ex; simpl negb; cbv iota.
  { exists (take IDENTIFIER_LEN rest), x, after. by rewrite <- Hrest. }
  cbn [strip_prefix]. destruct (Ascii.eqb_spec UNDERSCORE x) as [<-|Hx].
  2:{ intros (id & secret & Hk & Hid & Hs). apply is_base64_segment_spec in Hid as [Hid _].
      pose proof (Htext _ _ _ Hkey Hk) as E. rewrite E in Ed. rewrite <- Hid, drop_app_length in Ed.
      by injection Ed as <- _. }
  destruct (is_base64_segment (take IDENTIFIER_LEN rest) _ && _) eqn:Eb.
  - apply andb_true_iff in Eb as [Hid Hs]. exists after. split; [|done].
    rewrite Hkey. unfold key_text. by rewrite Hrest at 1.
  - intros (id & secret & Hk & Hid & Hs). pose proof (Htext _ _ _ Hkey Hk) as E.
    pose proof Hid as [Hl _]%is_base64_segment_spec. rewrite E in Ed, Eb.
    rewrite <- Hl, drop_app_length in Ed. injection Ed as <-.
    rewrite <- Hl, take_app_length in Eb. rewrite Hl, Hid, Hs in Eb. done.
Qed.

(** ** Minting a key *)

(** What [sha2], [base64] and [subtle] document. *)
Class KeyCryptoLaws `{KeyCrypto} : Prop := {
  sha256_length : ∀ b, length (sha256 b) = 32;
  base64_length : ∀ b k, length b = k * 3 → length (url_safe_no_pad b) = k * 4;
  base64_alphabet : ∀ b, Forall (λ x, is_base64_char x = true) (url_safe_no_pad b);
  ct_eq_spec : ∀ a b, ct_eq a b = true ↔ a = b;
  conditional_select_spec : ∀ a b c, conditional_select a b c = if c then b else a;
}.

Section Minting.
Context `{KeyCryptoLaws}.

Lemma random_base64_run n filled b :
  n mod 4 = 0 → filled (n / 4 * 3) = Ok b → length b = n / 4 * 3 →
  ∃ segment, random_base64 n filled = Done (Ok segment) ∧ is_base64_segment segment n = true.
Proof.
  intros Hn Hf Hb. exists (url_safe_no_pad b). unfold random_base64. rewrite Hf.
  assert (length (url_safe_no_pad b) = n) as Hl.
  { rewrite (base64_length b (n / 4)) by done. pose proof (Nat.div_mod_eq n 4). lia. }
  split; [by rewrite Hl, Nat.eqb_refl|]. apply is_base64_segment_spec. split; [done|apply base64_alphabet].
Qed.

Lemma identifier_of_text id secret :
  is_base64_segment id IDENTIFIER_LEN = true → is_base64_segment secret SECRET_LEN = true →
  identifier_of (key_text id secret) = Done (Some id).
Proof.
  intros Hid Hs. pose proof Hid as [Hl Hc]%is_base64_segment_spec.
  pose proof Hs as [Hl' _]%is_base64_segment_spec.
  assert (length (id ++ UNDERSCORE :: secret) = IDENTIFIER_LEN + 1 + SECRET_LEN) as Hlen.
  { rewrite length_app. simpl. rewrite Hl, Hl'. done. }
  assert ((rest ← strip_prefix KEY_PREFIX (key_text id secret); strip_prefix [UNDERSCORE] rest)
    = Some (id ++ UNDERSCORE :: secret)) as Hp by done.
  assert (split_at IDENTIFIER_LEN (id ++ UNDERSCORE :: secret) = Done (id, UNDERSCORE :: secret)) as Hsp
    by (rewrite <- Hl; by apply split_at_app).
  unfold identifier_of. rewrite Hp, Hlen, Nat.eqb_refl, Hsp.
  change (strip_prefix [UNDERSCORE] (UNDERSCORE :: secret)) with (Some secret).
  cbv beta iota delta [negb]. by rewrite Hid, Hs.
Qed.

Lemma digest_text key : decode_digest (hex_encode (digest key)) = Some (sha256 key).
Proof.
  unfold decode_digest, digest. rewrite hex_encode_length, sha256_length. simpl.
  apply decode_encode_pairs.
Qed.

Lemma generate_Ok label is_admin filled1 filled2 now record key :
  generate label is_admin filled1 filled2 now = Done (Ok (record, key)) →
  name record = label ∧ admin record = is_admin ∧ disabled record = false
  ∧ record_digest record = Some (sha256 key).
Proof.
  unfold generate, mbind, fallible_mbind.
  destruct (random_base64 IDENTIFIER_LEN filled1) as [[id|]|]; [|done..].
  destruct (random_base64 SECRET_LEN filled2) as [[secret|]|]; [|done..].
  intros [= <- <-]. unfold record_digest. cbn [key_sha256]. by rewrite bs_str, digest_text.
Qed.

(** A minted key.  When the system provides randomness, [generate] returns a key of the
    documented form and its record: the record's identifier is the key's, its digest is the
    SHA-256 of the key, it is enabled, and with a name that is not blank it is a record that
    validation accepts. *)
Theorem generate_spec (label : string) (is_admin : bool) (filled1 filled2 : nat → result string bytes)
    (b1 b2 : bytes) (now : N) :
  filled1 6 = Ok b1 → length b1 = 6 → filled2 24 = Ok b2 → length b2 = 24 →
  ∃ record key, generate label is_admin filled1 filled2 now = Done (Ok (record, key))
    ∧ identifier_of key = Done (Some (bs (identifier record)))
    ∧ record_digest record = Some (sha256 key)
    ∧ name record = label ∧ admin record = is_admin ∧ disabled record = false
    ∧ (trim (bs label) ≠ [] → record_ok record).
Proof.
  intros H1 L1 H2 L2.
  destruct (random_base64_run IDENTIFIER_LEN filled1 b1) as (id & Hid & Sid); [done..|].
  destruct (random_base64_run SECRET_LEN filled2 b2) as (secret & Hs & Ss); [done..|].
  unfold generate, mbind, fallible_mbind. rewrite Hid, Hs. eexists _, _. split; [reflexivity|].
  unfold record_ok, record_digest. cbn [identifier key_sha256 name admin disabled].
  rewrite !bs_str, digest_text. split_and!; try done. by apply identifier_of_text.
Qed.
End Minting.

(** ** Saving and loading *)

Section Saving.
Context `{JsonLaws KeyFile}.

Lemma key_load_saved path file json :
  key_file_valid file → to_vec_pretty file = Ok json → load path (Ok (json ++ [LF])) = Ok file.
Proof.
  intros Hv%key_validate_Ok Hj. unfold load. simpl. rewrite (json_roundtrip _ _ Hj). simpl. by rewrite Hv.
Qed.

Lemma key_save_run faults file d json :
  key_file_valid file → to_vec_pretty file = Ok json →
  ∃ r d', save faults file d = (Done r, d')
    ∧ (∃ pts, crash_points d' = crash_points d ++ pts
              ∧ Forall (λ p, p = target d ∨ p = Some (json ++ [LF])) pts)
    ∧ target d' = (if is_ok r then Some (json ++ [LF]) else target d)
    ∧ (is_ok r = false → ∃ step, is_Some (fault faults step)).
Proof.
  intros Hv%key_validate_Ok Hj. destruct d as [t tmp cp], faults as [fl w].
  unfold save, open_temporary, write_all, sync_all, harden_permissions,
    rename, remove_temporary, modify, try_bind, mbind, M_mbind,
    mret, M_mret, io_step. rewrite Hv, Hj. simpl.
  destruct (fl OpenTemp) eqn:E2; rsimpl;
    [|destruct (fl WriteAll) eqn:E3; rsimpl; [|destruct (fl SyncFile) eqn:E4; rsimpl;
    [|destruct (fl Harden) eqn:E5; rsimpl; [|destruct (fl Rename) eqn:E6; rsimpl]]]];
    eexists _, _; (split; [reflexivity|]); simpl; rewrite <- ?app_assoc; simpl;
    (split; [eexists; split; [reflexivity|]; repeat (constructor; [by auto|]); constructor|]);
    (split; [done|]); try done; intros _; by eexists _, _.
Qed.

(** Saving any file. *)
Lemma save_total faults file path d :
  ∃ r d', save faults file d = (Done r, d')
    ∧ if is_ok r then key_file_valid file ∧ load path (read_target d') = Ok file
      else target d' = target d.
Proof.
  destruct (validate file) as [[]|e] eqn:Hv.
  - apply key_validate_Ok in Hv. destruct (json_total file) as [json Hj].
    destruct (key_save_run faults file d json Hv Hj) as (r & d' & Hrun & _ & Ht & _).
    exists r, d'. split; [done|]. destruct r; simpl in *; [|done]. split; [done|].
    unfold read_target. rewrite Ht. by apply key_load_saved.
  - eexists _, d. unfold save, try_bind at 1, mbind at 1, M_mbind at 1, mret at 1, M_mret at 1.
    rewrite Hv. simpl. split; [reflexivity|]. done.
Qed.

(** Saving the key file.  Saving a valid file either replaces the database, and loading it
    then gives the file that was saved, or fails on a storage fault and leaves the old database
    byte for byte; and wherever the process dies in between, loading gives what was there
    before or the file that was being saved. *)
Theorem save_atomic (faults : Faults) (file : KeyFile) (path : string) (d : Disk) :
  key_file_valid file → crash_points d = [] →
  ∃ r d', save faults file d = (Done r, d')
    ∧ (if is_ok r then load path (read_target d') = Ok file
       else target d' = target d ∧ ∃ step, is_Some (fault faults step))
    ∧ ∀ t, t ∈ crash_points d' →
        t = target d ∨ load path (read_target (disk_of t)) = Ok file.
Proof.
  intros Hv Hcp. destruct (json_total file) as [json Hj].
  destruct (key_save_run faults file d json Hv Hj) as (r & d' & Hrun & (pts & Hp & Hall) & Ht & Hf).
  exists r, d'. split; [done|]. split.
  - destruct r; simpl in *; [|by split; [|apply Hf]]. unfold read_target. rewrite Ht. by apply key_load_saved.
  - intros t Hin. rewrite Hp, Hcp in Hin. simpl in Hin.
    destruct (proj1 (Forall_forall _ _) Hall t Hin) as [->| ->]; [by left|right].
    unfold read_target. simpl. by apply key_load_saved.
Qed.
End Saving.

(** ** Concrete parameters

    Base64 itself on whole groups of three bytes, and a digest that keeps the
    end of the text. *)

Definition B64_ALPHABET : bytes :=
  Eval cbv in bs "ABCDEFGHIJKLMNOPQRSTUVWXYZabcdefghijklmnopqrstuvwxyz0123456789-_".

Definition b64_char (n : N) : ascii := default "A"%char (B64_ALPHABET !! N.to_nat n).

Fixpoint b64_encode (l : bytes) : bytes :=
  match l with
  | a :: b :: c :: l =>
      let n := (code a * 65536 + code b * 256 + code c)%N in
      b64_char (n / 262144) :: b64_char (n / 4096 mod 64) :: b64_char (n / 64 mod 64)
        :: b64_char (n mod 64) :: b64_encode l
  | _ => []
  end.

#[export] Instance demo_crypto : KeyCrypto := {
  sha256 := λ b, take 32 (rev b ++ replicate 32 "0"%char);
  url_safe_no_pad := b64_encode;
  ct_eq := λ a b, bool_decide (a = b);
  conditional_select := λ a b (c : bool), if c then b else a;
}.

Lemma b64_char_ok n : is_base64_char (b64_char n) = true.
Proof.
  unfold b64_char. destruct (B64_ALPHABET !! N.to_nat n) as [x|] eqn:E; [|done].
  apply list_elem_of_lookup_2 in E. revert x E. apply Forall_forall.
  apply (bool_decide_unpack _). vm_compute. exact I.
Qed.

Lemma b64_encode_length k l : length l = k * 3 → length (b64_encode l) = k * 4.
Proof.
  revert l. induction k as [|k IH]; intros [|a [|b [|c l]]] Hl; try (simpl in Hl; lia); [done|].
  simpl in *. rewrite IH; lia.
Qed.

Lemma b64_encode_ok k l : length l ≤ k → Forall (λ x, is_base64_char x = true) (b64_encode l).
Proof.
  revert l. induction k as [|k IH]; intros [|a [|b [|c l]]] Hl; try (constructor; fail); simpl in Hl; [lia|].
  cbn [b64_encode]. repeat (constructor; [apply b64_char_ok|]). apply IH. lia.
Qed.

#[export] Instance demo_crypto_laws : KeyCryptoLaws.
Proof.
  split; cbn [sha256 url_safe_no_pad ct_eq conditional_select demo_crypto].
  - intros b. rewrite length_take, length_app, length_replicate. lia.
  - intros b k. apply b64_encode_length.
  - intros b. by eapply b64_encode_ok.
  - intros a b. apply bool_decide_eq_true.
  - done.
Qed.

#[export] Instance KeyRecord_countable : Countable KeyRecord.
Proof.
  by apply (inj_countable'
    (λ r, (name r, identifier r, key_sha256 r, admin r, disabled r, created_at_unix_ms r))
    (λ '(n, i, k, a, d, c), mkKeyRecord n i k a d c)); intros [].
Defined.

#[export] Instance KeyFile_countable : Countable KeyFile.
Proof. by apply (inj_countable' (λ f, (version f, keys f)) (λ '(v, k), mkKeyFile v k)); intros []. Defined.

#[export] Instance KeyFile_json : JsonOps KeyFile := countable_json KeyFile.
#[export] Instance KeyFile_json_laws : JsonLaws KeyFile := countable_json_laws KeyFile.

(** Two draws, and the keys they give. *)
Definition demo_draw (seed : ascii) (n : nat) : result string bytes := Ok (replicate n seed).

Theorem generate_spec_witness :
  ∃ record key, generate "alice" true (demo_draw "a") (demo_draw "b") 7 = Done (Ok (record, key))
    ∧ identifier_of key = Done (Some (bs (identifier record))) ∧ admin record = true.
Proof.
  destruct (generate_spec "alice" true (demo_draw "a") (demo_draw "b") (replicate 6 "a"%char)
    (replicate 24 "b"%char) 7) as (record & key & H1 & H2 & _ & _ & H3 & _); try reflexivity.
  exists record, key. split; [exact H1|]. split; [exact H2|exact H3].
Defined.

Definition demo_record (label : string) (is_admin : bool) (a b : ascii) : KeyRecord :=
  match generate label is_admin (demo_draw a) (demo_draw b) 7 with
  | Done (Ok (record, _)) => record
  | _ => mkKeyRecord "" "" "" false false 0
  end.

Definition demo_keys : KeyFile :=
  {| version := 1; keys := [demo_record "alice" true "a" "b"; demo_record "bob" false "c" "d"] |}.

Lemma demo_keys_valid : key_file_valid demo_keys.
Proof. apply key_validate_Ok. vm_compute. reflexivity. Qed.

Theorem save_atomic_witness :
  ∃ d', save no_faults demo_keys (disk_of None) = (Done (Ok ()), d')
    ∧ load "keys.json" (read_target d') = Ok demo_keys.
Proof.
  destruct (save_atomic no_faults demo_keys "keys.json" (disk_of None) demo_keys_valid eq_refl)
    as (r & d' & Hrun & Hr & _).
  destruct r as [[]|e].
  - exists d'. split; [exact Hrun|exact Hr].
  - exfalso. destruct Hr as (_ & step & x & Hx). discriminate Hx.
Defined.
