(* ===== verification/Auth.v ===== *)
(** * [src/src/auth.rs]: principals

    The index of keys published to the request handlers, the authentication of
    a request, and the registration of a key while the proxy runs.  A
    [KeyStore] is the published index, the path it was loaded from and the file
    there; registrations hold the writer's gate, so each is one action.
    [HeaderValue::to_str] is a parameter, and the handlers see the values of
    the [Authorization] header.  The poisoning of the index lock is not
    modelled: no code panics while it holds it. *)

From S2P Require Import Prelude RustStd Disk Keys.

(** src/src/auth.rs:14-14 [MAX_KEY_NAME_CHARS] *)
Definition MAX_KEY_NAME_CHARS : N := 64.

(** src/src/auth.rs:18-24 [KeyIdentity] *)
Record KeyIdentity := mkKeyIdentity {
  id_name : string;
  id_identifier : string;
  id_key_sha256 : bytes;
  id_admin : bool;
  id_disabled : bool;
}.

#[export] Instance KeyIdentity_eq_dec : EqDecision KeyIdentity.
Proof. solve_decision. Defined.

(** src/src/auth.rs:27-30 [KeyIndex] *)
Record KeyIndex := mkKeyIndex { digests : list bytes; identities : list KeyIdentity }.

Definition invalid_data (message : string) : IoError :=
  {| kind := InvalidData; io_message := message |}.

(** src/src/auth.rs, lines 63-69 of [KeyIndex::from_records]: one identity *)
Definition identity_of (record : KeyRecord) (digest : bytes) : KeyIdentity :=
  {| id_name := name record;
     id_identifier := identifier record;
     id_key_sha256 := hex_encode digest;
     id_admin := admin record;
     id_disabled := disabled record |}.

(** src/src/auth.rs, lines 47-75 of [KeyIndex::from_records]: the loop *)
Fixpoint index_records (digests : list bytes) (identities : list KeyIdentity)
    (records : list KeyRecord) : result IoError KeyIndex :=
  match records with
  | [] => Ok {| digests := digests; identities := identities |}
  | record :: records =>
      match decode_digest (bs (key_sha256 record)) with
      | None => Err (invalid_data ("key " +:+ name record +:+ " has a malformed digest"))
      | Some digest =>
          if bool_decide (digest ∈ digests)
          then Err (invalid_data "two keys share the same digest")
          else index_records (digests ++ [digest]) (identities ++ [identity_of record digest]) records
      end
  end.

(** src/src/auth.rs:33-76 [KeyIndex::from_records] *)
Definition from_records (records : list KeyRecord) : result IoError KeyIndex :=
  if bool_decide (records = [])
  then Err (invalid_data
    "the key database is empty; run `mistralrs_proxy key create <name>` first")
  else if negb (existsb (λ record, negb (disabled record)) records)
  then Err (invalid_data "every key in the database is disabled")
  else index_records [] [] records.

Section Lookup.
Context `{KeyCrypto}.

(** src/src/auth.rs, lines 82-86 of [KeyIndex::lookup]: the comparison with every entry *)
Fixpoint match_digest (digest : bytes) (index matched : N) (digests : list bytes) : N :=
  match digests with
  | [] => matched
  | candidate :: digests =>
      let is_match := ct_eq candidate digest in
      match_digest digest (index + 1) (conditional_select matched index is_match) digests
  end.

(** src/src/auth.rs:80-91 [KeyIndex::lookup]; an index out of bounds panics *)
Definition lookup (self : KeyIndex) (presented : bytes) : outcome (bytes * option KeyIdentity) :=
  let digest := digest presented in
  let matched := match_digest digest 0 U64_MAX (digests self) in
  if (matched =? U64_MAX)%N then Done (hex_encode digest, None) else
  match identities self !! N.to_nat matched with
  | Some identity => Done (hex_encode digest, Some identity)
  | None => Panicked
  end.
End Lookup.

(** ** The store *)

(** src/src/auth.rs:105-108 [KeyStore]; with the key file behind [writer] *)
Record KeyStore := mkKeyStore {
  index : KeyIndex;
  writer : option string;
  key_disk : Disk;
}.

(** src/src/auth.rs:232-237 [KeyCreationError] *)
Inductive KeyCreationError :=
| InvalidName (reason : string)
| DuplicateName
| LimitReached
| Unavailable (source : IoError).

(** src/src/auth.rs:239-252 [KeyCreationError::Display] *)
Definition KeyCreationError_display (self : KeyCreationError) : string :=
  match self with
  | InvalidName reason => "invalid key name: " +:+ reason
  | DuplicateName => "a key with that name already exists"
  | LimitReached => "the key registration limit has been reached"
  | Unavailable source => "key registration is unavailable: " +:+ io_message source
  end.

(** src/src/auth.rs:263-280 [normalize_key_name] *)
Definition normalize_key_name (name : bytes) : result KeyCreationError bytes :=
  let name := trim name in
  if bool_decide (name = []) then Err (InvalidName "it cannot be empty")
  else if (MAX_KEY_NAME_CHARS <? chars_count name)%N
  then Err (InvalidName "it cannot be longer than 64 characters")
  else if has_control name then Err (InvalidName "it cannot contain control characters")
  else Ok name.

(** src/src/auth.rs:143-149 [KeyStore::len] *)
Definition len (self : KeyStore) : N := N.of_nat (length (identities (index self))).

(** src/src/auth.rs:152-158 [KeyStore::is_empty] *)
Definition is_empty (self : KeyStore) : bool := bool_decide (identities (index self) = []).

(** src/src/auth.rs:165-167 [KeyStore::can_register] *)
Definition can_register (self : KeyStore) (max_keys : option N) : bool :=
  bool_decide (is_Some (writer self))
  && negb (match max_keys with Some limit => (limit <=? len self)%N | None => false end).

(** src/src/auth.rs:135-140 [KeyStore::from_records] *)
Definition store_from_records (records : list KeyRecord) : result IoError KeyStore :=
  index ← from_records records;
  mret {| index := index; writer := None; key_disk := disk_of None |}.

Section Store.
Context `{KeyCrypto} `{JsonOps KeyFile}.

(** src/src/auth.rs:112-129 [KeyStore::from_file] *)
Definition from_file (path : string) (disk : Disk) : result IoError KeyStore :=
  file ← load path (read_target disk);
  index ← map_err (λ error, {| kind := kind error;
      io_message := "unusable key file " +:+ path +:+ ": " +:+ io_message error |})
    (from_records (keys file));
  mret {| index := index; writer := Some path; key_disk := disk |}.

(** An action on the key file. *)
Definition on_file {A} (m : M Disk A) : M KeyStore A :=
  λ s, let '(r, d) := m (key_disk s) in (r, s <| key_disk := d |>).

(** The randomness a registration draws. *)
Record Draws := mkDraws {
  draw_identifier : nat → result string bytes;
  draw_secret : nat → result string bytes;
}.

(** src/src/auth.rs, lines 199-216 of [KeyStore::create_non_admin]: the blocking task; a panic of
    it is the caller's join error *)
Definition create_blocking (path : string) (name : bytes) (max_keys : option N) (draws : Draws)
    (faults : Faults) (now_unix_ms : N) : M KeyStore (result KeyCreationError (KeyIndex * bytes)) :=
  s ← get_state;
  file ←? mret (map_err Unavailable (load path (read_target (key_disk s))));
  if match max_keys with Some limit => (limit <=? N.of_nat (length (keys file)))%N | None => false end
  then mret (Err LimitReached) else
  if existsb (λ key, String.eqb (Keys.name key) (str name)) (keys file)
  then mret (Err DuplicateName) else
  match generate (str name) false (draw_identifier draws) (draw_secret draws) now_unix_ms with
  | Panicked => panic
  | Done (Err error) => mret (Err (Unavailable error))
  | Done (Ok (record, plaintext)) =>
      let file := {| version := version file; keys := keys file ++ [record] |} in
      index ←? mret (map_err Unavailable (from_records (keys file)));
      saved ← on_file (save faults file);
      mret (match saved with
            | Err error => Err (Unavailable error)
            | Ok _ => Ok (index, plaintext)
            end)
  end.

(** src/src/auth.rs, lines 217-222 of [KeyStore::create_non_admin]: joining the blocking
    task; [join_error] is the text of the join error *)
Definition joined {A} (join_error : string) (task : M KeyStore (result KeyCreationError A)) :
    M KeyStore (result KeyCreationError A) :=
  λ s, match task s with
       | (Panicked, s') =>
           (Done (Err (Unavailable {| kind := OtherKind;
              io_message := "key creation worker failed: " +:+ join_error |})), s')
       | finished => finished
       end.

(** src/src/auth.rs:184-227 [KeyStore::create_non_admin] *)
Definition create_non_admin (name : bytes) (max_keys : option N) (draws : Draws) (faults : Faults)
    (join_error : string) (now_unix_ms : N) : M KeyStore (result KeyCreationError bytes) :=
  name ←? mret (normalize_key_name name);
  s ← get_state;
  match writer s with
  | None => mret (Err (Unavailable {| kind := Unsupported;
      io_message := "this key store was not loaded from a file" |}))
  | Some path =>
      created ← joined join_error (create_blocking path name max_keys draws faults now_unix_ms);
      match created with
      | Err error => mret (Err error)
      | Ok (published, plaintext) =>
          _ ← modify (λ s, s <| index := published |>);
          mret (Ok plaintext)
      end
  end.
End Store.

(** ** Requests *)

(** src/src/auth.rs:304-309 [AuthError] *)
Inductive AuthError := Missing | Malformed | Invalid | KeyDisabled.

#[export] Instance AuthError_eq_dec : EqDecision AuthError.
Proof. solve_decision. Defined.

(** src/src/auth.rs:312-319 [AuthError::message] *)
Definition message (self : AuthError) : string :=
  match self with
  | Missing => "Missing Authorization header. Expected 'Bearer <API key>'."
  | Malformed => "Malformed Authorization header. Expected 'Bearer <API key>'."
  | Invalid => "Incorrect API key provided."
  | KeyDisabled => "This API key has been disabled."
  end.

(** src/src/auth.rs:322-327 [AuthError::code] *)
Definition AuthError_code (self : AuthError) : string :=
  match self with
  | Missing | Malformed | Invalid => "invalid_api_key"
  | KeyDisabled => "api_key_disabled"
  end.

(** src/src/auth.rs:284-291 [Authentication] *)
Record Authentication := mkAuthentication {
  auth_key_sha256 : option bytes;
  auth_identity : option KeyIdentity;
  auth_result : result AuthError ();
}.

(** src/src/auth.rs:294-300 [Authentication::rejected] *)
Definition rejected (error : AuthError) : Authentication :=
  {| auth_key_sha256 := None; auth_identity := None; auth_result := Err error |}.

Section Requests.
Context `{KeyCrypto} (to_str : bytes → option bytes).

(** src/src/auth.rs:330-365 [authenticate]; [values] are those of the [Authorization] header *)
Definition authenticate (values : list bytes) (store : KeyStore) : outcome Authentication :=
  match values with
  | [] => Done (rejected Missing)
  | _ :: _ :: _ => Done (rejected Malformed)
  | [value] =>
      match to_str value with
      | None => Done (rejected Malformed)
      | Some value =>
          match split_ascii_whitespace value with
          | [scheme; key] =>
              if negb (eq_ignore_ascii_case scheme (bs "bearer")) || bool_decide (key = [])
              then Done (rejected Malformed) else
              match lookup (index store) key with
              | Panicked => Panicked
              | Done (key_sha256, identity) =>
                  Done {| auth_key_sha256 := Some key_sha256;
                          auth_identity := identity;
                          auth_result := match identity with
                                         | Some identity =>
                                             if id_disabled identity then Err KeyDisabled else Ok ()
                                         | None => Err Invalid
                                         end |}
              end
          | _ => Done (rejected Malformed)
          end
      end
  end.
End Requests.

(** ** The index *)

Definition some_enabled (records : list KeyRecord) : Prop :=
  ∃ record, record ∈ records ∧ disabled record = false.

(** What an index of some records is: their digests, all different, and their identities. *)
Definition indexes (idx : KeyIndex) (records : list KeyRecord) : Prop :=
  record_digest <$> records = Some <$> digests idx
  ∧ NoDup (digests idx)
  ∧ identities idx = zip_with identity_of records (digests idx).

Lemma index_records_Ok ds ids records idx :
  NoDup ds →
  index_records ds ids records = Ok idx ↔
    ∃ ds', record_digest <$> records = Some <$> ds' ∧ NoDup (ds ++ ds')
      ∧ idx = {| digests := ds ++ ds'; identities := ids ++ zip_with identity_of records ds' |}.
Proof.
  revert ds ids. induction records as [|r records IH]; intros ds ids Hnd; cbn [index_records].
  { split.
    - intros [= <-]. exists []. rewrite !app_nil_r. by split_and!.
    - intros ([|] & Hd & _ & ->); [|done]. by rewrite !app_nil_r. }
  destruct (decode_digest (bs (key_sha256 r))) as [d|] eqn:Ed.
  2:{ split; [done|]. intros (ds' & Hd & _). destruct ds' as [|d ds']; [done|].
      injection Hd as Hd _. unfold record_digest in Hd. congruence. }
  case_bool_decide as Hin.
  { split; [done|]. intros (ds' & Hd & Hnd' & _). destruct ds' as [|d' ds']; [done|].
    injection Hd as Hd _. unfold record_digest in Hd. assert (d' = d) as -> by congruence.
    apply NoDup_app in Hnd' as (_ & Hx & _). destruct (Hx d Hin). by left. }
  rewrite IH by (apply NoDup_app; split_and!; [done| |apply NoDup_singleton];
                 intros x Hx ->%list_elem_of_singleton; done).
  split.
  - intros (ds' & Hd & Hnd' & ->). exists (d :: ds'). rewrite <- !app_assoc in *.
    split_and!; [|done|done]. rewrite !fmap_cons, Hd. unfold record_digest at 1. by rewrite Ed.
  - intros (ds' & Hd & Hnd' & ->). destruct ds' as [|d' ds']; [done|]. injection Hd as Hd Hds.
    unfold record_digest in Hd. assert (d' = d) as -> by congruence.
    exists ds'. rewrite <- !app_assoc. by split_and!.
Qed.

Lemma from_records_Ok records idx :
  from_records records = Ok idx ↔ some_enabled records ∧ indexes idx records.
Proof.
  unfold from_records. case_bool_decide as Hn.
  { split; [done|]. intros [(r & Hr & _) _]. subst. by apply elem_of_nil in Hr. }
  destruct (existsb (λ record, negb (disabled record)) records) eqn:Ee; simpl.
  - rewrite index_records_Ok by constructor. simpl. split.
    + intros (ds & Hd & Hnd & ->). split; [|by split_and!].
      apply existsb_exists in Ee as (r & Hr & Hdis). exists r. rewrite list_elem_of_In. split; [done|].
      by apply negb_true_iff.
    + intros [_ (Hd & Hnd & Hids)]. exists (digests idx). split_and!; try done. destruct idx. simpl in *. by subst.
  - split; [done|]. intros [(r & Hr & Hdis) _].
    assert (existsb (λ record, negb (disabled record)) records = true); [|congruence].
    apply existsb_exists. exists r. rewrite <- list_elem_of_In. by rewrite Hdis.
Qed.

Section AuthProperties.
Context `{KeyCryptoLaws}.

(** The record a key belongs to. *)
Definition owner (records : list KeyRecord) (presented : bytes) : option KeyRecord :=
  List.find (λ record, bool_decide (record_digest record = Some (sha256 presented))) records.

Lemma match_digest_run d i m ds :
  NoDup ds →
  match_digest d i m ds
  = match list_find (λ x, x = d) ds with Some (k, _) => (i + N.of_nat k)%N | None => m end.
Proof.
  revert i m. induction ds as [|x ds IH]; intros i m Hnd; [done|].
  apply NoDup_cons in Hnd as [Hx Hnd]. cbn [match_digest list_find]. rewrite IH by done.
  rewrite conditional_select_spec. destruct (ct_eq x d) eqn:E.
  - apply ct_eq_spec in E as ->. rewrite decide_True by done.
    destruct (list_find (λ x, x = d) ds) as [[k y]|] eqn:Ef; [|lia].
    apply list_find_Some in Ef as (Hk & -> & _). destruct Hx. by eapply list_elem_of_lookup_2.
  - rewrite decide_False; [|intros ->; by rewrite (proj2 (ct_eq_spec d d) eq_refl) in E].
    destruct (list_find (λ x, x = d) ds) as [[k y]|]; simpl; [lia|done].
Qed.

Lemma owner_position records ds presented :
  record_digest <$> records = Some <$> ds →
  match list_find (λ x, x = sha256 presented) ds with
  | Some (k, _) => k < length records
      ∧ zip_with identity_of records ds !! k
        = (λ r, identity_of r (sha256 presented)) <$> owner records presented
      ∧ is_Some (owner records presented)
  | None => owner records presented = None
  end.
Proof.
  unfold owner. revert ds. induction records as [|r records IH]; intros [|x ds] Hd; try done.
  injection Hd as Hx Hd. cbn [list_find List.find zip_with]. rewrite Hx. case_decide as E.
  - subst x. rewrite bool_decide_true by done. simpl. split_and!; [lia|done|by eexists].
  - rewrite bool_decide_false by congruence. specialize (IH ds Hd).
    destruct (list_find _ ds) as [[k y]|]; simpl; [|done].
    destruct IH as (H1 & H2 & H3). split_and!; [lia|done|done].
Qed.

Lemma lookup_run records idx presented :
  indexes idx records → (N.of_nat (length records) < U64_MAX)%N →
  lookup idx presented
  = Done (hex_encode (sha256 presented),
          (λ r, identity_of r (sha256 presented)) <$> owner records presented).
Proof.
  intros (Hd & Hnd & Hids) Hlen. unfold lookup, digest. rewrite match_digest_run by done.
  pose proof (owner_position records (digests idx) presented Hd) as Hp.
  destruct (list_find _ (digests idx)) as [[k y]|].
  - destruct Hp as (Hk & Hz & o & Ho). rewrite (proj2 (N.eqb_neq _ U64_MAX)) by lia.
    replace (N.to_nat (0 + N.of_nat k)) with k by lia. rewrite Hids, Hz, Ho. done.
  - by rewrite N.eqb_refl, Hp.
Qed.

(** Looking a key up.  The index of some records exists exactly when one of them is enabled
    and all their digests are well formed and different.  Comparing the digest of a presented
    key with every entry, in an amount of work that does not depend on the key, then gives what
    searching the records for that digest gives, and its index is never out of bounds. *)
Theorem lookup_spec (records : list KeyRecord) :
  (N.of_nat (length records) < U64_MAX)%N →
  match from_records records with
  | Ok idx => some_enabled records ∧ ∀ presented,
      lookup idx presented
      = Done (hex_encode (sha256 presented),
              (λ r, identity_of r (sha256 presented)) <$> owner records presented)
  | Err _ => ¬ (some_enabled records ∧ None ∉ (record_digest <$> records)
                ∧ NoDup (record_digest <$> records))
  end.
Proof.
  intros Hlen. destruct (from_records records) as [idx|e] eqn:E.
  - apply from_records_Ok in E as [Hen Hidx]. split; [done|]. intros presented. by apply lookup_run.
  - intros (Hen & Hno & Hnd).
    assert (∃ ds, record_digest <$> records = Some <$> ds) as [ds Hds].
    { clear -Hno. induction records as [|r records IH]; [by exists []|]. rewrite fmap_cons in *.
      apply not_elem_of_cons in Hno as [Hr Hno]. destruct (IH Hno) as [ds ->].
      destruct (record_digest r) as [d|] eqn:Ed; [by exists (d :: ds)|done]. }
    assert (from_records records
      = Ok {| digests := ds; identities := zip_with identity_of records ds |}) as E'; [|congruence].
    apply from_records_Ok. split; [done|]. split_and!; [done| |done]. simpl.
    rewrite Hds in Hnd. by apply NoDup_fmap_1 in Hnd.
Qed.

(** ** Authentication *)

(** The one well-formed [Authorization] header carries this key. *)
Definition bears (to_str : bytes → option bytes) (values : list bytes) (key : bytes) : Prop :=
  ∃ value text scheme, values = [value] ∧ to_str value = Some text
    ∧ split_ascii_whitespace text = [scheme; key]
    ∧ to_ascii_lowercase <$> scheme = bs "bearer".

Lemma split_nonempty text t : t ∈ split_ascii_whitespace text → t ≠ [].
Proof. intros Ht. by apply split_ascii_whitespace_tokens in Ht as [? _]. Qed.

(** C12: authentication.  A request is let through exactly when it carries one [Authorization]
    header, of the form [Bearer <key>] in any letter case, and the key's digest is that of an
    enabled record; the identity reported is that record's.  No header is [Missing], a key that
    belongs to no record is [Invalid], one that belongs to a disabled record is disabled, and
    everything else is [Malformed]; nothing panics. *)
Theorem authenticate_spec (to_str : bytes → option bytes) (values : list bytes)
    (records : list KeyRecord) (store : KeyStore) :
  (N.of_nat (length records) < U64_MAX)%N → from_records records = Ok (index store) →
  ∃ a, authenticate to_str values store = Done a
    ∧ match auth_result a with
      | Ok _ => ∃ key record, bears to_str values key ∧ owner records key = Some record
          ∧ disabled record = false ∧ auth_identity a = Some (identity_of record (sha256 key))
      | Err KeyDisabled => ∃ key record, bears to_str values key ∧ owner records key = Some record
          ∧ disabled record = true
      | Err Invalid => ∃ key, bears to_str values key ∧ owner records key = None
      | Err Missing => values = []
      | Err Malformed => values ≠ [] ∧ ¬ ∃ key, bears to_str values key
      end.
Proof.
  intros Hlen [_ Hidx]%from_records_Ok. unfold authenticate.
  destruct values as [|value [|v2 values]].
  - eexists. split; [reflexivity|]. done.
  - destruct (to_str value) as [text|] eqn:Et.
    2:{ eexists. split; [reflexivity|]. split; [done|]. intros (key & v & t & sc & [= <-] & Ht & _). congruence. }
    destruct (split_ascii_whitespace text) as [|scheme [|key [|x r]]] eqn:Es;
      try (eexists; split; [reflexivity|]; split; [done|];
           intros (key' & v & t & sc & [= <-] & Ht & Hs & _); congruence).
    assert (eq_ignore_ascii_case scheme (bs "bearer") = true ↔ to_ascii_lowercase <$> scheme = bs "bearer")
      as Hsch by by rewrite eq_ignore_ascii_case_spec.
    assert (key ≠ []) as Hkey by (apply (split_nonempty text); rewrite Es; right; left).
    rewrite (bool_decide_false _ Hkey), orb_false_r.
    destruct (eq_ignore_ascii_case scheme (bs "bearer")); cbn [negb].
    2:{ eexists. split; [reflexivity|]. split; [done|].
        intros (key' & v & t & sc & [= <-] & Ht & Hs & Hb).
        assert (sc = scheme) as -> by congruence. by apply Hsch in Hb. }
    assert (bears to_str [value] key) as Hb by (exists value, text, scheme; split_and!; by try apply Hsch).
    rewrite (lookup_run records) by done. eexists. split; [reflexivity|]. cbn [auth_result auth_identity].
    destruct (owner records key) as [record|] eqn:Eo; simpl; [|by exists key].
    destruct (disabled record) eqn:Ed; exists key, record; by split_and!.
  - eexists. split; [reflexivity|]. split; [done|]. by intros (key & v & t & sc & [= ] & _).
Qed.

(** ** Registration *)

Lemma owner_appended records record key :
  NoDup (record_digest <$> records ++ [record]) → record_digest record = Some (sha256 key) →
  owner (records ++ [record]) key = Some record.
Proof.
  intros Hnd Hd. unfold owner. induction records as [|r records IH]; simpl.
  - by rewrite bool_decide_true.
  - rewrite <- app_comm_cons, fmap_cons in Hnd. apply NoDup_cons in Hnd as [Hr Hnd]. rewrite bool_decide_false; [by apply IH|].
    intros E. apply Hr. rewrite E, <- Hd. apply list_elem_of_fmap_2, elem_of_app. right. left.
Qed.

Lemma owner_other records record key :
  record_digest record ≠ Some (sha256 key) → owner (records ++ [record]) key = owner records key.
Proof.
  intros Hd. unfold owner. induction records as [|r records IH]; simpl; [by rewrite bool_decide_false|].
  by destruct (bool_decide _).
Qed.

Lemma owner_digest records key found :
  owner records key = Some found → found ∈ records ∧ record_digest found = Some (sha256 key).
Proof.
  intros Ho. apply List.find_some in Ho as [Hin Hd]. rewrite list_elem_of_In. split; [done|].
  by apply bool_decide_eq_true in Hd.
Qed.

(** The index [after] finds whatever [before] found, and nothing else but by the new key. *)
Definition extends (before after : KeyIndex) (plaintext : bytes) : Prop :=
  (∀ key digest identity, lookup before key = Done (digest, Some identity) →
     lookup after key = Done (digest, Some identity))
  ∧ ∀ key, sha256 key ≠ sha256 plaintext → lookup after key = lookup before key.

(** The index of the records with one more. *)
Lemma index_extended records record before after plaintext :
  (N.of_nat (length records) + 1 < U64_MAX)%N → record_digest record = Some (sha256 plaintext) →
  from_records records = Ok before → from_records (records ++ [record]) = Ok after →
  extends before after plaintext.
Proof.
  intros Hlen Hd [_ Hb]%from_records_Ok [_ Ha]%from_records_Ok.
  assert (∀ key, sha256 key ≠ sha256 plaintext → lookup after key = lookup before key) as Hother.
  { intros key Hk. rewrite (lookup_run _ _ _ Ha), (lookup_run _ _ _ Hb) by (rewrite ?length_app; simpl; lia).
    rewrite owner_other; [done|]. congruence. }
  split; [|done]. intros key digest identity Hl. rewrite Hother; [done|]. intros E.
  rewrite (lookup_run _ _ _ Hb) in Hl by lia.
  destruct (owner records key) as [found|] eqn:Ho; [|done].
  apply owner_digest in Ho as [Hin Hf]. destruct Ha as (Hds & Hnd & _).
  apply (NoDup_fmap_2 Some) in Hnd. rewrite <- Hds, fmap_app in Hnd.
  apply NoDup_app in Hnd as (_ & Hx & _). destruct (Hx (record_digest found)).
  - by apply list_elem_of_fmap_2.
  - simpl. rewrite Hf, E, Hd. by left.
Qed.

Section Registration.
Context `{JsonLaws KeyFile}.

(** What a registration that returned [plaintext] has done.  The last clause compares the published indices:
    if the one before was the index of the file, which is so unless another process wrote it since. *)
Definition registered (path : string) (label : bytes) (max_keys : option N) (s s' : KeyStore)
    (plaintext : bytes) : Prop :=
  ∃ file record,
    load path (read_target (key_disk s)) = Ok file
    ∧ (∀ limit, max_keys = Some limit → (N.of_nat (length (keys file)) < limit)%N)
    ∧ Forall (λ key, name key ≠ name record) (keys file)
    ∧ name record = str label ∧ admin record = false ∧ disabled record = false
    ∧ record_digest record = Some (sha256 plaintext)
    ∧ load path (read_target (key_disk s'))
      = Ok {| version := version file; keys := keys file ++ [record] |}
    ∧ from_records (keys file ++ [record]) = Ok (index s')
    ∧ ((N.of_nat (length (keys file)) + 1 < U64_MAX)%N →
         lookup (index s') plaintext
         = Done (hex_encode (sha256 plaintext), Some (identity_of record (sha256 plaintext)))
         ∧ (from_records (keys file) = Ok (index s) → extends (index s) (index s') plaintext)).

(** A name a key may be registered under. *)
Definition good_name (label : bytes) : Prop :=
  trim label ≠ [] ∧ (chars_count (trim label) ≤ 64)%N ∧ has_control (trim label) = false.

Lemma normalize_good label :
  match normalize_key_name label with
  | Ok n => n = trim label ∧ good_name label
  | Err (InvalidName _) => ¬ good_name label
  | Err _ => False
  end.
Proof.
  unfold normalize_key_name, good_name, MAX_KEY_NAME_CHARS. case_bool_decide as Ht; [by intros []|].
  destruct (N.ltb_spec 64 (chars_count (trim label))); [intros (_ & ? & _); lia|].
  destruct (has_control _) eqn:Ec; [by intros (_ & _ & ?)|]. by split_and!.
Qed.

(** What each refusal means. *)
Definition refused (label : bytes) (max_keys : option N) (s : KeyStore) (e : KeyCreationError) : Prop :=
  match e with
  | InvalidName _ => ¬ good_name label
  | DuplicateName => ∃ path file, writer s = Some path ∧ load path (read_target (key_disk s)) = Ok file
      ∧ str (trim label) ∈ name <$> keys file
  | LimitReached => ∃ path file limit, writer s = Some path ∧ load path (read_target (key_disk s)) = Ok file
      ∧ max_keys = Some limit ∧ (limit ≤ N.of_nat (length (keys file)))%N
  | Unavailable _ => good_name label
  end.

Lemma create_blocking_refused path label max_keys draws faults now s e s1 :
  writer s = Some path → good_name label →
  create_blocking path (trim label) max_keys draws faults now s = (Done (Err e), s1) →
  refused label max_keys s e.
Proof.
  intros Hw Hg. destruct s as [idx w d].
  unfold create_blocking, get_state, on_file, try_bind, mbind, M_mbind, mret, M_mret.
  cbn [key_disk index writer map_err] in *. destruct (load path (read_target d)) as [file|err] eqn:El; cbn [map_err].
  2:{ by intros [= <- _]. }
  destruct (match max_keys with Some limit => _ | None => false end) eqn:Em.
  { intros [= <- _]. destruct max_keys as [limit|]; [|done]. exists path, file, limit. by apply N.leb_le in Em. }
  destruct (existsb _ (keys file)) eqn:Ee.
  { intros [= <- _]. exists path, file. split_and!; [done|done|].
    apply existsb_exists in Ee as (key & Hk & Hn%String.eqb_eq). rewrite <- list_elem_of_In in Hk.
    rewrite <- Hn. by apply list_elem_of_fmap_2. }
  destruct (generate _ _ _ _ now) as [[[record plaintext]|err]|]; [|by intros [= <- _]|done].
  cbn [keys]. destruct (from_records _) as [published|err]; cbn [map_err]; [|by intros [= <- _]].
  cbn [key_disk]. destruct (save faults _ d) as [[[[]|err]|] d']; [done| |done]. by intros [= <- _].
Qed.

Lemma create_blocking_run path label max_keys draws faults now s :
  match create_blocking path label max_keys draws faults now s with
  | (Done (Ok (published, plaintext)), s1) =>
      registered path label max_keys s (s1 <| index := published |>) plaintext
      ∧ writer s1 = writer s
  | (_, s1) => index s1 = index s ∧ writer s1 = writer s
               ∧ target (key_disk s1) = target (key_disk s)
  end.
Proof.
  destruct s as [idx w d]. unfold create_blocking, get_state, on_file, try_bind, mbind, M_mbind, mret, M_mret.
  cbn [key_disk index writer map_err].
  destruct (load path (read_target d)) as [file|e] eqn:El; cbn [map_err]; [|done].
  destruct (match max_keys with Some limit => _ | None => false end) eqn:Em; [done|].
  destruct (existsb _ (keys file)) eqn:Ee; [done|].
  destruct (generate (str label) false _ _ now) as [[[record plaintext]|e]|] eqn:Eg; [|done..].
  apply generate_Ok in Eg as (Hn & Ha & Hdis & Hdig).
  cbn [keys]. destruct (from_records (keys file ++ [record])) as [published|e] eqn:Ef; cbn [map_err]; [|done].
  destruct (save_total faults {| version := version file; keys := keys file ++ [record] |} path d)
    as (r & d' & Hrun & Hr).
  cbn [key_disk]. rewrite Hrun. destruct r as [[]|e]; rsimpl; [|done]. destruct Hr as [Hvalid Hload]. split; [|done].
  exists file, record. rsimpl. split_and!; try done.
  - intros limit ->. by apply N.leb_gt in Em.
  - apply Forall_forall. intros key Hkey Hname.
    assert (existsb (λ key, String.eqb (name key) (str label)) (keys file) = true); [|congruence].
    apply existsb_exists. exists key. rewrite <- list_elem_of_In. split; [done|].
    apply String.eqb_eq. congruence.
  - intros Hlen. split; [|by intros Hb; eapply index_extended].
    apply from_records_Ok in Ef as [_ Hidx]. rewrite (lookup_run _ _ _ Hidx) by (rewrite length_app; simpl; lia).
    rewrite (owner_appended _ record); [done| |done]. by destruct Hvalid as (_ & _ & _ & ?).
Qed.

Lemma create_run (label : bytes) (max_keys : option N) (draws : Draws) (faults : Faults)
    (join_error : string) (now : N) (s : KeyStore) :
  ∃ r s', create_non_admin label max_keys draws faults join_error now s = (Done r, s')
    ∧ writer s' = writer s
    ∧ match r with
      | Ok plaintext => ∃ path, writer s = Some path ∧ good_name label
          ∧ registered path (trim label) max_keys s s' plaintext
      | Err e => index s' = index s ∧ target (key_disk s') = target (key_disk s)
          ∧ refused label max_keys s e
      end.
Proof.
  unfold create_non_admin, try_bind, joined, modify, get_state, mbind, M_mbind, mret, M_mret.
  pose proof (normalize_good label) as Hn. destruct (normalize_key_name label) as [n|e].
  2:{ eexists _, _. split; [reflexivity|]. split_and!; [done..|]. by destruct e. }
  destruct Hn as [-> Hg].
  destruct (writer s) as [path|] eqn:Ew; [|eexists _, _; split; [reflexivity|]; by split_and!].
  pose proof (create_blocking_run path (trim label) max_keys draws faults now s) as Hrun.
  pose proof (create_blocking_refused path label max_keys draws faults now s) as Href.
  destruct (create_blocking _ _ _ _ _ _ s) as [[[[published plaintext]|e]|] s1].
  - destruct Hrun as [Hreg Hw]. eexists _, _. split; [reflexivity|].
    split; [destruct s1; rsimpl; congruence|]. by exists path.
  - eexists _, _. split; [reflexivity|]. destruct Hrun as (? & Hw & ?). split; [congruence|].
    split_and!; [done|done|]. by eapply Href.
  - eexists _, _. split; [reflexivity|]. destruct Hrun as (? & Hw & ?). split; [congruence|].
    by split_and!.
Qed.

(** C22: registering a key while the proxy runs.  A registration always finishes.  When it
    succeeds, the limit was not reached and the trimmed name was free; the file now holds
    exactly one more record, enabled and without administrator rights, whose digest is that of
    the key handed out; the published index is the one of that file, and looking the key up in it
    finds that record.  If the index published before was that of the file too, then every key it
    found is found with the same identity in the new one, and every key but the new one is looked
    up as before.  When it fails, for whatever reason, the published index and the file are
    untouched, and the refusal means what it says: a bad name, a name that is in the file, a limit the
    file has reached. *)
Theorem create_spec (label : bytes) (max_keys : option N) (draws : Draws) (faults : Faults)
    (join_error : string) (now : N) (s : KeyStore) :
  ∃ r s', create_non_admin label max_keys draws faults join_error now s = (Done r, s')
    ∧ writer s' = writer s
    ∧ match r with
      | Ok plaintext => ∃ path, writer s = Some path ∧ good_name label
          ∧ registered path (trim label) max_keys s s' plaintext
      | Err e => index s' = index s ∧ target (key_disk s') = target (key_disk s)
          ∧ refused label max_keys s e
      end.
Proof. apply create_run. Qed.
End Registration.
End AuthProperties.

(** ** A concrete store *)

Definition demo_index : KeyIndex :=
  match from_records (keys demo_keys) with Ok idx => idx | Err _ => mkKeyIndex [] [] end.

Definition demo_disk : Disk := (save no_faults demo_keys (disk_of None)).2.

Definition demo_keystore : KeyStore :=
  {| index := demo_index; writer := Some "keys.json"; key_disk := demo_disk |}.

(** The key of a demonstration record. *)
Definition demo_key (a b : ascii) : bytes :=
  match generate "" false (demo_draw a) (demo_draw b) 7 with
  | Done (Ok (_, key)) => key
  | _ => []
  end.

Theorem lookup_spec_witness :
  (N.of_nat (length (keys demo_keys)) < U64_MAX)%N
  ∧ match from_records (keys demo_keys) with
    | Ok idx => lookup idx (demo_key "c" "d")
        = Done (hex_encode (sha256 (demo_key "c" "d")),
                (λ r, identity_of r (sha256 (demo_key "c" "d")))
                  <$> owner (keys demo_keys) (demo_key "c" "d"))
    | Err _ => False
    end.
Proof.
  split; [reflexivity|].
  pose proof (lookup_spec (keys demo_keys) ltac:(reflexivity)) as Hs.
  destruct (from_records (keys demo_keys)) as [idx|e] eqn:E; [apply (proj2 Hs)|].
  apply (f_equal is_ok) in E. vm_compute in E. discriminate E.
Defined.

Theorem authenticate_spec_witness :
  ∃ a, authenticate Some [bs "bearer " ++ demo_key "c" "d"] demo_keystore = Done a
    ∧ auth_result a = Ok ().
Proof.
  destruct (authenticate_spec Some [bs "bearer " ++ demo_key "c" "d"] (keys demo_keys) demo_keystore)
    as (a & Hrun & _).
  - reflexivity.
  - vm_compute. reflexivity.
  - exists a. split; [exact Hrun|].
    assert (match authenticate Some [bs "bearer " ++ demo_key "c" "d"] demo_keystore with
            | Done a => bool_decide (is_ok (auth_result a) = true) | Panicked => false end = true) as Hok
      by (vm_compute; reflexivity).
    rewrite Hrun in Hok. apply bool_decide_eq_true in Hok.
    destruct (auth_result a) as [[]|e]; [reflexivity|discriminate Hok].
Defined.

Theorem create_spec_witness :
  ∃ plaintext s' record, create_non_admin (bs " carol ") (Some 3%N) (mkDraws (demo_draw "e") (demo_draw "f"))
      no_faults "" 9 demo_keystore = (Done (Ok plaintext), s')
    ∧ lookup (index s') plaintext
      = Done (hex_encode (sha256 plaintext), Some (identity_of record (sha256 plaintext)))
    ∧ name record = "carol" ∧ extends demo_index (index s') plaintext.
Proof.
  destruct (create_spec (bs " carol ") (Some 3%N) (mkDraws (demo_draw "e") (demo_draw "f"))
    no_faults "" 9 demo_keystore) as (r & s' & Hrun & _ & Hr).
  destruct r as [plaintext|e].
  - destruct Hr as (path & Hp & _ & file & record & Hl & _ & _ & Hn & _ & _ & _ & _ & _ & Hlast).
    injection Hp as <-. exists plaintext, s', record. split; [exact Hrun|].
    assert (load "keys.json" (read_target (key_disk demo_keystore)) = Ok demo_keys) as E
      by (vm_compute; reflexivity).
    rewrite E in Hl. injection Hl as <-. destruct Hlast as [Hlook Hext]; [vm_compute; reflexivity|].
    split; [exact Hlook|]. split; [exact Hn|]. apply Hext. vm_compute. reflexivity.
  - exfalso. assert (match (create_non_admin (bs " carol ") (Some 3%N)
      (mkDraws (demo_draw "e") (demo_draw "f")) no_faults "" 9 demo_keystore).1 with
      Done r => is_ok r | Panicked => false end = true) as Hok by (vm_compute; reflexivity).
    rewrite Hrun in Hok. discriminate Hok.
Defined.
