(* ===== verification/Http.v ===== *)
(** * What the program uses of the [http] crate

    A header map is a parameter: a multimap from lower-case names to values,
    with the operations the handlers call.  [HeaderLaws] states what the crate
    documents of them; a list of entries discharges it. *)

From S2P Require Import Prelude RustStd.

Class HeaderOps (HeaderMap : Type) := {
  (** [headers.get_all(name)], in order *)
  get_all : string → HeaderMap → list bytes;
  (** [headers.remove(name)]: every value *)
  remove : string → HeaderMap → HeaderMap;
  (** [headers.insert(name, value)]: replaces every value *)
  insert_header : string → bytes → HeaderMap → HeaderMap;
}.

(** [headers.get(name)]: the first value. *)
Definition get_header `{HeaderOps HeaderMap} (name : string) (headers : HeaderMap) : option bytes :=
  head (get_all name headers).

Class HeaderLaws (HeaderMap : Type) `{HeaderOps HeaderMap} : Prop := {
  get_all_remove : ∀ n m h, get_all n (remove m h) = if decide (n = m) then [] else get_all n h;
  get_all_insert : ∀ n m v h,
    get_all n (insert_header m v h) = if decide (n = m) then [v] else get_all n h;
}.

(** [HeaderValue::to_str] and [HeaderName::from_bytes] (which lower-cases). *)
Class HeaderText := {
  to_str : bytes → option bytes;
  name_from_bytes : bytes → option string;
}.

(** [http::Response]. *)
Record Response (HeaderMap Body : Type) := mkResponse {
  rs_status : N;
  rs_headers : HeaderMap;
  rs_body : Body;
}.
Arguments mkResponse {HeaderMap Body} _ _ _.
Arguments rs_status {HeaderMap Body} _.
Arguments rs_headers {HeaderMap Body} _.
Arguments rs_body {HeaderMap Body} _.

(** The headers [axum] gives a [Json] and an [Html] answer. *)
Class IntoResponse (HeaderMap : Type) := {
  json_headers : HeaderMap;
  html_headers : HeaderMap;
}.

Definition has_header `{HeaderOps HeaderMap} (name : string) (headers : HeaderMap) : bool :=
  negb (bool_decide (get_all name headers = [])).

(** A header map as its entries. *)
Definition Entries : Type := list (string * bytes).

#[export] Instance entries_ops : HeaderOps Entries := {
  get_all := λ n h, (keep (λ e, String.eqb e.1 n) h).*2;
  remove := λ n h, keep (λ e, negb (String.eqb e.1 n)) h;
  insert_header := λ n v h, keep (λ e, negb (String.eqb e.1 n)) h ++ [(n, v)];
}.

Lemma entries_removed n m (h : Entries) :
  (keep (λ e, String.eqb e.1 n) (keep (λ e, negb (String.eqb e.1 m)) h)).*2
  = if decide (n = m) then [] else (keep (λ e, String.eqb e.1 n) h).*2.
Proof.
  induction h as [|[k v] h IH]; [by destruct (decide _)|]. cbn [List.filter fst negb].
  destruct (String.eqb_spec k m) as [->|Hm]; cbn [List.filter fst negb].
  - rewrite IH. destruct (String.eqb_spec m n) as [->|Hn]; case_decide; congruence.
  - destruct (String.eqb_spec k n) as [->|Hn]; rewrite ?fmap_cons, IH; case_decide; congruence.
Qed.

#[export] Instance entries_laws : HeaderLaws Entries.
Proof.
  split; simpl; intros n m.
  - apply entries_removed.
  - intros v h. rewrite List.filter_app, fmap_app, entries_removed. cbn [List.filter fst].
    destruct (String.eqb_spec m n) as [->|Hn]; case_decide; try congruence; [done|].
    cbn. by rewrite app_nil_r.
Qed.

(** Visible text, and names by their lower-case letters. *)
#[export] Instance ascii_text : HeaderText := {
  to_str := λ v, if forallb (λ x, in_range 32 126 x || (code x =? 9)%N) v then Some v else None;
  name_from_bytes := λ v,
    if forallb is_ascii_graphic v && negb (bool_decide (v = []))
    then Some (str (to_ascii_lowercase <$> v)) else None;
}.

#[export] Instance entries_responses : IntoResponse Entries := {
  json_headers := [("content-type", bs "application/json")];
  html_headers := [("content-type", bs "text/html; charset=utf-8")];
}.
