(* ===== verification/Timestamp.v ===== *)
(** * Timestamps of the audit log ([src/src/logging.rs])

    The conversion of Unix milliseconds to a proleptic Gregorian date and its
    text.  The [i64] arithmetic of the source is on [Z]: the days come from a
    [u64] count of milliseconds, so no intermediate value leaves the range. *)

From S2P Require Import Prelude RustStd Text.

Local Open Scope Z_scope.

(** src/src/logging.rs:1121-1128 [now_unix_ms]; the time since the Unix epoch in nanoseconds, if the clock is not before it *)
Definition now_unix_ms (since_epoch : option N) : N := N.min U64_MAX (default 0%N since_epoch / 1000000).

(** src/src/logging.rs:1102-1119 [civil_from_days]; [div_euclid] and [rem_euclid] by a positive
    number are [Z.div] and [Z.modulo] *)
Definition civil_from_days (days : Z) : Z * Z * Z :=
  let shifted := days + 719468 in
  let era := shifted / 146097 in
  let day_of_era := shifted mod 146097 in
  let year_of_era :=
    (day_of_era - day_of_era / 1460 + day_of_era / 36524 - day_of_era / 146096) / 365 in
  let year := year_of_era + era * 400 in
  let day_of_year := day_of_era - (365 * year_of_era + year_of_era / 4 - year_of_era / 100) in
  let shifted_month := (5 * day_of_year + 2) / 153 in
  let day := day_of_year - (153 * shifted_month + 2) / 5 + 1 in
  let month := if shifted_month <? 10 then shifted_month + 3 else shifted_month - 9 in
  (year + (if month <=? 2 then 1 else 0), month, day).

(** src/src/logging.rs:1087-1099 [format_timestamp] *)
Definition format_timestamp (unix_ms : N) : string :=
  let seconds := (unix_ms / 1000)%N in
  let millis := (unix_ms mod 1000)%N in
  let '(year, month, day) := civil_from_days (Z.of_N (seconds / 86400)) in
  let time := (seconds mod 86400)%N in
  padded 4 (Z.to_N year) +:+ "-" +:+ padded 2 (Z.to_N month) +:+ "-" +:+ padded 2 (Z.to_N day)
  +:+ "T" +:+ padded 2 (time / 3600) +:+ ":" +:+ padded 2 (time mod 3600 / 60) +:+ ":"
  +:+ padded 2 (time mod 60) +:+ "." +:+ padded 3 millis +:+ "Z".

(** ** The calendar *)

Definition leap (year : Z) : bool :=
  (year mod 4 =? 0) && (negb (year mod 100 =? 0) || (year mod 400 =? 0)).

Definition days_in_month (year month : Z) : Z :=
  if month =? 2 then (if leap year then 29 else 28)
  else if (month =? 4) || (month =? 6) || (month =? 9) || (month =? 11) then 30 else 31.

Definition next_day (date : Z * Z * Z) : Z * Z * Z :=
  let '(year, month, day) := date in
  if day <? days_in_month year month then (year, month, day + 1)
  else if month <? 12 then (year, month + 1, 1)
  else (year + 1, 1, 1).

(** ** The parts of the conversion *)

(** The year of the era a day is in, and the first day of a year; years begin in March. *)
Definition year_of (doe : Z) : Z := (doe - doe / 1460 + doe / 36524 - doe / 146096) / 365.
Definition year_start (yoe : Z) : Z := 365 * yoe + yoe / 4 - yoe / 100.

(** The first day after a year: the era has one more day than its year starts say. *)
Definition year_end (yoe : Z) : Z := if yoe =? 399 then 146097 else year_start (yoe + 1).

(** Month and day of a day of the year. *)
Definition month_day (doy : Z) : Z * Z :=
  let sm := (5 * doy + 2) / 153 in
  ((if sm <? 10 then sm + 3 else sm - 9), doy - (153 * sm + 2) / 5 + 1).

(** The date of a day of a March year. *)
Definition date_in (year doy : Z) : Z * Z * Z :=
  let '(m, d) := month_day doy in (year + (if m <=? 2 then 1 else 0), m, d).

Lemma civil_split days :
  let shifted := days + 719468 in
  let doe := shifted mod 146097 in
  civil_from_days days
  = date_in (year_of doe + shifted / 146097 * 400) (doe - year_start (year_of doe)).
Proof. done. Qed.

(** Numbers below a bound, by evaluation. *)
Lemma below_forall (n : nat) (p : Z → bool) :
  forallb p (Z.of_nat <$> seq 0 n) = true → ∀ z, 0 ≤ z < Z.of_nat n → p z = true.
Proof.
  intros Hall z Hz. rewrite forallb_forall in Hall. apply Hall, list_elem_of_In.
  apply list_elem_of_fmap. exists (Z.to_nat z). split; [lia|]. apply elem_of_seq. lia.
Qed.

Definition year_ok (y : Z) : bool :=
  (year_of (year_start y) =? y) && (year_of (year_end y - 1) =? y)
  && (year_end y =? year_start y + 365 + (if leap (y + 1) then 1 else 0))
  && (0 <=? year_start y) && (year_end y <=? 146097)
  && ((y =? 399) || (year_end y =? year_start (y + 1))).

(** The years of an era follow each other without a gap, with the lengths of the calendar, and
    the first and the last day of each are found in it. *)
Lemma year_facts yoe :
  0 ≤ yoe < 400 →
  year_of (year_start yoe) = yoe ∧ year_of (year_end yoe - 1) = yoe
  ∧ year_end yoe = year_start yoe + 365 + (if leap (yoe + 1) then 1 else 0)
  ∧ 0 ≤ year_start yoe ∧ year_end yoe ≤ 146097
  ∧ (yoe < 399 → year_end yoe = year_start (yoe + 1)).
Proof.
  intros Hy. assert (year_ok yoe = true) as Hall.
  { apply (below_forall 400); [vm_compute; reflexivity|lia]. }
  unfold year_ok in Hall. rewrite !andb_true_iff, orb_true_iff, !Z.eqb_eq, !Z.leb_le in Hall.
  destruct Hall as [[[[[? ?] ?] ?] ?] [?|?]]; split_and!; try done; lia.
Qed.

Lemma year_of_step doe : 0 ≤ doe → year_of doe ≤ year_of (doe + 1).
Proof.
  intros H. unfold year_of. apply Z.div_le_mono; [lia|].
  assert (∀ x, x / 146096 = x / 36524 / 4) as E by (intros x; by rewrite Z.div_div).
  rewrite !E. lia_div.
Qed.

Lemma year_of_mono a b : 0 ≤ a ≤ b → year_of a ≤ year_of b.
Proof.
  intros H. replace b with (a + Z.of_nat (Z.to_nat (b - a))) by lia. generalize (Z.to_nat (b - a)) as n.
  induction n as [|n IH]; [by rewrite Z.add_0_r|].
  rewrite Nat2Z.inj_succ. etrans; [exact IH|]. etrans; [apply year_of_step; lia|].
  by replace (a + Z.of_nat n + 1) with (a + Z.succ (Z.of_nat n)) by lia.
Qed.

(** Every day of an era lies in the year the formula gives. *)
Lemma year_of_bounds doe :
  0 ≤ doe < 146097 → 0 ≤ year_of doe < 400 ∧ year_start (year_of doe) ≤ doe < year_end (year_of doe).
Proof.
  intros Hd. assert (0 ≤ year_of doe < 400) as Hy.
  { pose proof (year_of_mono 0 doe ltac:(lia)). pose proof (year_of_mono doe 146096 ltac:(lia)).
    change (year_of 0) with 0 in *. change (year_of 146096) with 399 in *. lia. }
  split; [done|]. pose proof (year_facts (year_of doe) Hy) as (H1 & H2 & H3 & H4 & H5 & H6).
  split.
  - destruct (Z_le_gt_dec (year_start (year_of doe)) doe); [done|].
    destruct (decide (year_of doe = 0)) as [E|E]; [rewrite E in *; change (year_start 0) with 0 in *; lia|].
    pose proof (year_facts (year_of doe - 1) ltac:(lia)) as (_ & G2 & _ & _ & _ & G6).
    pose proof (year_of_mono doe (year_end (year_of doe - 1) - 1)) as Hm.
    replace (year_of doe - 1 + 1) with (year_of doe) in G6 by lia. lia.
  - destruct (Z_lt_ge_dec doe (year_end (year_of doe))); [done|].
    destruct (decide (year_of doe = 399)) as [E|E]; [rewrite E in *; change (year_end 399) with 146097 in *; lia|].
    pose proof (year_facts (year_of doe + 1) ltac:(lia)) as (G1 & _ & _ & G4 & _).
    pose proof (year_of_mono (year_start (year_of doe + 1)) doe). lia.
Qed.

(** A month's length, when [l] says whether its February has 29 days. *)
Definition month_length (l : bool) (month : Z) : Z :=
  if month =? 2 then (if l then 29 else 28)
  else if (month =? 4) || (month =? 6) || (month =? 9) || (month =? 11) then 30 else 31.

Definition day_ok (l : bool) (doy : Z) : bool :=
  let '(m, d) := month_day doy in
  let '(m', d') := month_day (doy + 1) in
  if doy + 1 <? 365 + (if l then 1 else 0) then
    if d <? month_length l m then (m' =? m) && (d' =? d + 1)
    else if m <? 12 then (m' =? m + 1) && (d' =? 1) && Bool.eqb (m <=? 2) (m' <=? 2)
    else (m' =? 1) && (d' =? 1) && negb (m <=? 2)
  else (m =? 2) && (d =? month_length l 2).

Lemma day_facts (l : bool) (doy : Z) : 0 ≤ doy < 365 + (if l then 1 else 0) → day_ok l doy = true.
Proof.
  intros Hd. destruct l.
  - apply (below_forall 366); [vm_compute; reflexivity|lia].
  - apply (below_forall 365); [vm_compute; reflexivity|lia].
Qed.

Lemma days_in_month_length year m :
  days_in_month (year + (if m <=? 2 then 1 else 0)) m = month_length (leap (year + 1)) m.
Proof. unfold days_in_month, month_length. by destruct (Z.eqb_spec m 2) as [->|]. Qed.

(** The days of a March year follow the calendar, up to the last one. *)
Lemma date_in_next year doy :
  0 ≤ doy → doy + 1 < 365 + (if leap (year + 1) then 1 else 0) →
  next_day (date_in year doy) = date_in year (doy + 1).
Proof.
  intros H0 H1. pose proof (day_facts (leap (year + 1)) doy ltac:(lia)) as Hok.
  unfold day_ok in Hok. unfold date_in.
  destruct (month_day doy) as [m d], (month_day (doy + 1)) as [m' d'].
  rewrite (proj2 (Z.ltb_lt _ _) H1) in Hok. unfold next_day. rewrite days_in_month_length.
  destruct (d <? month_length (leap (year + 1)) m); [|destruct (m <? 12)];
    rewrite ?andb_true_iff, ?Z.eqb_eq in Hok.
  - by destruct Hok as [-> ->].
  - destruct Hok as [[-> ->] Hk%Bool.eqb_prop]. by rewrite Hk.
  - destruct Hok as [[-> ->] Hk]. destruct (m <=? 2); [done|]. by rewrite Z.add_0_r.
Qed.

Lemma date_in_last year :
  next_day (date_in year (364 + (if leap (year + 1) then 1 else 0))) = date_in (year + 1) 0.
Proof.
  set (doy := 364 + (if leap (year + 1) then 1 else 0)).
  assert (day_ok (leap (year + 1)) doy = true) as Hok
    by (apply day_facts; subst doy; destruct (leap (year + 1)); lia).
  unfold day_ok in Hok. unfold date_in at 1. destruct (month_day doy) as [m d], (month_day (doy + 1)).
  rewrite (proj2 (Z.ltb_ge _ _)) in Hok by (subst doy; destruct (leap (year + 1)); lia).
  rewrite andb_true_iff, !Z.eqb_eq in Hok. destruct Hok as [-> ->].
  unfold next_day. rewrite days_in_month_length, Z.ltb_irrefl.
  change (date_in (year + 1) 0) with (year + 1 + 0, 3, 1). by rewrite Z.add_0_r.
Qed.

(** The dates of the audit log are those of the calendar.  Day zero is 1970-01-01, and for
    every day the day after it has the date that the Gregorian calendar puts after its date. *)
Theorem civil_calendar :
  civil_from_days 0 = (1970, 1, 1)
  ∧ ∀ days, civil_from_days (days + 1) = next_day (civil_from_days days).
Proof.
  split; [reflexivity|]. intros days. rewrite !civil_split. cbv zeta.
  set (n := days + 719468). replace (days + 1 + 719468) with (n + 1) by lia.
  pose proof (Z.mod_pos_bound n 146097 ltac:(lia)) as Hr. pose proof (Z.div_mod n 146097 ltac:(lia)) as Hn.
  revert Hr Hn. generalize (n mod 146097) as doe, (n / 146097) as era. intros doe era Hr Hn.
  destruct (year_of_bounds doe Hr) as [Hy Hd].
  destruct (year_facts (year_of doe) Hy) as (_ & _ & Hlen & _ & _ & Hnext).
  assert (leap (year_of doe + era * 400 + 1) = leap (year_of doe + 1)) as Hleap.
  { unfold leap. replace (year_of doe + era * 400 + 1) with (year_of doe + 1 + era * 400) by lia.
    rewrite Z.mod_add by lia. replace (era * 400) with (era * 100 * 4) by lia. rewrite Z.mod_add by lia.
    replace (era * 100 * 4) with (era * 4 * 100) by lia. by rewrite Z.mod_add by lia. }
  destruct (decide (doe = 146096)) as [->|Hlast].
  - assert (n + 1 = (era + 1) * 146097) as -> by lia. rewrite Z.mod_mul, Z.div_mul by lia.
    change (year_of 0) with 0. change (year_start 0) with 0. change (year_of 146096) with 399.
    change (146096 - year_start 399) with (364 + 1).
    pose proof (date_in_last (399 + era * 400)) as E. change (year_of 146096) with 399 in Hleap.
    rewrite Hleap in E. change (leap (399 + 1)) with true in E. cbv iota in E. rewrite E.
    f_equal. lia.
  - assert ((n + 1) / 146097 = era) as -> by (symmetry; apply Z.div_unique with (doe + 1); lia).
    assert ((n + 1) mod 146097 = doe + 1) as -> by (symmetry; apply Z.mod_unique with era; lia).
    destruct (decide (doe + 1 < year_end (year_of doe))) as [Hin|Hout].
    + assert (year_of (doe + 1) = year_of doe) as ->.
      { pose proof (year_of_mono doe (doe + 1) ltac:(lia)).
        pose proof (year_of_mono (doe + 1) (year_end (year_of doe) - 1) ltac:(lia)).
        destruct (year_facts (year_of doe) Hy) as (_ & E & _). lia. }
      rewrite date_in_next; [f_equal; lia|lia|]. rewrite Hleap. lia.
    + assert (year_of doe ≠ 399) as Hn399.
      { intros E. rewrite E in *. change (year_end 399) with 146097 in *. lia. }
      assert (doe + 1 = year_start (year_of doe + 1)) as Estart by lia.
      destruct (year_facts (year_of doe + 1) ltac:(lia)) as (E & _). rewrite <- Estart in E. rewrite E.
      rewrite <- Estart, Z.sub_diag.
      replace (doe - year_start (year_of doe))
        with (364 + (if leap (year_of doe + era * 400 + 1) then 1 else 0)) by (rewrite Hleap; lia).
      rewrite date_in_last. f_equal. lia.
Qed.
