(* ===== verification/Logging.v ===== *)
(** * [src/src/logging.rs]: the audit log

    A [Logger] is everything the handlers and the writer thread share: the
    health flag, the admission counter, the bounded channel and the writer's
    state.  Each operation of a handler on it is one action; [writer_step] is
    one round of the writer thread.  The sink is the list of records written
    and how many of them were flushed, with a fault at every write; the lines
    printed to the terminal are not modelled, and neither is the thread. *)

From S2P Require Import Prelude RustStd Utf8 Float64 Telemetry Backend Runtime Routing Disk Keys Auth Usage Http Timestamp.

(** [uuid::Uuid], by its text. *)
Notation Uuid := string.

(** src/src/logging.rs:53-53 [FLUSH_INTERVAL]; in nanoseconds, as every [Duration] *)
Definition FLUSH_INTERVAL : N := 100000000.
(** src/src/logging.rs:54-54 [AUDIT_REQUEST_SLOTS] *)
Definition AUDIT_REQUEST_SLOTS : N := 4096.
(** src/src/logging.rs:59-59 [MAX_EVENTS_PER_REQUEST] *)
Definition MAX_EVENTS_PER_REQUEST : N := 5.
(** src/src/logging.rs:60-60 [OPENWEBUI_USER_NAME_HEADER] *)
Definition OPENWEBUI_USER_NAME_HEADER : string := "x-openwebui-user-name".
(** src/src/logging.rs:61-61 [OPENWEBUI_USER_ID_HEADER] *)
Definition OPENWEBUI_USER_ID_HEADER : string := "x-openwebui-user-id".
(** src/src/logging.rs:62-62 [OPENWEBUI_CHAT_ID_HEADER] *)
Definition OPENWEBUI_CHAT_ID_HEADER : string := "x-openwebui-chat-id".

(** src/src/logging.rs:101-104 [AuditAdmissionError] *)
Inductive AuditAdmissionError := AuditUnavailable | Saturated.

(** src/src/logging.rs:106-113 [AuditAdmissionError::Display] *)
Definition AuditAdmissionError_display (self : AuditAdmissionError) : string :=
  match self with
  | AuditUnavailable => "the audit writer is unavailable"
  | Saturated => "the audit writer has reached its admitted-request limit"
  end.

(** src/src/logging.rs:119-127 [BodyOutcome] *)
Inductive BodyOutcome := Complete | Aborted | Abandoned | BodyError (error : string).

(** src/src/logging.rs:130-137 [BodyOutcome::describe] *)
Definition describe (self : BodyOutcome) : bool * string * option string :=
  match self with
  | Complete => (true, "complete", None)
  | Aborted => (false, "body_dropped", None)
  | Abandoned => (false, "client_disconnected", None)
  | BodyError error => (false, "body_error", Some error)
  end.

(** [http::Version]. *)
Inductive Version := HTTP_09 | HTTP_10 | HTTP_11 | HTTP_2 | HTTP_3 | OtherVersion.

(** src/src/logging.rs:1061-1070 [version_string] *)
Definition version_string (version : Version) : string :=
  match version with
  | HTTP_09 => "HTTP/0.9"
  | HTTP_10 => "HTTP/1.0"
  | HTTP_11 => "HTTP/1.1"
  | HTTP_2 => "HTTP/2.0"
  | HTTP_3 => "HTTP/3.0"
  | OtherVersion => "unknown"
  end.

(** src/src/logging.rs:159-163 [OpenWebUiUser] *)
Record OpenWebUiUser := mkOpenWebUiUser {
  user_name : option bytes;
  user_id : option bytes;
  chat_id : option bytes;
}.

(** ** Header values *)

(** src/src/logging.rs:229-231 [header_string] *)
Definition header_string (value : option bytes) : option bytes := from_utf8_lossy <$> value.

(** [u8::from_str_radix(hex, 16)] on two bytes: digits, or a plus sign and a digit. *)
Definition from_hex_pair (a b : ascii) : option N :=
  if Ascii.eqb a "+" then hex_value b
  else high ← hex_value a; low ← hex_value b; Some (16 * high + low)%N.

(** src/src/logging.rs, lines 236-252 of [percent_decode]: the loop *)
Fixpoint percent_decode_bytes (s : bytes) : bytes :=
  match s with
  | [] => []
  | x :: rest =>
      match rest with
      | a :: b :: tail =>
          match (if Ascii.eqb x "%" then from_hex_pair a b else None) with
          | Some byte => byte_of byte :: percent_decode_bytes tail
          | None => x :: percent_decode_bytes rest
          end
      | _ => x :: percent_decode_bytes rest
      end
  end.

(** src/src/logging.rs:233-254 [percent_decode] *)
Definition percent_decode (value : bytes) : bytes := from_utf8_lossy (percent_decode_bytes value).

(** ** Requests *)

Section Logging.
Context {Uri HeaderMap : Type} `{UriOps Uri} `{HeaderOps HeaderMap} `{HeaderText}.

(** [http::request::Parts] and the response's. *)
Record Parts := mkParts {
  p_method : string;
  p_uri : Uri;
  p_version : Version;
  p_headers : HeaderMap;
}.

(** src/src/logging.rs:142-155 [RequestInfo]; the peer by the text of its address and its port *)
Record RequestInfo := mkRequestInfo {
  peer_ip : string;
  peer_port : N;
  ri_method : string;
  ri_uri : Uri;
  ri_version : Version;
  host : option bytes;
  user_agent : option bytes;
  content_length : option N;
  ri_key_sha256 : option bytes;
  identity : option KeyIdentity;
  authorized : bool;
  auth_error : option string;
  openwebui_user : option OpenWebUiUser;
}.

(** src/src/logging.rs:167-184 [RequestInfo::new] *)
Definition RequestInfo_new (ip : string) (port : N) (parts : Parts) (auth : Authentication) :
    RequestInfo :=
  {| peer_ip := ip;
     peer_port := port;
     ri_method := p_method parts;
     ri_uri := p_uri parts;
     ri_version := p_version parts;
     host := or (header_string (get_header "host" (p_headers parts)))
                (bs <$> authority (p_uri parts));
     user_agent := header_string (get_header "user-agent" (p_headers parts));
     content_length := header_string (get_header "content-length" (p_headers parts))
                         ≫= parse_unsigned U64_MAX;
     ri_key_sha256 := auth_key_sha256 auth;
     identity := auth_identity auth;
     authorized := is_ok (auth_result auth);
     auth_error := match auth_result auth with
                   | Err error => Some (AuthError_code error)
                   | Ok _ => None
                   end;
     openwebui_user := None |}.

(** src/src/logging.rs:188-209 [RequestInfo::with_openwebui_user] *)
Definition with_openwebui_user (self : RequestInfo) (headers : HeaderMap)
    (key_name : option string) : RequestInfo :=
  let trusted := authorized self
    && match key_name, identity self with
       | Some key_name, Some identity => String.eqb (id_name identity) key_name
       | _, _ => false
       end in
  if negb trusted then self else
  let user :=
    {| user_name := percent_decode <$> header_string (get_header OPENWEBUI_USER_NAME_HEADER headers);
       user_id := header_string (get_header OPENWEBUI_USER_ID_HEADER headers);
       chat_id := header_string (get_header OPENWEBUI_CHAT_ID_HEADER headers) |} in
  if bool_decide (is_Some (user_name user)) || bool_decide (is_Some (user_id user))
  then self <| openwebui_user := Some user |> else self.

(** src/src/logging.rs:213-226 [RequestInfo::principal] *)
Definition principal (self : RequestInfo) : outcome bytes :=
  match identity self, ri_key_sha256 self with
  | Some identity, _ =>
      let known := bs (id_name identity) ++ bs "[" ++ bs (id_identifier identity) ++ bs "]" in
      match (user ← openwebui_user self; or (user_name user) (user_id user)) with
      | Some user => Done (known ++ bs ":" ++ user)
      | None => Done known
      end
  | None, Some digest =>
      match split_at (Nat.min 8 (length digest)) digest with
      | Done (head, _) => Done (bs "unknown[" ++ head ++ bs "]")
      | Panicked => Panicked
      end
  | None, None => Done (bs "anonymous")
  end.

(** src/src/logging.rs:1074-1084 [is_event_stream] *)
Definition is_event_stream (headers : HeaderMap) : bool :=
  match value ← get_header "content-type" headers; to_str value with
  | Some value =>
      let kind := (span (λ x, negb (Ascii.eqb x ";")) value).1 in
      eq_ignore_ascii_case (trim kind) (bs "text/event-stream")
  | None => false
  end.

(** ** Events *)

(** src/src/logging.rs:321-333 [RoutingInfo] *)
Record RoutingInfo := mkRoutingInfo {
  r_backend_id : option string;
  r_routing_policy : option string;
  r_routing_reason : option string;
  r_eligible_backend_count : option N;
  r_pressure : option f64;
  r_running : option N;
  r_waiting : option N;
  r_capacity : option N;
  r_kv_pressure : option f64;
  r_metrics_age_ms : option N;
  r_proxy_active : option N;
}.

(** src/src/logging.rs:335-351 [RoutingInfo::From] *)
Definition RoutingInfo_from (decision : RoutingDecision) : RoutingInfo :=
  {| r_backend_id := Some (dec_backend_id decision);
     r_routing_policy := Some (routing_policy decision);
     r_routing_reason := Some (routing_reason decision);
     r_eligible_backend_count := Some (eligible_backend_count decision);
     r_pressure := backend_pressure_at_dispatch decision;
     r_running := backend_running_at_dispatch decision;
     r_waiting := backend_waiting_at_dispatch decision;
     r_capacity := backend_capacity_at_dispatch decision;
     r_kv_pressure := backend_kv_pressure_at_dispatch decision;
     r_metrics_age_ms := backend_metrics_age_ms decision;
     r_proxy_active := Some (backend_proxy_active_at_dispatch decision) |}.

(** src/src/logging.rs:354-361 [RoutingInfo::unavailable] *)
Definition RoutingInfo_unavailable (reason : string) : RoutingInfo :=
  {| r_backend_id := None;
     r_routing_policy := Some "least-pressure-v1";
     r_routing_reason := Some reason;
     r_eligible_backend_count := Some 0%N;
     r_pressure := None; r_running := None; r_waiting := None; r_capacity := None;
     r_kv_pressure := None; r_metrics_age_ms := None; r_proxy_active := None |}.

(** src/src/logging.rs:286-290 [BodyObservation] *)
Record BodyObservation := mkBodyObservation {
  first_byte_at_unix_ms : option N;
  response_bytes : N;
  o_usage : Usage;
}.

Definition Usage_default : Usage :=
  {| input_tokens := None; output_tokens := None; total_tokens := None; cached_tokens := None |}.

Definition BodyObservation_default : BodyObservation :=
  {| first_byte_at_unix_ms := None; response_bytes := 0; o_usage := Usage_default |}.

(** src/src/logging.rs:256-283 [LogEvent]; the permit of a start event is counted in [admitted] *)
Inductive LogEvent :=
| RequestStarted (id : Uuid) (at_unix_ms : N) (info : RequestInfo)
| ResponseStarted (id : Uuid) (status : N) (streaming : bool)
| RequestError (id : Uuid) (error : string)
| RequestRouted (id : Uuid) (at_unix_ms : N) (routing : RoutingInfo)
| ResponseFinished (id : Uuid) (at_unix_ms : N) (outcome : BodyOutcome)
    (observation : BodyObservation).

(** src/src/logging.rs:292-304 [Pending] *)
Record Pending := mkPending {
  started_at_unix_ms : N;
  info : RequestInfo;
  pd_status : option N;
  pd_streaming : bool;
  pd_first_byte_at_unix_ms : option N;
  pd_response_bytes : N;
  pd_usage : Usage;
  pd_error : option string;
  pd_routing : option RoutingInfo;
  routed_at_unix_ms : option N;
}.

(** src/src/logging.rs:897-944 [RequestRecord] *)
Record RequestRecord := mkRequestRecord {
  rec_event : string;
  rec_request_id : Uuid;
  rec_started_at : string;
  rec_started_at_unix_ms : N;
  rec_finished_at_unix_ms : N;
  rec_duration_ms : N;
  rec_time_to_first_byte_ms : option N;
  rec_client_ip : string;
  rec_client_port : N;
  rec_host : option bytes;
  rec_user_agent : option bytes;
  rec_method : string;
  rec_uri : string;
  rec_http_version : string;
  rec_request_content_length : option N;
  rec_authorized : bool;
  rec_auth_error : option string;
  rec_key_name : option string;
  rec_key_identifier : option string;
  rec_key_sha256 : option bytes;
  rec_key_admin : option bool;
  rec_openwebui_user_name : option bytes;
  rec_openwebui_user_id : option bytes;
  rec_openwebui_chat_id : option bytes;
  rec_backend_id : option string;
  rec_routing_policy : option string;
  rec_routing_reason : option string;
  rec_eligible_backend_count : option N;
  rec_backend_pressure : option f64;
  rec_backend_running : option N;
  rec_backend_waiting : option N;
  rec_backend_capacity : option N;
  rec_backend_kv_pressure : option f64;
  rec_backend_metrics_age_ms : option N;
  rec_backend_proxy_active : option N;
  rec_proxy_queue_ms : option N;
  rec_status : option N;
  rec_streaming : bool;
  rec_response_bytes : N;
  rec_input_tokens : option N;
  rec_output_tokens : option N;
  rec_total_tokens : option N;
  rec_cached_tokens : option N;
  rec_complete : bool;
  rec_termination : string;
  rec_error : option string;
}.

(** src/src/logging.rs, lines 954-1055 of [write_record]: the record of a finished request *)
Definition record_of (id : Uuid) (entry : Pending) (finished_at_unix_ms : N) (outcome : BodyOutcome) :
    RequestRecord :=
  let '(complete, termination, outcome_error) := describe outcome in
  let info := info entry in
  let routing {A} (f : RoutingInfo → option A) : option A := pd_routing entry ≫= f in
  let user (f : OpenWebUiUser → option bytes) : option bytes := openwebui_user info ≫= f in
  {| rec_event := "request";
     rec_request_id := id;
     rec_started_at := format_timestamp (started_at_unix_ms entry);
     rec_started_at_unix_ms := started_at_unix_ms entry;
     rec_finished_at_unix_ms := finished_at_unix_ms;
     rec_duration_ms := finished_at_unix_ms - started_at_unix_ms entry;
     rec_time_to_first_byte_ms :=
       (λ at_, (at_ - started_at_unix_ms entry)%N) <$> pd_first_byte_at_unix_ms entry;
     rec_client_ip := peer_ip info;
     rec_client_port := peer_port info;
     rec_host := host info;
     rec_user_agent := user_agent info;
     rec_method := ri_method info;
     rec_uri := uri_to_string (ri_uri info);
     rec_http_version := version_string (ri_version info);
     rec_request_content_length := content_length info;
     rec_authorized := authorized info;
     rec_auth_error := auth_error info;
     rec_key_name := id_name <$> identity info;
     rec_key_identifier := id_identifier <$> identity info;
     rec_key_sha256 := ri_key_sha256 info;
     rec_key_admin := id_admin <$> identity info;
     rec_openwebui_user_name := user user_name;
     rec_openwebui_user_id := user user_id;
     rec_openwebui_chat_id := user chat_id;
     rec_backend_id := routing r_backend_id;
     rec_routing_policy := routing r_routing_policy;
     rec_routing_reason := routing r_routing_reason;
     rec_eligible_backend_count := routing r_eligible_backend_count;
     rec_backend_pressure := routing r_pressure;
     rec_backend_running := routing r_running;
     rec_backend_waiting := routing r_waiting;
     rec_backend_capacity := routing r_capacity;
     rec_backend_kv_pressure := routing r_kv_pressure;
     rec_backend_metrics_age_ms := routing r_metrics_age_ms;
     rec_backend_proxy_active := routing r_proxy_active;
     rec_proxy_queue_ms := (λ at_, (at_ - started_at_unix_ms entry)%N) <$> routed_at_unix_ms entry;
     rec_status := pd_status entry;
     rec_streaming := pd_streaming entry;
     rec_response_bytes := pd_response_bytes entry;
     rec_input_tokens := input_tokens (pd_usage entry);
     rec_output_tokens := output_tokens (pd_usage entry);
     rec_total_tokens := total_tokens (pd_usage entry);
     rec_cached_tokens := cached_tokens (pd_usage entry);
     rec_complete := complete;
     rec_termination := termination;
     rec_error := or (pd_error entry) outcome_error |}.


(** ** The shared state *)

(** src/src/logging.rs, lines 761-764 of [run_worker]: the writer's own state.  [written] are the records
    passed to the buffered writer and [flushed] how many of them had been when it was last
    flushed. *)
Record Writer := mkWriter {
  w_pending : gmap Uuid Pending;
  written : list RequestRecord;
  flushed : nat;
  dirty : bool;
  last_flush : N;
}.

(** src/src/logging.rs:66-71 [LogSender]; with what its handles point to: the two fields of [LogHealthState], the
    admission counter, the channel and, while it runs, the writer *)
Record Logger := mkLogger {
  healthy : bool;
  failed : bool;
  admitted : N;
  request_slots : N;
  event_slots : N;
  queue : list LogEvent;
  receiver : bool;
  writer : Writer;
}.



(** What [try_send] refuses with. *)
Inductive TrySendError := Full | Disconnected.

Definition on_writer {A} (m : M Writer A) : M Logger A := λ s,
  let '(r, w) := m (writer s) in (r, s <| writer := w |>).

(** src/src/logging.rs:396-436 [start_with_writer_and_slots]; [None] is one of its two panics *)
Definition start_with_writer_and_slots (request_slots now : N) : option Logger :=
  if negb (0 <? request_slots)%N then None else
  if negb (request_slots * MAX_EVENTS_PER_REQUEST <=? USIZE_MAX)%N then None else
  Some {| healthy := true;
          failed := false;
          admitted := 0;
          request_slots := request_slots;
          event_slots := request_slots * MAX_EVENTS_PER_REQUEST;
          queue := [];
          receiver := true;
          writer := {| w_pending := ∅; written := []; flushed := 0; dirty := false;
                       last_flush := now |} |}.

(** src/src/logging.rs:389-394 [start_with_writer] *)
Definition start_with_writer (now : N) : option Logger :=
  start_with_writer_and_slots AUDIT_REQUEST_SLOTS now.

(** src/src/logging.rs:439-445 [LogHealthState::mark_failed] *)
Definition mark_failed : M Logger () :=
  s ← get_state;
  _ ← modify (λ s, s <| healthy := false |>);
  if healthy s then modify (λ s, s <| failed := true |>) else mret ().

(** src/src/logging.rs:449-451 [LogHealth::is_healthy] *)
Definition is_healthy : M Logger bool := gets healthy.

(** src/src/logging.rs, lines 453-461 of [LogHealth::wait_until_unhealthy]: one poll; [true] when it returns *)
Definition wait_until_unhealthy_poll : M Logger bool :=
  healthy ← is_healthy;
  if negb healthy then mret true else
  s ← get_state;
  if failed s then
    _ ← modify (λ s, s <| failed := false |>);
    healthy ← is_healthy; mret (negb healthy)
  else mret false.

(** src/src/logging.rs:310-315 [AuditPermit::Drop] *)
Definition AuditPermit_drop : M Logger () :=
  s ← get_state;
  _ ← modify (λ s, s <| admitted := wrapping_add USIZE_MAX (admitted s) USIZE_MAX |>);
  if (0 <? admitted s)%N then mret () else panic.

(** [SyncSender::try_send]. *)
Definition try_send (event : LogEvent) : M Logger (option TrySendError) :=
  s ← get_state;
  if negb (receiver s) then mret (Some Disconnected) else
  if (event_slots s <=? N.of_nat (length (queue s)))%N then mret (Some Full) else
  _ ← modify (λ s, s <| queue := queue s ++ [event] |>);
  mret None.

(** src/src/logging.rs:607-614 [LogSender::send] *)
Definition send (event : LogEvent) : M Logger () :=
  refused ← try_send event;
  match refused with
  | Some _ => mark_failed
  | None => mret ()
  end.

(** ** What the handlers do *)

(** src/src/logging.rs:618-622 [RequestGuard] *)
Record RequestGuard := mkRequestGuard { rg_id : Uuid; armed : bool }.

(** src/src/logging.rs, lines 512-519 of [LogSender::request_started]: a slot is reserved *)
Definition reserve_slot : M Logger (result AuditAdmissionError ()) :=
  healthy ← is_healthy;
  if negb healthy then mret (Err AuditUnavailable) else
  s ← get_state;
  if negb (admitted s <? request_slots s)%N then mret (Err Saturated) else
  _ ← modify (λ s, s <| admitted := (admitted s + 1)%N |>);
  mret (Ok ()).

(** src/src/logging.rs, lines 520-555 of [LogSender::request_started]: health is read again, then the start event
    is queued; a refused event drops its permit *)
Definition enqueue_start (id : Uuid) (info : RequestInfo) (now : N) :
    M Logger (result AuditAdmissionError RequestGuard) :=
  healthy ← is_healthy;
  if negb healthy then _ ← AuditPermit_drop; mret (Err AuditUnavailable) else
  refused ← try_send (RequestStarted id now info);
  match refused with
  | None => mret (Ok {| rg_id := id; armed := true |})
  | Some _ => _ ← mark_failed; _ ← AuditPermit_drop; mret (Err AuditUnavailable)
  end.

(** src/src/logging.rs:507-556 [LogSender::request_started] *)
Definition request_started (id : Uuid) (info : RequestInfo) (now : N) :
    M Logger (result AuditAdmissionError RequestGuard) :=
  reserved ← reserve_slot;
  match reserved with
  | Err error => mret (Err error)
  | Ok _ => enqueue_start id info now
  end.

(** src/src/logging.rs:558-564 [LogSender::response_started] *)
Definition response_started (id : Uuid) (status : N) (headers : HeaderMap) : M Logger () :=
  send (ResponseStarted id status (is_event_stream headers)).

(** src/src/logging.rs:567-572 [LogSender::request_error] *)
Definition request_error (id : Uuid) (error : string) : M Logger () := send (RequestError id error).

(** src/src/logging.rs:575-581 [LogSender::request_routed] *)
Definition request_routed (id : Uuid) (routing : RoutingInfo) (now : N) : M Logger () :=
  send (RequestRouted id now routing).

(** src/src/logging.rs:593-605 [LogSender::response_finished_with_observation] *)
Definition response_finished_with_observation (id : Uuid) (outcome : BodyOutcome)
    (observation : BodyObservation) (now : N) : M Logger () :=
  send (ResponseFinished id now outcome observation).

(** src/src/logging.rs:589-591 [LogSender::response_finished] *)
Definition response_finished (id : Uuid) (outcome : BodyOutcome) (now : N) : M Logger () :=
  response_finished_with_observation id outcome BodyObservation_default now.

(** src/src/logging.rs:626-628 [RequestGuard::disarm] *)
Definition disarm (self : RequestGuard) : RequestGuard := self <| armed := false |>.

(** src/src/logging.rs:631-638 [RequestGuard::Drop] *)
Definition RequestGuard_drop (self : RequestGuard) (now : N) : M Logger () :=
  if armed self then response_finished (rg_id self) Abandoned now else mret ().

(** ** Observed bodies

    The inner body is a parameter of each poll: what it answered, and whether it reports the end
    of the stream afterwards. *)

(** [hyper::body::Frame]. *)
Inductive Frame := DataFrame (data : bytes) | Trailers.

(** [Poll<Option<Result<Frame, _>>>]. *)
Inductive PolledFrame := ReadyFrame (frame : option (result string Frame)) | PendingFrame.

(** src/src/logging.rs:648-655 [CompletionGuard] *)
Record CompletionGuard := mkCompletionGuard {
  cg_id : Uuid;
  finished : bool;
  cg_first_byte_at_unix_ms : option N;
  cg_response_bytes : N;
  sniffer : UsageSniffer;
}.

(** src/src/logging.rs:733-747 [CompletionGuard::finish] *)
Definition finish (self : CompletionGuard) (outcome : BodyOutcome) (now : N) :
    M Logger CompletionGuard :=
  if finished self then mret self else
  let self := self <| finished := true |> in
  _ ← response_finished_with_observation (cg_id self) outcome
        {| first_byte_at_unix_ms := cg_first_byte_at_unix_ms self;
           response_bytes := cg_response_bytes self;
           o_usage := default Usage_default (usage (sniffer self)) |} now;
  mret self.

(** src/src/logging.rs:750-754 [CompletionGuard::Drop] *)
Definition CompletionGuard_drop (self : CompletionGuard) (now : N) : M Logger () :=
  _ ← finish self Aborted now; mret ().

(** src/src/logging.rs:658-678 [ObservedBody::new] *)
Definition ObservedBody_new (already_finished : bool) (id : Uuid) (now : N) :
    M Logger CompletionGuard :=
  let completion :=
    {| cg_id := id; finished := false; cg_first_byte_at_unix_ms := None;
       cg_response_bytes := 0; sniffer := UsageSniffer_new |} in
  if already_finished then finish completion Complete now else mret completion.

(** src/src/logging.rs:585-587 [LogSender::response_body] *)
Definition response_body (id : Uuid) (already_finished : bool) (now : N) :
    M Logger CompletionGuard :=
  ObservedBody_new already_finished id now.

Context (from_slice : bytes → option UsageFields).

(** src/src/logging.rs, lines 692-701 of [ObservedBody::HttpBody::poll_frame]: a frame is counted and scanned *)
Definition observe_frame (self : CompletionGuard) (frame : Frame) (now : N) :
    M Logger CompletionGuard :=
  match frame with
  | Trailers => mret self
  | DataFrame data =>
      let first := match cg_first_byte_at_unix_ms self with Some at_ => at_ | None => now end in
      let self := self <| cg_first_byte_at_unix_ms := Some first |>
                       <| cg_response_bytes :=
                            saturating_add U64_MAX (cg_response_bytes self)
                              (N.of_nat (length data)) |> in
      match feed from_slice data (sniffer self) with
      | (Done _, fed) => mret (self <| sniffer := fed |>)
      | (Panicked, _) => panic
      end
  end.

(** src/src/logging.rs:685-721 [ObservedBody::HttpBody::poll_frame] *)
Definition ObservedBody_poll_frame (self : CompletionGuard) (polled : PolledFrame)
    (inner_ended : bool) (now : N) : M Logger CompletionGuard :=
  match polled with
  | ReadyFrame (Some (Ok frame)) =>
      self ← observe_frame self frame now;
      if inner_ended then finish self Complete now else mret self
  | ReadyFrame (Some (Err error)) => finish self (BodyError error) now
  | ReadyFrame None => finish self Complete now
  | PendingFrame => mret self
  end.

(** ** The writer *)

(** src/src/logging.rs, lines 954-1058 of [write_record]; [wrote] is the result of the two writes *)
Definition write_record (wrote : result string ()) (id : Uuid) (entry : Pending)
    (finished_at_unix_ms : N) (outcome : BodyOutcome) : M Logger (result string ()) :=
  match wrote with
  | Err error => mret (Err error)
  | Ok _ =>
      _ ← on_writer (modify (λ w, w
            <| written := written w ++ [record_of id entry finished_at_unix_ms outcome] |>));
      mret (Ok ())
  end.

(** [pending.get_mut(&id)], and an update of the entry. *)
Definition update_pending (id : Uuid) (f : Pending → Pending) : M Logger () :=
  on_writer (modify (λ w, w <| w_pending := alter f id (w_pending w) |>)).

(** src/src/logging.rs, lines 834-846 of [handle_event]: the entry of a request that started *)
Definition pending_entry (at_unix_ms : N) (info : RequestInfo) : Pending :=
  {| started_at_unix_ms := at_unix_ms; info := info; pd_status := None; pd_streaming := false;
     pd_first_byte_at_unix_ms := None; pd_response_bytes := 0; pd_usage := Usage_default;
     pd_error := None; pd_routing := None; routed_at_unix_ms := None |}.

(** src/src/logging.rs, lines 885-887 of [handle_event]: the counters of the finished body *)
Definition observed (entry : Pending) (observation : BodyObservation) : Pending :=
  entry <| pd_first_byte_at_unix_ms := first_byte_at_unix_ms observation |>
        <| pd_response_bytes := response_bytes observation |>
        <| pd_usage := o_usage observation |>.

(** src/src/logging.rs:809-894 [handle_event]; [wrote] is what writing a record would return *)
Definition handle_event (wrote : result string ()) (event : LogEvent) :
    M Logger (result string bool) :=
  match event with
  | RequestStarted id at_unix_ms info =>
      s ← get_state;
      _ ← on_writer (modify (λ w, w
            <| w_pending := <[id := pending_entry at_unix_ms info]> (w_pending w) |>));
      _ ← match w_pending (writer s) !! id with
          | Some _ => AuditPermit_drop
          | None => mret ()
          end;
      mret (Ok false)
  | ResponseStarted id status streaming =>
      _ ← update_pending id (λ entry, entry <| pd_status := Some status |>
                                             <| pd_streaming := streaming |>);
      mret (Ok false)
  | RequestError id error =>
      _ ← update_pending id (λ entry, entry <| pd_error := Some error |>);
      mret (Ok false)
  | RequestRouted id at_unix_ms routing =>
      _ ← update_pending id (λ entry, entry <| pd_routing := Some routing |>
                                             <| routed_at_unix_ms := Some at_unix_ms |>);
      mret (Ok false)
  | ResponseFinished id at_unix_ms outcome observation =>
      s ← get_state;
      match w_pending (writer s) !! id with
      | None => mret (Ok false)
      | Some entry =>
          _ ← on_writer (modify (λ w, w <| w_pending := delete id (w_pending w) |>));
          result ← write_record wrote id (observed entry observation) at_unix_ms outcome;
          _ ← AuditPermit_drop;
          mret (match result with Ok _ => Ok true | Err error => Err error end)
      end
  end.

(** src/src/logging.rs, lines 767-771 of [run_worker]: how long to wait for an event *)
Definition worker_wait (w : Writer) (now : N) : N :=
  if dirty w then (FLUSH_INTERVAL - (now - last_flush w))%N else FLUSH_INTERVAL.

(** The results of the calls on the sink in one round. *)
Record SinkFaults := mkSinkFaults { on_write : result string (); on_flush : result string () }.

(** [writer.flush()]. *)
Definition flush (flushing : result string ()) : M Writer (result string ()) :=
  match flushing with
  | Err error => mret (Err error)
  | Ok _ => _ ← modify (λ w, w <| flushed := length (written w) |>); mret (Ok ())
  end.

(** src/src/logging.rs, lines 775-779 of [run_worker]: a flush once the interval has passed *)
Definition flush_if_due (faults : SinkFaults) (now flushed_at : N) : M Writer (result string ()) :=
  w ← get_state;
  if dirty w && (FLUSH_INTERVAL <=? now - last_flush w)%N then
    flushing ← flush (on_flush faults);
    match flushing with
    | Err error => mret (Err error)
    | Ok _ => _ ← modify (λ w, w <| dirty := false |> <| last_flush := flushed_at |>); mret (Ok ())
    end
  else mret (Ok ()).

(** What the channel answered the writer. *)
Inductive Received := ReceivedEvent | ReceiveTimeout.

(** src/src/logging.rs, lines 772-787 of [run_worker]: one round of the loop; an event is the first of the queue *)
Definition worker_round (faults : SinkFaults) (received : Received) (now flushed_at : N) :
    M Logger (result string ()) :=
  match received with
  | ReceivedEvent =>
      s ← get_state;
      match queue s with
      | [] => mret (Ok ())
      | event :: rest =>
          _ ← modify (λ s, s <| queue := rest |>);
          handled ← handle_event (on_write faults) event;
          match handled with
          | Err error => mret (Err error)
          | Ok wrote =>
              _ ← on_writer (modify (λ w, w <| dirty := dirty w || wrote |>));
              on_writer (flush_if_due faults now flushed_at)
          end
      end
  | ReceiveTimeout =>
      on_writer (
        w ← get_state;
        flushing ← (if dirty w then flush (on_flush faults) else mret (Ok ()));
        match flushing with
        | Err error => mret (Err error)
        | Ok _ => _ ← modify (λ w, w <| dirty := false |> <| last_flush := flushed_at |>); mret (Ok ())
        end)
  end.

(** src/src/logging.rs, lines 794-805 of [run_worker]: the entries left when every sender is gone, in the
    order [ids] of the map's keys; [wrote] and [now] are of each write *)
Fixpoint write_remaining (wrote : Uuid → result string ()) (now : Uuid → N) (ids : list Uuid) :
    M Logger (result string ()) :=
  match ids with
  | [] => mret (Ok ())
  | id :: ids =>
      s ← get_state;
      record ← expect (w_pending (writer s) !! id);
      _ ← on_writer (modify (λ w, w <| w_pending := delete id (w_pending w) |>));
      result ← write_record (wrote id) id record (now id)
                 (BodyError "the logger shut down before the response finished");
      _ ← AuditPermit_drop;
      match result with
      | Err error => mret (Err error)
      | Ok _ => write_remaining wrote now ids
      end
  end.

(** src/src/logging.rs, lines 788-806 of [run_worker]: every sender is gone *)
Definition worker_finish (wrote : Uuid → result string ()) (now : Uuid → N)
    (flushing : result string ()) (ids : list Uuid) : M Logger (result string ()) :=
  result ← write_remaining wrote now ids;
  match result with
  | Err error => mret (Err error)
  | Ok _ => on_writer (flush flushing)
  end.

(** Whether an event carries a permit. *)
Definition is_start (event : LogEvent) : bool :=
  match event with RequestStarted _ _ _ => true | _ => false end.

(** [run_worker] returned or unwound: its locals drop (the entries and their permits, then the
    receiver and the events in it with theirs). *)
Definition drop_receiver : M Logger () :=
  s ← get_state;
  _ ← modify (λ s, s <| receiver := false |> <| queue := [] |>
                     <| writer := (writer s) <| w_pending := ∅ |> |>);
  for_each (elements (dom (w_pending (writer s)))) (λ _, AuditPermit_drop);;
  for_each (keep is_start (queue s)) (λ _, AuditPermit_drop).

(** src/src/logging.rs:86-92 [WriterHealthGuard::Drop] *)
Definition WriterHealthGuard_drop : M Logger () := mark_failed.

End Logging.

(** ** Percent encoding *)

(** What a client does before it sends a display name: every byte outside [keep] is escaped. *)
Definition percent_encode (keep : ascii → bool) (v : bytes) : bytes :=
  v ≫= λ x, if keep x then [x]
            else ["%"%char; hex_digit (N.shiftr (code x) 4); hex_digit (N.land (code x) 15)].

Lemma from_hex_byte x :
  from_hex_pair (hex_digit (N.shiftr (code x) 4)) (hex_digit (N.land (code x) 15)) = Some (code x)
  ∧ byte_of (code x) = x.
Proof. revert x. refine (byte_decide _ _). vm_compute. reflexivity. Qed.

Lemma percent_decode_keep x l :
  x ≠ "%"%char → percent_decode_bytes (x :: l) = x :: percent_decode_bytes l.
Proof.
  intros Hx. apply Ascii.eqb_neq in Hx. destruct l as [|a [|b l]]; cbn [percent_decode_bytes]; by rewrite ?Hx.
Qed.

Lemma percent_decode_escape x l :
  percent_decode_bytes ("%"%char :: hex_digit (N.shiftr (code x) 4)
                        :: hex_digit (N.land (code x) 15) :: l) = x :: percent_decode_bytes l.
Proof.
  destruct (from_hex_byte x) as [Hx Hb]. cbn [percent_decode_bytes].
  rewrite Ascii.eqb_refl, Hx, Hb. reflexivity.
Qed.

(** C37: percent decoding undoes percent encoding, whichever bytes the client leaves as they are
    (the percent sign apart), for every name that is UTF-8; and it accepts one escape that no
    encoder writes: [u8::from_str_radix] takes a plus sign, so [%+A] decodes like [%0A]. *)
Theorem percent_roundtrip (keep : ascii → bool) (v : bytes) (Hkeep : keep "%"%char = false)
    (Hv : is_utf8 v = true) :
  percent_decode (percent_encode keep v) = v
  ∧ percent_decode (bs "%+A") = percent_decode (bs "%0A").
Proof.
  split; [|reflexivity]. unfold percent_decode.
  assert (percent_decode_bytes (percent_encode keep v) = v) as ->; [|by apply lossy_id].
  clear Hv. unfold percent_encode. induction v as [|x v IH]; [done|]. cbn [mbind list_bind].
  destruct (keep x) eqn:Hx; cbn [app].
  - rewrite percent_decode_keep by (intros ->; congruence). by rewrite IH.
  - by rewrite percent_decode_escape, IH.
Qed.

Lemma percent_roundtrip_witness :
  percent_decode (percent_encode is_ascii_digit (bs "A b%c")) = bs "A b%c"
  ∧ percent_decode (bs "%+A") = percent_decode (bs "%0A").
Proof. apply (percent_roundtrip is_ascii_digit); vm_compute; reflexivity. Defined.
