(* ===== verification/Proxy.v ===== *)
(** * [src/src/proxy.rs]: the request pipeline

    [AppState] is what the handlers share: the routing state (and through it
    the runtime configuration), the audit log and the key store.  The handler
    is cut where it awaits: [arrive] up to the admitted audit record,
    [authenticated] up to the request sent upstream, [answered] from its
    answer to the response, [respond] from there to the body handed to the
    server.  [proxy] composes them.  The HTTP client is a parameter: the answer
    it gives, and what each poll of the upstream body returns. *)

From S2P Require Import Prelude RustStd Float64 Telemetry Backend Runtime Routing Disk Keys Auth Usage Http Timestamp Logging.

(** src/src/proxy.rs:38-38 [IDENTITY] *)
Definition IDENTITY : bytes := Eval cbv in bs "identity".

(** The body of an answer: the JSON error object, or the upstream's body under its lease. *)
Inductive Body :=
| ErrorJson (message error_type code : string) (param : option string)
| UpstreamBody (guard : option BackendResponseGuard).

(** ** Headers *)

Fixpoint drop_whitespace (s : bytes) : bytes :=
  match s with
  | x :: rest => if is_ascii_whitespace x then drop_whitespace rest else s
  | [] => []
  end.

(** src/src/proxy.rs, lines 378-385 of [remove_hop_by_hop_headers]: from the first to the last byte
    that is not white space *)
Definition trim_ascii (name : bytes) : bytes :=
  reverse (drop_whitespace (reverse (drop_whitespace name))).

Section Headers.
Context {HeaderMap : Type} `{HeaderOps HeaderMap} `{HeaderText} `{IntoResponse HeaderMap}.

(** src/src/proxy.rs, lines 377-388 of [remove_hop_by_hop_headers]: the names one [Connection] value lists *)
Definition names_in (value : bytes) : list string :=
  omap (λ name, match trim_ascii name with
                | [] => None
                | trimmed => name_from_bytes trimmed
                end) (split_on "," value).

(** src/src/proxy.rs, lines 394-404 of [remove_hop_by_hop_headers]: the names removed from every message *)
Definition HOP_BY_HOP : list string :=
  ["connection"; "keep-alive"; "proxy-authenticate"; "proxy-authorization"; "te"; "trailer";
   "transfer-encoding"; "upgrade"; "proxy-connection"].

(** src/src/proxy.rs:373-407 [remove_hop_by_hop_headers] *)
Definition remove_hop_by_hop_headers (headers : HeaderMap) : HeaderMap :=
  let connection_headers := get_all "connection" headers ≫= names_in in
  let headers := foldl (λ headers name, remove name headers) headers connection_headers in
  foldl (λ headers name, remove name headers) headers HOP_BY_HOP.

(** src/src/proxy.rs:293-311 [json_error_body] *)
Definition json_error_body (status : N) (error_type code message : string) : Response HeaderMap Body :=
  {| rs_status := status; rs_headers := json_headers;
     rs_body := ErrorJson message error_type code None |}.

Definition insert_response_header (name : string) (value : bytes)
    (response : Response HeaderMap Body) : Response HeaderMap Body :=
  {| rs_status := rs_status response;
     rs_headers := insert_header name value (rs_headers response);
     rs_body := rs_body response |}.

(** src/src/proxy.rs:261-272 [service_unavailable] *)
Definition service_unavailable : Response HeaderMap Body :=
  insert_response_header "retry-after" (bs "1")
    (json_error_body 503 "api_error" "service_unavailable"
       "The service is temporarily unavailable. Please retry shortly.").

(** src/src/proxy.rs:274-291 [authentication_error] *)
Definition authentication_error (error : AuthError) : Response HeaderMap Body :=
  let status := match error with KeyDisabled => 403%N | _ => 401%N end in
  insert_response_header "www-authenticate" (bs "Bearer")
    (json_error_body status "invalid_request_error" (AuthError_code error) (message error)).

(** src/src/proxy.rs:324-330 [insert_request_id] *)
Definition insert_request_id (response : Response HeaderMap Body) (request_id : Uuid) :
    Response HeaderMap Body :=
  insert_response_header "x-proxy-request-id" (bs request_id) response.

(** src/src/proxy.rs, lines 111-126 of [proxy]: the answer when the audit log does not admit the request *)
Definition admission_refused (error : AuditAdmissionError) : Response HeaderMap Body :=
  match error with
  | Saturated =>
      json_error_body 503 "api_error" "logger_saturated"
        "The audit log is at its admitted-request limit; retry shortly."
  | AuditUnavailable =>
      json_error_body 503 "api_error" "logger_unavailable"
        "The audit log writer is unavailable; the proxy is failing closed."
  end.
End Headers.

(** ** URIs *)

Section Proxy.
Context {Uri HeaderMap : Type} `{UriOps Uri} `{HeaderOps HeaderMap} `{HeaderText}
  `{IntoResponse HeaderMap}.

(** src/src/proxy.rs, lines 333-345 of [upstream_uri]: the path and query of the request under the upstream's path *)
Definition path_and_query (upstream incoming : Uri) : string :=
  let base_path := str (trim_end_matches "/" (bs (path upstream))) in
  let incoming_path := path incoming in
  let path := if String.eqb base_path "" then incoming_path
              else if String.eqb incoming_path "/" then base_path +:+ "/"
              else base_path +:+ incoming_path in
  match query incoming with
  | Some query => path +:+ "?" +:+ query
  | None => path
  end.

(** src/src/proxy.rs:332-362 [upstream_uri] *)
Definition upstream_uri (upstream incoming : Uri) : fallible string Uri :=
  match scheme_str upstream, authority upstream with
  | Some scheme, Some authority => Done (uri_build scheme authority (path_and_query upstream incoming))
  | _, _ => Panicked
  end.

(** src/src/proxy.rs:364-371 [set_upstream_host] *)
Definition set_upstream_host (upstream : Uri) (headers : HeaderMap) : outcome HeaderMap :=
  match authority upstream with
  | Some authority => Done (insert_header "host" (bs authority) headers)
  | None => Panicked
  end.

(** ** Leased bodies *)

(** src/src/proxy.rs:211-221 [LeasedBody::new] *)
Definition LeasedBody_new (ended : bool) (guard : BackendResponseGuard) :
    M (RoutingState (Uri:=Uri)) (option BackendResponseGuard) :=
  if ended then _ ← guard_drop (guard_complete guard); mret None else mret (Some guard).

(** src/src/proxy.rs:228-250 [LeasedBody::HttpBody::poll_frame]; [self] is the body's guard *)
Definition LeasedBody_poll_frame (self : option BackendResponseGuard) (polled : PolledFrame)
    (inner_ended : bool) (now : N) :
    M (RoutingState (Uri:=Uri)) (option BackendResponseGuard) :=
  match polled with
  | PendingFrame => mret self
  | ReadyFrame frame =>
      let failed := match frame with Some (Err _) => true | _ => false end in
      if failed then
        match self with
        | Some guard => guard ← body_error guard now; _ ← guard_drop guard; mret None
        | None => mret None
        end
      else if bool_decide (frame = None) || inner_ended then
        match self with
        | Some guard => _ ← guard_drop (guard_complete guard); mret None
        | None => mret None
        end
      else mret self
  end.

(** Dropping a leased body drops its guard. *)
Definition LeasedBody_drop (self : option BackendResponseGuard) : M (RoutingState (Uri:=Uri)) () :=
  match self with Some guard => guard_drop guard | None => mret () end.

(** ** The handler *)

(** src/src/proxy.rs:40-46 [AppState]; the client is a parameter, and [runtime] is the runtime state
    the routing state holds *)
Record AppState := mkAppState {
  app_routing : RoutingState (Uri:=Uri);
  app_logger : Logger (Uri:=Uri);
  app_keys : KeyStore;
}.

(** src/src/proxy.rs:59-73 [AppState::with_routing] *)
Definition AppState_with_routing (routing : RoutingState) (logger : Logger) (keys : KeyStore) : AppState :=
  {| app_routing := routing; app_logger := logger; app_keys := keys |}.

(** src/src/proxy.rs:49-57 [AppState::new] *)
Definition AppState_new (runtime : RuntimeState) (logger : Logger) (keys : KeyStore) : outcome AppState :=
  match RoutingState_new_assume_ready runtime with
  | Done routing => Done (AppState_with_routing routing logger keys)
  | Panicked => Panicked
  end.

Definition on_routing {A} (m : M (RoutingState (Uri:=Uri)) A) : M AppState A := λ s,
  let '(r, x) := m (app_routing s) in (r, s <| app_routing := x |>).

Definition on_logger {A} (m : M (Logger (Uri:=Uri)) A) : M AppState A := λ s,
  let '(r, x) := m (app_logger s) in (r, s <| app_logger := x |>).

(** What the HTTP client answers: the head of the upstream's response, and whether its body has
    already ended. *)
Record UpstreamResponse := mkUpstreamResponse {
  up_status : N;
  up_headers : HeaderMap;
  up_ended : bool;
}.

(** A request waiting for its upstream. *)
Record Awaiting := mkAwaiting {
  selection : RouteSelection;
  upstream_request : Parts (Uri:=Uri) (HeaderMap:=HeaderMap);
}.

(** src/src/proxy.rs, lines 101-110 of [proxy]: authenticate, and ask the audit log to admit the request; the peer is [ip] and
    [port] *)
Definition arrive `{KeyCrypto} (request_id : Uuid) (ip : string) (port : N)
    (parts : Parts (Uri:=Uri) (HeaderMap:=HeaderMap)) (now : N) :
    M AppState (result (Response HeaderMap Body) (RequestGuard * result AuthError ())) :=
  s ← get_state;
  authentication ← λ s', (authenticate to_str (get_all "authorization" (p_headers parts)) (app_keys s), s');
  config ← on_routing runtime_config;
  let info := with_openwebui_user (RequestInfo_new ip port parts authentication)
                (p_headers parts) (key_name (openwebui config)) in
  admitted ← on_logger (request_started request_id info now);
  mret (match admitted with
        | Ok guard => Ok (guard, auth_result authentication)
        | Err error => Err (admission_refused error)
        end).

(** src/src/proxy.rs, lines 170-175 of [forward]: the head of the request sent upstream *)
Definition upstream_parts (uri : Uri) (parts : Parts (Uri:=Uri) (HeaderMap:=HeaderMap)) :
    outcome (Parts (Uri:=Uri) (HeaderMap:=HeaderMap)) :=
  match set_upstream_host uri (remove_hop_by_hop_headers (p_headers parts)) with
  | Panicked => Panicked
  | Done headers =>
      Done {| p_method := p_method parts; p_uri := uri; p_version := HTTP_11;
              p_headers := insert_header "accept-encoding" IDENTITY headers |}
  end.

(** The value of a step that may panic. *)
Definition or_panic {S A} (o : outcome A) : M S A := λ s, (o, s).

(** src/src/proxy.rs, lines 144-176 of [forward]: up to the await on the client; [now] is of the log, [at_] and [clock] of the
    selection *)
Definition forward_dispatch (request_id : Uuid) (parts : Parts (Uri:=Uri) (HeaderMap:=HeaderMap))
    (now at_ : N) (clock : string → N * N) : M AppState (result (Response HeaderMap Body) Awaiting) :=
  selection ← on_routing (select at_ clock);
  match selection with
  | None =>
      _ ← on_logger (request_routed request_id (RoutingInfo_unavailable "no_eligible_backend") now);
      mret (Err service_unavailable)
  | Some selection =>
      _ ← on_logger (request_routed request_id (RoutingInfo_from (decision selection)) now);
      upstream ← expect (result_ok (uri_parse (backend_url selection)));
      uri ← or_panic (upstream_uri upstream (p_uri parts));
      match uri with
      | Err error =>
          _ ← on_routing (RouteSelection_drop selection at_);
          mret (Err (json_error_body 400 "invalid_request_error" "invalid_proxy_uri"
                       ("Could not construct upstream URI: " +:+ error)))
      | Ok uri =>
          parts ← or_panic (upstream_parts uri parts);
          mret (Ok {| selection := selection; upstream_request := parts |})
      end
  end.

(** src/src/proxy.rs, lines 177-195 of [forward]: what follows the client's answer *)
Definition forward_answered (request_id : Uuid) (awaiting : Awaiting)
    (answer : result string UpstreamResponse) (now : N) : M AppState (Response HeaderMap Body) :=
  match answer with
  | Err error =>
      _ ← on_routing (record_transport_failure (selection awaiting) now);
      _ ← on_logger (request_error request_id ("backend request failed: " +:+ error));
      mret service_unavailable
  | Ok response =>
      guard ← on_routing (into_response_guard (selection awaiting) (up_status response) now);
      body ← on_routing (LeasedBody_new (up_ended response) guard);
      mret {| rs_status := up_status response;
              rs_headers := remove_hop_by_hop_headers (up_headers response);
              rs_body := UpstreamBody body |}
  end.

(** src/src/proxy.rs:138-196 [forward] *)
Definition forward (client : Parts (Uri:=Uri) (HeaderMap:=HeaderMap) → result string UpstreamResponse)
    (request_id : Uuid) (parts : Parts (Uri:=Uri) (HeaderMap:=HeaderMap)) (now at_ : N)
    (clock : string → N * N) (answered_at : N) : M AppState (Response HeaderMap Body) :=
  dispatched ← forward_dispatch request_id parts now at_ clock;
  match dispatched with
  | Err response => mret response
  | Ok awaiting =>
      forward_answered request_id awaiting (client (upstream_request awaiting)) answered_at
  end.

(** Whether the body handed to the logger has already ended: an error body has not, and the
    upstream's has when its stream had. *)
Definition body_ended (body : Body) : bool :=
  match body with
  | ErrorJson _ _ _ _ => false
  | UpstreamBody guard => bool_decide (guard = None)
  end.

(** src/src/proxy.rs:315-322 [finish]; the response, and the guard of its observed body *)
Definition finish_response (request_id : Uuid) (response : Response HeaderMap Body) (now : N) :
    M AppState (Response HeaderMap Body * CompletionGuard) :=
  let response := insert_request_id response request_id in
  _ ← on_logger (response_started request_id (rs_status response) (rs_headers response));
  completion ← on_logger (response_body request_id (body_ended (rs_body response)) now);
  mret (response, completion).

(** src/src/proxy.rs:96-136 [proxy] *)
Definition proxy `{KeyCrypto}
    (client : Parts (Uri:=Uri) (HeaderMap:=HeaderMap) → result string UpstreamResponse)
    (request_id : Uuid) (ip : string) (port : N)
    (parts : Parts (Uri:=Uri) (HeaderMap:=HeaderMap)) (now at_ : N) (clock : string → N * N) :
    M AppState (Response HeaderMap Body * option CompletionGuard) :=
  arrived ← arrive request_id ip port parts now;
  match arrived with
  | Err response => mret (response, None)
  | Ok (guard, authenticated) =>
      response ← (match authenticated with
                  | Ok _ => forward client request_id parts now at_ clock now
                  | Err error => mret (authentication_error error)
                  end);
      let guard := disarm guard in
      '(response, completion) ← finish_response request_id response now;
      _ ← on_logger (RequestGuard_drop guard now);
      mret (response, Some completion)
  end.

(** The handler is dropped while it waits for the upstream: the selection drops, then the
    request guard. *)
Definition abandoned (awaiting : Awaiting) (guard : RequestGuard) (now : N) : M AppState () :=
  _ ← on_routing (RouteSelection_drop (selection awaiting) now);
  on_logger (RequestGuard_drop guard now).
End Proxy.

(** ** Hop-by-hop headers *)

Section HopByHop.
Context {HeaderMap : Type} `{HeaderLaws HeaderMap} `{HeaderText} `{IntoResponse HeaderMap}.

Lemma get_all_removed (names : list string) (n : string) (h : HeaderMap) :
  get_all n (foldl (λ h m, remove m h) h names) = if decide (n ∈ names) then [] else get_all n h.
Proof.
  revert h. induction names as [|m names IH]; intros h; cbn [foldl].
  { by rewrite decide_False by apply not_elem_of_nil. }
  rewrite IH, get_all_remove. repeat case_decide; set_solver.
Qed.

(** The names the [Connection] headers list. *)
Definition connection_names (h : HeaderMap) : list string :=
  get_all "connection" h ≫= names_in.

Lemma get_all_hop_by_hop (n : string) (h : HeaderMap) :
  get_all n (remove_hop_by_hop_headers h)
  = if decide (n ∈ HOP_BY_HOP ∨ n ∈ connection_names h) then [] else get_all n h.
Proof.
  unfold remove_hop_by_hop_headers, connection_names. rewrite !get_all_removed.
  repeat case_decide; set_solver.
Qed.
End HopByHop.

(** Values joined by commas. *)
Fixpoint comma_join (pieces : list bytes) : bytes :=
  match pieces with
  | [] => []
  | [piece] => piece
  | piece :: pieces => piece ++ ","%char :: comma_join pieces
  end.

Lemma split_on_join (pieces : list bytes) :
  pieces ≠ [] → Forall (λ p, ","%char ∉ p) pieces → split_on "," (comma_join pieces) = pieces.
Proof.
  induction pieces as [|p [|q pieces] IH]; intros Hne Hp; [done| |].
  - apply Forall_cons in Hp as [Hp _]. by apply split_on_no.
  - apply Forall_cons in Hp as [Hp Hps].
    change (split_on "," (p ++ ","%char :: comma_join (q :: pieces)) = p :: q :: pieces).
    rewrite split_on_app by done. f_equal. by apply IH.
Qed.

Lemma drop_whitespace_app (l s : bytes) :
  Forall (λ x, is_ascii_whitespace x = true) l → drop_whitespace (l ++ s) = drop_whitespace s.
Proof. induction 1 as [|x l Hx Hl IH]; [done|]. cbn [app drop_whitespace]. by rewrite Hx. Qed.

(** A token: visible at both ends, and without a comma. *)
Definition token (t : bytes) : Prop :=
  ","%char ∉ t ∧ (∃ x, head t = Some x ∧ is_ascii_whitespace x = false)
  ∧ (∃ x, last t = Some x ∧ is_ascii_whitespace x = false).

Definition blank (l : bytes) : Prop := Forall (λ x, is_ascii_whitespace x = true) l.

Lemma trim_ascii_token (l t r : bytes) : blank l → blank r → token t → trim_ascii (l ++ t ++ r) = t.
Proof.
  intros Hl Hr (_ & (x & Hx & Wx) & (y & Hy & Wy)). unfold trim_ascii.
  rewrite drop_whitespace_app by done. destruct t as [|x' t]; [done|]. injection Hx as ->.
  cbn [app drop_whitespace]. rewrite Wx. change (x :: t ++ r) with ((x :: t) ++ r).
  rewrite reverse_app, drop_whitespace_app.
  2:{ apply List.Forall_forall. intros z Hz. rewrite <- list_elem_of_In, elem_of_reverse in Hz.
      unfold blank in Hr. rewrite Forall_forall in Hr. by apply Hr. }
  apply last_Some in Hy as [t' Ht]. rewrite Ht, reverse_snoc. cbn [drop_whitespace]. rewrite Wy.
  by rewrite reverse_cons, reverse_involutive.
Qed.

Lemma blank_no_comma l : blank l → ","%char ∉ l.
Proof. unfold blank. rewrite Forall_forall. intros Hl Hc. by specialize (Hl _ Hc). Qed.

(** One value of [Connection]: tokens between commas, with white space around them. *)
Lemma names_in_join `{HeaderText} (tokens : list (bytes * bytes * bytes)) :
  tokens ≠ [] → Forall (λ '(l, t, r), blank l ∧ token t ∧ blank r) tokens →
  names_in (comma_join ((λ '(l, t, r), l ++ t ++ r) <$> tokens))
  = omap (λ '(_, t, _), name_from_bytes t) tokens.
Proof.
  intros Hne Ht. unfold names_in. rewrite split_on_join.
  - clear Hne. induction Ht as [|[[l t] r] tokens (Hl & Hr & Hs) Ht IH]; [done|].
    rewrite fmap_cons. cbn [omap list_omap]. rewrite trim_ascii_token by done.
    destruct t as [|x t]; [by destruct Hr as (_ & (? & ? & _) & _)|]. by rewrite <- IH.
  - by destruct tokens.
  - apply Forall_fmap. eapply Forall_impl; [exact Ht|]. intros [[l t] r] (Hl & (Hc & _) & Hr). simpl.
    rewrite !elem_of_app. apply blank_no_comma in Hl, Hr. tauto.
Qed.

(** ** What goes upstream *)

Lemma trim_start_no_byte (c x : ascii) (s : bytes) :
  contains_byte x s = false → contains_byte x (trim_start_matches c s) = false.
Proof.
  unfold contains_byte. induction s as [|y s IH]; [done|]. cbn [trim_start_matches]. intros Hs.
  case_match; [|done]. apply IH. cbn [existsb] in Hs. by apply orb_false_iff in Hs as [_ ?].
Qed.

Lemma trim_end_no_byte (c x : ascii) (s : bytes) :
  contains_byte x s = false → contains_byte x (trim_end_matches c s) = false.
Proof.
  intros Hs. unfold trim_end_matches. rewrite contains_byte_rev. apply trim_start_no_byte.
  by rewrite contains_byte_rev.
Qed.

Section Upstream.
Context {Uri HeaderMap : Type} `{UriOps Uri} `{HeaderLaws HeaderMap} `{HeaderText}
  `{IntoResponse HeaderMap}.
Implicit Types (parts : Parts (Uri:=Uri) (HeaderMap:=HeaderMap)).

(** C27: the headers of the request sent upstream.  It names the upstream as its host and asks for
    an uncompressed answer; no hop-by-hop header and none that the client's [Connection] headers
    list is forwarded; every other header goes through with all its values.  What [Connection]
    lists are its comma-separated tokens, whatever white space surrounds them. *)
Theorem upstream_headers (uri : Uri) parts parts' (n : string)
    (Hsent : upstream_parts uri parts = Done parts') :
  p_method parts' = p_method parts ∧ p_uri parts' = uri ∧ p_version parts' = HTTP_11
  ∧ get_all n (p_headers parts') =
    (if decide (n = "accept-encoding") then [bs "identity"]
     else if decide (n = "host") then bs <$> option_list (authority uri)
     else if decide (n ∈ HOP_BY_HOP ∨ n ∈ connection_names (p_headers parts)) then []
     else get_all n (p_headers parts))
  ∧ ∀ tokens, tokens ≠ [] → Forall (λ '(l, t, r), blank l ∧ token t ∧ blank r) tokens →
      get_all "connection" (p_headers parts) = [comma_join ((λ '(l, t, r), l ++ t ++ r) <$> tokens)] →
      connection_names (p_headers parts) = omap (λ '(_, t, _), name_from_bytes t) tokens.
Proof.
  unfold upstream_parts, set_upstream_host in Hsent.
  destruct (authority uri) as [a|] eqn:Ha; [|done]. injection Hsent as <-.
  cbn [p_method p_uri p_version p_headers].
  split_and!; [done..| |].
  - rewrite !get_all_insert, get_all_hop_by_hop. by repeat case_decide.
  - intros tokens Hne Ht Hv. unfold connection_names. rewrite Hv. cbn. rewrite app_nil_r.
    by apply names_in_join.
Qed.

(** The URI of the request sent upstream.  Its path and query are the client's, as they are,
    after the upstream's path without its trailing slashes (the two special cases of the source, an
    upstream at the root and a client path that is the root, agree with this); its scheme and its
    authority are the upstream's, and it has no query when the client sent none. *)
Theorem upstream_uri_spec `{!UriLaws Uri} (upstream incoming uri : Uri)
    (Huri : upstream_uri upstream incoming = Done (Ok uri)) :
  path_and_query upstream incoming
  = str (trim_end_matches "/" (bs (path upstream))) +:+ path incoming
    +:+ match query incoming with Some q => "?" +:+ q | None => "" end
  ∧ scheme_str uri = scheme_str upstream ∧ authority uri = authority upstream
  ∧ is_Some (scheme_str uri) ∧ is_Some (authority uri)
  ∧ (query incoming = None → query uri = None).
Proof.
  assert (path_and_query upstream incoming
    = str (trim_end_matches "/" (bs (path upstream))) +:+ path incoming
      +:+ match query incoming with Some q => "?" +:+ q | None => "" end) as Hp.
  { unfold path_and_query. set (base := str _). set (p := path incoming).
    assert ((if String.eqb base "" then p else if String.eqb p "/" then base +:+ "/" else base +:+ p)
            = base +:+ p) as ->.
    { destruct (String.eqb_spec base "") as [->|_]; [done|]. by destruct (String.eqb_spec p "/") as [->|_]. }
    destruct (query incoming); apply bs_inj; rewrite !bs_app; [by rewrite <- app_assoc|by rewrite app_nil_r]. }
  unfold upstream_uri in Huri.
  destruct (scheme_str upstream) as [s|] eqn:Es, (authority upstream) as [a|] eqn:Ea; try done.
  injection Huri as Hb. apply build_parts in Hb as (Hs & Ha & Hq).
  split_and!; [done|done|done|by eexists|by eexists|]. intros Hn. apply Hq. rewrite Hp, Hn, !bs_app, app_nil_r.
  unfold contains_byte. rewrite existsb_app, bs_str. apply orb_false_iff. split.
  - apply trim_end_no_byte. apply path_no_query.
  - apply path_no_query.
Qed.
End Upstream.

(** A request with hop-by-hop headers, and an upstream under a prefix. *)
Definition demo_parts : Parts (Uri:=SimpleUri) (HeaderMap:=Entries) :=
  {| p_method := "POST";
     p_uri := mkSimpleUri "http" "proxy.test" (bs "/v1/models") (Some "stream=true");
     p_version := HTTP_2;
     p_headers := [("host", bs "proxy.test"); ("connection", bs " X-Remove ,keep-alive");
                   ("x-remove", bs "yes"); ("x-keep", bs "a"); ("te", bs "trailers");
                   ("x-keep", bs "b")] |}.

Definition demo_upstream : SimpleUri := mkSimpleUri "http" "127.0.0.1:1234" (bs "/internal//") None.

Lemma upstream_headers_witness :
  ∃ parts', upstream_parts demo_upstream demo_parts = Done parts'
    ∧ get_all "x-remove" (p_headers parts') = [] ∧ get_all "x-keep" (p_headers parts') = [bs "a"; bs "b"]
    ∧ get_all "host" (p_headers parts') = [bs "127.0.0.1:1234"]
    ∧ get_all "te" (p_headers parts') = [].
Proof.
  eexists. split; [vm_compute; reflexivity|].
  pose proof (λ parts' n H, proj1 (proj2 (proj2 (proj2 (upstream_headers demo_upstream demo_parts parts' n H))))) as Hs.
  split_and!; (rewrite Hs; [vm_compute; reflexivity|vm_compute; reflexivity]).
Defined.

Lemma upstream_uri_spec_witness :
  ∃ uri, upstream_uri demo_upstream (p_uri demo_parts) = Done (Ok uri)
    ∧ path_and_query demo_upstream (p_uri demo_parts) = "/internal/v1/models?stream=true"
    ∧ authority uri = Some "127.0.0.1:1234".
Proof.
  eexists. split; [vm_compute; reflexivity|].
  edestruct (upstream_uri_spec demo_upstream (p_uri demo_parts)) as (Hp & _ & Ha & _);
    [vm_compute; reflexivity|].
  split; [rewrite Hp; vm_compute; reflexivity|rewrite Ha; reflexivity].
Defined.
