(* ===== verification/AuditTrail.v ===== *)
(** * The audit trail of interleaved requests

    The handlers of any number of requests and the writer thread run
    interleaved, one action of [Logging.v] at a time: a handler reserves its
    slot, queues its start event and reports what happens in the order the
    proxy does; the writer takes one event, times out, or stops.  Sends are
    atomic, and so is the writer's handling of one event. *)

From S2P Require Import Prelude RustStd Float64 Telemetry Backend Runtime Routing Disk Keys Auth Usage Http Timestamp Logging.

Notation reachable step := (rtc step) (only parsing).

Section Audit.
Context {Uri HeaderMap : Type} `{UriOps Uri} `{HeaderOps HeaderMap} `{HeaderText}
  (from_slice : bytes → option UsageFields).
Local Notation Logger := (Logger (Uri:=Uri)).
Local Notation LogEvent := (LogEvent (Uri:=Uri)).
Local Notation RequestInfo := (RequestInfo (Uri:=Uri)).
Local Notation Pending := (Pending (Uri:=Uri)).

(** ** The handlers *)

(** Where a request is: it holds a slot; its guard is armed, a decision or an error was reported
    or not; its guard is disarmed; its response was reported; its body is observed. *)
Inductive Phase :=
| Reserved
| Armed (routed errored : bool)
| Disarmed
| Responded
| Observed (completion : CompletionGuard).

(** One action of the handler of [id], or of its body; [None] is a request that is gone.  An armed
    guard may be dropped at any point: the client left, or the handler unwound. *)
Inductive task_step (id : Uuid) : Phase → Logger → option Phase → Logger → Prop :=
| Task_routed routing now errored lg lg' :
    request_routed id routing now lg = (Done (), lg') →
    task_step id (Armed false errored) lg (Some (Armed true errored)) lg'
| Task_error error routed lg lg' :
    request_error id error lg = (Done (), lg') →
    task_step id (Armed routed false) lg (Some (Armed routed true)) lg'
| Task_abandon routed errored now lg lg' :
    RequestGuard_drop {| rg_id := id; armed := true |} now lg = (Done (), lg') →
    task_step id (Armed routed errored) lg None lg'
| Task_disarm routed errored now lg lg' :
    RequestGuard_drop (disarm {| rg_id := id; armed := true |}) now lg = (Done (), lg') →
    task_step id (Armed routed errored) lg (Some Disarmed) lg'
| Task_respond status (headers : HeaderMap) lg lg' :
    response_started id status headers lg = (Done (), lg') →
    task_step id Disarmed lg (Some Responded) lg'
| Task_body ended now completion lg lg' :
    response_body id ended now lg = (Done completion, lg') →
    task_step id Responded lg (Some (Observed completion)) lg'
| Task_poll completion polled ended now completion' lg lg' :
    ObservedBody_poll_frame from_slice completion polled ended now lg = (Done completion', lg') →
    task_step id (Observed completion) lg (Some (Observed completion')) lg'
| Task_drop completion now lg lg' :
    CompletionGuard_drop completion now lg = (Done (), lg') →
    task_step id (Observed completion) lg None lg'.

(** ** The system *)

(** The writer thread: in its loop; returned, with an error or not, its locals not yet dropped;
    and gone. *)
Inductive WorkerPhase := WRunning | WStopping (failed : bool) | WGone (failed : bool).

(** [started] remembers what each admitted request was recorded with, [used] the ids drawn so far,
    [serving] whether new requests still arrive. *)
Record AuditSystem := mkAuditSystem {
  log : Logger;
  tasks : gmap Uuid Phase;
  started : gmap Uuid (RequestInfo * N);
  used : gset Uuid;
  worker : WorkerPhase;
  serving : bool;
}.

(** One action.  A request id is a version 4 UUID and was not drawn before; the channel reports
    that every sender is gone only when it is empty, and a sender lives as long as a request. *)
Inductive audit_step : AuditSystem → AuditSystem → Prop :=
| Step_reserve id r lg lg' ts st us w :
    id ∉ us → reserve_slot lg = (Done r, lg') →
    audit_step (mkAuditSystem lg ts st us w true)
      (mkAuditSystem lg' (if is_ok r then <[id := Reserved]> ts else ts) st ({[id]} ∪ us) w true)
| Step_start id info now r lg lg' ts st us w sv :
    ts !! id = Some Reserved → enqueue_start id info now lg = (Done r, lg') →
    audit_step (mkAuditSystem lg ts st us w sv)
      (mkAuditSystem lg' (if is_ok r then <[id := Armed false false]> ts else delete id ts)
         (if is_ok r then <[id := (info, now)]> st else st) us w sv)
| Step_task id p p' lg lg' ts st us w sv :
    ts !! id = Some p → task_step id p lg p' lg' →
    audit_step (mkAuditSystem lg ts st us w sv)
      (mkAuditSystem lg' (partial_alter (λ _, p') id ts) st us w sv)
| Step_round faults received now flushed_at r lg lg' ts st us sv :
    worker_round faults received now flushed_at lg = (Done r, lg') →
    audit_step (mkAuditSystem lg ts st us WRunning sv)
      (mkAuditSystem lg' ts st us (if is_ok r then WRunning else WStopping true) sv)
| Step_close lg st us w :
    audit_step (mkAuditSystem lg ∅ st us w true) (mkAuditSystem lg ∅ st us w false)
| Step_finish wrote now flushing ids r lg lg' st us :
    queue lg = [] → ids ≡ₚ elements (dom (w_pending (writer lg))) →
    worker_finish wrote now flushing ids lg = (Done r, lg') →
    audit_step (mkAuditSystem lg ∅ st us WRunning false)
      (mkAuditSystem lg' ∅ st us (WStopping (negb (is_ok r))) false)
| Step_drop failed lg ts st us sv :
    audit_step (mkAuditSystem lg ts st us (WStopping failed) sv)
      (mkAuditSystem (drop_receiver lg).2 ts st us (WGone failed) sv)
| Step_health failed lg ts st us sv :
    audit_step (mkAuditSystem lg ts st us (WGone failed) sv)
      (mkAuditSystem (WriterHealthGuard_drop lg).2 ts st us (WGone failed) sv).

(** The log just started, before any request. *)
Definition initial (lg : Logger) : AuditSystem := mkAuditSystem lg ∅ ∅ ∅ WRunning true.

(** ** Reading a state *)

Definition event_id (event : LogEvent) : Uuid :=
  match event with
  | RequestStarted id _ _ | ResponseStarted id _ _ | RequestError id _ | RequestRouted id _ _
  | ResponseFinished id _ _ _ => id
  end.

Definition is_finish (event : LogEvent) : bool :=
  match event with ResponseFinished _ _ _ _ => true | _ => false end.

Definition is_middle (event : LogEvent) : bool := negb (is_start event) && negb (is_finish event).

(** The events of a request in the queue, and its records. *)
Definition events_of (id : Uuid) (l : list LogEvent) : list LogEvent :=
  filter (λ e, event_id e = id) l.

Definition records_of (id : Uuid) (l : list RequestRecord) : list RequestRecord :=
  filter (λ r, rec_request_id r = id) l.

(** A record made from what the request was started with. *)
Definition record_about (info : RequestInfo) (at_ : N) (r : RequestRecord) : Prop :=
  ∃ id entry finished_at outcome, r = record_of id entry finished_at outcome
    ∧ Logging.info entry = info ∧ started_at_unix_ms entry = at_.

(** ** What a request can have in flight

    [budget] bounds the events a request in a phase has sent between its first and its last;
    [closed] says its last one was sent. *)

Definition budget (p : option Phase) : nat :=
  match p with
  | Some Reserved => 0
  | Some (Armed routed errored) => Nat.b2n routed + Nat.b2n errored
  | Some Disarmed => 2
  | Some Responded | Some (Observed _) | None => 3
  end.

Definition closed (p : option Phase) : bool :=
  match p with
  | Some (Observed completion) => finished completion
  | Some _ => false
  | None => true
  end.

Definition phase_ok (id : Uuid) (p : option Phase) : Prop :=
  match p with
  | Some (Observed completion) => cg_id completion = id
  | Some Reserved => False
  | _ => True
  end.

Definition tail_ok (p : option Phase) (mids fin : list LogEvent) : Prop :=
  Forall (λ e, is_middle e = true) mids
  ∧ if closed p then length mids ≤ 3 ∧ ∃ f, fin = [f] ∧ is_finish f = true
    else length mids ≤ budget p ∧ fin = [].

(** The pending entry, the queued events and the records of an admitted request.  [lost]: the
    writer failed, and the record may have been lost. *)
Inductive trace_ok (lost : bool) (id : Uuid) (info : RequestInfo) (at_ : N) (p : option Phase) :
    option Pending → list LogEvent → list RequestRecord → Prop :=
| Trace_queued mids fin :
    tail_ok p mids fin →
    trace_ok lost id info at_ p None (RequestStarted id at_ info :: mids ++ fin) []
| Trace_pending entry mids fin :
    tail_ok p mids fin → Logging.info entry = info → started_at_unix_ms entry = at_ →
    trace_ok lost id info at_ p (Some entry) (mids ++ fin) []
| Trace_recorded r :
    closed p = true → record_about info at_ r → trace_ok lost id info at_ p None [] [r]
| Trace_lost :
    closed p = true → lost = true → trace_ok lost id info at_ p None [] [].

Definition id_ok (lost : bool) (id : Uuid) (st : option (RequestInfo * N)) (p : option Phase)
    (entry : option Pending) (es : list LogEvent) (rs : list RequestRecord) : Prop :=
  match st with
  | None => (p = None ∨ p = Some Reserved) ∧ entry = None ∧ es = [] ∧ rs = []
  | Some (info, at_) => phase_ok id p ∧ trace_ok lost id info at_ p entry es rs
  end.

(** Whether a request holds a permit. *)
Definition holds (p : option Phase) (entry : option Pending) (es : list LogEvent) : Prop :=
  p = Some Reserved ∨ is_Some entry ∨ ∃ e, e ∈ es ∧ is_start e = true.

Lemma budget_le p : budget p ≤ 3.
Proof. destruct p as [[|[] []| | |]|]; simpl; lia. Qed.

Lemma trace_length lost id info at_ p entry es rs :
  trace_ok lost id info at_ p entry es rs → length es ≤ 5 ∧ (closed p = false → length es ≤ 1 + budget p).
Proof.
  destruct 1 as [mids fin [_ Ht]|e mids fin [_ Ht]|r Hc|Hc]; simpl; try rewrite length_app;
    try (split; [lia|intros ?; congruence]).
  all: destruct (closed p); [destruct Ht as (? & f & -> & _); simpl; split; [lia|done]|].
  all: destruct Ht as [Hl ->]; simpl; pose proof (budget_le p).
  all: split; [|intros _]; lia.
Qed.

(** An admitted request that still has an event to send holds a permit. *)
Lemma trace_holds lost id info at_ p entry es rs :
  trace_ok lost id info at_ p entry es rs → closed p = false → holds p entry es.
Proof.
  destruct 1; intros Hp; try congruence; unfold holds.
  - right. right. eexists. split; [by left|done].
  - right. left. by eexists.
Qed.

Lemma trace_quiet lost id info at_ p p' entry es rs :
  closed p' = closed p → budget p ≤ budget p' →
  trace_ok lost id info at_ p entry es rs → trace_ok lost id info at_ p' entry es rs.
Proof.
  intros Hc Hb. assert (∀ mids fin, tail_ok p mids fin → tail_ok p' mids fin) as Ht.
  { intros mids fin [Hm Hf]. split; [done|]. rewrite Hc. destruct (closed p); [done|].
    destruct Hf. split; [lia|done]. }
  destruct 1; constructor; auto; congruence.
Qed.

(** One more event of the request at the end of the queue. *)
Definition emits (p p' : option Phase) (e : LogEvent) : Prop :=
  is_middle e = true ∧ closed p' = false ∧ S (budget p) ≤ budget p'
  ∨ is_finish e = true ∧ closed p' = true.

Lemma tail_emit p p' e mids fin :
  closed p = false → emits p p' e → tail_ok p mids fin →
  ∃ mids' fin', mids' ++ fin' = (mids ++ fin) ++ [e] ∧ tail_ok p' mids' fin'.
Proof.
  unfold tail_ok. intros Hc He [Hm Hf]. rewrite Hc in Hf. destruct Hf as [Hl ->].
  pose proof (budget_le p).
  destruct He as [(He & Hc' & Hb)|[He Hc']]; rewrite Hc'.
  - exists (mids ++ [e]), []. rewrite !app_nil_r. split; [done|]. split.
    + apply Forall_app. split; [done|by constructor].
    + rewrite length_app. simpl. split; [lia|done].
  - exists mids, [e]. rewrite app_nil_r. split; [done|]. split; [done|]. split; [lia|by eexists].
Qed.

Lemma trace_emit lost id info at_ p p' e entry es rs :
  closed p = false → emits p p' e →
  trace_ok lost id info at_ p entry es rs → trace_ok lost id info at_ p' entry (es ++ [e]) rs.
Proof.
  intros Hc He. destruct 1 as [mids fin Ht|pd mids fin Ht|r Hc'|Hc']; try congruence.
  - destruct (tail_emit p p' e mids fin Hc He Ht) as (m & f & Heq & Ht').
    cbn [app]. rewrite <- Heq. by constructor.
  - destruct (tail_emit p p' e mids fin Hc He Ht) as (m & f & <- & Ht'). by constructor.
Qed.

(** ** What the actions of a handler do to the log *)

Definition sent (e : LogEvent) (lg : Logger) : Logger := (send e lg).2.

Lemma send_run e lg : send e lg = (Done (), sent e lg).
Proof.
  unfold sent, send, try_send, mark_failed. cbv [mbind M_mbind get_state]. simpl.
  repeat (case_match; simpl); simplify_eq/=; reflexivity.
Qed.

(** While the receiver is there and the queue has room, the event is queued and nothing else
    changes. *)
Lemma sent_room e lg :
  receiver lg = true → (N.of_nat (length (queue lg)) < event_slots lg)%N →
  sent e lg = lg <| queue := queue lg ++ [e] |>.
Proof.
  intros Hr Hl. unfold sent, send, try_send. cbv [mbind M_mbind get_state]. rewrite Hr. simpl.
  apply N.leb_gt in Hl. by rewrite Hl.
Qed.

Lemma report_run c o now (lg : Logger) :
  finish c o now lg =
    if finished c then (Done c, lg)
    else (Done (c <| finished := true |>),
          sent (ResponseFinished (cg_id c) now o
                  {| first_byte_at_unix_ms := cg_first_byte_at_unix_ms c;
                     response_bytes := cg_response_bytes c;
                     o_usage := default Usage_default (usage (sniffer c)) |}) lg).
Proof.
  unfold finish. destruct (finished c); [done|].
  unfold response_finished_with_observation. cbv [mbind M_mbind]. by rewrite send_run.
Qed.

Lemma observe_frame_run c frame now (lg : Logger) c' lg' :
  observe_frame from_slice c frame now lg = (Done c', lg') →
  lg' = lg ∧ cg_id c' = cg_id c ∧ finished c' = finished c.
Proof.
  unfold observe_frame. destruct frame as [data|]; [|by intros [= <- <-]].
  destruct (feed _ _ _) as [[[]|] fed]; [|done]. by intros [= <- <-].
Qed.

(** An action sends nothing and keeps what is left to send, or sends one event. *)
Lemma task_effect id p lg p' lg' :
  phase_ok id (Some p) → task_step id p lg p' lg' →
  phase_ok id p'
  ∧ (lg' = lg ∧ closed p' = closed (Some p) ∧ budget (Some p) ≤ budget p'
     ∨ ∃ e, lg' = sent e lg ∧ event_id e = id ∧ closed (Some p) = false ∧ emits (Some p) p' e).
Proof.
  assert (∀ c o now c' lg', finish c o now lg = (Done c', lg') → phase_ok id (Some (Observed c)) →
    phase_ok id (Some (Observed c')) ∧ finished c' = true
    ∧ (lg' = lg ∧ finished c = true
       ∨ ∃ e, lg' = sent e lg ∧ event_id e = id ∧ finished c = false ∧ is_finish e = true)) as Hfin.
  { intros c o now c' lg'' Hrun Hid. rewrite report_run in Hrun.
    destruct (finished c) eqn:Ef; simplify_eq/=; split_and!; try done; [by left|].
    right. eexists. by split_and!. }
  intros Hok Hstep. destruct Hstep as
    [routing now e lg lg' Hr|error r lg lg' Hr|r e now lg lg' Hr|r e now lg lg' Hr
    |status headers lg lg' Hr|ended now c lg lg' Hr|c polled ended now c' lg lg' Hr|c now lg lg' Hr].
  - unfold request_routed in Hr. rewrite send_run in Hr. simplify_eq. split; [done|]. right.
    eexists. split_and!; [done..|]. left. destruct e; split_and!; simpl; done || lia.
  - unfold request_error in Hr. rewrite send_run in Hr. simplify_eq. split; [done|]. right.
    eexists. split_and!; [done..|]. left. destruct r; split_and!; simpl; done || lia.
  - unfold RequestGuard_drop, response_finished, response_finished_with_observation in Hr.
    simpl in Hr. rewrite send_run in Hr. simplify_eq. split; [done|]. right.
    eexists. split_and!; [done..|]. by right.
  - simpl in Hr. injection Hr as <-. split; [done|]. left. destruct r, e; split_and!; simpl; done || lia.
  - unfold response_started in Hr. rewrite send_run in Hr. simplify_eq. split; [done|]. right.
    eexists. split_and!; [done..|]. left. split_and!; simpl; done || lia.
  - unfold response_body, ObservedBody_new in Hr. destruct ended.
    + apply Hfin in Hr as (Hid & Hf & [[_ ?]|(e & -> & He & _ & Hfe)]); [simplify_eq/=| |done].
      split; [done|]. right. eexists. split_and!; [done..|]. by right.
    + injection Hr as <- <-. split; [done|]. left. split_and!; simpl; done || lia.
  - assert (∀ o, finish c o now lg = (Done c', lg') → phase_ok id (Some (Observed c'))
      ∧ (lg' = lg ∧ finished c' = finished c ∨ ∃ e, lg' = sent e lg ∧ event_id e = id
         ∧ finished c = false ∧ emits (Some (Observed c)) (Some (Observed c')) e)) as Hone.
    { intros o Ho. apply Hfin in Ho as (Hid & Hf & [[-> ?]|(e & -> & He & Hc & Hfe)]); [| |done];
        (split; [done|]); [left; split; congruence|].
      right. eexists. split_and!; [done..|]. by right. }
    unfold ObservedBody_poll_frame in Hr. destruct polled as [[[frame|error]|]|].
    + cbv [mbind M_mbind] in Hr. destruct (observe_frame _ c frame now lg) as [[c1|] lg1] eqn:Eo; [|done].
      apply observe_frame_run in Eo as (-> & Hid & Hc). destruct ended.
      * apply Hfin in Hr as (Hid' & Hf & [[-> Hc1]|(e & -> & He & Hc1 & Hfe)]);
          [| |simpl; congruence]; (split; [done|]).
        -- left. split_and!; simpl; done || congruence || lia.
        -- right. eexists. split_and!; [done|done|simpl; congruence|]. right. by split.
      * injection Hr as <- <-. split; [simpl; congruence|]. left. by split_and!.
    + apply Hone in Hr as [Hid [[-> Hc]|Hr]]; (split; [done|]); [by left|by right].
    + apply Hone in Hr as [Hid [[-> Hc]|Hr]]; (split; [done|]); [by left|by right].
    + injection Hr as <- <-. split; [done|]. by left.
  - unfold CompletionGuard_drop in Hr. cbv [mbind M_mbind] in Hr.
    destruct (finish c Aborted now lg) as [[c'|] lg1] eqn:Ef; [|done]. injection Hr as <-.
    apply Hfin in Ef as (_ & _ & [[-> Hc]|(e & -> & He & Hc & Hfe)]); [| |done]; (split; [done|]).
    + left. split_and!; simpl; done || lia.
    + right. eexists. split_and!; [done..|]. by right.
Qed.

(** ** What the writer does with one event *)

Definition pend (lg : Logger) (id : Uuid) : option Pending := w_pending (writer lg) !! id.
Definition recs (lg : Logger) (id : Uuid) : list RequestRecord := records_of id (written (writer lg)).

(** The fields only the end of the writer changes. *)
Definition same_fixed (lg lg' : Logger) : Prop :=
  receiver lg' = receiver lg ∧ healthy lg' = healthy lg
  ∧ request_slots lg' = request_slots lg ∧ event_slots lg' = event_slots lg.

Lemma permit_drop_run (lg : Logger) :
  (0 < admitted lg)%N → (admitted lg ≤ USIZE_MAX)%N →
  AuditPermit_drop lg = (Done (), lg <| admitted := (admitted lg - 1)%N |>).
Proof.
  intros Hp Hm. unfold AuditPermit_drop. cbv [mbind M_mbind get_state modify]. simpl.
  assert (wrapping_add USIZE_MAX (admitted lg) USIZE_MAX = (admitted lg - 1)%N) as ->.
  { unfold wrapping_add, USIZE_MAX, U64_MAX in *.
    replace (admitted lg + 18446744073709551615)%N
      with (admitted lg - 1 + 1 * (18446744073709551615 + 1))%N by lia.
    rewrite N.Div0.mod_add. apply N.mod_small. lia. }
  apply N.ltb_lt in Hp. by rewrite Hp.
Qed.

Lemma records_of_app id l k : records_of id (l ++ k) = records_of id l ++ records_of id k.
Proof. apply filter_app. Qed.

Lemma record_of_id id (entry : Pending) t o : rec_request_id (record_of id entry t o) = id.
Proof. unfold record_of. by destruct (describe o) as [[? ?] ?]. Qed.

Lemma records_of_one id id' (entry : Pending) t o :
  records_of id [record_of id' entry t o]
  = if decide (id = id') then [record_of id' entry t o] else [].
Proof.
  unfold records_of. rewrite filter_cons, record_of_id, filter_nil. repeat case_decide; congruence.
Qed.

Lemma events_of_app id l k : events_of id (l ++ k) = events_of id l ++ events_of id k.
Proof. apply filter_app. Qed.

(** What handling the first event of a request's trace does. *)
Record handled_ok (lost : bool) (e : LogEvent) (es : list LogEvent) info at_ p (lg : Logger)
    (r : result string bool) (lg' : Logger) : Prop := {
  ho_fixed : same_fixed lg lg' ∧ queue lg' = queue lg;
  ho_others : ∀ id, id ≠ event_id e → pend lg' id = pend lg id ∧ recs lg' id = recs lg id;
  ho_trace : trace_ok (lost || negb (is_ok r)) (event_id e) info at_ p
               (pend lg' (event_id e)) es (recs lg' (event_id e));
  ho_permit : admitted lg' = admitted lg ∧ holds p (pend lg' (event_id e)) es
              ∨ (admitted lg' + 1)%N = admitted lg ∧ ¬ holds p (pend lg' (event_id e)) es;
}.

(** The tail of a trace whose first event is not the last one. *)
Lemma tail_middle p e mids fin es :
  is_middle e = true → tail_ok p mids fin → mids ++ fin = e :: es →
  ∃ mids', es = mids' ++ fin ∧ tail_ok p mids' fin.
Proof.
  intros He [Hm Hl] Heq. destruct mids as [|m mids].
  - exfalso. simpl in *. subst fin.
    destruct (closed p); [destruct Hl as (_ & f & Heq & Hf)|by destruct Hl].
    simplify_eq. unfold is_middle in He. by rewrite Hf, andb_false_r in He.
  - simplify_eq/=. exists mids. split; [done|]. apply Forall_cons in Hm as [_ Hm]. split; [done|].
    destruct (closed p); destruct Hl as [Hl ?]; (split; [simpl in Hl; lia|done]).
Qed.

Lemma handle_middle lost wrote e es info at_ p (f : Pending → Pending) (lg : Logger) :
  is_middle e = true → (∀ entry, Logging.info (f entry) = Logging.info entry
    ∧ started_at_unix_ms (f entry) = started_at_unix_ms entry) →
  handle_event wrote e lg = (update_pending (event_id e) f ;; mret (Ok false)) lg →
  trace_ok lost (event_id e) info at_ p (pend lg (event_id e)) (e :: es) (recs lg (event_id e)) →
  ∃ r lg', handle_event wrote e lg = (Done r, lg') ∧ handled_ok lost e es info at_ p lg r lg'.
Proof.
  intros He Hf Hrun Ht. rewrite Hrun.
  set (lg' := lg <| writer := (writer lg) <| w_pending := alter f (event_id e) (w_pending (writer lg)) |> |>).
  exists (Ok false), lg'. split; [reflexivity|].
  inversion Ht as [mids fin Hok Hp Heq|pd mids fin Hok Hi Ha Hp Heq| |].
  { by rewrite <- Heq in He. }
  destruct (tail_middle p e mids fin es He Hok Heq) as (mids' & -> & Hok').
  assert (pend lg' (event_id e) = Some (f pd)) as Hpd.
  { unfold pend in *. subst lg'. unfold constant. simpl. by rewrite lookup_alter_eq, <- Hp. }
  split.
  - unfold same_fixed. split_and!; done.
  - intros id Hid. unfold pend. subst lg'. unfold constant. simpl. by rewrite lookup_alter_ne.
  - rewrite Hpd. change (recs lg' (event_id e)) with (recs lg (event_id e)).
    match goal with H : [] = recs _ _ |- _ => rewrite <- H end. simpl. rewrite orb_false_r.
    destruct (Hf pd). constructor; [done|congruence..].
  - left. split; [done|]. right. left. rewrite Hpd. by eexists.
Qed.

Lemma handle_run lost wrote e es info at_ p (lg : Logger) :
  (0 < admitted lg)%N → (admitted lg ≤ USIZE_MAX)%N → p ≠ Some Reserved →
  trace_ok lost (event_id e) info at_ p (pend lg (event_id e)) (e :: es) (recs lg (event_id e)) →
  ∃ r lg', handle_event wrote e lg = (Done r, lg') ∧ handled_ok lost e es info at_ p lg r lg'.
Proof.
  intros Hpos Hmax Hres Ht. destruct e as [id t i|id st sm|id er|id t ro|id t o ob].
  - (* the entry is made *)
    assert (pend lg id = None ∧ ∃ mids fin, es = mids ++ fin ∧ tail_ok p mids fin
      ∧ i = info ∧ t = at_ ∧ recs lg id = []) as (Hnone & mids & fin & -> & Hok & -> & -> & Hrecs).
    { inversion Ht as [mids fin Hok Hp He|pd mids fin Hok Hi Ha Hp He| |]; simplify_eq/=.
      - split; [done|]. by exists mids, fin.
      - exfalso. destruct Hok as [Hm Hl]. destruct mids as [|m mids]; simplify_eq/=.
        + destruct (closed p); [destruct Hl as (_ & f & Hf' & Hf)|destruct Hl]; simplify_eq.
        + apply Forall_cons in Hm as [Hm _]. unfold is_middle in Hm. by simplify_eq. }
    eexists _, _. split.
    { unfold handle_event. cbv [mbind M_mbind get_state on_writer modify]. unfold pend in Hnone.
      simpl. rewrite Hnone. reflexivity. }
    match goal with |- handled_ok _ _ _ _ _ _ _ _ ?l => set (lg' := l) end.
    assert (pend lg' id = Some (pending_entry at_ info)) as Hpd.
    { unfold pend. subst lg'. unfold constant. simpl. by rewrite lookup_insert_eq. }
    split; simpl event_id.
    + unfold same_fixed. split_and!; done.
    + intros id' Hid. unfold pend. subst lg'. unfold constant. simpl. by rewrite lookup_insert_ne.
    + rewrite Hpd. change (recs lg' id) with (recs lg id). rewrite Hrecs. simpl. rewrite orb_false_r.
      by constructor.
    + left. split; [done|]. right. left. rewrite Hpd. by eexists.
  - eapply handle_middle; [done| |reflexivity|done]. by intros [].
  - eapply handle_middle; [done| |reflexivity|done]. by intros [].
  - eapply handle_middle; [done| |reflexivity|done]. by intros [].
  - (* the record is written *)
    assert (∃ pd, pend lg id = Some pd ∧ es = [] ∧ closed p = true ∧ Logging.info pd = info
      ∧ started_at_unix_ms pd = at_ ∧ recs lg id = []) as (pd & Hpd & -> & Hc & Hi & Ha & Hrecs).
    { inversion Ht as [mids fin Hok Hp He|pd mids fin Hok Hi Ha Hp He| |]; simplify_eq/=.
      exists pd. destruct Hok as [Hm Hl]. destruct mids as [|m mids]; simplify_eq/=.
      - destruct (closed p); [destruct Hl as (_ & f & Hf' & Hf)|by destruct Hl].
        by simplify_eq/=.
      - apply Forall_cons in Hm as [Hm _]. by simplify_eq/=. }
    unfold handle_event. cbv [mbind M_mbind get_state on_writer modify]. unfold pend in Hpd.
    simpl. rewrite Hpd. unfold write_record.
    assert (∀ lg1 : Logger, admitted lg1 = admitted lg →
      AuditPermit_drop lg1 = (Done (), lg1 <| admitted := (admitted lg1 - 1)%N |>)) as Hdrop.
    { intros lg1 Heq. apply permit_drop_run; by rewrite Heq. }
    destruct wrote as [[]|error]; cbv [mbind M_mbind on_writer modify mret M_mret]; simpl.
    + rewrite Hdrop by done. eexists _, _. split; [reflexivity|].
      match goal with |- handled_ok _ _ _ _ _ _ _ _ ?l => set (lg' := l) end.
      assert (pend lg' id = None) as Hn by (unfold pend; subst lg'; unfold constant; simpl; apply lookup_delete_eq).
      split; simpl event_id.
      * unfold same_fixed. split_and!; done.
      * intros id' Hid. unfold pend, recs. subst lg'. unfold constant. simpl. rewrite lookup_delete_ne by done.
        split; [done|]. rewrite records_of_app, records_of_one, decide_False by done. by rewrite app_nil_r.
      * rewrite Hn. assert (recs lg' id = [record_of id (observed pd ob) t o]) as ->.
        { unfold recs in *.
          change (records_of id (written (writer lg) ++ [record_of id (observed pd ob) t o])
                  = [record_of id (observed pd ob) t o]).
          by rewrite records_of_app, Hrecs, records_of_one, decide_True. }
        constructor; [done|]. exists id, (observed pd ob), t, o. done.
      * right. split; [change ((admitted lg - 1 + 1)%N = admitted lg); lia|]. rewrite Hn. intros [?|[[? ?]|(? & Hx & _)]]; try done.
        by apply elem_of_nil in Hx.
    + rewrite Hdrop by done. eexists _, _. split; [reflexivity|].
      match goal with |- handled_ok _ _ _ _ _ _ _ _ ?l => set (lg' := l) end.
      assert (pend lg' id = None) as Hn by (unfold pend; subst lg'; unfold constant; simpl; apply lookup_delete_eq).
      split; simpl event_id.
      * unfold same_fixed. split_and!; done.
      * intros id' Hid. unfold pend. subst lg'. unfold constant. simpl. by rewrite lookup_delete_ne.
      * rewrite Hn. change (recs lg' id) with (recs lg id). rewrite Hrecs. constructor; [done|].
        apply orb_true_r.
      * right. split; [change ((admitted lg - 1 + 1)%N = admitted lg); lia|]. rewrite Hn. intros [?|[[? ?]|(? & Hx & _)]]; try done.
        by apply elem_of_nil in Hx.
Qed.

(** ** The invariant *)

Definition view_ok (lost : bool) (sys : AuditSystem) (id : Uuid) : Prop :=
  id_ok lost id (started sys !! id) (tasks sys !! id) (pend (log sys) id)
    (events_of id (queue (log sys))) (recs (log sys) id).

Definition view_holds (sys : AuditSystem) (id : Uuid) : Prop :=
  holds (tasks sys !! id) (pend (log sys) id) (events_of id (queue (log sys))).

(** While the writer has the receiver: every request is in order, and the permits out are those of
    the requests that reserved a slot, have their start event queued or are pending. *)
Record log_inv (lost : bool) (sys : AuditSystem) : Prop := {
  li_recv : receiver (log sys) = true;
  li_healthy : healthy (log sys) = true;
  li_slots : event_slots (log sys) = (request_slots (log sys) * 5)%N
             ∧ (event_slots (log sys) ≤ USIZE_MAX)%N;
  li_admitted : (admitted (log sys) ≤ request_slots (log sys))%N;
  li_ids : ∀ id, view_ok lost sys id;
  li_used : ∀ id, id ∉ used sys → tasks sys !! id = None ∧ started sys !! id = None;
  li_permits : ∃ L, NoDup L ∧ N.of_nat (length L) = admitted (log sys)
               ∧ ∀ id, id ∈ L ↔ view_holds sys id;
}.

Lemma elem_of_events id e (l : list LogEvent) : e ∈ events_of id l ↔ event_id e = id ∧ e ∈ l.
Proof. unfold events_of. by rewrite list_elem_of_filter. Qed.

(** No more than [k] events of each of the ids in [L], and of no other. *)
Lemma queue_bound (k : nat) (L : list Uuid) (q : list LogEvent) :
  (∀ e, e ∈ q → event_id e ∈ L) → (∀ id, length (events_of id q) ≤ k) → length q ≤ k * length L.
Proof.
  revert q. induction L as [|id L IH]; intros q Hin Hk.
  { destruct q as [|e q]; [simpl; lia|]. exfalso. eapply not_elem_of_nil, (Hin e). by left. }
  set (q' := filter (λ e, event_id e ≠ id) q).
  assert (length q = length (events_of id q) + length q') as ->.
  { subst q'. unfold events_of. clear. induction q as [|e q IH]; [done|].
    rewrite !filter_cons. repeat case_decide; simpl; done || lia. }
  assert (length q' ≤ k * length L).
  { apply IH.
    - intros e [He Hq]%list_elem_of_filter. apply Hin in Hq. by apply elem_of_cons in Hq as [?|?].
    - intros id'. etrans; [|apply (Hk id')]. subst q'. unfold events_of.
      clear. induction q as [|e q IH]; [done|]. rewrite !filter_cons.
      repeat (case_decide; rewrite ?filter_cons; simpl); lia. }
  specialize (Hk id). simpl. lia.
Qed.

Lemma view_event lost sys e : view_ok lost sys (event_id e) → e ∈ queue (log sys) → view_holds sys (event_id e).
Proof.
  intros Hv He. assert (e ∈ events_of (event_id e) (queue (log sys))) as Hes by by apply elem_of_events.
  unfold view_ok, id_ok in Hv. case_match; [|destruct Hv as (_ & _ & Hn & _); rewrite Hn in Hes; by apply elem_of_nil in Hes].
  case_match. destruct Hv as [_ Ht]. unfold view_holds, holds. inversion Ht as [mids fin Hok Hp Heq| | |]; subst.
  - right. right. exists (RequestStarted (event_id e) n r). split; [by left|done].
  - right. left. by eexists.
  - match goal with H : [] = events_of _ _ |- _ => rewrite <- H in Hes end. by apply elem_of_nil in Hes.
  - match goal with H : [] = events_of _ _ |- _ => rewrite <- H in Hes end. by apply elem_of_nil in Hes.
Qed.

Lemma view_length lost sys id : view_ok lost sys id → length (events_of id (queue (log sys))) ≤ 5.
Proof.
  unfold view_ok, id_ok. case_match; [case_match|].
  - by intros [_ [? _]%trace_length].
  - intros (_ & _ & -> & _). simpl. lia.
Qed.

(** The queue is within what the permits out provide for, and one more event of a request that
    holds a permit and has at most four queued fits. *)
Lemma log_room lost sys :
  log_inv lost sys →
  (N.of_nat (length (queue (log sys))) ≤ 5 * admitted (log sys))%N
  ∧ ∀ id, view_holds sys id → length (events_of id (queue (log sys))) ≤ 4 →
      (N.of_nat (length (queue (log sys))) < event_slots (log sys))%N.
Proof.
  intros Hi. destruct (li_permits _ _ Hi) as (L & _ & HL & Hholds).
  assert (∀ e, e ∈ queue (log sys) → event_id e ∈ L) as Hin.
  { intros e He. apply Hholds. eapply view_event; [|done]. apply (li_ids _ _ Hi). }
  split.
  - pose proof (queue_bound 5 L (queue (log sys)) Hin) as Hb.
    assert (length (queue (log sys)) ≤ 5 * length L); [|lia]. apply Hb. intros id.
    eapply view_length, (li_ids _ _ Hi).
  - intros id Hid Hl. assert (length (queue (log sys) ++ [RequestError id EmptyString]) ≤ 5 * length L) as Hb.
    { apply queue_bound.
      - intros e [He| ->%list_elem_of_singleton]%elem_of_app; [by apply Hin|]. by apply Hholds.
      - intros id'. rewrite events_of_app, length_app. unfold events_of at 2. rewrite filter_cons. simpl.
        case_decide as Hd; simpl.
        + subst id'. lia.
        + rewrite Nat.add_0_r. eapply view_length, (li_ids _ _ Hi). }
    rewrite length_app in Hb. simpl in Hb. destruct (li_slots _ _ Hi) as [-> _].
    pose proof (li_admitted _ _ Hi). lia.
Qed.

Lemma id_ok_lost lost lost' id st p entry es rs :
  (lost = true → lost' = true) → id_ok lost id st p entry es rs → id_ok lost' id st p entry es rs.
Proof.
  intros Hl. destruct st as [[i t]|]; [|done]. intros [Hp Ht]. split; [done|].
  destruct Ht; constructor; auto.
Qed.

(** The permits, after at most one request took or gave back one. *)
Lemma permits_update (P P' : Uuid → Prop) (id : Uuid) (n n' : N) :
  (∀ id', id' ≠ id → (P' id' ↔ P id')) →
  (n' = n ∧ (P' id ↔ P id)) ∨ (n' = n + 1 ∧ ¬ P id ∧ P' id)%N ∨ (n' + 1 = n ∧ ¬ P' id)%N →
  ((n' + 1)%N = n → P id) →
  (∃ L, NoDup L ∧ N.of_nat (length L) = n ∧ ∀ id, id ∈ L ↔ P id) →
  ∃ L, NoDup L ∧ N.of_nat (length L) = n' ∧ ∀ id, id ∈ L ↔ P' id.
Proof.
  intros Ho Hc Hd (L & HL & Hn & HP).
  destruct Hc as [[-> Hsame]|[(-> & Hno & Hyes)|[Heq Hno]]].
  - exists L. split_and!; [done|done|]. intros i. rewrite HP. destruct (decide (i = id)) as [->|]; [done|by symmetry; apply Ho].
  - exists (id :: L). split_and!.
    + constructor; [|done]. by rewrite HP.
    + simpl. lia.
    + intros i. rewrite elem_of_cons, HP. destruct (decide (i = id)) as [->|Hi]; [tauto|]. rewrite Ho by done. tauto.
  - assert (id ∈ L) as Hin by (apply HP, Hd; lia). apply list_elem_of_split in Hin as (l1 & l2 & ->).
    apply NoDup_app in HL as (N1 & N2 & N3). apply NoDup_cons in N3 as [N3 N4].
    exists (l1 ++ l2). split_and!.
    + apply NoDup_app. split_and!; [done| |done]. intros x Hx Hx2. apply (N2 x Hx). by right.
    + rewrite length_app in *. simpl in Hn. lia.
    + intros i. specialize (HP i). rewrite elem_of_app, elem_of_cons in HP. rewrite elem_of_app.
      destruct (decide (i = id)) as [->|Hi].
      * split; [|done]. intros [Hx|Hx]; [|done]. exfalso. apply (N2 id Hx). by left.
      * rewrite Ho by done. rewrite <- HP. tauto.
Qed.

(** An action that changes what one request has in flight. *)
Lemma log_inv_update lost lost' id sys sys' :
  log_inv lost sys → same_fixed (log sys) (log sys') → (lost = true → lost' = true) →
  (∀ id', id' ≠ id → tasks sys' !! id' = tasks sys !! id' ∧ started sys' !! id' = started sys !! id'
    ∧ pend (log sys') id' = pend (log sys) id' ∧ recs (log sys') id' = recs (log sys) id'
    ∧ events_of id' (queue (log sys')) = events_of id' (queue (log sys))) →
  id ∈ used sys' → used sys ⊆ used sys' →
  view_ok lost' sys' id →
  (admitted (log sys') = admitted (log sys) ∧ (view_holds sys' id ↔ view_holds sys id)
   ∨ (admitted (log sys') = admitted (log sys) + 1 ∧ admitted (log sys') ≤ request_slots (log sys))%N
     ∧ ¬ view_holds sys id ∧ view_holds sys' id
   ∨ (admitted (log sys') + 1)%N = admitted (log sys) ∧ view_holds sys id ∧ ¬ view_holds sys' id) →
  log_inv lost' sys'.
Proof.
  intros Hi (Hr & Hh & Hs & He) Hl Ho Hid Hus Hv Hp.
  pose proof (li_admitted _ _ Hi) as Hadm.
  split.
  - rewrite Hr. apply Hi.
  - rewrite Hh. apply Hi.
  - rewrite Hs, He. apply Hi.
  - rewrite Hs. destruct Hp as [[-> _]|[[[_ ?] _]|[? _]]]; lia.
  - intros id'. destruct (decide (id' = id)) as [->|Hne]; [done|]. unfold view_ok.
    destruct (Ho id' Hne) as (-> & -> & -> & -> & ->). eapply id_ok_lost; [done|]. apply (li_ids _ _ Hi).
  - intros id' Hn. assert (id' ≠ id) as Hne by (by intros ->).
    destruct (Ho id' Hne) as (Ht & Hst & _). rewrite Ht, Hst. apply (li_used _ _ Hi). set_solver.
  - eapply (permits_update (view_holds sys) (view_holds sys') id); [| | |apply Hi].
    + intros id' Hne. unfold view_holds. by destruct (Ho id' Hne) as (-> & _ & -> & _ & ->).
    + naive_solver.
    + intros Heq. destruct Hp as [[? _]|[[[? _] _]|(_ & ? & _)]]; [lia|lia|done].
Qed.

(** ** Every action keeps it *)

Lemma slot_run (lg : Logger) :
  healthy lg = true →
  reserve_slot lg = if (admitted lg <? request_slots lg)%N
                    then (Done (Ok ()), lg <| admitted := (admitted lg + 1)%N |>)
                    else (Done (Err Saturated), lg).
Proof.
  intros Hh. unfold reserve_slot, is_healthy. cbv [mbind M_mbind gets get_state modify]. rewrite Hh. simpl.
  by destruct (admitted lg <? request_slots lg)%N.
Qed.

(** Nothing but the set of ids drawn changes. *)
Lemma log_inv_used lost id lg ts st us w sv w' sv' :
  log_inv lost (mkAuditSystem lg ts st us w sv) → log_inv lost (mkAuditSystem lg ts st ({[id]} ∪ us) w' sv').
Proof.
  intros Hi. split; try apply Hi. intros id' Hn. simpl in *. apply (li_used _ _ Hi). simpl. set_solver.
Qed.

Lemma reserve_kept lost id r lg lg' ts st us w :
  id ∉ us → reserve_slot lg = (Done r, lg') → log_inv lost (mkAuditSystem lg ts st us w true) →
  log_inv lost (mkAuditSystem lg' (if is_ok r then <[id := Reserved]> ts else ts) st ({[id]} ∪ us) w true).
Proof.
  intros Hid Hrun Hi. rewrite slot_run in Hrun by apply Hi.
  destruct (admitted lg <? request_slots lg)%N eqn:Ha; simplify_eq/=; [|by eapply log_inv_used].
  destruct (li_used _ _ Hi id Hid) as [Ht Hst]. simpl in Ht, Hst.
  pose proof (li_ids _ _ Hi id) as Hv. unfold view_ok in Hv. simpl in Hv. rewrite Ht, Hst in Hv.
  destruct Hv as (_ & Hpd & Hes & Hrs).
  eapply (log_inv_update _ _ id _ _ Hi); simpl; try done.
  - intros id' Hne. rewrite lookup_insert_ne by done. done.
  - set_solver.
  - set_solver.
  - unfold view_ok. simpl. rewrite lookup_insert_eq, Hst. split; [by right|]. done.
  - right. left. apply N.ltb_lt in Ha. unfold view_holds. simpl. rewrite lookup_insert_eq, Ht.
    change (pend _ id) with (pend lg id). rewrite Hpd, Hes. split_and!.
    + unfold constant. simpl. lia.
    + unfold constant. simpl. lia.
    + unfold holds. intros [?|[[? ?]|(? & ?%elem_of_nil & _)]]; done.
    + by left.
Qed.

Lemma start_run id info now (lg : Logger) :
  healthy lg = true → receiver lg = true → (N.of_nat (length (queue lg)) < event_slots lg)%N →
  enqueue_start id info now lg = (Done (Ok {| rg_id := id; armed := true |}),
    lg <| queue := queue lg ++ [RequestStarted id now info] |>).
Proof.
  intros Hh Hr Hl. apply N.leb_gt in Hl. unfold enqueue_start, is_healthy, try_send.
  cbv [mbind M_mbind gets get_state]. rewrite Hh. simpl. rewrite Hr. simpl. by rewrite Hl.
Qed.

Lemma start_kept lost id info now r lg lg' ts st us w sv :
  ts !! id = Some Reserved → enqueue_start id info now lg = (Done r, lg') →
  log_inv lost (mkAuditSystem lg ts st us w sv) →
  is_ok r = true
  ∧ log_inv lost (mkAuditSystem lg' (<[id := Armed false false]> ts) (<[id := (info, now)]> st) us w sv).
Proof.
  intros Ht Hrun Hi. pose proof (li_ids _ _ Hi id) as Hv. unfold view_ok in Hv. simpl in Hv. rewrite Ht in Hv.
  assert (st !! id = None ∧ pend lg id = None ∧ events_of id (queue lg) = [] ∧ recs lg id = [])
    as (Hst & Hpd & Hes & Hrs).
  { destruct (st !! id) as [[i t]|]; [by destruct Hv|]. by destruct Hv as (_ & ? & ? & ?). }
  assert (N.of_nat (length (queue lg)) < event_slots lg)%N as Hroom.
  { eapply (proj2 (log_room _ _ Hi) id); simpl; [by left|]. rewrite Hes. simpl. lia. }
  rewrite start_run in Hrun by first [exact Hroom|apply (li_healthy _ _ Hi)|apply (li_recv _ _ Hi)].
  injection Hrun as <- <-. split; [done|].
  eapply (log_inv_update _ _ id _ _ Hi); simpl; try done.
  - intros id' Hne. rewrite !lookup_insert_ne by done. split_and!; [done..|].
    unfold constant. simpl. rewrite events_of_app. unfold events_of at 2. rewrite filter_cons. simpl.
    rewrite decide_False by done. by rewrite app_nil_r.
  - simpl. destruct (decide (id ∈ us)) as [|Hn]; [done|]. apply (li_used _ _ Hi) in Hn. simpl in Hn.
    destruct Hn. congruence.
  - unfold view_ok. simpl. rewrite !lookup_insert_eq. split; [done|].
    change (pend _ id) with (pend lg id). change (recs _ id) with (recs lg id). rewrite Hpd, Hrs.
    unfold constant. simpl. rewrite events_of_app, Hes. unfold events_of. rewrite filter_cons. simpl.
    rewrite decide_True by done. apply (Trace_queued _ _ _ _ _ [] []). split; [by constructor|]. simpl. split; [lia|done].
  - left. split; [done|]. unfold view_holds. simpl. rewrite lookup_insert_eq, Ht.
    change (pend _ id) with (pend lg id). rewrite Hpd, Hes. unfold constant. simpl.
    rewrite events_of_app, Hes. unfold events_of. rewrite filter_cons. simpl. rewrite decide_True by done.
    split; [by left|]. intros _. right. right. eexists. split; [by left|done].
Qed.

Lemma events_of_snoc id e (l : list LogEvent) :
  events_of id (l ++ [e]) = if decide (event_id e = id) then events_of id l ++ [e] else events_of id l.
Proof.
  rewrite events_of_app. unfold events_of at 2. rewrite filter_cons, filter_nil.
  case_decide; [done|]. by rewrite app_nil_r.
Qed.

Lemma holds_app p entry es e :
  is_start e = false → holds p entry (es ++ [e]) ↔ holds p entry es.
Proof.
  intros He. unfold holds. split.
  - intros [?|[?|(x & [Hx| ->%list_elem_of_singleton]%elem_of_app & Hs)]]; [by left|by right; left| |congruence].
    right. right. by exists x.
  - intros [?|[?|(x & Hx & Hs)]]; [by left|by right; left|]. right. right. exists x.
    split; [apply elem_of_app; by left|done].
Qed.

Lemma holds_phase p p' entry es :
  p ≠ Some Reserved → p' ≠ Some Reserved → holds p entry es ↔ holds p' entry es.
Proof. unfold holds. naive_solver. Qed.

Lemma task_kept lost id p p' lg lg' ts st us w sv :
  ts !! id = Some p → task_step id p lg p' lg' →
  log_inv lost (mkAuditSystem lg ts st us w sv) →
  log_inv lost (mkAuditSystem lg' (partial_alter (λ _, p') id ts) st us w sv).
Proof.
  intros Ht Hstep Hi. pose proof (li_ids _ _ Hi id) as Hv. unfold view_ok in Hv. simpl in Hv. rewrite Ht in Hv.
  assert (p ≠ Reserved) as Hp by by destruct Hstep.
  destruct (st !! id) as [[i t]|] eqn:Hst; [|naive_solver]. destruct Hv as [Hok Htr].
  destruct (task_effect _ _ _ _ _ Hok Hstep) as [Hok' Heff].
  assert (id ∈ us) as Hus.
  { destruct (decide (id ∈ us)) as [|Hn]; [done|]. apply (li_used _ _ Hi) in Hn. simpl in Hn.
    destruct Hn. congruence. }
  assert (p' ≠ Some Reserved) as Hp' by by intros ->.
  destruct Heff as [(-> & Hc & Hb)|(e & -> & He & Hc & Hem)].
  - eapply (log_inv_update _ _ id _ _ Hi); simpl; try done.
    + intros id' Hne. by rewrite lookup_partial_alter_ne.
    + unfold view_ok. simpl. rewrite lookup_partial_alter_eq, Hst. split; [done|]. by eapply trace_quiet.
    + left. split; [done|]. unfold view_holds. simpl. rewrite lookup_partial_alter_eq, Ht.
      apply holds_phase; congruence.
  - assert (holds (Some p) (pend lg id) (events_of id (queue lg))) as Hh by by eapply trace_holds.
    assert (N.of_nat (length (queue lg)) < event_slots lg)%N as Hroom.
    { eapply (proj2 (log_room _ _ Hi) id); simpl; [by unfold view_holds; simpl; rewrite Ht|].
      apply trace_length in Htr as [_ Hl]. specialize (Hl Hc). pose proof (budget_le (Some p)). lia. }
    rewrite sent_room by first [exact Hroom|apply (li_recv _ _ Hi)].
    assert (is_start e = false) as Hs.
    { destruct Hem as [[Hm _]|[Hf _]]; [|by destruct e]. by destruct e. }
    eapply (log_inv_update _ _ id _ _ Hi); simpl; try done.
    + intros id' Hne. rewrite lookup_partial_alter_ne by done. split_and!; [done..|].
      unfold constant. simpl. by rewrite events_of_snoc, decide_False by congruence.
    + unfold view_ok. simpl. rewrite lookup_partial_alter_eq, Hst. split; [done|].
      unfold constant. simpl. rewrite events_of_snoc, decide_True by done. by eapply trace_emit.
    + left. split; [done|]. unfold view_holds. simpl. rewrite lookup_partial_alter_eq, Ht.
      unfold constant. simpl. rewrite events_of_snoc, decide_True, holds_app by done.
      apply holds_phase; congruence.
Qed.

(** Everything but the writer's flushing. *)
Definition same_audit (lg lg' : Logger) : Prop :=
  same_fixed lg lg' ∧ queue lg' = queue lg ∧ admitted lg' = admitted lg
  ∧ w_pending (writer lg') = w_pending (writer lg) ∧ written (writer lg') = written (writer lg).

Lemma log_inv_same lost lost' lg lg' ts st us w sv w' sv' :
  log_inv lost (mkAuditSystem lg ts st us w sv) → same_audit lg lg' → (lost = true → lost' = true) →
  log_inv lost' (mkAuditSystem lg' ts st us w' sv').
Proof.
  intros Hi ((Hr & Hh & Hs & He) & Hq & Ha & Hp & Hw) Hl. split; simpl.
  - rewrite Hr. apply Hi.
  - rewrite Hh. apply Hi.
  - rewrite Hs, He. apply Hi.
  - rewrite Hs, Ha. apply Hi.
  - intros id. pose proof (li_ids _ _ Hi id) as Hv. unfold view_ok, pend, recs in *. simpl in *.
    rewrite Hq, Hp, Hw. by eapply id_ok_lost.
  - apply Hi.
  - rewrite Ha. destruct (li_permits _ _ Hi) as (L & HL & Hn & Hh'). exists L. split_and!; [done|done|].
    intros id. rewrite Hh'. unfold view_holds, pend. simpl. by rewrite Hq, Hp.
Qed.

Lemma same_audit_refl lg : same_audit lg lg.
Proof. by unfold same_audit, same_fixed. Qed.

(** Flushing touches neither the entries nor the records. *)
Lemma flush_same faults now flushed_at (lg : Logger) :
  ∃ r lg', on_writer (flush_if_due faults now flushed_at) lg = (Done r, lg') ∧ same_audit lg lg'.
Proof.
  unfold on_writer, flush_if_due, flush. cbv [mbind M_mbind get_state modify].
  destruct (_ && _); [|by eexists _, _; split; [reflexivity|]].
  destruct (on_flush faults); by eexists _, _; split; [reflexivity|].
Qed.

Lemma round_timeout faults now flushed_at (lg : Logger) :
  ∃ r lg', worker_round faults ReceiveTimeout now flushed_at lg = (Done r, lg') ∧ same_audit lg lg'.
Proof.
  unfold worker_round, on_writer, flush. cbv [mbind M_mbind get_state modify].
  destruct (dirty (writer lg)); [|by eexists _, _; split; [reflexivity|]].
  destruct (on_flush faults); by eexists _, _; split; [reflexivity|].
Qed.

(** A round of the writer always returns, and keeps the books. *)
Lemma round_kept faults received now flushed_at lg ts st us sv :
  log_inv false (mkAuditSystem lg ts st us WRunning sv) →
  ∃ r lg', worker_round faults received now flushed_at lg = (Done r, lg')
    ∧ log_inv (negb (is_ok r))
        (mkAuditSystem lg' ts st us (if is_ok r then WRunning else WStopping true) sv).
Proof.
  intros Hi. destruct received.
  2:{ destruct (round_timeout faults now flushed_at lg) as (r & lg' & Hrun & Hsame).
      exists r, lg'. split; [done|]. by eapply log_inv_same. }
  destruct (queue lg) as [|e q] eqn:Hq.
  { exists (Ok ()), lg. split; [|done]. unfold worker_round. cbv [mbind M_mbind get_state]. by rewrite Hq. }
  pose proof (li_ids _ _ Hi (event_id e)) as Hv. unfold view_ok in Hv. simpl in Hv. rewrite Hq in Hv.
  unfold events_of in Hv. rewrite filter_cons, decide_True in Hv by done. fold (events_of (event_id e) q) in Hv.
  destruct (st !! event_id e) as [[i t]|] eqn:Hst; [|by destruct Hv as (_ & _ & ? & _)].
  destruct Hv as [Hok Htr].
  set (lg1 := lg <| queue := q |>).
  assert (view_holds (mkAuditSystem lg ts st us WRunning sv) (event_id e)) as Hh.
  { eapply (view_event false); [apply (li_ids _ _ Hi)|]. simpl. rewrite Hq. by left. }
  assert (ts !! event_id e ≠ Some Reserved) as Hres by by intros Heq; rewrite Heq in Hok.
  assert (0 < admitted lg)%N as Hpos.
  { destruct (li_permits _ _ Hi) as (L & _ & Hn & HL). simpl in Hn. apply HL in Hh.
    destruct L; [by apply elem_of_nil in Hh|]. simpl in Hn. lia. }
  assert (admitted lg ≤ USIZE_MAX)%N as Hmax.
  { pose proof (li_admitted _ _ Hi) as Ha. destruct (li_slots _ _ Hi) as [Hs1 Hs2]. simpl in *. lia. }
  destruct (handle_run false (on_write faults) e (events_of (event_id e) q) i t
    (ts !! event_id e) lg1 Hpos Hmax Hres Htr) as (r & lg2 & Hrun & [[Hfix Hq2] Hoth Htr2 Hperm]).
  assert (log_inv (negb (is_ok r)) (mkAuditSystem lg2 ts st us
    (if is_ok r then WRunning else WStopping true) sv)) as Hi2.
  { eapply (log_inv_update false _ (event_id e) _ _ Hi); simpl; try done.
    - intros id' Hne. destruct (Hoth id' Hne) as [-> ->]. split_and!; [done..|]. rewrite Hq2, Hq.
      unfold events_of. by rewrite filter_cons, decide_False by congruence.
    - destruct (decide (event_id e ∈ us)) as [|Hn]; [done|]. apply (li_used _ _ Hi) in Hn. simpl in Hn.
      destruct Hn. congruence.
    - unfold view_ok. simpl. rewrite Hst, Hq2. split; [done|]. exact Htr2.
    - unfold view_holds in *. simpl in *. rewrite Hq2.
      destruct Hperm as [[Ha Hho]|[Ha Hho]]; [by left|by right; right]. }
  unfold worker_round. cbv [mbind M_mbind get_state modify]. rewrite Hq. fold lg1. rewrite Hrun.
  destruct r as [wrote|error].
  - set (lg3 := lg2 <| writer := (writer lg2) <| dirty := dirty (writer lg2) || wrote |> |>).
    destruct (flush_same faults now flushed_at lg3) as (r & lg4 & Hrun4 & Hsame).
    exists r, lg4. split; [exact Hrun4|].
    eapply (log_inv_same false _ lg3 lg4 _ _ _ WRunning sv); [|exact Hsame|done].
    eapply (log_inv_same false); [exact Hi2| |done]. by unfold same_audit, same_fixed.
  - by exists (Err error), lg2.
Qed.

(** ** The whole system *)

Definition records_ok (sys : AuditSystem) (id : Uuid) : Prop :=
  length (recs (log sys) id) ≤ 1
  ∧ match started sys !! id with
    | Some (info, at_) => ∀ r, r ∈ recs (log sys) id → record_about info at_ r
    | None => recs (log sys) id = []
    end.

(** Every admitted request is on record, and every record was flushed. *)
Definition all_recorded (sys : AuditSystem) : Prop :=
  serving sys = false ∧ (∀ id, is_Some (started sys !! id) → length (recs (log sys) id) = 1)
  ∧ flushed (writer (log sys)) = length (written (writer (log sys))).

Record audit_inv (sys : AuditSystem) : Prop := {
  ai_records : ∀ id, records_ok sys id;
  ai_tasks : ∀ id p, tasks sys !! id = Some p → p = Reserved ∨ phase_ok id (Some p);
  ai_serving : serving sys = false → tasks sys = ∅;
  ai_worker : match worker sys with
              | WRunning => log_inv false sys
              | WStopping failed => log_inv failed sys ∧ (failed = false → all_recorded sys)
              | WGone failed => receiver (log sys) = false ∧ queue (log sys) = []
                                ∧ (failed = false → all_recorded sys)
              end;
}.

Lemma view_records lost sys id : view_ok lost sys id → records_ok sys id.
Proof.
  unfold view_ok, records_ok, id_ok. destruct (started sys !! id) as [[i t]|].
  - intros [_ Ht]. inversion Ht as [| |r Hc Hr|]; simpl.
    1, 2, 4: (split; [lia|by intros ? ?%elem_of_nil]).
    split; [done|]. by intros ? ->%list_elem_of_singleton.
  - intros (_ & _ & _ & ->). split; [simpl; lia|done].
Qed.

Lemma view_task lost sys id p :
  view_ok lost sys id → tasks sys !! id = Some p → p = Reserved ∨ phase_ok id (Some p).
Proof.
  unfold view_ok, id_ok. intros Hv Hp. rewrite Hp in Hv. destruct (started sys !! id) as [[i t]|].
  - right. apply Hv.
  - destruct Hv as ([?|?] & _); [done|]. left. congruence.
Qed.

(** While the writer has the receiver, the invariant is [log_inv]. *)
Lemma audit_inv_log lost sys :
  log_inv lost sys → (serving sys = false → tasks sys = ∅) →
  match worker sys with
  | WRunning => lost = false
  | WStopping failed => lost = failed ∧ (failed = false → all_recorded sys)
  | WGone _ => False
  end → audit_inv sys.
Proof.
  intros Hi Hs Hw. split; [| |done|].
  - intros id. eapply view_records, (li_ids _ _ Hi).
  - intros id p. eapply view_task, (li_ids _ _ Hi).
  - destruct (worker sys); [by subst|destruct Hw; by subst|done].
Qed.

(** Nothing is left of a request that is gone when the queue is empty. *)
Lemma closed_drained sys id :
  view_ok false sys id → closed (tasks sys !! id) = true → events_of id (queue (log sys)) = [] →
  pend (log sys) id = None ∧ (is_Some (started sys !! id) → length (recs (log sys) id) = 1).
Proof.
  unfold view_ok, id_ok. intros Hv Hc He. destruct (started sys !! id) as [[i t]|].
  - destruct Hv as [_ Ht]. inversion Ht as [mids fin Hok Hp Hes|pd mids fin [Hm Hok] Hi Ha Hp Hes|r Hc' Hr Hp Hes|]; try congruence.
    + exfalso. rewrite He in Hes. apply app_eq_nil in Hes as [-> ->]. rewrite Hc in Hok.
      by destruct Hok as (_ & ? & ? & _).
    + by split.
  - destruct Hv as (_ & ? & _). split; [done|]. by intros [? ?].
Qed.

(** ** Every step keeps it *)

(** What a handler can do once the receiver is gone: nothing that matters. *)
Definition same_gone (lg lg' : Logger) : Prop :=
  receiver lg' = receiver lg ∧ queue lg' = queue lg ∧ writer lg' = writer lg.

Lemma sent_gone e lg : receiver lg = false → same_gone lg (sent e lg).
Proof.
  intros Hr. unfold sent, send, try_send, mark_failed. cbv [mbind M_mbind get_state]. rewrite Hr. simpl.
  by destruct (healthy lg).
Qed.

Lemma task_gone id p p' lg lg' :
  receiver lg = false → phase_ok id (Some p) → task_step id p lg p' lg' → same_gone lg lg' ∧ phase_ok id p'.
Proof.
  intros Hr Hok Hstep. destruct (task_effect _ _ _ _ _ Hok Hstep) as [Hok' [(-> & _)|(e & -> & _)]];
    split; [done|done|by apply sent_gone|done].
Qed.

Lemma reserve_gone r lg lg' : reserve_slot lg = (Done r, lg') → same_gone lg lg'.
Proof.
  unfold reserve_slot, is_healthy. cbv [mbind M_mbind gets get_state modify].
  destruct (healthy lg); simpl; [|by intros [= <- <-]].
  destruct (admitted lg <? request_slots lg)%N; simpl; by intros [= <- <-].
Qed.

Lemma permit_drop_gone lg : same_gone lg (AuditPermit_drop lg).2.
Proof. unfold AuditPermit_drop. cbv [mbind M_mbind get_state modify]. by destruct (0 <? admitted lg)%N. Qed.

Lemma mark_failed_gone (lg : Logger) : ∃ lg', mark_failed lg = (Done (), lg') ∧ same_gone lg lg'.
Proof.
  unfold mark_failed. cbv [mbind M_mbind get_state]. simpl.
  destruct (healthy lg); by eexists; split; [reflexivity|].
Qed.

Lemma start_gone id info now r lg lg' :
  receiver lg = false → enqueue_start id info now lg = (Done r, lg') → is_ok r = false ∧ same_gone lg lg'.
Proof.
  intros Hr. unfold enqueue_start, is_healthy, try_send.
  cbv [mbind M_mbind gets get_state modify]. simpl.
  assert (∀ lg1 r', same_gone lg lg1 →
    match AuditPermit_drop lg1 with (Done _, s) => (Done (Err AuditUnavailable), s) | (Panicked, s) => (Panicked, s) end
    = (Done r', lg') → is_ok (r' : result AuditAdmissionError RequestGuard) = false ∧ same_gone lg lg') as Hdrop.
  { intros lg1 r' (H1' & H2' & H3') Hd. pose proof (permit_drop_gone lg1) as (G1 & G2 & G3).
    destruct (AuditPermit_drop lg1) as [[[]|] s]; [|done]. simplify_eq/=. split; [done|].
    unfold same_gone. by rewrite G1, G2, G3. }
  destruct (healthy lg); simpl.
  - rewrite Hr. simpl. destruct (mark_failed_gone lg) as (lg1 & -> & Hsame). by apply Hdrop.
  - by apply Hdrop.
Qed.

Lemma drop_receiver_gone (lg : Logger) :
  let lg' := (drop_receiver lg).2 in
  receiver lg' = false ∧ queue lg' = [] ∧ written (writer lg') = written (writer lg)
  ∧ flushed (writer lg') = flushed (writer lg).
Proof.
  set (P := λ s : Logger, receiver s = false ∧ queue s = [] ∧ written (writer s) = written (writer lg)
    ∧ flushed (writer s) = flushed (writer lg)).
  assert (∀ {A} (l : list A) s, P s → P (for_each l (λ _, AuditPermit_drop) s).2) as Hfor.
  { intros A l. induction l as [|x l IH]; intros s Hs; simpl; [done|]. cbv [mbind M_mbind].
    pose proof (permit_drop_gone s) as (G1 & G2 & G3).
    assert (P (AuditPermit_drop s).2) as Hs' by (unfold P; by rewrite G1, G2, G3).
    destruct (AuditPermit_drop s) as [[[]|] s1]; [by apply IH|done]. }
  change (P (drop_receiver lg).2). unfold drop_receiver. cbv [mbind M_mbind get_state modify].
  set (s1 := lg <| receiver := false |> <| queue := _ |> <| writer := _ |>).
  assert (P s1) as H1' by done.
  apply (Hfor _ (elements (dom (w_pending (writer lg))))) in H1'.
  destruct (for_each (elements (dom (w_pending (writer lg)))) _ s1) as [[[]|] s2]; [|done].
  by apply Hfor.
Qed.

Lemma recs_gone lg lg' id : writer lg' = writer lg → recs lg' id = recs lg id.
Proof. intros Hw. unfold recs. by rewrite Hw. Qed.

(** A handler's action once the receiver is gone. *)
Lemma gone_kept lg lg' ts ts' st us us' f sv :
  audit_inv (mkAuditSystem lg ts st us (WGone f) sv) → same_gone lg lg' →
  (∀ id p, ts' !! id = Some p → p = Reserved ∨ phase_ok id (Some p)) → (sv = false → ts' = ∅) →
  audit_inv (mkAuditSystem lg' ts' st us' (WGone f) sv).
Proof.
  intros Hi (Hr & Hq & Hw) Ht Hs. destruct (ai_worker _ Hi) as (Hr' & Hq' & Hd). simpl in *.
  split; simpl; [|done|done|].
  - intros id. pose proof (ai_records _ Hi id) as Hrec. unfold records_ok in *. simpl in *.
    by rewrite (recs_gone lg lg').
  - rewrite Hr, Hq. split_and!; [done|done|]. intros Hf. destruct (Hd Hf) as (H1' & H2' & H3'). simpl in *.
    split_and!; simpl; [done| |by rewrite Hw]. intros id. rewrite (recs_gone lg lg') by done. apply H2'.
Qed.

Lemma finish_kept wrote now flushing ids r lg lg' st us :
  queue lg = [] → ids ≡ₚ elements (dom (w_pending (writer lg))) →
  worker_finish wrote now flushing ids lg = (Done r, lg') →
  log_inv false (mkAuditSystem lg ∅ st us WRunning false) →
  audit_inv (mkAuditSystem lg' ∅ st us (WStopping (negb (is_ok r))) false).
Proof.
  intros Hq Hids Hrun Hi.
  assert (∀ id, pend lg id = None ∧ (is_Some (st !! id) → length (recs lg id) = 1)) as Hall.
  { intros id. apply (closed_drained _ id (li_ids _ _ Hi id)); simpl; [done|]. by rewrite Hq. }
  assert (ids = []) as ->.
  { apply Permutation_nil_r. rewrite Hids. destruct (elements _) as [|id l] eqn:El; [done|]. exfalso.
    assert (id ∈ dom (w_pending (writer lg))) as Hin by (apply elem_of_elements; rewrite El; by left).
    apply elem_of_dom in Hin as [? Hin]. destruct (Hall id) as [Hn _]. unfold pend in Hn. congruence. }
  assert (same_audit lg lg' ∧ (is_ok r = true → flushed (writer lg') = length (written (writer lg')))) as [Hsame Hfl].
  { unfold worker_finish, write_remaining, on_writer, flush in Hrun. cbv [mbind M_mbind] in Hrun.
    simpl in Hrun. destruct flushing; simpl in Hrun; simplify_eq/=; by split. }
  eapply (audit_inv_log (negb (is_ok r))); simpl; [|done|].
  - eapply log_inv_same; [exact Hi|exact Hsame|done].
  - split; [done|]. intros Hok. apply negb_false_iff in Hok. split_and!; simpl; [done| |by apply Hfl].
    intros id. destruct Hsame as (_ & _ & _ & _ & Hw). unfold recs. rewrite Hw. apply Hall.
Qed.

Lemma audit_step_inv sys sys' :
  audit_inv sys → audit_step sys sys' → audit_inv sys'.
Proof.
  intros Hi Hstep. pose proof (ai_worker _ Hi) as Hw. pose proof (ai_tasks _ Hi) as Htk.
  pose proof (ai_serving _ Hi) as Hsv.
  destruct Hstep as [id r lg lg' ts st us w Hid Hrun|id info now r lg lg' ts st us w sv Ht Hrun
    |id p p' lg lg' ts st us w sv Ht Hstep|faults rcv now fl r lg lg' ts st us sv Hrun|lg st us w
    |wrote now flushing ids r lg lg' st us Hq Hids Hrun|f lg ts st us sv|f lg ts st us sv]; simpl in *.
  - destruct w as [|f|f].
    + eapply (audit_inv_log false); [by eapply reserve_kept|done|done].
    + destruct Hw as [Hl Hd]. eapply (audit_inv_log f); [by eapply reserve_kept|done|]. simpl. split; [done|].
      intros Hf. by destruct (Hd Hf).
    + eapply gone_kept; [exact Hi|by eapply reserve_gone| |done]. intros i p. destruct (is_ok r); [|apply Htk].
      rewrite lookup_insert_Some. intros [[_ <-]|[_ Hp]]; [by left|by eapply Htk].
  - assert (sv = true) as -> by (destruct sv; [done|]; by rewrite Hsv in Ht).
    destruct w as [|f|f].
    + edestruct start_kept as [-> Hl]; [done|done|done|]. by eapply (audit_inv_log false).
    + destruct Hw as [Hl Hd]. edestruct start_kept as [-> Hl']; [done|done|exact Hl|].
      eapply (audit_inv_log f); [done|done|]. simpl. split; [done|]. intros Hf. by destruct (Hd Hf).
    + destruct Hw as (Hr & _). edestruct start_gone as [-> Hg]; [done|done|].
      eapply gone_kept; [exact Hi|done| |done]. intros i p [_ Hp]%lookup_delete_Some. by eapply Htk.
  - assert (sv = true) as -> by (destruct sv; [done|]; by rewrite Hsv in Ht).
    destruct w as [|f|f].
    + eapply (audit_inv_log false); [by eapply task_kept|done|done].
    + destruct Hw as [Hl Hd]. eapply (audit_inv_log f); [by eapply task_kept|done|]. simpl. split; [done|].
      intros Hf. by destruct (Hd Hf).
    + destruct Hw as (Hr & _). destruct (Htk _ _ Ht) as [->|Hok]; [by inversion Hstep|].
      destruct (task_gone _ _ _ _ _ Hr Hok Hstep) as [Hg Hok'].
      eapply gone_kept; [exact Hi|done| |done]. intros i q Hq.
      destruct (decide (i = id)) as [->|Hne].
      * rewrite lookup_partial_alter_eq in Hq. subst. by right.
      * rewrite lookup_partial_alter_ne in Hq by done. by eapply Htk.
  - destruct (round_kept faults rcv now fl lg ts st us sv Hw) as (r' & lg2 & Hrun' & Hl).
    rewrite Hrun in Hrun'. simplify_eq. eapply audit_inv_log; [exact Hl|done|].
    simpl. by destruct (is_ok r').
  - destruct w as [|f|f].
    + eapply (audit_inv_log false); [|done|done]. by eapply log_inv_same; [exact Hw|apply same_audit_refl|].
    + destruct Hw as [Hl Hd]. eapply (audit_inv_log f); [|done|].
      * by eapply log_inv_same; [exact Hl|apply same_audit_refl|].
      * simpl. split; [done|]. intros Hf. by destruct (Hd Hf).
    + destruct Hw as (Hr & Hq & Hd). split; simpl; [apply Hi|done|done|]. split_and!; [done|done|].
      intros Hf. by destruct (Hd Hf).
  - by eapply finish_kept.
  - destruct Hw as [Hl Hd]. destruct (drop_receiver_gone lg) as (Hr & Hq & Hwr & Hfl).
    split; simpl; [|done|done|].
    + intros id. pose proof (ai_records _ Hi id) as Hrec. unfold records_ok, recs in *. simpl in *. by rewrite Hwr.
    + split_and!; [done|done|]. intros Hf. destruct (Hd Hf) as (H1' & H2' & H3'). split_and!; simpl in *; [done| |].
      * intros id. unfold recs. rewrite Hwr. apply H2'.
      * by rewrite Hfl, Hwr.
  - destruct (mark_failed_gone lg) as (lg' & Hrun & Hg). unfold WriterHealthGuard_drop. rewrite Hrun. simpl.
    eapply gone_kept; [exact Hi|done|done|done].
Qed.

(** ** What holds in every reachable state *)

Lemma initial_inv slots t0 lg : start_with_writer_and_slots slots t0 = Some lg → audit_inv (initial lg).
Proof.
  unfold start_with_writer_and_slots. intros Hlg.
  destruct (0 <? slots)%N eqn:Hpos; simpl in Hlg; [|done].
  destruct (slots * MAX_EVENTS_PER_REQUEST <=? USIZE_MAX)%N eqn:Hmax; simpl in Hlg; [|done].
  simplify_eq. nbool. eapply (audit_inv_log false); [|done|done]. split; simpl; try done.
  - lia.
  - intros id. unfold view_ok. simpl. rewrite !lookup_empty. split; [by left|done].
  - exists []. split_and!; [constructor|done|]. intros id. split; [by intros ?%elem_of_nil|].
    unfold view_holds, holds, pend. simpl. rewrite !lookup_empty.
    intros [?|[[? ?]|(? & ?%elem_of_nil & _)]]; done.
Qed.

Lemma reachable_inv slots t0 lg sys :
  start_with_writer_and_slots slots t0 = Some lg → rtc audit_step (initial lg) sys → audit_inv sys.
Proof.
  intros Hlg Hrun. pose proof (initial_inv _ _ _ Hlg) as Hi. clear Hlg.
  induction Hrun as [|x y z Hxy Hyz IH]; [done|]. by apply IH, (audit_step_inv x).
Qed.

Definition writer_failed (w : WorkerPhase) : bool :=
  match w with WRunning => false | WStopping failed | WGone failed => failed end.

(** C6: the audit trail.  However the requests and the writer interleave, and whatever the sink
    does: a request is on record at most once, under what it was admitted with, and not at all if
    it was not admitted; while the writer has not failed, an admitted request whose handler and body
    are gone and whose events have been taken is on record exactly once; and a writer that ended
    because every sender was gone has recorded every admitted request and flushed every record. *)
Theorem audit_exactly_once (slots t0 : N) (lg : Logger) (sys : AuditSystem)
    (Hstart : start_with_writer_and_slots slots t0 = Some lg)
    (Hrun : rtc audit_step (initial lg) sys) (id : Uuid) :
  length (recs (log sys) id) ≤ 1
  ∧ match started sys !! id with
    | None => recs (log sys) id = []
    | Some (info, at_) =>
        (∀ r, r ∈ recs (log sys) id → record_about info at_ r)
        ∧ (writer_failed (worker sys) = false → tasks sys !! id = None →
           events_of id (queue (log sys)) = [] → length (recs (log sys) id) = 1)
    end
  ∧ (∀ failed, worker sys = WStopping failed ∨ worker sys = WGone failed → failed = false →
     (is_Some (started sys !! id) → length (recs (log sys) id) = 1)
     ∧ flushed (writer (log sys)) = length (written (writer (log sys)))).
Proof.
  pose proof (reachable_inv _ _ _ _ Hstart Hrun) as Hi.
  destruct (ai_records _ Hi id) as [Hl Hr]. pose proof (ai_worker _ Hi) as Hw.
  assert (∀ failed, worker sys = WStopping failed ∨ worker sys = WGone failed → failed = false →
    all_recorded sys) as Hall.
  { intros f [Hf|Hf] ->; rewrite Hf in Hw; by apply Hw. }
  split_and!; [done| |].
  - destruct (started sys !! id) as [[i t]|] eqn:Hst; [|done]. split; [done|]. intros Hf Ht He.
    destruct (worker sys) as [|f|f] eqn:Hwk; simpl in Hf; subst.
    + apply (closed_drained sys id (li_ids _ _ Hw id)); [by rewrite Ht|done|]. by rewrite Hst.
    + destruct Hw as [_ Hd]. destruct (Hd eq_refl) as (_ & Ha & _). apply Ha. by rewrite Hst.
    + destruct Hw as (_ & _ & Hd). destruct (Hd eq_refl) as (_ & Ha & _). apply Ha. by rewrite Hst.
  - intros f Hf Hff. destruct (Hall f Hf Hff) as (_ & Ha & Hfl). split; [apply Ha|done].
Qed.

Definition writer_gone (w : WorkerPhase) : bool :=
  match w with WGone _ => true | _ => false end.

(** C7: admission.  While the writer has the receiver, the queue holds at most five events per
    permit, and so never more than its capacity: a handler's send is never refused, the health flag
    is never cleared by one, a round of the writer never panics (no permit is released twice), and
    once nothing is in flight every permit is back.  Once the receiver is gone the log fails
    closed: no request is admitted. *)
Theorem audit_admission (slots t0 : N) (lg : Logger) (sys : AuditSystem)
    (Hstart : start_with_writer_and_slots slots t0 = Some lg)
    (Hrun : rtc audit_step (initial lg) sys) :
  (writer_gone (worker sys) = false →
     (N.of_nat (length (queue (log sys))) ≤ 5 * admitted (log sys) ≤ event_slots (log sys))%N
     ∧ healthy (log sys) = true
     ∧ (tasks sys = ∅ → queue (log sys) = [] → w_pending (writer (log sys)) = ∅ →
        admitted (log sys) = 0%N))
  ∧ (worker sys = WRunning → ∀ faults received now flushed_at, ∃ r lg',
       worker_round faults received now flushed_at (log sys) = (Done r, lg'))
  ∧ (∀ failed id info now guard lg', worker sys = WGone failed →
       enqueue_start id info now (log sys) ≠ (Done (Ok guard), lg')).
Proof.
  pose proof (reachable_inv _ _ _ _ Hstart Hrun) as Hi. pose proof (ai_worker _ Hi) as Hw.
  split_and!.
  - intros Hf. assert (∃ lost, log_inv lost sys) as [lost Hl].
    { destruct (worker sys) as [|f|f]; [by eexists|destruct Hw as [? _]; by eexists|done]. }
    destruct (log_room _ _ Hl) as [Hroom _]. destruct (li_slots _ _ Hl) as [Hs _].
    pose proof (li_admitted _ _ Hl) as Ha. split_and!; [done|lia|apply Hl|].
    intros Ht Hq Hp. destruct (li_permits _ _ Hl) as (L & _ & Hn & HL).
    destruct L as [|id L]; [by simpl in Hn|]. exfalso.
    assert (view_holds sys id) as [Hv|[[? Hv]|(? & Hv & _)]] by (apply HL; by left).
    + by rewrite Ht in Hv.
    + unfold pend in Hv. by rewrite Hp in Hv.
    + rewrite Hq in Hv. by apply elem_of_nil in Hv.
  - intros Hwk faults rcv now fl. rewrite Hwk in Hw. destruct sys as [lg' ts st us w sv]. simpl in *. subst.
    destruct (round_kept faults rcv now fl lg' ts st us sv Hw) as (r & lg2 & Hr & _). by exists r, lg2.
  - intros f id i now g lg' Hf Hr. rewrite Hf in Hw. destruct Hw as (Hrecv & _).
    destruct (start_gone _ _ _ _ _ _ Hrecv Hr) as [? _]. done.
Qed.
End Audit.

(** ** A concrete run

    One slot; a request is admitted, its client leaves, and the writer records it. *)

Definition demo_info : RequestInfo (Uri:=SimpleUri) :=
  {| peer_ip := "127.0.0.1"; peer_port := 5000; ri_method := "GET";
     ri_uri := mkSimpleUri "http" "proxy.test" (bs "/v1/models") None; ri_version := HTTP_11;
     host := None; user_agent := None; content_length := None; ri_key_sha256 := None;
     identity := None; authorized := false; auth_error := None; openwebui_user := None |}.

Definition demo_log : Logger (Uri:=SimpleUri) :=
  default (mkLogger false false 0 0 0 [] false (mkWriter ∅ [] 0 false 0))
    (start_with_writer_and_slots 1 0).

Definition demo_started : Logger (Uri:=SimpleUri) := (request_started "a" demo_info 10 demo_log).2.

Definition demo_faults : SinkFaults := {| on_write := Ok (); on_flush := Ok () |}.

Definition demo_round (lg : Logger (Uri:=SimpleUri)) : Logger :=
  (worker_round demo_faults ReceivedEvent 20 20 lg).2.

Definition demo_left : Logger (Uri:=SimpleUri) :=
  (RequestGuard_drop {| rg_id := "a"; armed := true |} 15 demo_started).2.

Definition demo_written : Logger (Uri:=SimpleUri) := demo_round (demo_round demo_left).

Definition demo_system : AuditSystem (Uri:=SimpleUri) :=
  mkAuditSystem demo_written (partial_alter (λ _, None) "a" (<["a" := Armed false false]> (<["a" := Reserved]> ∅)))
    (<["a" := (demo_info, 10%N)]> ∅) ({["a"]} ∪ ∅) WRunning true.

Lemma demo_run :
  rtc (audit_step (HeaderMap:=Entries) (λ _, None)) (initial demo_log) demo_system.
Proof.
  eapply rtc_l.
  { apply (Step_reserve _ "a" (Ok ())); [set_solver|vm_compute; reflexivity]. }
  eapply rtc_l.
  { apply (Step_start _ "a" demo_info 10 (Ok {| rg_id := "a"; armed := true |}) _ demo_started);
      vm_compute; reflexivity. }
  eapply rtc_l.
  { eapply (Step_task _ "a" (Armed false false) None _ demo_left); [reflexivity|].
    apply (Task_abandon _ "a" false false 15). vm_compute. reflexivity. }
  eapply rtc_l.
  { apply (Step_round _ demo_faults ReceivedEvent 20 20 (Ok ()) _ (demo_round demo_left)).
    vm_compute. reflexivity. }
  eapply rtc_l.
  { apply (Step_round _ demo_faults ReceivedEvent 20 20 (Ok ()) _ demo_written). vm_compute. reflexivity. }
  apply rtc_refl.
Qed.

Lemma audit_exactly_once_witness :
  length (recs (log demo_system) "a") = 1.
Proof.
  assert (start_with_writer_and_slots 1 0 = Some demo_log) as Hstart by (vm_compute; reflexivity).
  pose proof (audit_exactly_once _ 1 0 demo_log demo_system Hstart demo_run "a") as (_ & Hrec & _).
  apply Hrec; vm_compute; reflexivity.
Defined.

Lemma audit_admission_witness :
  admitted (log demo_system) = 0%N ∧ healthy (log demo_system) = true.
Proof.
  assert (start_with_writer_and_slots 1 0 = Some demo_log) as Hstart by (vm_compute; reflexivity).
  pose proof (audit_admission _ 1 0 demo_log demo_system Hstart demo_run) as (Ha & _).
  destruct Ha as (_ & Hh & Hz); [reflexivity|]. split; [|exact Hh].
  apply Hz; vm_compute; reflexivity.
Defined.
