(* ===== verification/Public.v ===== *)
(** * The public router: [src/src/proxy.rs]

    Which handler a request to the public listener reaches.  [axum] matches the
    path as it was sent; its documentation says that a [{*path}] segment does not
    match an empty one, and that a [GET] route also answers [HEAD]. *)

From S2P Require Import Prelude RustStd.

Inductive PublicRoute :=
| RegisterPage
| RegisterCreate
| RegisterMethodNotAllowed
| ControlNotFound
| ToProxy.

#[export] Instance PublicRoute_eq_dec : EqDecision PublicRoute.
Proof. solve_decision. Defined.

(** src/src/proxy.rs, lines 77-79 of [router]: the methods of the registration page *)
Definition register_route (method : string) : PublicRoute :=
  if bool_decide (method = "GET" ∨ method = "HEAD") then RegisterPage
  else if bool_decide (method = "POST") then RegisterCreate
  else RegisterMethodNotAllowed.

(** src/src/proxy.rs:76-88 [router] *)
Definition router (method : string) (path : bytes) : PublicRoute :=
  if bool_decide (path = bs "/register") || bool_decide (path = bs "/register/") then register_route method
  else if bool_decide (path = bs "/control") then ControlNotFound
  else match strip_prefix (bs "/control/") path with
       | Some (_ :: _) => ControlNotFound
       | Some [] | None => ToProxy
       end.

(** src/src/proxy.rs:90-92 [control_not_found] *)
Definition control_not_found : N := 404.

(** The paths the proxy keeps for itself. *)
Definition reserved (path : bytes) : Prop :=
  path = bs "/register" ∨ path = bs "/register/" ∨ path = bs "/control"
  ∨ ∃ x rest, path = bs "/control/" ++ x :: rest.

Lemma register_route_own method : register_route method ≠ ToProxy.
Proof. unfold register_route. destruct (bool_decide _); [done|]. by destruct (bool_decide _). Qed.

(** The proxy's handler sees exactly the other paths, whatever the method. *)
Theorem router_reserved (method : string) (path : bytes) : router method path = ToProxy ↔ ¬ reserved path.
Proof.
  unfold router, reserved. pose proof (register_route_own method) as Hown.
  case_bool_decide as H1; cbn [orb]; [naive_solver|]. case_bool_decide as H2; cbn [orb]; [naive_solver|].
  case_bool_decide as H3; [naive_solver|].
  destruct (strip_prefix (bs "/control/") path) as [[|x rest]|] eqn:E.
  - apply strip_prefix_Some in E. split; [|intros _; reflexivity]. intros _ [?|[?|[?|(y & l & Hp)]]]; try done.
    rewrite E in Hp. apply (f_equal length) in Hp. rewrite !length_app in Hp. simpl in Hp. lia.
  - apply strip_prefix_Some in E. split; [intros [=]|]. intros Hn. destruct Hn. right. right. right. by exists x, rest.
  - split; [|intros _; reflexivity]. intros _ [?|[?|[?|(y & l & Hp)]]]; try done.
    apply strip_prefix_Some in Hp. congruence.
Qed.

(** [/control/] itself is not one of them: it goes to the upstream. *)
Example control_slash : router "GET" (bs "/control/") = ToProxy.
Proof. reflexivity. Qed.
