(* ===== verification/Pipeline.v ===== *)
(** * The proxy handler against the audit protocol

    [AuditTrail.v] is proved for handlers that report in a certain order.  Here the
    handler of [Proxy.v] is shown to be one of them, and to reach the backends
    only for a request that is on the audit log and authenticated. *)

From S2P Require Import Prelude RustStd Float64 Telemetry Backend Runtime Routing Disk Keys Auth Usage Http Timestamp Logging Proxy AuditTrail Selection.

Section Pipeline.
Context {Uri HeaderMap : Type} `{UriOps Uri} `{HeaderOps HeaderMap} `{HeaderText}
  `{IntoResponse HeaderMap} `{KeyCrypto} (from_slice : bytes → option UsageFields).
Local Notation AppState := (AppState (Uri:=Uri)).
Local Notation Logger := (Logger (Uri:=Uri)).
Local Notation Parts := (Parts (Uri:=Uri) (HeaderMap:=HeaderMap)).
Local Notation Response := (Response HeaderMap Body).
Local Notation task_step := (task_step (Uri:=Uri) (HeaderMap:=HeaderMap) from_slice).

(** Any number of actions of one handler. *)
Inductive task_path (id : Uuid) : Phase → Logger → Phase → Logger → Prop :=
| Path_refl p lg : task_path id p lg p lg
| Path_step p lg p' lg' p'' lg'' :
    task_step id p lg (Some p') lg' → task_path id p' lg' p'' lg'' → task_path id p lg p'' lg''.

Lemma task_path_trans id p lg p' lg' p'' lg'' :
  task_path id p lg p' lg' → task_path id p' lg' p'' lg'' → task_path id p lg p'' lg''.
Proof. induction 1; [done|]. intros ?. econstructor; [done|auto]. Qed.

Lemma task_path_one id p lg p' lg' : task_step id p lg (Some p') lg' → task_path id p lg p' lg'.
Proof. intros. by eapply Path_step, Path_refl. Qed.

Lemma on_routing_logger {A} (m : M (RoutingState (Uri:=Uri)) A) (s : AppState) r s' :
  on_routing m s = (r, s') → app_logger s' = app_logger s ∧ app_keys s' = app_keys s.
Proof. unfold on_routing. destruct (m (app_routing s)). by intros [= <- <-]. Qed.

Lemma on_logger_run {A} (m : M Logger A) (s : AppState) r s' :
  on_logger m s = (r, s') →
  m (app_logger s) = (r, app_logger s') ∧ app_routing s' = app_routing s ∧ app_keys s' = app_keys s.
Proof. unfold on_logger. destruct (m (app_logger s)). by intros [= <- <-]. Qed.

Lemma expect_Done {S A} (o : option A) (s : S) a s' : expect o s = (Done a, s') → o = Some a ∧ s' = s.
Proof. destruct o; simpl; [by intros [= -> ->]|done]. Qed.

Lemma dispatch_path id (parts : Parts) now at_ clock (s : AppState) r s' :
  forward_dispatch id parts now at_ clock s = (Done r, s') →
  task_path id (Armed false false) (app_logger s) (Armed true false) (app_logger s').
Proof.
  unfold forward_dispatch. intros Hrun.
  apply M_bind_Done in Hrun as (sel & s1 & Hsel & Hrun). apply on_routing_logger in Hsel as [Hl _].
  destruct sel as [sel|]; apply M_bind_Done in Hrun as ([] & s2 & Hlog & Hrun);
    apply on_logger_run in Hlog as (Hlog & _ & _); rewrite Hl in Hlog.
  - assert (app_logger s' = app_logger s2) as ->; [|by eapply task_path_one, Task_routed].
    apply M_bind_Done in Hrun as (up & s3 & Hup & Hrun).
    apply expect_Done in Hup as [_ ->].
    apply M_bind_Done in Hrun as (uri & s4 & Hu & Hrun). injection Hu as _ ->.
    destruct uri as [uri|e]; apply M_bind_Done in Hrun as (x & s5 & Hx & Hrun).
    + injection Hrun as _ <-. unfold or_panic in Hx. by injection Hx as _ ->.
    + apply on_routing_logger in Hx as [? _]. by injection Hrun as _ <-.
  - injection Hrun as <- <-. by eapply task_path_one, Task_routed.
Qed.

Lemma answered_path id aw answer now (s : AppState) (r : Response) s' :
  forward_answered id aw answer now s = (Done r, s') →
  ∃ errored, task_path id (Armed true false) (app_logger s) (Armed true errored) (app_logger s').
Proof.
  unfold forward_answered. destruct answer as [response|error]; intros Hrun.
  - exists false. apply M_bind_Done in Hrun as (g & s1 & Hg & Hrun). apply on_routing_logger in Hg as [Hg _].
    apply M_bind_Done in Hrun as (b & s2 & Hb & Hrun). apply on_routing_logger in Hb as [Hb _].
    injection Hrun as <- <-. rewrite Hb, Hg. apply Path_refl.
  - exists true. apply M_bind_Done in Hrun as ([] & s1 & Hg & Hrun). apply on_routing_logger in Hg as [Hg _].
    apply M_bind_Done in Hrun as ([] & s2 & Hb & Hrun). apply on_logger_run in Hb as (Hb & _).
    injection Hrun as <- <-. rewrite Hg in Hb. by eapply task_path_one, Task_error.
Qed.

Lemma finish_path id (response : Response) now (s : AppState) response' c s' :
  finish_response id response now s = (Done (response', c), s') →
  task_path id Disarmed (app_logger s) (Observed c) (app_logger s')
  ∧ app_routing s' = app_routing s.
Proof.
  unfold finish_response. intros Hrun.
  apply M_bind_Done in Hrun as ([] & s1 & Hr & Hrun). apply on_logger_run in Hr as (Hr & Hr2 & _).
  apply M_bind_Done in Hrun as (c' & s2 & Hb & Hrun). apply on_logger_run in Hb as (Hb & Hb2 & _).
  injection Hrun as <- <- <-. split; [|congruence].
  eapply Path_step; [by eapply Task_respond|]. by eapply task_path_one, Task_body.
Qed.

(** ** Arrival *)

Lemma openwebui_authorized (info : RequestInfo (Uri:=Uri)) headers name :
  authorized (with_openwebui_user info headers name) = authorized info.
Proof. unfold with_openwebui_user. by repeat case_match. Qed.

Lemma started_guard id info now (lg : Logger) guard lg' :
  request_started id info now lg = (Done (Ok guard), lg') → guard = {| rg_id := id; armed := true |}.
Proof.
  unfold request_started, enqueue_start. intros Hrun.
  apply M_bind_Done in Hrun as ([|] & lg1 & _ & Hrun); [|done].
  apply M_bind_Done in Hrun as (h & lg2 & _ & Hrun). destruct h; simpl in Hrun.
  - apply M_bind_Done in Hrun as ([e|] & lg3 & _ & Hrun); [|by injection Hrun as <- _].
    apply M_bind_Done in Hrun as ([] & lg4 & _ & Hrun).
    by apply M_bind_Done in Hrun as ([] & lg5 & _ & Hrun).
  - by apply M_bind_Done in Hrun as ([] & lg3 & _ & Hrun).
Qed.

(** What an arriving request comes to: it is authenticated, and the log admits it or not; the
    routing state is only read. *)
Lemma arrive_spec id ip port (parts : Parts) now (s : AppState) r s' :
  arrive id ip port parts now s = (Done r, s') →
  ∃ auth info, authenticate to_str (get_all "authorization" (p_headers parts)) (app_keys s) = Done auth
    ∧ authorized info = is_ok (auth_result auth)
    ∧ app_routing s' = app_routing s
    ∧ match r with
      | Ok (guard, result) =>
          result = auth_result auth ∧ guard = {| rg_id := id; armed := true |}
          ∧ request_started id info now (app_logger s) = (Done (Ok guard), app_logger s')
      | Err response =>
          ∃ error, response = admission_refused error
            ∧ request_started id info now (app_logger s) = (Done (Err error), app_logger s')
      end.
Proof.
  unfold arrive. intros Hrun. apply M_bind_Done in Hrun as (s0 & s1 & Hs & Hrun). injection Hs as <- <-.
  apply M_bind_Done in Hrun as (auth & s1 & Hauth & Hrun). injection Hauth as Hauth <-.
  apply M_bind_Done in Hrun as (config & s1 & Hcfg & Hrun).
  assert (s1 = s) as -> by (destruct s; by injection Hcfg as _ <-).
  apply M_bind_Done in Hrun as (admitted & s1 & Hadm & Hrun).
  apply on_logger_run in Hadm as (Hadm & Hrt & _). injection Hrun as <- <-.
  exists auth. eexists. split; [done|]. split_and!.
  2: done.
  2: { destruct admitted as [guard|error].
       - pose proof (started_guard _ _ _ _ _ _ Hadm) as Hg. by split_and!.
       - exists error. by split. }
  by rewrite openwebui_authorized.
Qed.

(** C8: the handler against the audit protocol, and the gate to the backends.  Whatever the
    upstream answers: if the audit log does not admit the request, the answer says so and no
    backend state is touched; if it does, everything the handler reports is a sequence of actions of
    [task_step] from the admitted request to the observed body (so [audit_exactly_once] and
    [audit_admission] hold of it), and a request that is not authenticated is answered 401 or
    403 without any backend state being touched. *)
Theorem proxy_refines client id ip port (parts : Parts) now at_ clock (s : AppState)
    (response : Response) completion s'
    (Hrun : proxy client id ip port parts now at_ clock s = (Done (response, completion), s')) :
  ∃ auth info, authenticate to_str (get_all "authorization" (p_headers parts)) (app_keys s) = Done auth
    ∧ authorized info = is_ok (auth_result auth)
    ∧ match completion with
      | None =>
          (∃ error, response = admission_refused error
             ∧ request_started id info now (app_logger s) = (Done (Err error), app_logger s'))
          ∧ app_routing s' = app_routing s
      | Some c =>
          (∃ lg1, request_started id info now (app_logger s)
                    = (Done (Ok {| rg_id := id; armed := true |}), lg1)
             ∧ task_path id (Armed false false) lg1 (Observed c) (app_logger s'))
          ∧ (authorized info = false →
             app_routing s' = app_routing s ∧ rs_status response ∈ [401; 403]%N)
      end.
Proof.
  unfold proxy in Hrun. apply M_bind_Done in Hrun as (arrived & s1 & Harr & Hrun).
  apply arrive_spec in Harr as (auth & info & Hauth & Hinfo & Hrt & Hres).
  exists auth, info. split; [done|]. split; [done|].
  destruct arrived as [[guard result]|refused].
  2:{ injection Hrun as <- <- <-. by split. }
  destruct Hres as (-> & -> & Hadm).
  apply M_bind_Done in Hrun as (answer & s2 & Hans & Hrun).
  apply M_bind_Done in Hrun as ([response' c] & s3 & Hfin & Hrun).
  apply M_bind_Done in Hrun as ([] & s4 & Hdrop & Hrun).
  apply on_logger_run in Hdrop as (Hdrop & Hrt4 & _). injection Hdrop as Hlg4.
  assert (rs_status response' = rs_status answer) as Hstatus.
  { unfold finish_response in Hfin. apply M_bind_Done in Hfin as ([] & ? & _ & Hfin).
    by apply M_bind_Done in Hfin as (? & ? & _ & [= <- <- <-]). }
  apply finish_path in Hfin as [Hfin Hrt3]. injection Hrun as <- <- <-. rewrite <- Hlg4.
  assert (∃ errored routed, task_path id (Armed false false) (app_logger s1) (Armed routed errored) (app_logger s2)
    ∧ (authorized info = false → s2 = s1 ∧ rs_status answer ∈ [401; 403]%N))
    as (errored & routed & Hpath & Hgate).
  { rewrite Hinfo. destruct (auth_result auth) as [[]|error].
    - unfold forward in Hans. apply M_bind_Done in Hans as (d & s5 & Hd & Hans).
      apply dispatch_path in Hd. destruct d as [aw|resp].
      + apply answered_path in Hans as [errored Hans]. exists errored, true. split; [|done].
        by eapply task_path_trans.
      + injection Hans as <- <-. by exists false, true.
    - injection Hans as <- <-. exists false, false. split; [apply Path_refl|]. intros _. split; [done|].
      destruct error; simpl; set_solver. }
  split.
  - exists (app_logger s1). split; [done|]. eapply task_path_trans; [exact Hpath|].
    eapply Path_step; [|exact Hfin]. by apply (Task_disarm _ _ _ _ now).
  - intros Hno. destruct (Hgate Hno) as [-> Hst]. split; [congruence|]. by rewrite Hstatus.
Qed.
End Pipeline.

(** ** Two concrete requests *)

Definition demo_app : AppState (Uri:=SimpleUri) :=
  {| app_routing := demo_router; app_logger := demo_log; app_keys := demo_keystore |}.

Definition demo_request (headers : Entries) : Parts (Uri:=SimpleUri) (HeaderMap:=Entries) :=
  {| p_method := "POST"; p_uri := mkSimpleUri "http" "proxy.test" (bs "/v1/models") None;
     p_version := HTTP_11; p_headers := headers |}.

Definition demo_client (request : Parts (Uri:=SimpleUri) (HeaderMap:=Entries)) :
    result string (UpstreamResponse (HeaderMap:=Entries)) :=
  Ok {| up_status := 200; up_headers := [("content-type", bs "text/event-stream; charset=utf-8")];
        up_ended := false |}.

Definition demo_proxy (headers : Entries) :=
  proxy demo_client "a" "127.0.0.1" 5000 (demo_request headers) 10 10 demo_clock demo_app.

Definition demo_bearer : Entries := [("authorization", bs "Bearer " ++ demo_key "c" "d")].

(** One is answered by the backend, the other is refused and leaves it alone. *)
Lemma proxy_refines_witness :
  (∃ c, (demo_proxy demo_bearer).1 = Done (insert_response_header "x-proxy-request-id" (bs "a")
       (mkResponse 200%N [("content-type", bs "text/event-stream; charset=utf-8")]
          (match (demo_proxy demo_bearer).1 with
           | Done (response, _) => rs_body response | Panicked => UpstreamBody None end)), Some c))
  ∧ match demo_proxy [] with
    | (Done (response, Some c), s') =>
        app_routing s' = app_routing demo_app ∧ rs_status response ∈ [401; 403]%N
    | _ => False
    end.
Proof.
  split; [eexists; vm_compute; reflexivity|].
  assert (match (demo_proxy []).1 with Done (_, Some _) => true | _ => false end = true) as Hok
    by (vm_compute; reflexivity).
  destruct (demo_proxy []) as [[[response [c|]]|] s'] eqn:E; [|discriminate Hok|discriminate Hok].
  destruct (proxy_refines (λ _, None) _ _ _ _ _ _ _ _ _ _ _ _ E) as (auth & info & Ha & Hi & _ & Hgate).
  apply Hgate. rewrite Hi. vm_compute in Ha. by injection Ha as <-.
Defined.
