(* ===== verification/InFlight.v ===== *)
(** * The whole server: the requests in flight and the control plane

    [ServerState] puts the control plane of [src/src/control.rs], the audit log and
    the keys together with the requests of [src/src/proxy.rs] that are at a
    backend: waiting for its answer, or streaming its body.  A step is one of
    the operator's, the workers' or one request's.  [leases_are_requests] shows
    that the leases a gate counts are the requests in flight, and
    [safe_to_stop_lasts] what that makes of a certified drain: from then on no
    request is at the backend until the operator activates it. *)

From S2P Require Import Prelude RustStd Float64 Disk Usage Keys Auth Http Timestamp Logging AuditTrail Pipeline Telemetry Backend Runtime Routing Selection BackendState Control Fences Drain Proxy Leases.

(** ** What a request does with its lease *)

Section Requests.
Context {Uri HeaderMap : Type} `{UriOps Uri} `{HeaderOps HeaderMap} `{HeaderText}
  `{IntoResponse HeaderMap}.
Local Notation AppState := (AppState (Uri:=Uri)).
Local Notation Parts := (Parts (Uri:=Uri) (HeaderMap:=HeaderMap)).
Local Notation Response := (Response HeaderMap Body).
Local Notation Awaiting := (Awaiting (Uri:=Uri) (HeaderMap:=HeaderMap)).
Local Notation hands_app := (hands_in (app_routing (Uri:=Uri))).

Definition body_lease (body : option BackendResponseGuard) : list BackendLease :=
  match body with Some guard => [guard_lease guard] | None => [] end.

Lemma hands_body_new ended guard : hands (Uri:=Uri) [guard_lease guard] (LeasedBody_new ended guard) body_lease.
Proof.
  unfold LeasedBody_new. destruct ended; [|by apply hands_mret].
  eapply hands_bind; [apply hands_guard_drop|]. intros; by apply hands_mret.
Qed.

Lemma hands_poll_frame self polled ended now :
  hands (Uri:=Uri) (body_lease self) (LeasedBody_poll_frame self polled ended now) body_lease.
Proof.
  unfold LeasedBody_poll_frame. destruct polled as [frame|]; [|by apply hands_mret].
  destruct (match frame with Some (Err _) => true | _ => false end); [|destruct (_ || _); [|by apply hands_mret]];
    (destruct self as [guard|]; [|by apply hands_mret]).
  - eapply hands_bind; [apply hands_body_error|]. intros g.
    eapply hands_bind; [apply hands_guard_drop|]. intros; by apply hands_mret.
  - eapply hands_bind; [apply (hands_guard_drop (guard_complete guard))|]. intros; by apply hands_mret.
Qed.

Lemma hands_body_drop self : hands (Uri:=Uri) (body_lease self) (LeasedBody_drop self) (λ _, []).
Proof. destruct self; [apply hands_guard_drop|by apply hands_mret]. Qed.

(** Actions on the application state. *)
Lemma hands_on_routing {A} given (m : M (RoutingState (Uri:=Uri)) A) taken :
  hands given m taken → hands_app given (Proxy.on_routing m) taken.
Proof.
  intros Hm rest app a app' Hwf Hacc. unfold Proxy.on_routing.
  destruct (m (app_routing app)) as [r x] eqn:Hrun. intros [= -> <-]. by eapply Hm.
Qed.

Lemma hands_logger {A} given (m : M (Logger (Uri:=Uri)) A) : hands_app given (on_logger m) (λ _, given).
Proof.
  apply hands_in_unseen. intros app a app'. unfold on_logger.
  destruct (m (app_logger app)). by intros [= _ <-].
Qed.

Lemma hands_expect {A} given (o : option A) : hands_app given (expect o) (λ _, given).
Proof. apply hands_in_unseen. intros app a app'. by destruct o as [x|]; [intros [= _ <-]|]. Qed.

Lemma hands_or_panic {A} given (o : outcome A) : hands_app given (or_panic o) (λ _, given).
Proof. apply hands_in_unseen. intros app a app'. by intros [= _ <-]. Qed.

(** The lease of a request that waits for its upstream. *)
Definition awaiting_lease (r : result Response Awaiting) : list BackendLease :=
  match r with Ok aw => [sel_lease (selection aw)] | Err _ => [] end.

Lemma hands_dispatch id (parts : Parts) now at_ clock :
  hands_app [] (forward_dispatch id parts now at_ clock) awaiting_lease.
Proof.
  unfold forward_dispatch. eapply hands_in_bind; [apply hands_on_routing, hands_select|].
  intros [sel|]; simpl.
  2:{ eapply hands_in_bind; [apply hands_logger|]. intros; by apply hands_in_mret. }
  eapply hands_in_bind; [apply hands_logger|]. intros u.
  eapply hands_in_bind; [apply hands_expect|]. intros upstream.
  eapply hands_in_bind; [apply hands_or_panic|]. intros [uri|e].
  - eapply hands_in_bind; [apply hands_or_panic|]. intros; by apply hands_in_mret.
  - eapply hands_in_bind; [apply hands_on_routing, hands_selection_drop|]. intros; by apply hands_in_mret.
Qed.

(** The lease of a response's body. *)
Definition response_lease (response : Response) : list BackendLease :=
  match rs_body response with UpstreamBody body => body_lease body | ErrorJson _ _ _ _ => [] end.

Lemma hands_answered id (aw : Awaiting) answer now :
  hands_app [sel_lease (selection aw)] (forward_answered id aw answer now) response_lease.
Proof.
  unfold forward_answered. destruct answer as [response|e].
  - eapply hands_in_bind; [apply hands_on_routing, hands_response_guard|]. intros guard.
    eapply hands_in_bind; [apply hands_on_routing, hands_body_new|]. intros; by apply hands_in_mret.
  - eapply hands_in_bind; [apply hands_on_routing, hands_transport_failure|]. intros u.
    eapply hands_in_bind; [apply hands_logger|]. intros; by apply hands_in_mret.
Qed.

Lemma hands_abandoned (aw : Awaiting) guard now :
  hands_app [sel_lease (selection aw)] (abandoned aw guard now) (λ _, []).
Proof.
  unfold abandoned. eapply hands_in_bind; [apply hands_on_routing, hands_selection_drop|]. intros u.
  apply hands_logger.
Qed.
End Requests.

(** ** The server *)

Section ServerState.
Context {Uri HeaderMap : Type} `{UriOps Uri} `{HeaderOps HeaderMap} `{HeaderText}
  `{IntoResponse HeaderMap} `{JsonLaws StateFile}.
Local Notation AppState := (AppState (Uri:=Uri)).
Local Notation Parts := (Parts (Uri:=Uri) (HeaderMap:=HeaderMap)).
Local Notation Awaiting := (Awaiting (Uri:=Uri) (HeaderMap:=HeaderMap)).
Local Notation UpstreamResponse := (UpstreamResponse (HeaderMap:=HeaderMap)).

(** Where a request at a backend is: awaiting the client's answer in [forward], or streaming its
    [LeasedBody]. *)
Inductive Stage :=
| Waiting (awaiting : Awaiting)
| Streaming (guard : BackendResponseGuard).

Record ServerState := mkServerState {
  server_control : ControlState (Uri:=Uri);
  server_logger : Logger (Uri:=Uri);
  server_keys : KeyStore;
  in_flight : gmap Uuid Stage;
}.
Implicit Types (s : ServerState) (tasks : gmap Uuid Stage).

(** The handlers' view of it. *)
Definition app_of s : AppState :=
  AppState_with_routing (c_routing (server_control s)) (server_logger s) (server_keys s).

Definition with_app s (app : AppState) : ServerState :=
  {| server_control := {| c_routing := app_routing app; state_store := state_store (server_control s);
                       operations := operations (server_control s) |};
     server_logger := app_logger app; server_keys := app_keys app; in_flight := in_flight s |}.

Definition with_control s (control : ControlState) : ServerState :=
  {| server_control := control; server_logger := server_logger s; server_keys := server_keys s; in_flight := in_flight s |}.

(** An action of a handler, and where it leaves its request. *)
Definition on_request {A} (id : Uuid) (m : M AppState A) (next : A → option Stage) : M ServerState () := λ s,
  let '(r, app) := m (app_of s) in
  match r with
  | Done a =>
      let s := with_app s app in
      (Done (), {| server_control := server_control s; server_logger := server_logger s; server_keys := server_keys s;
                   in_flight := partial_alter (λ _, next a) id (in_flight s) |})
  | Panicked => (Panicked, with_app s app)
  end.

(** Up to the await on the client. *)
Definition dispatch (id : Uuid) (parts : Parts) (now at_ : N) (clock : string → N * N) : M ServerState () :=
  on_request id (forward_dispatch id parts now at_ clock)
    (λ r, match r with Ok awaiting => Some (Waiting awaiting) | Err _ => None end).

(** The client's answer. *)
Definition answer (id : Uuid) (awaiting : Awaiting) (answered : result string UpstreamResponse) (now : N) :
    M ServerState () :=
  on_request id (forward_answered id awaiting answered now)
    (λ response, match rs_body response with
                 | UpstreamBody (Some guard) => Some (Streaming guard)
                 | _ => None
                 end).

(** A frame of the body. *)
Definition frame (id : Uuid) (guard : BackendResponseGuard) (polled : PolledFrame) (ended : bool) (now : N) :
    M ServerState () :=
  on_request id (Proxy.on_routing (LeasedBody_poll_frame (Some guard) polled ended now)) (fmap Streaming).

(** The client goes away: the body is dropped, or the handler. *)
Definition close (id : Uuid) (guard : BackendResponseGuard) : M ServerState () :=
  on_request id (Proxy.on_routing (LeasedBody_drop (Some guard))) (λ _, None).

Definition abandon (id : Uuid) (awaiting : Awaiting) (guard : RequestGuard) (now : N) : M ServerState () :=
  on_request id (abandoned awaiting guard now) (λ _, None).

(** One step of the server: the operator's, the drain tasks' and the workers'; the audit log's and
    the registrations'; or one request's. *)
Inductive server_step s s' : Prop :=
| server_operator control :
    operator_step (server_control s) control → s' = with_control s control → server_step s s'
| server_audit logger keys :
    s' = {| server_control := server_control s; server_logger := logger; server_keys := keys; in_flight := in_flight s |} →
    server_step s s'
| server_dispatch id parts now at_ clock :
    in_flight s !! id = None → dispatch id parts now at_ clock s = (Done (), s') → server_step s s'
| server_answer id awaiting answered now :
    in_flight s !! id = Some (Waiting awaiting) → answer id awaiting answered now s = (Done (), s') →
    server_step s s'
| server_frame id guard polled ended now :
    in_flight s !! id = Some (Streaming guard) → frame id guard polled ended now s = (Done (), s') →
    server_step s s'
| server_close id guard :
    in_flight s !! id = Some (Streaming guard) → close id guard s = (Done (), s') → server_step s s'
| server_abandon id awaiting guard now :
    in_flight s !! id = Some (Waiting awaiting) → abandon id awaiting guard now s = (Done (), s') →
    server_step s s'.

(** *** The leases held *)

Definition stage_lease (stage : Stage) : BackendLease :=
  match stage with Waiting awaiting => sel_lease (selection awaiting) | Streaming guard => guard_lease guard end.

Definition stage_leases (o : option Stage) : list BackendLease :=
  match o with Some stage => [stage_lease stage] | None => [] end.

Definition held_by tasks : list BackendLease := (λ kv, stage_lease kv.2) <$> map_to_list tasks.

Lemma held_split tasks id : held_by tasks ≡ₚ stage_leases (tasks !! id) ++ held_by (delete id tasks).
Proof.
  unfold held_by. destruct (tasks !! id) as [stage|] eqn:E; simpl.
  - by rewrite <- (map_to_list_delete tasks id stage).
  - by rewrite delete_id.
Qed.

Lemma held_moved tasks id o :
  held_by (partial_alter (λ _, o) id tasks) ≡ₚ stage_leases o ++ held_by (delete id tasks).
Proof.
  rewrite (held_split _ id), lookup_partial_alter_eq.
  assert (delete id (partial_alter (λ _, o) id tasks) = delete id tasks) as ->; [|done].
  apply map_eq. intros i. destruct (decide (id = i)) as [<-|Hne]; [by rewrite !lookup_delete_eq|].
  by rewrite !lookup_delete_ne, lookup_partial_alter_ne.
Qed.

(** Gates and fences agree, and the slots count the leases of the requests in flight, one each. *)
Record server_inv s : Prop := {
  si_control : control_inv (server_control s);
  si_leases : accounted (c_routing (server_control s)) (held_by (in_flight s));
  si_keys : Forall (λ lease, is_Some (lease_key lease)) (held_by (in_flight s));
}.

(** What one request's step does to the leases and the gates. *)
Definition request_step s s' : Prop :=
  traffic (c_routing (server_control s)) (c_routing (server_control s'))
  ∧ state_store (server_control s') = state_store (server_control s)
  ∧ ∀ lease, lease ∈ held_by (in_flight s') →
      lease ∈ held_by (in_flight s) ∨ granted (c_routing (server_control s)) lease.

Lemma on_request_step {A} id (m : M AppState A) next s s' :
  hands_in (app_routing (Uri:=Uri)) (stage_leases (in_flight s !! id)) m (λ a, stage_leases (next a)) →
  on_request id m next s = (Done (), s') → server_inv s → server_inv s' ∧ request_step s s'.
Proof.
  intros Hm. unfold on_request. destruct (m (app_of s)) as [[a|] app] eqn:Hrun; [|done].
  intros [= <-] [Hinv Hacc Hkeys]. rewrite (held_split _ id) in Hacc.
  destruct (Hm _ (app_of s) _ _ (ci_runtime _ Hinv) Hacc Hrun) as (Hacc' & Ht & Hg).
  assert (∀ lease, lease ∈ held_by (partial_alter (λ _, next a) id (in_flight s)) →
    lease ∈ held_by (in_flight s) ∨ granted (c_routing (server_control s)) lease) as Hg'.
  { intros lease. rewrite held_moved, (held_split (in_flight s) id), !elem_of_app.
    intros [Hl%Hg|Hl]; naive_solver. }
  split; [split|split_and!]; simpl; try done.
  - by eapply (inv_traffic (server_control s)).
  - by rewrite held_moved.
  - rewrite Forall_forall in *. intros lease [Hl|[Hk _]]%Hg'; [by apply Hkeys|done].
Qed.

Lemma dispatch_step id parts now at_ clock s s' :
  in_flight s !! id = None → dispatch id parts now at_ clock s = (Done (), s') → server_inv s →
  server_inv s' ∧ request_step s s'.
Proof.
  intros Hid. apply on_request_step. rewrite Hid. simpl.
  intros rest x a x' Hwf Hacc Hrun.
  pose proof (hands_dispatch id parts now at_ clock rest x a x' Hwf Hacc Hrun) as H'. by destruct a.
Qed.

Lemma answer_step id awaiting answered now s s' :
  in_flight s !! id = Some (Waiting awaiting) → answer id awaiting answered now s = (Done (), s') → server_inv s →
  server_inv s' ∧ request_step s s'.
Proof.
  intros Hid. apply on_request_step. rewrite Hid. simpl. intros rest x a x' Hwf Hacc Hrun.
  pose proof (hands_answered id awaiting answered now rest x a x' Hwf Hacc Hrun) as H'.
  unfold response_lease, body_lease in H'. by destruct (rs_body a) as [|[guard|]].
Qed.

Lemma frame_step id guard polled ended now s s' :
  in_flight s !! id = Some (Streaming guard) → frame id guard polled ended now s = (Done (), s') → server_inv s →
  server_inv s' ∧ request_step s s'.
Proof.
  intros Hid. apply on_request_step. rewrite Hid. simpl. apply hands_on_routing.
  intros rest x a x' Hwf Hacc Hrun.
  pose proof (hands_poll_frame (Some guard) polled ended now rest x a x' Hwf Hacc Hrun) as H'.
  by destruct a.
Qed.

Lemma close_step id guard s s' :
  in_flight s !! id = Some (Streaming guard) → close id guard s = (Done (), s') → server_inv s →
  server_inv s' ∧ request_step s s'.
Proof.
  intros Hid. apply on_request_step. rewrite Hid. simpl. apply hands_on_routing.
  apply (hands_body_drop (Some guard)).
Qed.

Lemma abandon_step id awaiting guard now s s' :
  in_flight s !! id = Some (Waiting awaiting) → abandon id awaiting guard now s = (Done (), s') → server_inv s →
  server_inv s' ∧ request_step s s'.
Proof. intros Hid. apply on_request_step. rewrite Hid. simpl. apply hands_abandoned. Qed.

Lemma operator_inv s control :
  operator_step (server_control s) control → server_inv s → server_inv (with_control s control).
Proof.
  intros Hstep [Hinv Hacc Hkeys]. split; [by eapply operator_step_inv| |done].
  destruct (operator_held _ _ "" Hinv Hstep) as [Hl _]. intros id. specialize (Hl id).
  unfold control_leases, control_slots, control_runtime in Hl. unfold slots_of. simpl. rewrite Hl. apply Hacc.
Qed.

(** Every step keeps the invariant; one that is not the operator's is a request's. *)
Lemma server_step_inv s s' :
  server_step s s' → server_inv s →
  server_inv s' ∧ (request_step s s'
    ∨ in_flight s' = in_flight s ∧ operator_step (server_control s) (server_control s')).
Proof.
  intros Hstep Hinv. destruct Hstep as [control Hop ->|lg ks ->|id parts now at_ clock Hid Hrun
    |id aw an now Hid Hrun|id g p e now Hid Hrun|id g Hid Hrun|id aw g now Hid Hrun].
  - split; [by apply operator_inv|]. by right.
  - split; [by destruct Hinv; split|]. left. split; [reflexivity|]. split; [done|]. by left.
  - destruct (dispatch_step id parts now at_ clock s s' Hid Hrun Hinv). split; [done|by left].
  - destruct (answer_step id aw an now s s' Hid Hrun Hinv). split; [done|by left].
  - destruct (frame_step id g p e now s s' Hid Hrun Hinv). split; [done|by left].
  - destruct (close_step id g s s' Hid Hrun Hinv). split; [done|by left].
  - destruct (abandon_step id aw g now s s' Hid Hrun Hinv). split; [done|by left].
Qed.

Lemma server_inv_steps s s' : rtc server_step s s' → server_inv s → server_inv s'.
Proof. induction 1 as [|s1 s2 s3 Hstep _ IH]; [done|]. intros Hinv. by apply IH, (server_step_inv s1). Qed.

(** ** The leases are the requests *)

(** The requests at a backend. *)
Definition requests_at (id : string) tasks : gmap Uuid Stage :=
  filter (λ kv, lease_slot (stage_lease kv.2) = id) tasks.

Lemma held_insert k stage tasks :
  tasks !! k = None → held_by (<[k := stage]> tasks) ≡ₚ stage_lease stage :: held_by tasks.
Proof. intros Hk. unfold held_by. by rewrite map_to_list_insert by done. Qed.

Lemma held_keys_size id tasks :
  Forall (λ lease, is_Some (lease_key lease)) (held_by tasks) →
  length (lease_keys id (held_by tasks)) = size (requests_at id tasks).
Proof.
  unfold requests_at. induction tasks as [|k stage tasks Hk IH] using map_ind; [done|].
  rewrite (held_insert _ _ _ Hk), Forall_cons. intros [[key Hkey] Hl]. specialize (IH Hl).
  assert (filter (λ kv : Uuid * Stage, lease_slot (stage_lease kv.2) = id) tasks !! k = None) as Hk'
    by (apply map_lookup_filter_None; by left).
  unfold lease_keys in *. simpl. rewrite Hkey, map_filter_insert. simpl. case_decide; simpl.
  - rewrite map_size_insert_None by done. f_equal. exact IH.
  - rewrite map_filter_delete, delete_id by done. exact IH.
Qed.

(** C3: the leases of a gate are the requests in flight.  Whatever the operator, the drain tasks,
    reloads, the workers and any number of requests do, in any order, every request that waits
    for a backend or streams its body holds a lease which that backend's slot counts, and the
    slot counts nothing else: as many leases as there are such requests.  The in-flight number
    of a status report, which a drain waits to become zero, is that number. *)
Theorem leases_are_requests s s' :
  server_inv s → rtc server_step s s' →
  (∀ k stage, in_flight s' !! k = Some stage →
     ∃ slot key, control_slots (server_control s') !! lease_slot (stage_lease stage) = Some slot
       ∧ lease_key (stage_lease stage) = Some key ∧ key ∈ leases (state slot))
  ∧ (∀ id slot, control_slots (server_control s') !! id = Some slot →
       leases (state slot) ≡ₚ lease_keys id (held_by (in_flight s'))
       ∧ length (leases (state slot)) = size (requests_at id (in_flight s')))
  ∧ ∀ id now st control, control_status id now (server_control s') = (Done (Some st), control) →
      st_proxy_active st = N.of_nat (size (requests_at id (in_flight s'))).
Proof.
  intros Hinv Hr. pose proof (server_inv_steps _ _ Hr Hinv) as [Hc Hacc Hkeys].
  assert (∀ id slot, control_slots (server_control s') !! id = Some slot →
    leases (state slot) ≡ₚ lease_keys id (held_by (in_flight s'))) as Hl.
  { intros id slot Hs. specialize (Hacc id). unfold leases_before in Hacc.
    unfold control_slots, control_runtime in Hs. unfold slots_of in Hacc. by rewrite Hs in Hacc. }
  split_and!.
  - intros k stage Hk. rewrite (held_split _ k), Hk in Hkeys. simpl in Hkeys.
    apply Forall_cons in Hkeys as [[key Hkey] _]. pose proof (Hacc (lease_slot (stage_lease stage))) as Ha.
    rewrite (held_split _ k), Hk in Ha. simpl in Ha. unfold lease_keys, leases_before in Ha. simpl in Ha.
    rewrite decide_True, Hkey in Ha by done.
    unfold control_slots, control_runtime. unfold slots_of in Ha.
    destruct (registry _ !! _) as [slot|]; [|by apply Permutation_nil_cons in Ha].
    exists slot, key. split_and!; [done|done|]. rewrite Ha. left.
  - intros id slot Hs. split; [by apply Hl|]. rewrite (Hl id slot Hs). by apply held_keys_size.
  - intros id now st control Hst. apply control_status_done in Hst as [_ Hrep]; [|apply Hc].
    apply reports_gate in Hrep as (slot & Hs & _ & _ & ->). rewrite (Hl id slot Hs). by rewrite held_keys_size.
Qed.
End ServerState.

(** ** A stopped backend *)

Section Stopped.
Context {Uri HeaderMap : Type} `{UriOps Uri} `{HeaderOps HeaderMap} `{HeaderText}
  `{IntoResponse HeaderMap} `{JsonLaws StateFile}.
Implicit Types (s : ServerState (Uri:=Uri) (HeaderMap:=HeaderMap)).

Definition server_store s : BackendStateStore := state_store (server_control s).

(** Its fence stands in memory and in the file, its gate is closed, and no request is at it. *)
Definition stopped (id : string) s : Prop :=
  durable id (server_store s)
  ∧ (∀ slot, control_slots (server_control s) !! id = Some slot →
       mode (state slot) ≠ Active ∧ leases (state slot) = [])
  ∧ requests_at id (in_flight s) = ∅.

(** What keeps a backend stopped. *)
Definition fenced_empty (id : string) s : Prop :=
  durable id (server_store s) ∧ control_leases (server_control s) id = [].

Lemma fenced_shut id s slot :
  control_inv (server_control s) → durable id (server_store s) →
  control_slots (server_control s) !! id = Some slot → mode (state slot) ≠ Active.
Proof.
  intros Hinv [[m Hm] _] Hs. destruct (registered (state slot)) eqn:Hr.
  - pose proof (ci_fenced _ Hinv id slot Hs Hr) as Hf. unfold server_store in Hm. rewrite Hm in Hf.
    by destruct (mode (state slot)).
  - destruct (rw_registry _ (ci_runtime _ Hinv) id slot Hs) as [Hw _]. by apply (wf_retired _ Hw).
Qed.

Lemma fenced_empty_stopped id s : server_inv s → fenced_empty id s → stopped id s.
Proof.
  intros [Hc Hacc Hkeys] [Hf Hl]. split_and!; [done| |].
  - intros slot Hs. split; [by eapply fenced_shut|]. unfold control_leases, leases_before in Hl.
    by rewrite Hs in Hl.
  - apply map_size_empty_inv. rewrite <- held_keys_size by done. rewrite <- (Hacc id).
    change (leases_before (slots_of (c_routing (server_control s))) id) with (control_leases (server_control s) id).
    by rewrite Hl.
Qed.

(** A request's step sends none to it. *)
Lemma request_keeps_stopped id s s' :
  server_inv s → server_inv s' → request_step s s' → fenced_empty id s → fenced_empty id s'.
Proof.
  intros Hinv Hinv' (Ht & Hst & Hg) [Hf Hl].
  split; [unfold server_store in *; by rewrite Hst|].
  pose proof (fenced_empty_stopped id s Hinv (conj Hf Hl)) as (_ & Hgate & _).
  pose proof (si_leases _ Hinv id) as Ha. pose proof (si_leases _ Hinv' id) as Ha'.
  change (leases_before (slots_of (c_routing (server_control ?x))) id) with (control_leases (server_control x) id) in *.
  rewrite Hl in Ha. apply Permutation_nil in Ha. apply Permutation_nil. symmetry. rewrite Ha'.
  destruct (lease_keys id (held_by (in_flight s'))) as [|key keys] eqn:Ek; [done|exfalso].
  assert (key ∈ lease_keys id (held_by (in_flight s'))) as Hin by (rewrite Ek; left).
  apply list_elem_of_omap in Hin as (lease & Hin & Hkey). case_decide as Hid; [|done].
  apply Hg in Hin as [Hin|[_ Hacq]].
  - assert (key ∈ lease_keys id (held_by (in_flight s))) as Hold.
    { apply list_elem_of_omap. exists lease. split; [done|]. by rewrite decide_True. }
    rewrite Ha in Hold. by apply elem_of_nil in Hold.
  - unfold acquirable in Hacq. rewrite Hid in Hacq.
    destruct (slots_of (c_routing (server_control s)) !! id) as [slot|] eqn:Es; [|done].
    apply andb_true_iff in Hacq as [_ Hm%bool_decide_eq_true]. by destruct (Hgate slot Es).
Qed.

(** A step keeps it stopped, and its fence in the file at every moment of the step, unless it is the
    operator's request to activate it. *)
Lemma step_keeps_stopped id s s' :
  server_inv s → server_step s s' → fenced_empty id s →
  (fenced_empty id s' ∧ ∀ content, content_during (server_store s) (server_store s') content → fenced_in id content)
  ∨ asked id (server_control s) (server_control s').
Proof.
  intros Hinv Hstep Hs. destruct (server_step_inv s s' Hstep Hinv) as [Hinv' [Hreq|[_ Hop]]].
  - left. split; [by apply (request_keeps_stopped id s s')|]. intros content.
    destruct Hreq as (_ & Hst & _). unfold server_store. rewrite Hst.
    apply (writes_keep_content (λ i, i = id)); [done|apply writes_keep_refl|apply Hs].
  - destruct (operator_held _ _ id (si_control _ Hinv) Hop) as [Hl [Hk|Hask]]; [left|by right].
    destruct Hs as [Hd He]. split; [|by intros content; apply (writes_keep_content (λ i, i = id))].
    split; [by apply (writes_keep_durable (λ i, i = id) _ _ id eq_refl Hk)|]. by rewrite Hl.
Qed.
End Stopped.

(** ** A concrete server *)

Notation DemoSystem := (ServerState (Uri:=SimpleUri) (HeaderMap:=Entries)).

Definition demo_system : DemoSystem :=
  {| server_control := demo_control; server_logger := demo_log; server_keys := demo_keystore; in_flight := ∅ |}.

Lemma demo_idle_system (control : ControlState (Uri:=SimpleUri)) (logger : Logger (Uri:=SimpleUri)) keys :
  control_inv control →
  bool_decide (map_Forall (λ _ slot, leases (state slot) = []) (control_slots control)) = true →
  server_inv (HeaderMap:=Entries) {| server_control := control; server_logger := logger; server_keys := keys; in_flight := ∅ |}.
Proof.
  intros Hc Hall%bool_decide_eq_true. split; [exact Hc| |by apply Forall_nil].
  intros id. unfold leases_before, slots_of. simpl.
  destruct (registry (Routing.runtime (c_routing control)) !! id) as [slot|] eqn:E; [|done].
  by rewrite (Hall id slot E).
Qed.

Lemma demo_system_inv : server_inv demo_system.
Proof. apply demo_idle_system; [exact demo_control_inv|]. vm_compute. reflexivity. Qed.

(** One request on its way to a backend. *)
Definition demo_dispatch (s : DemoSystem) : outcome () * DemoSystem :=
  dispatch "req-1" (demo_request demo_bearer) 10 10 demo_clock s.

Lemma demo_dispatch_step (s : DemoSystem) :
  in_flight s !! "req-1" = None → match (demo_dispatch s).1 with Done _ => true | Panicked => false end = true →
  server_step s (demo_dispatch s).2.
Proof.
  intros Hs. destruct (demo_dispatch s) as [[[]|] s'] eqn:E; [|done]. intros _.
  eapply (server_dispatch s s' "req-1"); [exact Hs|exact E].
Qed.

Lemma leases_are_requests_witness :
  let s := (demo_dispatch demo_system).2 in
  rtc server_step demo_system s
  ∧ ∃ stage slot key, in_flight s !! "req-1" = Some stage
      ∧ control_slots (server_control s) !! lease_slot (stage_lease stage) = Some slot
      ∧ lease_key (stage_lease stage) = Some key ∧ key ∈ leases (state slot).
Proof.
  intros s. assert (rtc server_step demo_system s) as Hr.
  { apply rtc_once, demo_dispatch_step; [reflexivity|vm_compute; reflexivity]. }
  split; [exact Hr|].
  destruct (leases_are_requests demo_system s demo_system_inv Hr) as (H1 & _ & _).
  assert (match in_flight s !! "req-1" with Some _ => true | None => false end = true) as Hin
    by (vm_compute; reflexivity).
  destruct (in_flight s !! "req-1") as [stage|] eqn:E; [|discriminate Hin].
  destruct (H1 _ _ E) as (slot & key & Hs & Hk & Hl). exists stage, slot, key.
  split; [reflexivity|]. split; [exact Hs|]. split; [exact Hk|exact Hl].
Defined.
