(* ===== verification/Register.v ===== *)
(** * [src/src/register.rs]: the registration page

    The page and the form behind it.  The embedded HTML is a parameter, and so
    is what [axum] makes of the request's body; the key store and its file are
    those of [Auth.v]. *)

From S2P Require Import Prelude RustStd Runtime Disk Keys Auth Http.

(** src/src/register.rs:17-17 [BODY_LIMIT] *)
Definition BODY_LIMIT : N := 1024.
(** src/src/register.rs:20-20 [AVAILABILITY_PLACEHOLDER] *)
Definition AVAILABILITY_PLACEHOLDER : bytes := Eval cbv in bs "__REGISTRATION_AVAILABLE__".
(** src/src/register.rs:21-21 [UNAVAILABLE_MESSAGE] *)
Definition UNAVAILABLE_MESSAGE : string := "Key registration unavailable.".
(** src/src/register.rs:22-22 [DUPLICATE_NAME_MESSAGE] *)
Definition DUPLICATE_NAME_MESSAGE : string := "That name is already registered.".

(** src/src/register.rs:26-28 [RegistrationRequest] *)
Record RegistrationRequest := mkRegistrationRequest { reg_name : bytes }.

(** The body of an answer: the page, the new key, or the JSON error object. *)
Inductive RegisterBody :=
| PageBody (html : bytes)
| ApiKeyBody (api_key : bytes)
| ErrorBody (message error_type code : string) (param : option string).

(** [str::replacen(pattern, text, 1)], for a pattern that is not empty. *)
Fixpoint replace_first (pattern text s : bytes) : bytes :=
  match strip_prefix pattern s with
  | Some rest => text ++ rest
  | None => match s with
            | x :: s => x :: replace_first pattern text s
            | [] => []
            end
  end.

Section Register.
Context {HeaderMap : Type} `{HeaderOps HeaderMap} `{IntoResponse HeaderMap}.
Local Notation Response := (Response HeaderMap RegisterBody).

(** src/src/register.rs, lines 124-146 of [secure_response]: the headers of every answer *)
Definition SECURITY_HEADERS : list (string * string) :=
  [("cache-control", "no-store, max-age=0");
   ("pragma", "no-cache");
   ("referrer-policy", "no-referrer");
   ("content-security-policy",
    "default-src 'none'; style-src 'unsafe-inline'; script-src 'unsafe-inline'; connect-src 'self'; base-uri 'none'; form-action 'self'; frame-ancestors 'none'");
   ("x-content-type-options", "nosniff");
   ("x-frame-options", "DENY");
   ("permissions-policy", "clipboard-write=(self)")].

(** src/src/register.rs:122-149 [secure_response] *)
Definition secure_response (response : Response) : Response :=
  {| rs_status := rs_status response;
     rs_headers := foldl (λ headers '(name, value), insert_header name (bs value) headers)
                     (rs_headers response) SECURITY_HEADERS;
     rs_body := rs_body response |}.

(** src/src/register.rs:105-120 [unavailable] *)
Definition unavailable (status : N) : Response :=
  secure_response
    {| rs_status := status; rs_headers := json_headers;
       rs_body := ErrorBody UNAVAILABLE_MESSAGE "api_error" "registration_unavailable" None |}.

(** src/src/register.rs:82-97 [duplicate_name] *)
Definition duplicate_name : Response :=
  secure_response
    {| rs_status := 409; rs_headers := json_headers;
       rs_body := ErrorBody DUPLICATE_NAME_MESSAGE "invalid_request_error"
                    "name_already_registered" (Some "name") |}.

(** src/src/register.rs:99-103 [is_cross_site] *)
Definition is_cross_site (headers : HeaderMap) : bool :=
  match get_header "sec-fetch-site" headers with
  | Some value => eq_ignore_ascii_case value (bs "cross-site")
  | None => false
  end.

(** src/src/register.rs:30-40 [page] *)
Definition page (PAGE : bytes) (registration : RegistrationConfig) (keys : KeyStore) : Response :=
  let available := reg_enabled registration && can_register keys (max_keys registration) in
  let page := replace_first AVAILABILITY_PLACEHOLDER (bs (if available then "true" else "false")) PAGE in
  secure_response {| rs_status := 200; rs_headers := html_headers; rs_body := PageBody page |}.

(** src/src/register.rs:42-80 [create]; [payload] is the form or the status of its rejection *)
Definition create `{KeyCrypto} `{JsonOps KeyFile} (registration : RegistrationConfig)
    (headers : HeaderMap) (payload : result N RegistrationRequest) (draws : Draws)
    (faults : Faults) (join_error : string) (now_unix_ms : N) : M KeyStore Response :=
  keys ← get_state;
  if is_cross_site headers || negb (reg_enabled registration)
     || negb (can_register keys (max_keys registration))
  then mret (unavailable 503) else
  match payload with
  | Err status => mret (unavailable status)
  | Ok payload =>
      created ← create_non_admin (reg_name payload) (max_keys registration) draws faults join_error
                  now_unix_ms;
      mret (match created with
            | Ok api_key =>
                secure_response {| rs_status := 201; rs_headers := json_headers;
                                   rs_body := ApiKeyBody api_key |}
            | Err (InvalidName _) => unavailable 400
            | Err DuplicateName => duplicate_name
            | Err (LimitReached | Unavailable _) => unavailable 503
            end)
  end.
End Register.

(** ** What an answer gives away *)

Section Answers.
Context {HeaderMap : Type} `{HeaderLaws HeaderMap} `{IntoResponse HeaderMap}.
Local Notation Response := (Response HeaderMap RegisterBody).

(** The headers that keep an answer out of caches and out of frames, and its text from being guessed or
    passed on. *)
Definition guarded (headers : HeaderMap) : Prop :=
  get_all "cache-control" headers = [bs "no-store, max-age=0"]
  ∧ get_all "pragma" headers = [bs "no-cache"]
  ∧ get_all "x-frame-options" headers = [bs "DENY"]
  ∧ (∃ policy, get_all "content-security-policy" headers
               = [bs "default-src 'none'; " ++ policy ++ bs "; frame-ancestors 'none'"])
  ∧ get_all "x-content-type-options" headers = [bs "nosniff"]
  ∧ get_all "referrer-policy" headers = [bs "no-referrer"].

Lemma secured (response : Response) : guarded (rs_headers (secure_response response)).
Proof.
  unfold guarded. cbn [secure_response rs_headers foldl SECURITY_HEADERS]. rewrite !get_all_insert.
  repeat (rewrite decide_False by done || rewrite decide_True by done). split_and!; try done.
  eexists (bs "style-src 'unsafe-inline'; script-src 'unsafe-inline'; connect-src 'self'; base-uri 'none'; form-action 'self'").
  reflexivity.
Qed.

(** C23: registration over HTTP.  Every answer, whatever it is, forbids caching and framing, sniffing and
    referrers.  A key is handed out only when registration is enabled, the request is not cross-site and
    its form is well formed; then the key is on file, published and accepted ([registered]).  Every
    other answer leaves the published keys and the file as they were and says nothing of why: it is
    the one fixed object, with status 503, or 400 for a name that may not be used, or that of the
    rejected form; except that a name already in the file is named as such, with status 409. *)
Theorem register_spec `{KeyCryptoLaws} `{JsonLaws KeyFile} registration (headers : HeaderMap)
    (payload : result N RegistrationRequest) (draws : Draws) (faults : Faults)
    (join_error : string) (now : N) (s : KeyStore) :
  ∃ response s', create registration headers payload draws faults join_error now s
                 = (Done response, s')
    ∧ guarded (rs_headers response)
    ∧ match rs_body response with
      | ApiKeyBody api_key => ∃ form path,
          rs_status response = 201%N ∧ payload = Ok form
          ∧ reg_enabled registration = true ∧ is_cross_site headers = false
          ∧ writer s = Some path
          ∧ registered path (trim (reg_name form)) (max_keys registration) s s' api_key
      | ErrorBody message error_type code param =>
          index s' = index s ∧ target (key_disk s') = target (key_disk s)
          ∧ ((message, error_type, code, param)
             = ("Key registration unavailable.", "api_error", "registration_unavailable", None)%string
             ∧ (rs_status response = 503%N ∨ payload = Err (rs_status response)
                ∨ rs_status response = 400%N ∧ ∃ form, payload = Ok form ∧ ¬ good_name (reg_name form))
             ∨ (message, error_type, code, param)
               = ("That name is already registered.", "invalid_request_error", "name_already_registered",
                  Some "name")%string
             ∧ rs_status response = 409%N
             ∧ ∃ form path file, payload = Ok form ∧ writer s = Some path
                 ∧ load path (read_target (key_disk s)) = Ok file
                 ∧ str (trim (reg_name form)) ∈ name <$> keys file)
      | PageBody _ => False
      end.
Proof.
  unfold create. cbv [mbind M_mbind get_state]. cbn beta iota.
  destruct (is_cross_site headers) eqn:Ex, (reg_enabled registration) eqn:Ee,
    (can_register s (max_keys registration)); cbn [orb negb];
    try (eexists _, _; split; [reflexivity|]; split; [apply secured|];
         cbn; split_and!; [done|done|by left; split; [|left]]).
  destruct payload as [form|status];
    [|eexists _, _; split; [reflexivity|]; split; [apply secured|];
      cbn; split_and!; [done|done|by left; split; [|right; left]]].
  destruct (create_run (reg_name form) (max_keys registration) draws faults join_error now s)
    as (r & s' & Hrun & Hw & Hr).
  rewrite Hrun. eexists _, s'. split; [reflexivity|].
  destruct r as [api_key|e].
  - split; [apply secured|]. destruct Hr as (path & Hp & _ & Hreg). exists form, path. by split_and!.
  - destruct Hr as (Hi & Ht & Href).
    split; [destruct e; apply secured|]. destruct e as [reason| | |source]; cbn; (split; [done|split; [done|]]).
    + left. split; [done|]. right. right. split; [done|]. by exists form.
    + right. destruct Href as (path & file & Hp & Hl & Hn). split_and!; [done|done|]. by exists form, path, file.
    + left. by split; [|left].
    + left. by split; [|left].
Qed.
End Answers.

(** ** A concrete registration *)

Definition demo_registration : RegistrationConfig := {| reg_enabled := true; max_keys := Some 3%N |}.

Lemma register_spec_witness :
  ∃ api_key s', create (HeaderMap:=Entries) demo_registration [] (Ok (mkRegistrationRequest (bs " carol ")))
      (mkDraws (demo_draw "e") (demo_draw "f")) no_faults "" 8 demo_keystore
    = (Done (secure_response {| rs_status := 201; rs_headers := json_headers;
                                rs_body := ApiKeyBody api_key |}), s')
    ∧ registered "keys.json" (trim (bs " carol ")) (Some 3%N) demo_keystore s' api_key.
Proof.
  destruct (register_spec (HeaderMap:=Entries) demo_registration [] (Ok (mkRegistrationRequest (bs " carol ")))
    (mkDraws (demo_draw "e") (demo_draw "f")) no_faults "" 8 demo_keystore)
    as (response & s' & Hrun & _ & Hr).
  assert (∃ api_key, response = secure_response {| rs_status := 201; rs_headers := json_headers;
    rs_body := ApiKeyBody api_key |}) as [api_key ->].
  { apply (f_equal fst) in Hrun. vm_compute in Hrun. injection Hrun as <-. eexists. vm_compute. reflexivity. }
  exists api_key, s'. split; [exact Hrun|].
  destruct Hr as (form & path & _ & Hf & _ & _ & Hw & Hreg). injection Hf as <-. injection Hw as <-. exact Hreg.
Defined.
