(* ===== verification/Logs.v ===== *)
(** * [src/src/logs.rs]: reading the audit log

    Records as they are read back, the filter, and [Tail], which follows the
    file another process appends to.  A file is its inode and its bytes; what
    each system call of a poll returns is a parameter.  [serde_json] is a
    parameter: what it makes of a line. *)

From S2P Require Import Prelude RustStd Float64 Disk.

(** src/src/logs.rs:24-24 [UNATTRIBUTED] *)
Definition UNATTRIBUTED : string := "(unattributed)".

(** src/src/logs.rs:32-78 [LogRecord] *)
Record LogRecord := mkLogRecord {
  l_request_id : string;
  l_started_at : string;
  l_started_at_unix_ms : N;
  l_finished_at_unix_ms : N;
  l_duration_ms : N;
  l_time_to_first_byte_ms : option N;
  l_client_ip : string;
  l_client_port : N;
  l_host : option string;
  l_user_agent : option string;
  l_method : string;
  l_uri : string;
  l_http_version : string;
  l_request_content_length : option N;
  l_authorized : bool;
  l_auth_error : option string;
  l_key_name : option string;
  l_key_identifier : option string;
  l_key_sha256 : option string;
  l_key_admin : option bool;
  l_openwebui_user_name : option string;
  l_openwebui_user_id : option string;
  l_openwebui_chat_id : option string;
  l_backend_id : option string;
  l_routing_policy : option string;
  l_routing_reason : option string;
  l_eligible_backend_count : option N;
  l_backend_pressure_at_dispatch : option f64;
  l_backend_running_at_dispatch : option N;
  l_backend_waiting_at_dispatch : option N;
  l_backend_capacity_at_dispatch : option N;
  l_backend_kv_pressure_at_dispatch : option f64;
  l_backend_metrics_age_ms : option N;
  l_backend_proxy_active_at_dispatch : option N;
  l_proxy_queue_ms : option N;
  l_status : option N;
  l_streaming : bool;
  l_response_bytes : N;
  l_input_tokens : option N;
  l_output_tokens : option N;
  l_total_tokens : option N;
  l_cached_tokens : option N;
  l_complete : bool;
  l_termination : string;
  l_error : option string;
}.

(** [LogRecord::default()]. *)
Definition LogRecord_default : LogRecord :=
  {| l_request_id := EmptyString;
     l_started_at := EmptyString;
     l_started_at_unix_ms := 0%N;
     l_finished_at_unix_ms := 0%N;
     l_duration_ms := 0%N;
     l_time_to_first_byte_ms := None;
     l_client_ip := EmptyString;
     l_client_port := 0%N;
     l_host := None;
     l_user_agent := None;
     l_method := EmptyString;
     l_uri := EmptyString;
     l_http_version := EmptyString;
     l_request_content_length := None;
     l_authorized := false;
     l_auth_error := None;
     l_key_name := None;
     l_key_identifier := None;
     l_key_sha256 := None;
     l_key_admin := None;
     l_openwebui_user_name := None;
     l_openwebui_user_id := None;
     l_openwebui_chat_id := None;
     l_backend_id := None;
     l_routing_policy := None;
     l_routing_reason := None;
     l_eligible_backend_count := None;
     l_backend_pressure_at_dispatch := None;
     l_backend_running_at_dispatch := None;
     l_backend_waiting_at_dispatch := None;
     l_backend_capacity_at_dispatch := None;
     l_backend_kv_pressure_at_dispatch := None;
     l_backend_metrics_age_ms := None;
     l_backend_proxy_active_at_dispatch := None;
     l_proxy_queue_ms := None;
     l_status := None;
     l_streaming := false;
     l_response_bytes := 0%N;
     l_input_tokens := None;
     l_output_tokens := None;
     l_total_tokens := None;
     l_cached_tokens := None;
     l_complete := false;
     l_termination := EmptyString;
     l_error := None |}.

(** src/src/logs.rs:97-101 [LogRecord::openwebui_user] *)
Definition openwebui_user (self : LogRecord) : option string :=
  match l_openwebui_user_name self with
  | Some name => Some name
  | None => l_openwebui_user_id self
  end.

(** src/src/logs.rs:83-94 [LogRecord::principal]; the slice of the digest may panic *)
Definition principal (self : LogRecord) : outcome string :=
  let with_user key :=
    Done (match openwebui_user self with Some user => key +:+ ":" +:+ user | None => key end) in
  match l_key_name self, l_key_identifier self, l_key_sha256 self with
  | Some name, Some identifier, _ => with_user (name +:+ "[" +:+ identifier +:+ "]")
  | Some name, None, _ => with_user name
  | None, _, Some digest =>
      match split_at (Nat.min 8 (length (bs digest))) (bs digest) with
      | Done (head, _) => with_user ("unknown[" +:+ str head +:+ "]")
      | Panicked => Panicked
      end
  | None, _, None => with_user "anonymous"
  end.

(** src/src/logs.rs:115-117 [LogRecord::key_bucket] *)
Definition key_bucket (self : LogRecord) : string := default "(unauthenticated)" (l_key_name self).

(** src/src/logs.rs:105-112 [LogRecord::principal_bucket] *)
Definition principal_bucket (self : LogRecord) (openwebui_keys : gset string) : string :=
  let key := key_bucket self in
  match openwebui_user self with
  | Some user => key +:+ ":" +:+ user
  | None => if bool_decide (key ∈ openwebui_keys) then key +:+ ":" +:+ UNATTRIBUTED else key
  end.

(** src/src/logs.rs:120-125 [LogRecord::path] *)
Definition record_path (self : LogRecord) : string :=
  str (span (λ x, negb (Ascii.eqb x "?")) (bs (l_uri self))).1.

(** src/src/logs.rs:127-129 [LogRecord::is_error] *)
Definition is_error (self : LogRecord) : bool :=
  negb (l_complete self) || match l_status self with Some status => (400 <=? status)%N | None => true end.

(** [str::contains] for a string. *)
Fixpoint contains (needle s : bytes) : bool :=
  starts_with needle s || match s with x :: s => contains needle s | [] => false end.

(** src/src/logs.rs, lines 133-147 of [LogRecord::matches]: the fields a text filter searches *)
Definition searched_fields (self : LogRecord) : list string :=
  [l_request_id self; l_method self; l_uri self; l_client_ip self; l_termination self;
   default EmptyString (l_key_name self); default EmptyString (l_key_identifier self);
   default EmptyString (l_openwebui_user_name self); default EmptyString (l_openwebui_user_id self);
   default EmptyString (l_auth_error self); default EmptyString (l_backend_id self);
   default EmptyString (l_routing_reason self); l_started_at self].

(** src/src/logs.rs:132-157 [LogRecord::matches] *)
Definition record_matches (self : LogRecord) (needle : bytes) : bool :=
  if existsb (λ field, contains needle (to_ascii_lowercase <$> bs field)) (searched_fields self)
  then true
  else match l_status self with
       | Some status => contains needle (show_N status)
       | None => false
       end.

(** src/src/logs.rs:630-638 [filter] *)
Definition filter_records (records : list LogRecord) (needle : bytes) (errors_only : bool) :
    list LogRecord :=
  let needle := to_ascii_lowercase <$> trim needle in
  keep (λ record, bool_decide (needle = []) || record_matches record needle)
    (keep (λ record, negb errors_only || is_error record) records).

(** ** Following the file *)

(** What is at the log's path, and the bytes of each file. *)
Record Files := mkFiles {
  at_path : option N;
  content : N → bytes;
}.

(** An open file: which one, and the cursor. *)
Record Handle := mkHandle { inode : N; cursor : N }.

(** src/src/logs.rs:161-169 [Tail]; the path is the model's own *)
Record Tail := mkTail {
  t_file : option Handle;
  offset : N;
  partial : bytes;
  malformed : N;
}.

(** src/src/logs.rs:172-177 [Appended] *)
Record Appended := mkAppended {
  records : list LogRecord;
  restarted : bool;
}.

(** src/src/logs.rs:180-188 [Tail::new] *)
Definition Tail_new : Tail := {| t_file := None; offset := 0; partial := []; malformed := 0 |}.

(** What fails in a poll: a call and its error; a read may fail after some bytes. *)
Record PollFaults := mkPollFaults {
  on_stat : option IoError;
  on_fstat : option IoError;
  on_open : option IoError;
  on_len : option IoError;
  on_seek : option IoError;
  on_read : option (N * IoError);
}.

Definition no_poll_faults : PollFaults :=
  {| on_stat := None; on_fstat := None; on_open := None; on_len := None;
     on_seek := None; on_read := None |}.

(** [fs::metadata(path)] and [File::open(path)]. *)
Definition lookup_path (failing : option IoError) (files : Files) : result IoError N :=
  match failing, at_path files with
  | Some error, _ => Err error
  | None, Some inode => Ok inode
  | None, None => Err {| kind := NotFound; io_message := "no such file or directory" |}
  end.

(** The lines a newline ends, and what follows the last. *)
Fixpoint split_lines (s : bytes) : list bytes * bytes :=
  match s with
  | [] => ([], [])
  | x :: s =>
      let '(lines, rest) := split_lines s in
      if Ascii.eqb x LF then ([] :: lines, rest)
      else match lines with
           | line :: lines => ((x :: line) :: lines, rest)
           | [] => ([], x :: rest)
           end
  end.

Section Tail.
Context (from_slice : bytes → option LogRecord) (files : Files) (faults : PollFaults).

(** A file just opened. *)
Definition reopen (inode : N) : M Tail () :=
  modify (λ t, t <| t_file := Some {| inode := inode; cursor := 0 |} |> <| offset := 0%N |>
                 <| partial := [] |>).

(** src/src/logs.rs, lines 196-213 of [Tail::poll]: the file at the path may be another one by now *)
Definition check_rotation : M Tail (result IoError bool) :=
  t ← get_state;
  match t_file t with
  | None => mret (Ok false)
  | Some open =>
      match lookup_path (on_stat faults) files with
      | Ok at_path =>
          match on_fstat faults with
          | Some error => mret (Err error)
          | None =>
              if (at_path =? inode open)%N then mret (Ok false) else
              match lookup_path (on_open faults) files with
              | Err error => mret (Err error)
              | Ok inode => _ ← reopen inode; mret (Ok true)
              end
          end
      | Err error => mret (if bool_decide (kind error = NotFound) then Ok false else Err error)
      end
  end.

(** src/src/logs.rs, lines 214-229 of [Tail::poll]: open it the first time; [None] when it is not there yet *)
Definition open_first : M Tail (result IoError (option Handle)) :=
  t ← get_state;
  match t_file t with
  | Some open => mret (Ok (Some open))
  | None =>
      match lookup_path (on_open faults) files with
      | Ok inode => _ ← reopen inode; mret (Ok (Some {| inode := inode; cursor := 0 |}))
      | Err error => mret (if bool_decide (kind error = NotFound) then Ok None else Err error)
      end
  end.

(** src/src/logs.rs, lines 234-239 of [Tail::poll]: a file shorter than what was read is read again *)
Definition check_truncation (open : Handle) : M Tail (result IoError (Handle * bool)) :=
  t ← get_state;
  match on_len faults with
  | Some error => mret (Err error)
  | None =>
      if negb (N.of_nat (length (content files (inode open))) <? offset t)%N
      then mret (Ok (open, false)) else
      match on_seek faults with
      | Some error => mret (Err error)
      | None =>
          let open := {| inode := inode open; cursor := 0 |} in
          _ ← modify (λ t, t <| t_file := Some open |> <| offset := 0%N |> <| partial := [] |>);
          mret (Ok (open, true))
      end
  end.

(** src/src/logs.rs, lines 241-244 of [Tail::poll]: read to the end; a read that fails has moved the cursor and
    drops what it had read *)
Definition read_more (open : Handle) : M Tail (result IoError ()) :=
  let rest := drop (N.to_nat (cursor open)) (content files (inode open)) in
  match on_read faults with
  | Some (n, error) =>
      _ ← modify (λ t, t <| t_file := Some {| inode := inode open;
            cursor := (cursor open + N.min n (N.of_nat (length rest)))%N |} |>);
      mret (Err error)
  | None =>
      _ ← modify (λ t, t
            <| t_file := Some {| inode := inode open;
                                 cursor := (cursor open + N.of_nat (length rest))%N |} |>
            <| offset := saturating_add U64_MAX (offset t) (N.of_nat (length rest)) |>
            <| partial := partial t ++ rest |>);
      mret (Ok ())
  end.

(** src/src/logs.rs, lines 252-260 of [Tail::poll]: one line *)
Definition read_line (line : bytes) : M Tail (list LogRecord) :=
  if forallb is_ascii_whitespace line then mret [] else
  match from_slice line with
  | Some record => mret [record]
  | None =>
      _ ← modify (λ t, t <| malformed := saturating_add U64_MAX (malformed t) 1 |>);
      mret []
  end.

Fixpoint read_lines (lines : list bytes) : M Tail (list LogRecord) :=
  match lines with
  | [] => mret []
  | line :: lines =>
      record ← read_line line;
      records ← read_lines lines;
      mret (record ++ records)
  end.

(** src/src/logs.rs, lines 241-262 of [Tail::poll]: read to the end, and parse the complete lines *)
Definition read_appended (open : Handle) : M Tail (result IoError (list LogRecord)) :=
  _ ←? read_more open;
  t ← get_state;
  let '(lines, rest) := split_lines (partial t) in
  records ← read_lines lines;
  _ ← modify (λ t, t <| partial := rest |>);
  mret (Ok records).

(** src/src/logs.rs:194-265 [Tail::poll] *)
Definition poll : M Tail (result IoError Appended) :=
  reopened ←? check_rotation;
  opened ←? open_first;
  match opened with
  | None => mret (Ok {| records := []; restarted := false |})
  | Some open =>
      checked ←? check_truncation open;
      let '(open, truncated) := checked in
      records ←? read_appended open;
      mret (Ok {| records := records; restarted := reopened || truncated |})
  end.
End Tail.

(** ** Reading in pieces *)

Lemma split_lines_app a b :
  split_lines (a ++ b)
  = ((split_lines a).1 ++ (split_lines ((split_lines a).2 ++ b)).1,
     (split_lines ((split_lines a).2 ++ b)).2).
Proof.
  induction a as [|x a IH]; cbn [app split_lines].
  { cbn [fst snd app]. by destruct (split_lines b). }
  rewrite IH. destruct (split_lines a) as [la ra]. cbn [fst snd].
  destruct (Ascii.eqb x LF) eqn:Ex; cbn [fst snd app]; [done|].
  destruct la as [|line la]; cbn [fst snd app split_lines]; [|done].
  destruct (split_lines (ra ++ b)) as [lb rb]. cbn [fst snd]. rewrite Ex. by destruct lb.
Qed.

Section Following.
Context (from_slice : bytes → option LogRecord).

Definition nonblank (line : bytes) : bool := negb (forallb is_ascii_whitespace line).

(** The records of the complete lines of a text, and how many of them are not records. *)
Definition records_in (s : bytes) : list LogRecord :=
  omap from_slice (keep nonblank (split_lines s).1).

Definition unreadable (lines : list bytes) : N :=
  N.of_nat (length (keep (λ line, nonblank line && negb (bool_decide (is_Some (from_slice line)))) lines)).

Lemma saturating_add_add max a b c :
  saturating_add max (saturating_add max a b) c = saturating_add max a (b + c).
Proof. unfold saturating_add. lia. Qed.

Lemma read_lines_run lines t :
  (malformed t ≤ U64_MAX)%N →
  read_lines from_slice lines t
  = (Done (omap from_slice (keep nonblank lines)),
     t <| malformed := saturating_add U64_MAX (malformed t) (unreadable lines) |>).
Proof.
  revert t. induction lines as [|line lines IH]; intros t Ht; cbn [read_lines].
  { unfold unreadable. cbn. destruct t as [f o p m]. unfold saturating_add, constant. cbn in *.
    rewrite N.add_0_r, N.min_r by done. done. }
  cbv [mbind M_mbind]. unfold read_line, unreadable, nonblank. cbn [List.filter].
  destruct (forallb is_ascii_whitespace line); cbn [negb andb].
  { cbv [mret M_mret]. rewrite IH by done. done. }
  destruct (from_slice line) as [r|] eqn:Er; cbn [omap list_omap].
  - cbv [mret M_mret]. rewrite IH by done. rewrite bool_decide_true by by eexists. cbn [negb]. rewrite Er. done.
  - cbv [mbind M_mbind modify mret M_mret]. rewrite IH by (cbn; apply saturating_add_le).
    rewrite bool_decide_false by by intros [? ?]. cbn [negb length]. rewrite Er. cbn [app].
    f_equal. destruct t as [f o p m]. unfold constant. cbn. rewrite saturating_add_add.
    by rewrite Nat2N.inj_succ, <- N.add_1_l.
Qed.

(** The tail has read [s] of the file [i] and no more. *)
Definition reads (t : Tail) (i : N) (s : bytes) : Prop :=
  t_file t = Some {| inode := i; cursor := N.of_nat (length s) |}
  ∧ offset t = N.of_nat (length s) ∧ partial t = (split_lines s).2
  ∧ (malformed t ≤ U64_MAX)%N.

(** What follows the opening of the file: reading what is after the cursor. *)
Lemma read_run files faults (t : Tail) i n :
  on_read faults = None → (malformed t ≤ U64_MAX)%N →
  ∃ t', read_appended from_slice files faults {| inode := i; cursor := N.of_nat n |} t
        = (Done (Ok (E:=IoError) (records_in (partial t ++ drop n (content files i)))), t')
    ∧ t_file t' = Some {| inode := i; cursor := N.of_nat (n + length (drop n (content files i))) |}
    ∧ offset t' = saturating_add U64_MAX (offset t) (N.of_nat (length (drop n (content files i))))
    ∧ partial t' = (split_lines (partial t ++ drop n (content files i))).2
    ∧ (malformed t' ≤ U64_MAX)%N
    ∧ malformed t' = saturating_add U64_MAX (malformed t)
                       (unreadable (split_lines (partial t ++ drop n (content files i))).1).
Proof.
  intros Hr Hm. unfold read_appended, read_more, try_bind. rewrite Hr. cbv [mbind M_mbind get_state modify mret M_mret].
  cbn [cursor inode]. rewrite Nat2N.id. set (rest := drop n (content files i)).
  match goal with |- context [split_lines (partial ?x)] =>
    set (t1 := x); change (partial t1) with (partial t ++ rest) end.
  unfold records_in. destruct (split_lines (partial t ++ rest)) as [lines tail].
  rewrite read_lines_run by done. eexists. split; [reflexivity|]. subst t1. unfold constant. cbn.
  rewrite Nat2N.inj_add. split_and!; [done..| |done]. apply saturating_add_le.
Qed.

(** More of the file: the records of the new complete lines, none of which was complete before. *)
Lemma records_grow (s more : bytes) :
  records_in (s ++ more) = records_in s ++ records_in ((split_lines s).2 ++ more)
  ∧ (split_lines (s ++ more)).2 = (split_lines ((split_lines s).2 ++ more)).2.
Proof.
  unfold records_in. rewrite split_lines_app. cbn [fst snd]. split; [|done].
  by rewrite List.filter_app, omap_app.
Qed.

Lemma read_reads files faults (t : Tail) i (s more : bytes) :
  on_read faults = None → reads t i s → content files i = s ++ more →
  (N.of_nat (length (s ++ more)) ≤ U64_MAX)%N →
  ∃ t', read_appended from_slice files faults {| inode := i; cursor := N.of_nat (length s) |} t
        = (Done (Ok (E:=IoError) (records_in ((split_lines s).2 ++ more))), t')
    ∧ reads t' i (s ++ more).
Proof.
  intros Hr (Hf & Ho & Hp & Hm) Hc Hl.
  destruct (read_run files faults t i (length s) Hr Hm) as (t' & Hrun & Hf' & Ho' & Hp' & Hm' & _).
  rewrite Hc, drop_app_length in *. rewrite Hp in *. exists t'. split; [done|].
  rewrite length_app in Hl. unfold reads. rewrite length_app. split_and!; [done| | |done].
  - rewrite Ho', Ho. unfold saturating_add. lia.
  - rewrite Hp'. symmetry. apply records_grow.
Qed.

(** ** Polls of a healthy system *)

(** What a caller holds after a poll: a restart discards what it held. *)
Definition held_after (held : list LogRecord) (appended : Appended) : list LogRecord :=
  if restarted appended then records appended else held ++ records appended.

(** What the tail has read so far: nothing yet, or some of a file. *)
Definition tail_at (t : Tail) (seen : option (N * bytes)) : Prop :=
  match seen with
  | None => t_file t = None ∧ (malformed t ≤ U64_MAX)%N
  | Some (i, s) => reads t i s
  end.

(** The next look at the path: the file is not there yet; or it is the same file, longer or
    shorter, or another one. *)
Definition next_look (seen : option (N * bytes)) (files : Files) : Prop :=
  match at_path files, seen with
  | None, _ => seen = None
  | Some i, None => (N.of_nat (length (content files i)) ≤ U64_MAX)%N
  | Some i, Some (i', s) =>
      (N.of_nat (length (content files i)) ≤ U64_MAX)%N
      ∧ (i ≠ i' ∨ (∃ more, content files i = s ++ more) ∨ length (content files i) < length s)
  end.

Definition seen_after (files : Files) : option (N * bytes) :=
  (λ i, (i, content files i)) <$> at_path files.

Definition records_seen (seen : option (N * bytes)) : list LogRecord :=
  match seen with Some (_, s) => records_in s | None => [] end.

Lemma reopened_reads (t : Tail) i :
  (malformed t ≤ U64_MAX)%N →
  reads (t <| t_file := Some {| inode := i; cursor := 0 |} |> <| offset := 0%N |> <| partial := [] |>) i [].
Proof. intros Hm. by split_and!. Qed.

(** A poll of a file that is open and at the path. *)
Lemma poll_open files (t : Tail) i n reopened t0 t1 :
  check_rotation files no_poll_faults t = (Done (Ok reopened), t0) →
  open_first files no_poll_faults t0 = (Done (Ok (Some {| inode := i; cursor := n |})), t1) →
  poll from_slice files no_poll_faults t
  = (checked ←? check_truncation files no_poll_faults {| inode := i; cursor := n |};
     let '(open, truncated) := checked in
     records ←? read_appended from_slice files no_poll_faults open;
     mret (Ok {| records := records; restarted := reopened || truncated |})) t1.
Proof.
  intros Hc Ho. unfold poll, try_bind. cbv [mbind M_mbind]. rewrite Hc. cbv [mbind M_mbind]. by rewrite Ho.
Qed.

Lemma poll_read files (t t1 : Tail) i s more (reopened : bool) :
  poll from_slice files no_poll_faults t
  = (checked ←? check_truncation files no_poll_faults {| inode := i; cursor := N.of_nat (length s) |};
     let '(open, truncated) := checked in
     records ←? read_appended from_slice files no_poll_faults open;
     mret (Ok {| records := records; restarted := reopened || truncated |})) t1 →
  reads t1 i s → content files i = s ++ more → (N.of_nat (length (content files i)) ≤ U64_MAX)%N →
  ∃ t', poll from_slice files no_poll_faults t
        = (Done (Ok {| records := records_in ((split_lines s).2 ++ more); restarted := reopened |}), t')
    ∧ reads t' i (content files i).
Proof.
  intros -> Hr Hc Hl. pose proof Hr as (Hf & Ho & Hp & Hm).
  assert (negb (N.of_nat (length (content files i)) <? offset t1)%N = true) as Hlt.
  { apply negb_true_iff, N.ltb_ge. rewrite Ho, Hc, length_app. lia. }
  rewrite Hc in Hl. destruct (read_reads files no_poll_faults t1 i s more eq_refl Hr Hc Hl) as (t' & Hrun & Hr').
  exists t'. rewrite Hc. split; [|done]. unfold check_truncation, try_bind.
  cbv [mbind M_mbind get_state]. cbn [on_len no_poll_faults inode]. rewrite Hlt. cbv [mret M_mret].
  rewrite Hrun. by rewrite orb_false_r.
Qed.

(** The first poll of a file. *)
Lemma first_poll files i :
  at_path files = Some i →
  ∃ t', poll from_slice files no_poll_faults Tail_new
        = (Done (Ok {| records := records_in (content files i); restarted := false |}), t')
    ∧ malformed t' = N.min U64_MAX (unreadable (split_lines (content files i)).1).
Proof.
  intros Hp.
  set (t1 := Tail_new <| t_file := Some {| inode := i; cursor := 0 |} |> <| offset := 0%N |> <| partial := [] |>).
  assert (open_first files no_poll_faults Tail_new = (Done (Ok (Some {| inode := i; cursor := 0 |})), t1)) as Hof.
  { unfold open_first, lookup_path. cbv [mbind M_mbind get_state]. cbn. by rewrite Hp. }
  destruct (read_run files no_poll_faults t1 i 0 eq_refl ltac:(done)) as (t' & Hrun & _ & _ & _ & _ & Hm).
  exists t'. split; [|exact Hm].
  rewrite (poll_open files Tail_new i 0 false Tail_new t1 eq_refl Hof).
  unfold check_truncation, try_bind. cbv [mbind M_mbind get_state]. cbn [on_len no_poll_faults].
  change (offset t1) with 0%N. rewrite (proj2 (N.ltb_ge _ 0)) by lia. cbn [negb]. cbv [mret M_mret].
  change (N.of_nat 0) with 0%N in Hrun. by rewrite Hrun.
Qed.

Lemma poll_run files (t : Tail) seen (held : list LogRecord) :
  tail_at t seen → next_look seen files → held = records_seen seen →
  ∃ appended t', poll from_slice files no_poll_faults t = (Done (Ok appended), t')
    ∧ tail_at t' (seen_after files) ∧ held_after held appended = records_seen (seen_after files).
Proof.
  intros Ht Hn ->. unfold next_look in Hn. unfold seen_after.
  destruct seen as [[i' s]|], (at_path files) as [i|] eqn:Hp; try done; cbn [fmap option_fmap option_map].
  - destruct Hn as [Hl Hn]. pose proof Ht as (Hf & Ho & Hpt & Hm).
    destruct (decide (i = i')) as [->|Hne].
    + assert (check_rotation files no_poll_faults t = (Done (Ok false), t)) as Hc.
      { unfold check_rotation, lookup_path. cbv [mbind M_mbind get_state]. rewrite Hf. cbn.
        by rewrite Hp, N.eqb_refl. }
      assert (open_first files no_poll_faults t
        = (Done (Ok (Some {| inode := i'; cursor := N.of_nat (length s) |})), t)) as Hof.
      { unfold open_first. cbv [mbind M_mbind get_state]. by rewrite Hf. }
      pose proof (poll_open files t i' _ false t t Hc Hof) as Hpoll.
      destruct Hn as [?|[[more Hmore]|Hshort]]; [done| |].
      * destruct (poll_read files t t i' s more false Hpoll Ht Hmore Hl) as (t' & Hrun & Hr).
        eexists _, t'. split; [exact Hrun|]. split; [done|]. cbn. rewrite Hmore. symmetry. apply records_grow.
      * set (t0 := t <| t_file := Some {| inode := i'; cursor := 0 |} |> <| offset := 0%N |> <| partial := [] |>).
        assert (check_truncation files no_poll_faults {| inode := i'; cursor := N.of_nat (length s) |} t
          = (Done (Ok ({| inode := i'; cursor := 0 |}, true)), t0)) as Hct.
        { unfold check_truncation. cbv [mbind M_mbind get_state]. cbn [on_len on_seek no_poll_faults inode].
          assert (negb (N.of_nat (length (content files i')) <? offset t)%N = false) as ->; [|done].
          apply negb_false_iff, N.ltb_lt. rewrite Ho. lia. }
        destruct (read_reads files no_poll_faults t0 i' [] (content files i') eq_refl (reopened_reads t i' Hm)
          eq_refl Hl) as (t' & Hrun & Hr).
        change (N.of_nat (length [])) with 0%N in Hrun. rewrite Hpoll. unfold try_bind. cbv [mbind M_mbind].
        rewrite Hct, Hrun. eexists _, t'. by split_and!.
    + assert (check_rotation files no_poll_faults t = (Done (Ok true),
        t <| t_file := Some {| inode := i; cursor := 0 |} |> <| offset := 0%N |> <| partial := [] |>)) as Hc.
      { unfold check_rotation, lookup_path. cbv [mbind M_mbind get_state]. rewrite Hf. cbn.
        rewrite Hp. apply N.eqb_neq in Hne. cbn. by rewrite Hne. }
      pose proof (poll_open files t i 0 true _ _ Hc eq_refl) as Hpoll.
      destruct (poll_read files t _ i [] (content files i) true Hpoll (reopened_reads t i Hm) eq_refl Hl)
        as (t' & Hrun & Hr).
      eexists _, t'. by split_and!.
  - destruct Ht as [Hf Hm].
    assert (open_first files no_poll_faults t = (Done (Ok (Some {| inode := i; cursor := 0 |})),
      t <| t_file := Some {| inode := i; cursor := 0 |} |> <| offset := 0%N |> <| partial := [] |>)) as Hof.
    { unfold open_first, lookup_path. cbv [mbind M_mbind get_state]. rewrite Hf. cbn. by rewrite Hp. }
    assert (check_rotation files no_poll_faults t = (Done (Ok false), t)) as Hc.
    { unfold check_rotation. cbv [mbind M_mbind get_state]. by rewrite Hf. }
    pose proof (poll_open files t i 0 false _ _ Hc Hof) as Hpoll.
    destruct (poll_read files t _ i [] (content files i) false Hpoll (reopened_reads t i Hm) eq_refl Hn)
      as (t' & Hrun & Hr).
    eexists _, t'. by split_and!.
  - destruct Ht as [Hf Hm]. exists {| records := []; restarted := false |}, t. split; [|by split].
    assert (check_rotation files no_poll_faults t = (Done (Ok false), t)) as Hc.
    { unfold check_rotation. cbv [mbind M_mbind get_state]. by rewrite Hf. }
    assert (open_first files no_poll_faults t = (Done (Ok None), t)) as Hof.
    { unfold open_first, lookup_path. cbv [mbind M_mbind get_state]. rewrite Hf. cbn. by rewrite Hp. }
    unfold poll, try_bind. cbv [mbind M_mbind]. rewrite Hc. cbv [mbind M_mbind]. by rewrite Hof.
Qed.

(** ** Any number of polls *)

(** A caller that polls, and what it holds. *)
Fixpoint follow (t : Tail) (held : list LogRecord) (looks : list Files) : outcome (list LogRecord) :=
  match looks with
  | [] => Done held
  | files :: looks =>
      match poll from_slice files no_poll_faults t with
      | (Done (Ok appended), t) => follow t (held_after held appended) looks
      | (Done (Err _), t) => follow t held looks
      | (Panicked, _) => Panicked
      end
  end.

(** Each look shows what [next_look] allows after the one before. *)
Fixpoint looks_ok (seen : option (N * bytes)) (looks : list Files) : Prop :=
  match looks with
  | [] => True
  | files :: looks => next_look seen files ∧ looks_ok (seen_after files) looks
  end.

Lemma follow_run looks t seen held :
  tail_at t seen → held = records_seen seen → looks_ok seen looks →
  follow t held looks = Done (records_seen (default seen (seen_after <$> last looks))).
Proof.
  revert t seen held. induction looks as [|files looks IH]; intros t seen held Ht -> Hl; [done|].
  destruct Hl as [Hn Hl]. destruct (poll_run files t seen _ Ht Hn eq_refl) as (a & t' & Hrun & Ht' & Hh).
  cbn [follow]. rewrite Hrun, (IH t' (seen_after files) _ Ht' Hh Hl).
  destruct looks as [|f looks]; [done|]. change (last (files :: f :: looks)) with (last (f :: looks)).
  by destruct (last (f :: looks)) as [g|] eqn:E; [|by apply last_None in E].
Qed.

(** C25: following the log while it is written, with calls that succeed and no poll between a rename and
    the creation of the next file.  However the writer's bytes fall between two polls, and whether the file is created after the first polls, rotated away, or truncated, a caller
    that discards what it holds on a restart holds, after every poll, exactly the records of the
    complete lines of the file then at the path, in order: a record half written at one poll is
    picked up whole at a later one.  (A truncated file is noticed when it is shorter than what was
    read.) *)
Theorem tail_follows (looks : list Files) (Hlooks : looks_ok None looks) :
  follow Tail_new [] looks = Done (records_seen (default None (seen_after <$> last looks))).
Proof. apply follow_run; [by split|done|done]. Qed.

(** ** Polls that fail *)

Definition reading_fails (n : N) (error : IoError) : PollFaults :=
  no_poll_faults <| on_read := Some (n, error) |>.

Definition length_fails (error : IoError) : PollFaults := no_poll_faults <| on_len := Some error |>.

Lemma same_rotation files faults (t : Tail) i n :
  on_stat faults = None → on_fstat faults = None →
  t_file t = Some {| inode := i; cursor := n |} → at_path files = Some i →
  check_rotation files faults t = (Done (Ok false), t)
  ∧ open_first files faults t = (Done (Ok (Some {| inode := i; cursor := n |})), t).
Proof.
  intros H1 H2 Hf Hp. unfold check_rotation, open_first, lookup_path. cbv [mbind M_mbind get_state].
  rewrite Hf. cbn. by rewrite H1, H2, Hp, N.eqb_refl.
Qed.

Lemma untruncated files faults (t : Tail) h :
  on_len faults = None → (offset t ≤ N.of_nat (length (content files (inode h))))%N →
  check_truncation files faults h t = (Done (Ok (h, false)), t).
Proof.
  intros Hl Hle. unfold check_truncation. cbv [mbind M_mbind get_state]. rewrite Hl.
  by rewrite (proj2 (N.ltb_ge _ _) Hle).
Qed.

(** Each look finds the file [i] at the path, with more at its end or the same. *)
Fixpoint appends (i : N) (s : bytes) (looks : list Files) : Prop :=
  match looks with
  | [] => True
  | files :: looks =>
      at_path files = Some i ∧ (∃ more, content files i = s ++ more)
      ∧ (N.of_nat (length (content files i)) ≤ U64_MAX)%N ∧ appends i (content files i) looks
  end.

(** What the file holds at the last of them. *)
Definition grown (i : N) (s : bytes) (looks : list Files) : bytes :=
  match last looks with Some files => content files i | None => s end.

Lemma grown_cons i s files looks : grown i s (files :: looks) = grown i (content files i) looks.
Proof.
  unfold grown. destruct looks as [|f looks]; [done|].
  change (last (files :: f :: looks)) with (last (f :: looks)).
  by destruct (last (f :: looks)) as [g|] eqn:E; [|apply last_None in E].
Qed.

(** The tail is after [s ++ lost ++ post] of the file [i], of which it has not kept [lost]. *)
Definition reads_but (t : Tail) (i : N) (s lost post : bytes) : Prop :=
  t_file t = Some {| inode := i; cursor := N.of_nat (length (s ++ lost ++ post)) |}
  ∧ offset t = N.of_nat (length (s ++ post)) ∧ partial t = (split_lines (s ++ post)).2
  ∧ (malformed t ≤ U64_MAX)%N.

Lemma poll_but files (t : Tail) i (s lost post more : bytes) :
  reads_but t i s lost post → at_path files = Some i → content files i = (s ++ lost ++ post) ++ more →
  (N.of_nat (length (content files i)) ≤ U64_MAX)%N →
  ∃ t', poll from_slice files no_poll_faults t
        = (Done (Ok {| records := records_in ((split_lines (s ++ post)).2 ++ more); restarted := false |}), t')
    ∧ reads_but t' i s lost (post ++ more).
Proof.
  intros (Hf & Ho & Hpt & Hm) Hp Hc Hl.
  destruct (same_rotation files no_poll_faults t i _ eq_refl eq_refl Hf Hp) as [Hrot Hopen].
  destruct (read_run files no_poll_faults t i (length (s ++ lost ++ post)) eq_refl Hm)
    as (t' & Hrun & Hf' & Ho' & Hp' & Hm' & _).
  rewrite Hc in Hl. rewrite Hc, drop_app_length, Hpt in *. exists t'. split.
  - rewrite (poll_open _ _ _ _ _ _ _ Hrot Hopen). unfold try_bind. cbv [mbind M_mbind].
    rewrite untruncated; [by rewrite Hrun|done|]. cbn [inode]. rewrite Ho, Hc, !length_app. lia.
  - unfold reads_but. rewrite !app_assoc in *. rewrite <- length_app in Hf'. split_and!; [done| | |done].
    + rewrite Ho', Ho. unfold saturating_add. rewrite !length_app in *. lia.
    + rewrite Hp'. rewrite <- (app_assoc s). symmetry. rewrite app_assoc. apply records_grow.
Qed.

Lemma follow_but looks t before i s lost post :
  reads_but t i s lost post → appends i (s ++ lost ++ post) looks →
  ∃ rest, grown i (s ++ lost ++ post) looks = s ++ lost ++ rest
    ∧ follow t (before ++ records_in (s ++ post)) looks = Done (before ++ records_in (s ++ rest)).
Proof.
  revert t post. induction looks as [|files looks IH]; intros t post Ht Ha; [by exists post|].
  destruct Ha as (Hp & [more Hmore] & Hl & Ha).
  destruct (poll_but files t i s lost post more Ht Hp Hmore Hl) as (t' & Hrun & Ht').
  rewrite grown_cons. rewrite Hmore in *. rewrite <- !app_assoc in *.
  destruct (IH t' (post ++ more) Ht' Ha) as (rest & Hg & Hfollow). exists rest. split; [done|].
  cbn [follow]. rewrite Hrun. cbn [held_after restarted records]. rewrite <- Hfollow. f_equal.
  rewrite <- app_assoc. f_equal. rewrite app_assoc. symmetry. apply records_grow.
Qed.

(** C26: what a failed poll costs (two defects of [Tail::poll]).  A read that fails part of the way
    has moved the file's cursor, but its bytes are dropped.  From then on, as long as the file is only
    appended to, and however often it is polled, a caller holds the records of the file with those
    bytes cut out: what they held is never reported, and the ends of the lines they interrupted are
    read as one line.  And when the file was rotated but reading the length of the new one fails, the
    restart is forgotten: however often the new file is polled while it grows, a caller holds its
    records after those of the old one, which it should have discarded. *)
Theorem tail_errors files (t : Tail) (i : N) (s lost more : bytes) (error : IoError)
    (Hreads : reads t i s) (Hpath : at_path files = Some i)
    (Hcontent : content files i = s ++ lost ++ more)
    (Hsize : (N.of_nat (length (content files i)) ≤ U64_MAX)%N) :
  (∃ t1, poll from_slice files (reading_fails (N.of_nat (length lost)) error) t = (Done (Err error), t1)
     ∧ ∀ looks, appends i (s ++ lost) looks →
         ∃ rest, grown i (s ++ lost) looks = s ++ lost ++ rest
           ∧ follow t1 (records_in s) looks = Done (records_in (s ++ rest)))
  ∧ ∀ files' i', at_path files' = Some i' → i' ≠ i →
      ∃ t1, poll from_slice files' (length_fails error) t = (Done (Err error), t1)
        ∧ ∀ old looks, appends i' [] looks →
            follow t1 old looks = Done (old ++ records_in (grown i' [] looks)).
Proof.
  pose proof Hreads as (Hf & Ho & Hpt & Hm). split.
  - set (t1 := t <| t_file := Some {| inode := i;
      cursor := (N.of_nat (length s) + N.of_nat (length lost))%N |} |>).
    destruct (same_rotation files (reading_fails (N.of_nat (length lost)) error) t i _ eq_refl eq_refl Hf Hpath)
      as [Hc Hof].
    assert (read_more files (reading_fails (N.of_nat (length lost)) error)
      {| inode := i; cursor := N.of_nat (length s) |} t = (Done (Err error), t1)) as Hread.
    { unfold read_more. change (on_read _) with (Some (N.of_nat (length lost), error)).
      cbv beta iota. cbn [cursor inode].
      rewrite Nat2N.id, Hcontent, drop_app_length, N.min_l by (rewrite length_app; lia). done. }
    exists t1. split.
    + unfold poll, read_appended, try_bind. cbv [mbind M_mbind]. rewrite Hc. cbv [mbind M_mbind]. rewrite Hof.
      rewrite untruncated; [by rewrite Hread|done|]. cbn [inode]. rewrite Ho, Hcontent, !length_app. lia.
    + intros looks. pose proof (follow_but looks t1 [] i s lost []) as Hfollow.
      rewrite !app_nil_r in Hfollow. apply Hfollow.
      subst t1. unfold reads_but, constant. cbn. rewrite !app_nil_r, length_app, Nat2N.inj_add. by split_and!.
  - intros files' i' Hp' Hne.
    set (t1 := t <| t_file := Some {| inode := i'; cursor := 0 |} |> <| offset := 0%N |> <| partial := [] |>).
    assert (check_rotation files' (length_fails error) t = (Done (Ok true), t1)) as Hc.
    { unfold check_rotation, lookup_path. cbv [mbind M_mbind get_state]. rewrite Hf. cbn.
      apply N.eqb_neq in Hne. rewrite Hp'. cbn. by rewrite Hne. }
    exists t1. split; [unfold poll, try_bind; cbv [mbind M_mbind]; by rewrite Hc|].
    intros old looks Ha.
    destruct (follow_but looks t1 old i' [] [] [] ltac:(by split_and!) Ha) as (rest & Hg & Hfollow).
    cbn [app] in *. rewrite Hg. change (records_in []) with (@nil LogRecord) in Hfollow.
    by rewrite app_nil_r in Hfollow.
Qed.
End Following.

(** ** A concrete log *)

(** A stand-in for the JSON reader: a line in braces is a record named by its text. *)
Definition demo_slice (line : bytes) : option LogRecord :=
  if starts_with (bs "{") line then Some (LogRecord_default <| l_request_id := str line |>) else None.

Definition demo_file (i : N) (s : bytes) : Files := {| at_path := Some i; content := λ _, s |}.

(** Not there yet; half a line; the rest of it, a bad line and a blank one; rotated. *)
Definition demo_looks : list Files :=
  [{| at_path := None; content := λ _, [] |};
   demo_file 1 (bs "{a");
   demo_file 1 (bs "{a}" ++ LF :: bs "oops" ++ LF :: LF :: bs "{b");
   demo_file 2 (bs "{c}" ++ [LF])].

Ltac looks_tac :=
  first [exact I | reflexivity | vm_compute; discriminate
        | split; [vm_compute; discriminate|];
          first [right; left; eexists; vm_compute; reflexivity | left; vm_compute; discriminate]].

Lemma tail_follows_witness :
  follow demo_slice Tail_new [] demo_looks
  = Done [LogRecord_default <| l_request_id := "{c}" |>]
  ∧ follow demo_slice Tail_new [] (take 3 demo_looks)
  = Done [LogRecord_default <| l_request_id := "{a}" |>].
Proof.
  split.
  - rewrite (tail_follows demo_slice demo_looks); [vm_compute; reflexivity|].
    simpl. split_and!; looks_tac.
  - rewrite (tail_follows demo_slice (take 3 demo_looks)); [vm_compute; reflexivity|].
    simpl. split_and!; looks_tac.
Defined.

Lemma tail_errors_witness :
  ∃ t1 error, poll demo_slice (demo_file 1 (bs "{a}" ++ LF :: bs "{b}" ++ [LF])) (reading_fails 4 error)
      (Tail_new <| t_file := Some {| inode := 1; cursor := 0 |} |>) = (Done (Err error), t1)
    ∧ follow demo_slice t1 [] [demo_file 1 (bs "{a}" ++ LF :: bs "{b}" ++ [LF]);
                               demo_file 1 (bs "{a}" ++ LF :: bs "{b}" ++ LF :: bs "{c}" ++ [LF])]
      = Done [LogRecord_default <| l_request_id := "{b}" |>; LogRecord_default <| l_request_id := "{c}" |>].
Proof.
  destruct (tail_errors demo_slice (demo_file 1 (bs "{a}" ++ LF :: bs "{b}" ++ [LF]))
    (Tail_new <| t_file := Some {| inode := 1; cursor := 0 |} |>) 1 [] (bs "{a}" ++ [LF]) (bs "{b}" ++ [LF])
    {| kind := OtherKind; io_message := "input output error" |}) as [(t1 & H1 & H2) _].
  - by split_and!.
  - reflexivity.
  - reflexivity.
  - vm_compute. discriminate.
  - exists t1, {| kind := OtherKind; io_message := "input output error" |}. split; [exact H1|].
    destruct (H2 [demo_file 1 (bs "{a}" ++ LF :: bs "{b}" ++ [LF]);
                  demo_file 1 (bs "{a}" ++ LF :: bs "{b}" ++ LF :: bs "{c}" ++ [LF])]) as (rest & Hg & Hfollow).
    + split_and!; try done; [by exists (bs "{b}" ++ [LF])|]. split_and!; try done. by exists (bs "{c}" ++ [LF]).
    + assert (rest = bs "{b}" ++ LF :: bs "{c}" ++ [LF]) as ->.
      { apply (app_inv_head (bs "{a}" ++ [LF])). symmetry. exact Hg. }
      etransitivity; [exact Hfollow|]. vm_compute. reflexivity.
Defined.
