(* ===== verification/Summary.v ===== *)
(** * [src/src/logs.rs]: the summary of an audit log

    Totals per key, principal, endpoint and backend, and nearest-rank
    percentiles.  A hash map is a finite map; its enumeration order does not
    show in the rows, which are sorted by distinct names. *)

From S2P Require Import Prelude RustStd Float64 Disk Logs.

(** src/src/logs.rs:270-281 [KeyTotals] *)
Record KeyTotals := mkKeyTotals {
  k_requests : N;
  k_errors : N;
  k_input_tokens : N;
  k_output_tokens : N;
  k_cached_tokens : N;
  k_prefilled_tokens : N;
  last_seen_unix_ms : N;
  openwebui_users : N;
}.

Definition KeyTotals_default : KeyTotals :=
  {| k_requests := 0; k_errors := 0; k_input_tokens := 0; k_output_tokens := 0;
     k_cached_tokens := 0; k_prefilled_tokens := 0; last_seen_unix_ms := 0; openwebui_users := 0 |}.

(** src/src/logs.rs:285-292 [PathTotals] *)
Record PathTotals := mkPathTotals {
  p_requests : N;
  p_errors : N;
  p_input_tokens : N;
  p_output_tokens : N;
  p_cached_tokens : N;
  p_prefilled_tokens : N;
}.

Definition PathTotals_default : PathTotals :=
  {| p_requests := 0; p_errors := 0; p_input_tokens := 0; p_output_tokens := 0;
     p_cached_tokens := 0; p_prefilled_tokens := 0 |}.

(** src/src/logs.rs:339-346 [Distribution] *)
Record Distribution := mkDistribution { samples : N; p50 : N; p95 : N; d_max : N }.

(** src/src/logs.rs:296-306 [BackendTotals] *)
Record BackendTotals := mkBackendTotals {
  b_totals : PathTotals;
  queue_ms : Distribution;
  first_byte_ms : Distribution;
  b_latency_ms : Distribution;
}.

(** src/src/logs.rs:309-319 [BackendAccumulator]; its six counters are those of [PathTotals] *)
Record BackendAccumulator := mkBackendAccumulator {
  acc_totals : PathTotals;
  queues : list N;
  first_bytes : list N;
  latencies : list N;
}.

Definition BackendAccumulator_default : BackendAccumulator :=
  {| acc_totals := PathTotals_default; queues := []; first_bytes := []; latencies := [] |}.

(** src/src/logs.rs, lines 624-626 of [percentile]: the index of the rank *)
Definition percentile_index (len percent : N) : N :=
  let rank := N.max 1 ((len * percent + 99) / 100) in
  (N.min rank len - 1)%N.

(** src/src/logs.rs:620-627 [percentile]; the index is in range for every length ([percentile_spec]) *)
Definition percentile (sorted : list N) (percent : N) : N :=
  if bool_decide (sorted = []) then 0%N else
  default 0%N (sorted !! N.to_nat (percentile_index (N.of_nat (length sorted)) percent)).

(** src/src/logs.rs:349-358 [Distribution::from_values] *)
Definition from_values (values : list N) : Distribution :=
  let values := sort_by N.compare values in
  {| samples := N.of_nat (length values);
     p50 := percentile values 50;
     p95 := percentile values 95;
     d_max := default 0%N (last values) |}.

(** src/src/logs.rs:322-334 [BackendAccumulator::finish] *)
Definition BackendAccumulator_finish (self : BackendAccumulator) : BackendTotals :=
  {| b_totals := acc_totals self;
     queue_ms := from_values (queues self);
     first_byte_ms := from_values (first_bytes self);
     b_latency_ms := from_values (latencies self) |}.

(** src/src/logs.rs:363-414 [Summary] *)
Record Summary := mkSummary {
  s_requests : N;
  s_authorized : N;
  s_rejected : N;
  s_incomplete : N;
  s_streaming : N;
  s_non_streaming : N;
  s_informational : N;
  s_successful : N;
  s_redirected : N;
  s_client_errors : N;
  s_server_errors : N;
  s_no_status : N;
  s_input_tokens : N;
  s_output_tokens : N;
  s_cached_tokens : N;
  s_prefilled_tokens : N;
  s_response_bytes : N;
  first_at : option string;
  last_at : option string;
  input_tokens_seen : Distribution;
  output_tokens_seen : Distribution;
  cache_hit_pct_seen : Distribution;
  first_token_ms : Distribution;
  per_output_token_us : Distribution;
  latency_ms : Distribution;
  by_key : list (string * KeyTotals);
  by_principal : list (string * KeyTotals);
  openwebui_keys : gset string;
  by_path : list (string * PathTotals);
  by_backend : list (string * BackendTotals);
}.

Definition Distribution_default : Distribution := {| samples := 0; p50 := 0; p95 := 0; d_max := 0 |}.

Definition Summary_default : Summary :=
  {| s_requests := 0; s_authorized := 0; s_rejected := 0; s_incomplete := 0; s_streaming := 0;
     s_non_streaming := 0; s_informational := 0; s_successful := 0; s_redirected := 0;
     s_client_errors := 0; s_server_errors := 0; s_no_status := 0; s_input_tokens := 0;
     s_output_tokens := 0; s_cached_tokens := 0; s_prefilled_tokens := 0; s_response_bytes := 0;
     first_at := None; last_at := None; input_tokens_seen := Distribution_default;
     output_tokens_seen := Distribution_default; cache_hit_pct_seen := Distribution_default;
     first_token_ms := Distribution_default; per_output_token_us := Distribution_default;
     latency_ms := Distribution_default; by_key := []; by_principal := []; openwebui_keys := ∅;
     by_path := []; by_backend := [] |}.

(** ** One pass *)

(** What the loop of [summarize] updates: the counters and the local tables. *)
Record Tally := mkTally {
  summary : Summary;
  keys : gmap string KeyTotals;
  principals : gmap string KeyTotals;
  key_users : gmap string (gset string);
  paths : gmap string PathTotals;
  backends : gmap string BackendAccumulator;
  all_latencies : list N;
  inputs : list N;
  outputs : list N;
  first_tokens : list N;
  per_token : list N;
  cache_hit_pct : list N;
}.

(** Input, output, cached and prefilled tokens of a record. *)
Definition input_of (record : LogRecord) : N := default 0%N (l_input_tokens record).
Definition output_of (record : LogRecord) : N := default 0%N (l_output_tokens record).
Definition cached_of (record : LogRecord) : N := default 0%N (l_cached_tokens record).

(** src/src/logs.rs, lines 480-485 of [summarize]: what was recomputed, over the requests that reported input tokens *)
Definition prefilled_of (record : LogRecord) : N :=
  match l_input_tokens record with
  | Some input => (input - cached_of record)%N
  | None => 0%N
  end.

Definition one_if (b : bool) : N := if b then 1%N else 0%N.

Definition sat64 (a b : N) : N := saturating_add U64_MAX a b.

(** src/src/logs.rs:589-600 [add_request] *)
Definition add_request (totals : KeyTotals) (record : LogRecord) : KeyTotals :=
  {| k_requests := k_requests totals + 1;
     k_errors := k_errors totals + one_if (is_error record);
     k_input_tokens := sat64 (k_input_tokens totals) (input_of record);
     k_output_tokens := sat64 (k_output_tokens totals) (output_of record);
     k_cached_tokens := sat64 (k_cached_tokens totals) (cached_of record);
     k_prefilled_tokens := sat64 (k_prefilled_tokens totals) (prefilled_of record);
     last_seen_unix_ms := N.max (last_seen_unix_ms totals) (l_started_at_unix_ms record);
     openwebui_users := openwebui_users totals |}.

(** src/src/logs.rs, lines 518-526 of [summarize]; and 530-537 for a backend *)
Definition add_path (totals : PathTotals) (record : LogRecord) : PathTotals :=
  {| p_requests := p_requests totals + 1;
     p_errors := p_errors totals + one_if (is_error record);
     p_input_tokens := sat64 (p_input_tokens totals) (input_of record);
     p_output_tokens := sat64 (p_output_tokens totals) (output_of record);
     p_cached_tokens := sat64 (p_cached_tokens totals) (cached_of record);
     p_prefilled_tokens := sat64 (p_prefilled_tokens totals) (prefilled_of record) |}.

(** A sample, when there is one. *)
Definition push (samples : list N) (sample : option N) : list N :=
  samples ++ option_list sample.

(** src/src/logs.rs, lines 529-544 of [summarize]: one record of a backend *)
Definition add_backend (acc : BackendAccumulator) (record : LogRecord) : BackendAccumulator :=
  {| acc_totals := add_path (acc_totals acc) record;
     queues := push (queues acc) (l_proxy_queue_ms record);
     first_bytes := push (first_bytes acc) (l_time_to_first_byte_ms record);
     latencies := latencies acc ++ [l_duration_ms record] |}.

(** src/src/logs.rs, lines 449-472 of [summarize]: the request and status counters *)
Definition count_record (s : Summary) (record : LogRecord) : Summary :=
  let class := (λ status, status / 100)%N <$> l_status record in
  s <| s_authorized := (s_authorized s + one_if (l_authorized record))%N |>
    <| s_rejected := (s_rejected s + one_if (negb (l_authorized record)))%N |>
    <| s_incomplete := (s_incomplete s + one_if (negb (l_complete record)))%N |>
    <| s_streaming := (s_streaming s + one_if (l_streaming record))%N |>
    <| s_non_streaming := (s_non_streaming s + one_if (negb (l_streaming record)
         && match l_status record with Some status => (status <? 400)%N | None => false end))%N |>
    <| s_no_status := (s_no_status s + one_if (bool_decide (class = None)))%N |>
    <| s_informational := (s_informational s + one_if (bool_decide (class = Some 1%N)))%N |>
    <| s_successful := (s_successful s + one_if (bool_decide (class = Some 2%N)))%N |>
    <| s_redirected := (s_redirected s + one_if (bool_decide (class = Some 3%N)))%N |>
    <| s_client_errors := (s_client_errors s + one_if (bool_decide (class = Some 4%N)))%N |>
    <| s_server_errors := (s_server_errors s + one_if
         (match class with Some n => negb (bool_decide (n ∈ [1; 2; 3; 4]%N)) | None => false end))%N |>.

(** src/src/logs.rs, lines 474-489 of [summarize]: the token and byte counters *)
Definition count_tokens (s : Summary) (record : LogRecord) : Summary :=
  s <| s_input_tokens := sat64 (s_input_tokens s) (input_of record) |>
    <| s_output_tokens := sat64 (s_output_tokens s) (output_of record) |>
    <| s_cached_tokens := sat64 (s_cached_tokens s) (cached_of record) |>
    <| s_prefilled_tokens := sat64 (s_prefilled_tokens s) (prefilled_of record) |>
    <| s_response_bytes := sat64 (s_response_bytes s) (l_response_bytes record) |>.

(** A sample that is positive. *)
Definition positive (sample : option N) : option N :=
  match sample with Some n => if (0 <? n)%N then Some n else None | None => None end.

(** src/src/logs.rs, lines 486-488 of [summarize]: the share of the input that was cached; [Panicked] is the overflow of
    the product *)
Definition hit_pct (record : LogRecord) : outcome (option N) :=
  match positive (l_input_tokens record) with
  | None => Done None
  | Some input =>
      if (100 * cached_of record <=? U64_MAX)%N
      then Done (Some (100 * cached_of record / input)%N) else Panicked
  end.

(** src/src/logs.rs, lines 497-499 of [summarize] *)
Definition first_token_of (record : LogRecord) : option N :=
  if l_streaming record then l_time_to_first_byte_ms record else None.

(** src/src/logs.rs, lines 501-503 of [summarize]: microseconds per output token *)
Definition per_token_of (record : LogRecord) : option N :=
  (λ tokens, N.min U64_MAX (l_duration_ms record * 1000) / tokens)%N
    <$> positive (l_output_tokens record).

(** [map.entry(key).or_default()], updated. *)
Definition upsert {V} (default_value : V) (f : V → V) (key : string) (m : gmap string V) : gmap string V :=
  <[key := f (default default_value (m !! key))]> m.

(** src/src/logs.rs, lines 449-545 of [summarize]: the loop's body *)
Definition tally_record (openwebui : gset string) (record : LogRecord) : M Tally () :=
  t ← get_state;
  pct ← expect (match hit_pct record with Done pct => Some pct | Panicked => None end);
  modify (λ t, t
    <| summary := count_tokens (count_record (summary t) record) record |>
    <| cache_hit_pct := push (cache_hit_pct t) pct |>
    <| all_latencies := all_latencies t ++ [l_duration_ms record] |>
    <| inputs := push (inputs t) (l_input_tokens record) |>
    <| outputs := push (outputs t) (l_output_tokens record) |>
    <| first_tokens := push (first_tokens t) (first_token_of record) |>
    <| per_token := push (per_token t) (per_token_of record) |>
    <| keys := upsert KeyTotals_default (λ totals, add_request totals record) (key_bucket record) (keys t) |>
    <| principals := upsert KeyTotals_default (λ totals, add_request totals record)
                       (principal_bucket record openwebui) (principals t) |>
    <| key_users := match openwebui_user record with
                    | Some user => upsert ∅ (λ users, {[user]} ∪ users) (key_bucket record) (key_users t)
                    | None => key_users t
                    end |>
    <| paths := upsert PathTotals_default (λ totals, add_path totals record) (record_path record) (paths t) |>
    <| backends := match l_backend_id record with
                   | Some id => upsert BackendAccumulator_default (λ acc, add_backend acc record) id (backends t)
                   | None => backends t
                   end |>).

(** src/src/logs.rs, lines 427-446 of [summarize]: before the loop *)
Definition tally_start (records : list LogRecord) (openwebui : gset string) : Tally :=
  {| summary := Summary_default <| s_requests := N.of_nat (length records) |>
                                <| openwebui_keys := openwebui |>;
     keys := ∅; principals := ∅; key_users := ∅; paths := ∅; backends := ∅; all_latencies := [];
     inputs := []; outputs := []; first_tokens := []; per_token := []; cache_hit_pct := [] |}.

(** src/src/logs.rs, lines 434-438 of [summarize]: the keys that forwarded a user *)
Definition openwebui_keys_of (records : list LogRecord) : gset string :=
  list_to_set (key_bucket <$> keep (λ record, bool_decide (is_Some (openwebui_user record))) records).

(** [min_by_key] keeps the first minimum, [max_by_key] the last maximum. *)
Definition min_by_key (key : LogRecord → N) (l : list LogRecord) : option LogRecord :=
  foldl (λ best record, match best with
                        | Some best => if (key record <? key best)%N then Some record else Some best
                        | None => Some record
                        end) None l.
Definition max_by_key (key : LogRecord → N) (l : list LogRecord) : option LogRecord :=
  foldl (λ best record, match best with
                        | Some best => if (key best <=? key record)%N then Some record else Some best
                        | None => Some record
                        end) None l.

(** More requests first, then by name. *)
Definition rows_cmp {V} (requests : V → N) (left right : string * V) : comparison :=
  then_with (requests right.2 ?= requests left.2)%N (String.compare left.1 right.1).

(** src/src/logs.rs:602-617 [sorted_by_requests] *)
Definition sorted_by_requests {V} (map : gmap string V) (requests : V → N) : list (string * V) :=
  sort_by (rows_cmp requests) (map_to_list map).

(** src/src/logs.rs, lines 566-570 of [summarize]: the users each key forwarded *)
Definition set_users (key_users : gmap string (gset string)) (keys : gmap string KeyTotals) :
    gmap string KeyTotals :=
  map_imap (λ key totals, Some (match key_users !! key with
                                | Some users => totals <| openwebui_users := N.of_nat (size users) |>
                                | None => totals
                                end)) keys.

(** src/src/logs.rs, lines 550-586 of [summarize]: what follows the loop *)
Definition tally_finish (records : list LogRecord) (t : Tally) : Summary :=
  (summary t)
    <| first_at := l_started_at <$> min_by_key l_started_at_unix_ms records |>
    <| last_at := l_started_at <$> max_by_key l_started_at_unix_ms records |>
    <| latency_ms := from_values (all_latencies t) |>
    <| input_tokens_seen := from_values (inputs t) |>
    <| output_tokens_seen := from_values (outputs t) |>
    <| cache_hit_pct_seen := from_values (cache_hit_pct t) |>
    <| first_token_ms := from_values (first_tokens t) |>
    <| per_output_token_us := from_values (per_token t) |>
    <| by_key := sorted_by_requests (set_users (key_users t) (keys t)) k_requests |>
    <| by_principal := sorted_by_requests (principals t) k_requests |>
    <| by_path := sorted_by_requests (paths t) p_requests |>
    <| by_backend := sorted_by_requests (BackendAccumulator_finish <$> backends t)
                       (λ totals, p_requests (b_totals totals)) |>.

(** src/src/logs.rs:426-587 [summarize] *)
Definition summarize (records : list LogRecord) : outcome Summary :=
  let openwebui := openwebui_keys_of records in
  match for_each records (tally_record openwebui) (tally_start records openwebui) with
  | (Done _, t) => Done (tally_finish records t)
  | (Panicked, _) => Panicked
  end.

(** src/src/logs.rs:420-423 [Summary::cache_hit_pct] *)
Definition Summary_cache_hit_pct (self : Summary) : option f64 :=
  if ((0 <? s_cached_tokens self) && (0 <? s_input_tokens self))%N
  then Some (fdiv (fmul (f64_of_N 100) (f64_of_N (s_cached_tokens self))) (f64_of_N (s_input_tokens self)))
  else None.

(** ** The reference: totals of a set of records *)

Definition count (p : LogRecord → bool) (l : list LogRecord) : N := N.of_nat (length (keep p l)).

(** A sum that stops at the largest [u64]. *)
Definition total (f : LogRecord → N) (l : list LogRecord) : N :=
  N.min U64_MAX (foldr N.add 0%N (f <$> l)).

Definition latest_of (l : list LogRecord) : N := foldr N.max 0%N (l_started_at_unix_ms <$> l).

Definition users_of (l : list LogRecord) : gset string := list_to_set (omap openwebui_user l).

Definition key_totals_of (users : N) (l : list LogRecord) : KeyTotals :=
  {| k_requests := N.of_nat (length l); k_errors := count is_error l;
     k_input_tokens := total input_of l; k_output_tokens := total output_of l;
     k_cached_tokens := total cached_of l; k_prefilled_tokens := total prefilled_of l;
     last_seen_unix_ms := latest_of l; openwebui_users := users |}.

Definition path_totals_of (l : list LogRecord) : PathTotals :=
  {| p_requests := N.of_nat (length l); p_errors := count is_error l;
     p_input_tokens := total input_of l; p_output_tokens := total output_of l;
     p_cached_tokens := total cached_of l; p_prefilled_tokens := total prefilled_of l |}.

Definition backend_of (l : list LogRecord) : BackendAccumulator :=
  {| acc_totals := path_totals_of l; queues := omap l_proxy_queue_ms l;
     first_bytes := omap l_time_to_first_byte_ms l; latencies := l_duration_ms <$> l |}.

(** The counters of the whole log. *)
Definition has_class (c : N) (r : LogRecord) : bool :=
  match l_status r with Some status => (status / 100 =? c)%N | None => false end.

Definition summary_of (n : N) (openwebui : gset string) (l : list LogRecord) : Summary :=
  Summary_default
    <| s_requests := n |>
    <| openwebui_keys := openwebui |>
    <| s_authorized := count l_authorized l |>
    <| s_rejected := count (λ r, negb (l_authorized r)) l |>
    <| s_incomplete := count (λ r, negb (l_complete r)) l |>
    <| s_streaming := count l_streaming l |>
    <| s_non_streaming := count (λ r, negb (l_streaming r)
         && match l_status r with Some status => (status <? 400)%N | None => false end) l |>
    <| s_no_status := count (λ r, bool_decide (l_status r = None)) l |>
    <| s_informational := count (has_class 1) l |>
    <| s_successful := count (has_class 2) l |>
    <| s_redirected := count (has_class 3) l |>
    <| s_client_errors := count (has_class 4) l |>
    <| s_server_errors := count (λ r, bool_decide (is_Some (l_status r))
         && negb (has_class 1 r || has_class 2 r || has_class 3 r || has_class 4 r)) l |>
    <| s_input_tokens := total input_of l |>
    <| s_output_tokens := total output_of l |>
    <| s_cached_tokens := total cached_of l |>
    <| s_prefilled_tokens := total prefilled_of l |>
    <| s_response_bytes := total l_response_bytes l |>.

Lemma count_snoc p l r : count p (l ++ [r]) = (count p l + one_if (p r))%N.
Proof.
  unfold count, one_if. rewrite List.filter_app, length_app. cbn [List.filter].
  destruct (p r); simpl; lia.
Qed.

Lemma sum_app (l k : list N) : foldr N.add 0%N (l ++ k) = (foldr N.add 0 l + foldr N.add 0 k)%N.
Proof. induction l as [|x l IH]; simpl; [done|]. rewrite IH. lia. Qed.

Lemma total_snoc f l r : total f (l ++ [r]) = sat64 (total f l) (f r).
Proof.
  unfold total, sat64, saturating_add. rewrite fmap_app, sum_app. cbn [fmap list_fmap foldr]. lia.
Qed.

Lemma max_app (l k : list N) : foldr N.max 0%N (l ++ k) = N.max (foldr N.max 0%N l) (foldr N.max 0%N k).
Proof. induction l as [|x l IH]; simpl; [lia|]. rewrite IH. lia. Qed.

Lemma latest_snoc l r : latest_of (l ++ [r]) = N.max (latest_of l) (l_started_at_unix_ms r).
Proof.
  unfold latest_of. rewrite fmap_app, max_app. cbn [fmap list_fmap foldr]. lia.
Qed.

Lemma length_snoc l (r : LogRecord) : N.of_nat (length (l ++ [r])) = (N.of_nat (length l) + 1)%N.
Proof. rewrite length_app. simpl. lia. Qed.

Lemma key_totals_snoc users l r :
  key_totals_of users (l ++ [r]) = add_request (key_totals_of users l) r.
Proof.
  unfold key_totals_of, add_request. cbn.
  by rewrite count_snoc, !total_snoc, latest_snoc, length_snoc.
Qed.

Lemma path_totals_snoc l r : path_totals_of (l ++ [r]) = add_path (path_totals_of l) r.
Proof. unfold path_totals_of, add_path. cbn. by rewrite count_snoc, !total_snoc, length_snoc. Qed.

Lemma omap_snoc {A} (f : LogRecord → option A) l r : omap f (l ++ [r]) = omap f l ++ option_list (f r).
Proof. rewrite omap_app. cbn. by destruct (f r). Qed.

Lemma backend_snoc l r : backend_of (l ++ [r]) = add_backend (backend_of l) r.
Proof.
  unfold backend_of, add_backend, push. cbn. by rewrite path_totals_snoc, !omap_snoc, fmap_app.
Qed.

Lemma one_if_ext b c : b = c → one_if b = one_if c.
Proof. by intros ->. Qed.

Lemma class_is (n c : N) : (n =? c)%N = bool_decide (Some n = Some c).
Proof.
  destruct (N.eqb_spec n c) as [->|Hne]; symmetry; [by apply bool_decide_eq_true|].
  apply bool_decide_eq_false. congruence.
Qed.

Lemma class_other (n : N) :
  bool_decide (n ∈ [1; 2; 3; 4]%N) = ((n =? 1) || (n =? 2) || (n =? 3) || (n =? 4))%N.
Proof.
  apply eq_iff_eq_true. rewrite bool_decide_eq_true, !orb_true_iff, !N.eqb_eq. set_solver.
Qed.

Lemma summary_snoc n openwebui l r :
  summary_of n openwebui (l ++ [r]) = count_tokens (count_record (summary_of n openwebui l) r) r.
Proof.
  unfold summary_of, count_tokens, count_record, constant. cbn. rewrite !count_snoc, !total_snoc.
  f_equal; f_equal; apply one_if_ext; unfold has_class; destruct (l_status r) as [st|]; cbn;
    try reflexivity; try apply class_is.
  f_equal. symmetry. apply class_other.
Qed.

(** ** Groups *)

(** The records with a key, in order. *)
Definition group (key : LogRecord → option string) (k : string) (l : list LogRecord) : list LogRecord :=
  keep (λ r, bool_decide (key r = Some k)) l.

(** A table holds, for each key that occurs, what [ref] makes of its records. *)
Definition grouped {V} (key : LogRecord → option string) (ref : list LogRecord → V)
    (l : list LogRecord) (m : gmap string V) : Prop :=
  ∀ k, m !! k = match group key k l with [] => None | rs => Some (ref rs) end.

Lemma grouped_nil {V} key (ref : list LogRecord → V) : grouped key ref [] ∅.
Proof. intros k. apply lookup_empty. Qed.

Lemma group_snoc key k l r :
  group key k (l ++ [r]) = if decide (key r = Some k) then group key k l ++ [r] else group key k l.
Proof.
  unfold group. rewrite List.filter_app. cbn [List.filter]. case_decide.
  - by rewrite bool_decide_true.
  - rewrite bool_decide_false by done. by rewrite app_nil_r.
Qed.

Lemma grouped_snoc {V} key (ref : list LogRecord → V) d f l r k m :
  grouped key ref l m → key r = Some k → ref [] = d → (∀ l, ref (l ++ [r]) = f (ref l)) →
  grouped key ref (l ++ [r]) (upsert d f k m).
Proof.
  intros Hg Hk Hd Hf i. unfold upsert. rewrite group_snoc, Hk. destruct (decide (k = i)) as [->|Hne].
  - rewrite lookup_insert_eq, decide_True by done. rewrite Hg.
    destruct (group key i l) as [|x g]; simpl.
    + by rewrite <- Hd, <- (Hf []).
    + by rewrite <- (Hf (x :: g)).
  - rewrite lookup_insert_ne by done. rewrite decide_False by congruence. apply Hg.
Qed.

Lemma grouped_skip {V} key (ref : list LogRecord → V) l r m :
  grouped key ref l m → key r = None → grouped key ref (l ++ [r]) m.
Proof. intros Hg Hk i. rewrite group_snoc, Hk, decide_False by done. apply Hg. Qed.

(** What the loop has after some records. *)
Record tallied (n : N) (openwebui : gset string) (l : list LogRecord) (t : Tally) : Prop := {
  tl_summary : summary t = summary_of n openwebui l;
  tl_keys : grouped (Some ∘ key_bucket) (key_totals_of 0) l (keys t);
  tl_principals : grouped (λ r, Some (principal_bucket r openwebui)) (key_totals_of 0) l (principals t);
  tl_users : grouped (λ r, _ ← openwebui_user r; Some (key_bucket r)) users_of l (key_users t);
  tl_paths : grouped (Some ∘ record_path) path_totals_of l (paths t);
  tl_backends : grouped l_backend_id backend_of l (backends t);
  tl_latencies : all_latencies t = l_duration_ms <$> l;
  tl_inputs : inputs t = omap l_input_tokens l;
  tl_outputs : outputs t = omap l_output_tokens l;
  tl_first : first_tokens t = omap first_token_of l;
  tl_per_token : per_token t = omap per_token_of l;
  tl_hits : cache_hit_pct t = omap (λ r, match hit_pct r with Done pct => pct | Panicked => None end) l;
}.

(** A record whose cached tokens overflow the product. *)
Definition overflows (r : LogRecord) : Prop := hit_pct r = Panicked.

Lemma users_snoc l r user :
  openwebui_user r = Some user → users_of (l ++ [r]) = {[user]} ∪ users_of l.
Proof. intros Hu. unfold users_of. rewrite omap_snoc, Hu. cbn. rewrite list_to_set_app_L. cbn. set_solver. Qed.

Lemma tally_step n openwebui l t r :
  tallied n openwebui l t → hit_pct r ≠ Panicked →
  ∃ t', tally_record openwebui r t = (Done (), t') ∧ tallied n openwebui (l ++ [r]) t'.
Proof.
  intros Ht Hp. unfold tally_record. cbv [mbind M_mbind get_state modify].
  destruct (hit_pct r) as [pct|] eqn:Epct; [|done]. cbn [expect]. cbv [mret M_mret].
  eexists. split; [reflexivity|]. unfold constant. split;
    cbn [summary keys principals key_users paths backends all_latencies inputs outputs first_tokens
         per_token cache_hit_pct].
  - by rewrite summary_snoc, (tl_summary _ _ _ _ Ht).
  - apply (grouped_snoc _ (key_totals_of 0)); [apply Ht|done|done|]. intros. apply key_totals_snoc.
  - apply (grouped_snoc _ (key_totals_of 0)); [apply Ht|done|done|]. intros. apply key_totals_snoc.
  - destruct (openwebui_user r) as [user|] eqn:Eu.
    + apply (grouped_snoc _ users_of); [apply Ht|by rewrite Eu|done|]. intros. by apply users_snoc.
    + apply grouped_skip; [apply Ht|by rewrite Eu].
  - apply (grouped_snoc _ path_totals_of); [apply Ht|done|done|]. intros. apply path_totals_snoc.
  - destruct (l_backend_id r) as [id|] eqn:Eb.
    + apply (grouped_snoc _ backend_of); [apply Ht|done|done|]. intros. apply backend_snoc.
    + by apply grouped_skip; [apply Ht|].
  - by rewrite (tl_latencies _ _ _ _ Ht), fmap_app.
  - unfold push. by rewrite (tl_inputs _ _ _ _ Ht), omap_snoc.
  - unfold push. by rewrite (tl_outputs _ _ _ _ Ht), omap_snoc.
  - unfold push. by rewrite (tl_first _ _ _ _ Ht), omap_snoc.
  - unfold push. by rewrite (tl_per_token _ _ _ _ Ht), omap_snoc.
  - unfold push. by rewrite (tl_hits _ _ _ _ Ht), omap_snoc, Epct.
Qed.

Lemma tally_run n openwebui rs l t :
  tallied n openwebui l t →
  match for_each rs (tally_record openwebui) t with
  | (Done _, t') => tallied n openwebui (l ++ rs) t' ∧ Forall (λ r, ¬ overflows r) rs
  | (Panicked, _) => Exists overflows rs
  end.
Proof.
  revert l t. induction rs as [|r rs IH]; intros l t Ht; cbn [for_each].
  { rewrite app_nil_r. by split; [|constructor]. }
  cbv [mbind M_mbind]. destruct (hit_pct r) as [pct|] eqn:Ep.
  - destruct (tally_step n openwebui l t r Ht) as (t' & -> & Ht'); [congruence|].
    specialize (IH _ _ Ht'). destruct (for_each rs _ t') as [[[]|] t2].
    + rewrite <- app_assoc in IH. destruct IH as [IH1 IH2]. split; [done|].
      constructor; [|done]. unfold overflows. congruence.
    + by right.
  - unfold tally_record. cbv [mbind M_mbind get_state]. rewrite Ep. by left.
Qed.

(** ** Rows *)

#[export] Instance rows_cmp_Comparator {V} (requests : V → N) : Comparator (rows_cmp (V:=V) requests).
Proof.
  apply then_with_Comparator.
  - exact (on_Comparator (λ row : string * V, requests row.2) (flip_cmp N.compare)).
  - exact (on_Comparator (λ row : string * V, row.1) String.compare).
Qed.

(** Rows with one row per key that occurs, distinct names, the largest first and then by name. *)
Record rows_of {V} (key : LogRecord → option string) (ref : list LogRecord → V) (requests : V → N)
    (l : list LogRecord) (rows : list (string * V)) : Prop := {
  ro_elem : ∀ k v, (k, v) ∈ rows ↔ group key k l ≠ [] ∧ v = ref (group key k l);
  ro_names : NoDup rows.*1;
  ro_sorted : StronglySorted (cmp_le (rows_cmp requests)) rows;
}.

Lemma sorted_rows {V} key (ref : list LogRecord → V) requests l m :
  grouped key ref l m → rows_of key ref requests l (sorted_by_requests m requests).
Proof.
  intros Hg. unfold sorted_by_requests. split.
  - intros k v. rewrite sort_by_elem_of, elem_of_map_to_list, Hg.
    destruct (group key k l); naive_solver.
  - rewrite (sort_by_perm (rows_cmp requests) (map_to_list m)). apply NoDup_fst_map_to_list.
  - apply sort_by_sorted, _.
Qed.

(** The enumeration order of the table does not show. *)
Lemma sorted_any_order {V} (requests : V → N) (m : gmap string V) l :
  l ≡ₚ map_to_list m → sort_by (rows_cmp requests) l = sorted_by_requests m requests.
Proof.
  intros Hp. apply sort_by_unique; [apply _| |done].
  intros [k v] [k' v'] Hx Hy He. rewrite Hp in Hx, Hy. apply elem_of_map_to_list in Hx, Hy.
  unfold rows_cmp, then_with in He. cbn in He.
  destruct (requests v' ?= requests v)%N; try done. apply string_compare_Eq in He. subst k'. congruence.
Qed.

Lemma users_of_group l k :
  users_of (group (λ r, _ ← openwebui_user r; Some (key_bucket r)) k l)
  = users_of (group (Some ∘ key_bucket) k l).
Proof.
  unfold users_of. f_equal. induction l as [|r l IH]; [done|]. unfold group. cbn [List.filter].
  fold (group (λ r, _ ← openwebui_user r; Some (key_bucket r)) k l). fold (group (Some ∘ key_bucket) k l).
  cbn [compose]. destruct (openwebui_user r) as [user|] eqn:Eu; cbn.
  - case_bool_decide; [|exact IH]. cbn. rewrite Eu. by f_equal.
  - case_bool_decide; [done|]. case_bool_decide; [|exact IH]. cbn. by rewrite Eu.
Qed.

Lemma group_nil_users l k :
  group (Some ∘ key_bucket) k l = [] → group (λ r, _ ← openwebui_user r; Some (key_bucket r)) k l = [].
Proof.
  unfold group. rewrite !keep_none. intros Hn r Hr. specialize (Hn r Hr).
  apply bool_decide_eq_false in Hn. apply bool_decide_eq_false. intros He. apply Hn.
  destruct (openwebui_user r); cbn in *; congruence.
Qed.

(** The totals of a key, its users counted. *)
Definition key_ref (l : list LogRecord) : KeyTotals := key_totals_of (N.of_nat (size (users_of l))) l.

Lemma set_users_grouped l key_users keys :
  grouped (Some ∘ key_bucket) (key_totals_of 0) l keys →
  grouped (λ r, _ ← openwebui_user r; Some (key_bucket r)) users_of l key_users →
  grouped (Some ∘ key_bucket) key_ref l (set_users key_users keys).
Proof.
  intros Hk Hu k. unfold set_users. rewrite map_lookup_imap, Hk. specialize (Hu k).
  pose proof (users_of_group l k) as Hg. pose proof (group_nil_users l k) as Hn.
  destruct (group (Some ∘ key_bucket) k l) as [|r g]; [done|]. cbn [mbind option_bind]. rewrite Hu. f_equal.
  unfold key_ref. rewrite <- Hg.
  destruct (group (λ r, _ ← openwebui_user r; Some (key_bucket r)) k l) as [|u us]; [|done].
  unfold users_of. cbn. by rewrite size_empty.
Qed.

Lemma finished_grouped l accs :
  grouped l_backend_id backend_of l accs →
  grouped l_backend_id (λ g, BackendAccumulator_finish (backend_of g)) l (BackendAccumulator_finish <$> accs).
Proof. intros Hg k. rewrite lookup_fmap, Hg. by destruct (group l_backend_id k l). Qed.

(** ** Ends of the window *)

(** No record, or the text of a record none is before (for [le] the order of the start times). *)
Definition end_of (le : N → N → Prop) (l : list LogRecord) (at_ : option string) : Prop :=
  match at_ with
  | None => l = []
  | Some text => ∃ r, r ∈ l ∧ l_started_at r = text
                      ∧ ∀ r', r' ∈ l → le (l_started_at_unix_ms r) (l_started_at_unix_ms r')
  end.

(** A fold that keeps the better of two finds a best one. *)
Lemma fold_best (le : N → N → Prop) (key : LogRecord → N)
    (step : option LogRecord → LogRecord → option LogRecord) l best seen :
  Reflexive le → Transitive le →
  (∀ x, step None x = Some x) →
  (∀ b x, step (Some b) x = Some b ∧ le (key b) (key x) ∨ step (Some b) x = Some x ∧ le (key x) (key b)) →
  match best with
  | None => seen = []
  | Some b => b ∈ seen ∧ ∀ r, r ∈ seen → le (key b) (key r)
  end →
  match foldl step best l with
  | None => seen ++ l = []
  | Some b => b ∈ seen ++ l ∧ ∀ r, r ∈ seen ++ l → le (key b) (key r)
  end.
Proof.
  intros Hr Ht Hn Hb. revert best seen. induction l as [|x l IH]; intros best seen H; simpl.
  { by rewrite app_nil_r. }
  rewrite cons_middle, app_assoc. apply IH. destruct best as [b|].
  - destruct H as [Hin Hle].
    destruct (Hb b x) as [[-> Hbx]|[-> Hbx]]; (split; [set_solver|]);
      intros r; rewrite elem_of_app, list_elem_of_singleton; intros [Hr'| ->]; auto.
    transitivity (key b); [done|by apply Hle].
  - rewrite Hn. subst. split; [set_solver|]. intros r. cbn. rewrite list_elem_of_singleton. by intros ->.
Qed.

Lemma first_spec l : end_of N.le l (l_started_at <$> min_by_key l_started_at_unix_ms l).
Proof.
  set (step := λ best record, match best with
    | Some best => if (l_started_at_unix_ms record <? l_started_at_unix_ms best)%N
                   then Some record else Some best
    | None => Some record end).
  assert (∀ b x, step (Some b) x = Some b ∧ (l_started_at_unix_ms b <= l_started_at_unix_ms x)%N
               ∨ step (Some b) x = Some x ∧ (l_started_at_unix_ms x <= l_started_at_unix_ms b)%N) as Hb.
  { intros b x. unfold step. destruct (N.ltb_spec (l_started_at_unix_ms x) (l_started_at_unix_ms b)); auto with lia. }
  pose proof (fold_best N.le l_started_at_unix_ms step l None [] _ _ (λ x, eq_refl) Hb eq_refl) as H.
  cbn [app] in H. unfold end_of, min_by_key. fold step. destruct (foldl step None l) as [b|]; [|done].
  exists b. naive_solver.
Qed.

Lemma last_spec l : end_of N.ge l (l_started_at <$> max_by_key l_started_at_unix_ms l).
Proof.
  set (step := λ best record, match best with
    | Some best => if (l_started_at_unix_ms best <=? l_started_at_unix_ms record)%N
                   then Some record else Some best
    | None => Some record end).
  assert (∀ b x, step (Some b) x = Some b ∧ (l_started_at_unix_ms b >= l_started_at_unix_ms x)%N
               ∨ step (Some b) x = Some x ∧ (l_started_at_unix_ms x >= l_started_at_unix_ms b)%N) as Hb.
  { intros b x. unfold step. destruct (N.leb_spec (l_started_at_unix_ms b) (l_started_at_unix_ms x)); [right|left]; split; done || lia. }
  assert (Reflexive N.ge) as Hr by (intros x; lia).
  assert (Transitive N.ge) as Ht by (intros x y z; lia).
  pose proof (fold_best N.ge l_started_at_unix_ms step l None [] Hr Ht (λ x, eq_refl) Hb eq_refl) as H.
  cbn [app] in H. unfold end_of, max_by_key. fold step. destruct (foldl step None l) as [b|]; [|done].
  exists b. naive_solver.
Qed.

(** ** The whole summary *)

(** The cached share of the records that have one. *)
Definition hit_of (r : LogRecord) : option N :=
  match hit_pct r with Done pct => pct | Panicked => None end.

(** A summary with the counters, the distributions and the given window and rows. *)
Definition report_of (records : list LogRecord) (first_ last_ : option string)
    (key_rows principal_rows : list (string * KeyTotals)) (path_rows : list (string * PathTotals))
    (backend_rows : list (string * BackendTotals)) : Summary :=
  (summary_of (N.of_nat (length records)) (openwebui_keys_of records) records)
    <| first_at := first_ |>
    <| last_at := last_ |>
    <| latency_ms := from_values (l_duration_ms <$> records) |>
    <| input_tokens_seen := from_values (omap l_input_tokens records) |>
    <| output_tokens_seen := from_values (omap l_output_tokens records) |>
    <| cache_hit_pct_seen := from_values (omap hit_of records) |>
    <| first_token_ms := from_values (omap first_token_of records) |>
    <| per_output_token_us := from_values (omap per_token_of records) |>
    <| by_key := key_rows |>
    <| by_principal := principal_rows |>
    <| by_path := path_rows |>
    <| by_backend := backend_rows |>.

(** What a summary of [records] is. *)
Definition summarized (records : list LogRecord) (s : Summary) : Prop :=
  s = report_of records (first_at s) (last_at s) (by_key s) (by_principal s) (by_path s) (by_backend s)
  ∧ end_of N.le records (first_at s)
  ∧ end_of N.ge records (last_at s)
  ∧ rows_of (Some ∘ key_bucket) key_ref k_requests records (by_key s)
  ∧ rows_of (λ r, Some (principal_bucket r (openwebui_keys_of records))) (key_totals_of 0) k_requests
      records (by_principal s)
  ∧ rows_of (Some ∘ record_path) path_totals_of p_requests records (by_path s)
  ∧ rows_of l_backend_id (λ g, BackendAccumulator_finish (backend_of g)) (λ b, p_requests (b_totals b))
      records (by_backend s).

(** Every record is authorized or not, and has one class of status. *)
Lemma counts_partition l :
  (count l_authorized l + count (λ r, negb (l_authorized r)) l = N.of_nat (length l)
   ∧ count (λ r, bool_decide (l_status r = None)) l + count (has_class 1) l + count (has_class 2) l
     + count (has_class 3) l + count (has_class 4) l
     + count (λ r, bool_decide (is_Some (l_status r))
         && negb (has_class 1 r || has_class 2 r || has_class 3 r || has_class 4 r)) l
     = N.of_nat (length l))%N.
Proof.
  induction l as [|r l [IH1 IH2]] using rev_ind; [done|].
  rewrite !count_snoc, length_snoc. split.
  - destruct (l_authorized r); cbn; lia.
  - rewrite <- IH2. unfold has_class. destruct (l_status r) as [st|]; [|cbn; lia].
    generalize (st / 100)%N. intros c.
    destruct (N.eqb_spec c 1) as [->|?]; [cbn; lia|].
    destruct (N.eqb_spec c 2) as [->|?]; [cbn; lia|].
    destruct (N.eqb_spec c 3) as [->|?]; [cbn; lia|].
    destruct (N.eqb_spec c 4) as [->|?]; cbn; lia.
Qed.

Lemma tallied_start records :
  tallied (N.of_nat (length records)) (openwebui_keys_of records) []
    (tally_start records (openwebui_keys_of records)).
Proof. split; try reflexivity; apply grouped_nil. Qed.

Lemma tallied_finish records t :
  tallied (N.of_nat (length records)) (openwebui_keys_of records) records t →
  summarized records (tally_finish records t).
Proof.
  intros Ht. unfold summarized. split_and!.
  - unfold tally_finish, report_of.
    by rewrite (tl_summary _ _ _ _ Ht), (tl_latencies _ _ _ _ Ht), (tl_inputs _ _ _ _ Ht),
      (tl_outputs _ _ _ _ Ht), (tl_first _ _ _ _ Ht), (tl_per_token _ _ _ _ Ht), (tl_hits _ _ _ _ Ht).
  - apply first_spec.
  - apply last_spec.
  - apply sorted_rows, set_users_grouped; apply Ht.
  - apply sorted_rows, Ht.
  - apply sorted_rows, Ht.
  - apply sorted_rows, finished_grouped, Ht.
Qed.

(** C24: [summarize] is its reference definition.  It either reaches a record whose cached token count overflows the
    percentage, and nothing else stops it, or it counts: every counter, token total (stopping at the largest [u64]) and
    sample set is the one of the whole list, the window is the earliest and the latest start, and each table has
    exactly one row per key, principal, path or backend that occurs, holding the totals of that name's records, the
    largest first and then by name, for any enumeration order of the hash maps. *)
Theorem summary_spec (records : list LogRecord) :
  match summarize records with
  | Done s =>
      summarized records s ∧ Forall (λ r, ¬ overflows r) records
      ∧ (s_authorized s + s_rejected s = N.of_nat (length records))%N
      ∧ (s_no_status s + s_informational s + s_successful s + s_redirected s + s_client_errors s
         + s_server_errors s = N.of_nat (length records))%N
  | Panicked => Exists overflows records
  end
  ∧ (∀ (Totals : Type) (requests : Totals → N) m l, l ≡ₚ map_to_list m →
       sort_by (rows_cmp requests) l = sorted_by_requests m requests).
Proof.
  split; [|intros; by apply sorted_any_order]. unfold summarize.
  pose proof (tally_run _ (openwebui_keys_of records) records [] _ (tallied_start records)) as H.
  destruct (for_each records _ _) as [[[]|] t]; [|done]. destruct H as [Ht Hno]. cbn [app] in Ht.
  split; [by apply tallied_finish|]. split; [done|].
  destruct (counts_partition records) as [H1 H2].
  unfold tally_finish. rewrite (tl_summary _ _ _ _ Ht). exact (conj H1 H2).
Qed.

(** ** Percentiles *)

(** [v] is the nearest-rank [p]-th percentile: a value at or below which lie at least [p] percent of the values, while
    fewer lie strictly below it. *)
Definition nearest_rank (p : N) (values : list N) (v : N) : Prop :=
  v ∈ values
  ∧ (p * N.of_nat (length values) <= 100 * N.of_nat (length (keep (λ x, x <=? v)%N values)))%N
  ∧ (100 * N.of_nat (length (keep (λ x, x <? v)%N values)) < p * N.of_nat (length values))%N.

Lemma filter_all {A} (f : A → bool) l : (∀ x, x ∈ l → f x = true) → keep f l = l.
Proof.
  induction l as [|x l IH]; intros H; cbn; [done|].
  rewrite H by left. f_equal. apply IH. intros y Hy. apply H. by right.
Qed.

Lemma filter_mono {A} (f g : A → bool) l :
  (∀ x, f x = true → g x = true) → (length (keep f l) <= length (keep g l))%nat.
Proof.
  intros H. induction l as [|x l IH]; cbn; [done|]. destruct (f x) eqn:E.
  - rewrite (H x E). simpl. lia.
  - destruct (g x); simpl; lia.
Qed.

Lemma sorted_middle {A} (R : A → A → Prop) l v r :
  StronglySorted R (l ++ v :: r) → (∀ x, x ∈ l → R x v) ∧ (∀ x, x ∈ r → R v x).
Proof.
  induction l as [|y l IH]; cbn; inversion 1 as [|? ? Hs Hf]; subst.
  - split; [intros x Hx; by apply elem_of_nil in Hx|]. by apply Forall_forall.
  - destruct (IH Hs) as [H1 H2]. split; [|done]. intros x. rewrite elem_of_cons. intros [->|Hx]; [|by apply H1].
    rewrite Forall_forall in Hf. apply Hf. set_solver.
Qed.

(** In a sorted list, the [k]-th value has at least [k + 1] values at or below it and at most [k] below it. *)
Lemma sorted_rank l k v :
  StronglySorted (cmp_le N.compare) l → l !! k = Some v →
  (k < length (keep (λ x, x <=? v)%N l))%nat ∧ (length (keep (λ x, x <? v)%N l) <= k)%nat.
Proof.
  intros Hs Hk. pose proof (take_drop_middle l k v Hk) as E.
  pose proof (lookup_lt_Some _ _ _ Hk) as Hlt. rewrite <- E in Hs |- *.
  assert (length (take k l) = k) as Hlen by (rewrite length_take; lia).
  destruct (sorted_middle _ _ _ _ Hs) as [Hbelow Habove].
  rewrite !List.filter_app, !length_app. cbn [List.filter]. rewrite N.leb_refl, N.ltb_irrefl.
  assert (∀ x, x ∈ take k l → (x <=? v)%N = true) as Hle.
  { intros x Hx. by apply N.leb_le, N.compare_le_iff, Hbelow. }
  rewrite (filter_all _ _ Hle), Hlen. split; [cbn; lia|].
  assert (keep (λ x, x <? v)%N (drop (S k) l) = []) as ->.
  { apply keep_none. intros x Hx. by apply N.ltb_ge, N.compare_le_iff, Habove. }
  pose proof (List.filter_length_le (λ x, x <? v)%N (take k l)). cbn. lia.
Qed.

Lemma percentile_rank p values :
  (0 < p <= 100)%N → values ≠ [] → nearest_rank p values (percentile (sort_by N.compare values) p).
Proof.
  intros Hp Hne. set (s := sort_by N.compare values).
  assert (s ≡ₚ values) as Hperm by apply sort_by_perm.
  assert (length s = length values) as Hlen by apply sort_by_length.
  assert (0 < length values)%nat as Hpos by (destruct values; [done|simpl; lia]).
  unfold percentile, percentile_index. fold s. rewrite bool_decide_false by (intros E; rewrite E in Hlen; simpl in Hlen; lia).
  cbv zeta. set (len := N.of_nat (length s)).
  assert (len = N.of_nat (length values)) as Hl by (unfold len; by rewrite Hlen).
  pose proof (N.div_mod (len * p + 99) 100 ltac:(done)) as Hdm.
  pose proof (N.mod_lt (len * p + 99) 100 ltac:(done)) as Hmod.
  set (q := ((len * p + 99) / 100)%N) in *.
  assert (1 <= len)%N as Hlen1 by lia.
  assert (1 <= len * p <= len * 100)%N as Hlp by (clear - Hp Hlen1; nia).
  set (r := ((len * p + 99) mod 100)%N) in *. set (m := (len * p)%N) in *.
  assert (1 <= q <= len)%N as Hq by (clearbody q r m len; clear - Hdm Hmod Hlp; lia).
  replace (N.min (N.max 1 q) len) with q by lia.
  destruct (lookup_lt_is_Some_2 s (N.to_nat (q - 1))) as [v Hv]; [lia|].
  rewrite Hv. cbn [default]. destruct (sorted_rank s _ v (sort_by_sorted _ _) Hv) as [H1 H2].
  rewrite (Permutation_length (keep_perm _ _ _ Hperm)) in H1.
  rewrite (Permutation_length (keep_perm _ _ _ Hperm)) in H2.
  subst m. clearbody q r len. unfold nearest_rank, id. rewrite <- Hl.
  split_and!; [rewrite <- Hperm; by apply list_elem_of_lookup_2 in Hv|lia|lia].
Qed.

Lemma last_sorted l v :
  StronglySorted (cmp_le N.compare) l → last l = Some v → ∀ x, x ∈ l → (x <= v)%N.
Proof.
  intros Hs Hv x Hx. apply last_Some in Hv as [l' ->]. rewrite elem_of_app, list_elem_of_singleton in Hx.
  destruct Hx as [Hx| ->]; [|lia]. apply N.compare_le_iff. by apply (sorted_middle _ _ _ _ Hs).
Qed.

(** A distribution of samples has their number, the nearest-rank 50th and 95th percentile, which are samples, and
    the largest sample; without samples it is all zeroes.  The ranks never index past the samples. *)
Theorem percentile_spec (values : list N) :
  let d := from_values values in
  samples d = N.of_nat (length values)
  ∧ if bool_decide (values = []) then d = Distribution_default
    else nearest_rank 50 values (p50 d) ∧ nearest_rank 95 values (p95 d)
         ∧ d_max d ∈ values ∧ (∀ v, v ∈ values → v <= d_max d)%N ∧ (p50 d <= p95 d <= d_max d)%N
         ∧ (percentile_index (samples d) 50 < samples d)%N ∧ (percentile_index (samples d) 95 < samples d)%N.
Proof.
  cbv zeta. split; [cbn; by rewrite sort_by_length|]. case_bool_decide as Hne; [by subst|].
  destruct (percentile_rank 50 values) as (Hin50 & H50 & H50'); [lia|done|].
  destruct (percentile_rank 95 values) as (Hin95 & H95 & H95'); [lia|done|].
  assert (∃ m, last (sort_by N.compare values) = Some m) as [m Hm].
  { apply last_is_Some. intros E. apply Hne, length_zero_iff_nil. rewrite <- (sort_by_length N.compare). by rewrite E. }
  assert (∀ v, v ∈ values → (v <= m)%N) as Hmax.
  { intros v Hv. apply (last_sorted _ _ (sort_by_sorted _ _) Hm). by apply sort_by_elem_of. }
  assert (m ∈ values) as Hmin.
  { apply (sort_by_elem_of N.compare). apply last_Some in Hm as [l' ->]. set_solver. }
  assert (∀ p, percentile_index (N.of_nat (length values)) p < N.of_nat (length values))%N as Hix.
  { intros p. unfold percentile_index. destruct values; [done|]. cbn [length]. lia. }
  cbn [from_values samples p50 p95 d_max]. rewrite sort_by_length, Hm. cbn [default].
  split_and!; try done; [|by apply Hmax|apply Hix..].
  destruct (N.le_gt_cases (percentile (sort_by N.compare values) 50) (percentile (sort_by N.compare values) 95))
    as [|Hgt]; [done|exfalso].
  assert (length (keep (λ x, x <=? percentile (sort_by N.compare values) 95)%N values)
          <= length (keep (λ x, x <? percentile (sort_by N.compare values) 50)%N values))%nat as Hle.
  { apply filter_mono. intros x Hx. apply N.leb_le in Hx. apply N.ltb_lt. lia. }
  lia.
Qed.
