(* ===== verification/LogText.v ===== *)
(** * [src/src/logs.rs]: what the log commands print

    Numbers and durations, the percentile table, the summary as text, and the
    writer that takes a closed pipe for a normal end.  A path is the text its
    [display] writes; the log browser is a parameter of [run]. *)

From S2P Require Import Prelude RustStd Float64 Text Disk Logs Summary.

(** ** Numbers *)

(** src/src/logs.rs:641-652 [thousands] *)
Definition thousands (value : N) : string :=
  let digits := show_N value in
  str (mjoin (imap (λ index digit,
    (if (0 <? index) && bool_decide ((length digits - index) mod 3 = 0) then [","%char] else []) ++ [digit])
    digits)).

(** The micro sign. *)
Definition MICRO : string := str [ascii_of_N 194; ascii_of_N 181].

(** src/src/logs.rs:655-661 [rate] *)
Definition rate (micros : N) : string :=
  if (micros <? 1000)%N then to_string micros +:+ MICRO +:+ "s"
  else if (micros <? 1000000)%N then fmt_1 (fdiv (f64_of_N micros) (f64_of_N 1000)) +:+ "ms"
  else fmt_1 (fdiv (f64_of_N micros) (f64_of_N 1000000)) +:+ "s".

(** src/src/logs.rs:664-670 [duration] *)
Definition duration (ms : N) : string :=
  if (ms <? 1000)%N then to_string ms +:+ "ms"
  else if (ms <? 60000)%N then fmt_1 (fdiv (f64_of_N ms) (f64_of_N 1000)) +:+ "s"
  else to_string (ms / 60000) +:+ "m" +:+ padded 2 (ms mod 60000 / 1000) +:+ "s".

(** The horizontal ellipsis. *)
Definition ELLIPSIS : bytes := [ascii_of_N 226; ascii_of_N 128; ascii_of_N 166].

(** src/src/logs.rs:926-935 [truncate] *)
Definition truncate (text : string) (width : nat) : string :=
  if chars text <=? width then text else str (take_chars (width - 1) (bs text) ++ ELLIPSIS).

(** ** The percentile table *)

(** src/src/logs.rs:869-874 [PercentileRow] *)
Record PercentileRow := mkPercentileRow {
  row_p50 : string;
  row_p95 : string;
  row_max : string;
  row_samples : string;
}.

(** src/src/logs.rs:876-892 [formatted] *)
Definition formatted (distribution : Distribution) (render : N → string) : PercentileRow :=
  if (samples distribution =? 0)%N
  then {| row_p50 := "-"; row_p95 := "-"; row_max := "-"; row_samples := "0" |}
  else {| row_p50 := render (p50 distribution);
          row_p95 := render (p95 distribution);
          row_max := render (d_max distribution);
          row_samples := thousands (samples distribution) |}.

(** src/src/logs.rs:835-841 [distribution_p95] *)
Definition distribution_p95 (distribution : Distribution) : string :=
  if (samples distribution =? 0)%N then "-" else duration (p95 distribution).

(** src/src/logs.rs:898-924 [percentile_rows] *)
Definition percentile_rows (summary : Summary) : list (string * PercentileRow) :=
  [("input tokens"%string, formatted (input_tokens_seen summary) thousands);
   ("output tokens"%string, formatted (output_tokens_seen summary) thousands);
   ("first token"%string, formatted (first_token_ms summary) duration);
   ("per output token"%string, formatted (per_output_token_us summary) rate);
   ("total latency"%string, formatted (latency_ms summary) duration)]
  ++ (if (0 <? s_cached_tokens summary)%N
      then [("cache hit %"%string, formatted (cache_hit_pct_seen summary) (λ pct, to_string pct +:+ "%"))]
      else []).

(** ** The summary as text *)

(** src/src/logs.rs, lines 702-713 of [summary_lines]: the file, the window and what could not be read *)
Definition window_lines (path : string) (s : Summary) (malformed : N) : list string :=
  [path]
  ++ match first_at s, last_at s with
     | Some first, Some last =>
         [thousands (s_requests s) +:+ " requests from " +:+ first +:+ " to " +:+ last]
     | _, _ => ["no requests recorded"%string]
     end
  ++ (if (0 <? malformed)%N then [to_string malformed +:+ " unreadable line(s) skipped"] else []).

(** src/src/logs.rs, lines 718-752 of [summary_lines]: the counters; [Panicked] is the overflow of the token total *)
Definition counter_lines (s : Summary) : outcome (list string) :=
  if negb (s_input_tokens s + s_output_tokens s <=? U64_MAX)%N then Panicked else
  Done ["  requests   " +:+ pad_start 10 (thousands (s_requests s)) +:+ "   authorized "
          +:+ to_string (s_authorized s) +:+ "   rejected " +:+ to_string (s_rejected s)
          +:+ "   incomplete " +:+ to_string (s_incomplete s);
        "  statuses   2xx " +:+ to_string (s_successful s) +:+ "   3xx " +:+ to_string (s_redirected s)
          +:+ "   4xx " +:+ to_string (s_client_errors s) +:+ "   5xx " +:+ to_string (s_server_errors s)
          +:+ "   none " +:+ to_string (s_no_status s);
        "  tokens     " +:+ pad_start 10 (thousands (s_input_tokens s)) +:+ " in   "
          +:+ thousands (s_output_tokens s) +:+ " out   "
          +:+ thousands (s_input_tokens s + s_output_tokens s) +:+ " total";
        "  cache      " +:+ pad_start 10 (thousands (s_cached_tokens s)) +:+ " cached   "
          +:+ match Summary_cache_hit_pct s with Some pct => fmt_1 pct +:+ "%" | None => "-" end
          +:+ " of input   " +:+ thousands (s_prefilled_tokens s) +:+ " prefilled";
        "  shape      " +:+ pad_start 10 (thousands (s_streaming s)) +:+ " streaming   "
          +:+ thousands (s_non_streaming s) +:+ " non-streaming"]%string.

(** src/src/logs.rs, lines 755-764 of [summary_lines]: the percentiles *)
Definition percentile_lines (s : Summary) : list string :=
  let row name p50 p95 max samples := columns 20 name [(12, p50); (12, p95); (12, max); (10, samples)] in
  row "" "P50" "P95" "MAX" "SAMPLES"
  :: ((λ '(name, r), row name (row_p50 r) (row_p95 r) (row_max r) (row_samples r)) <$> percentile_rows s).

(** src/src/logs.rs, lines 772-781 of [summary_lines]: one principal *)
Definition principal_line (row : string * KeyTotals) : string :=
  let '(name, totals) := row in
  columns 24 (truncate name 23)
    [(10, thousands (k_requests totals)); (12, thousands (k_input_tokens totals));
     (12, thousands (k_cached_tokens totals)); (12, thousands (k_prefilled_tokens totals));
     (12, thousands (k_output_tokens totals)); (7, to_string (k_errors totals))].

(** src/src/logs.rs, lines 767-782 of [summary_lines] *)
Definition principal_lines (s : Summary) : list string :=
  columns 24 "PRINCIPAL" [(10, "REQUESTS"); (12, "IN"); (12, "CACHED"); (12, "PREFILLED"); (12, "OUT");
                          (7, "ERRORS")]%string
  :: (principal_line <$> by_principal s).

(** src/src/logs.rs, lines 790-798 of [summary_lines]: one endpoint *)
Definition path_line (row : string * PathTotals) : string :=
  let '(path, totals) := row in
  columns 34 (truncate path 33)
    [(10, thousands (p_requests totals)); (12, thousands (p_input_tokens totals));
     (12, thousands (p_cached_tokens totals)); (12, thousands (p_prefilled_tokens totals));
     (12, thousands (p_output_tokens totals))].

(** src/src/logs.rs, lines 785-799 of [summary_lines] *)
Definition path_lines (s : Summary) : list string :=
  columns 34 "ENDPOINT" [(10, "REQUESTS"); (12, "IN"); (12, "CACHED"); (12, "PREFILLED"); (12, "OUT")]%string
  :: (path_line <$> by_path s).

(** src/src/logs.rs, lines 812-828 of [summary_lines]: one backend *)
Definition backend_line (routed : N) (row : string * BackendTotals) : string :=
  let '(backend, totals) := row in
  let requests := p_requests (b_totals totals) in
  let share := if (routed =? 0)%N then f64_zero
               else fdiv (fmul (f64_of_N requests) (f64_of_N 100)) (f64_of_N routed) in
  columns 18 (truncate backend 17)
    [(10, thousands requests); (0, pad_start 7 (fmt_1 share) +:+ "%");
     (12, thousands (p_input_tokens (b_totals totals))); (12, thousands (p_cached_tokens (b_totals totals)));
     (12, thousands (p_prefilled_tokens (b_totals totals))); (12, thousands (p_output_tokens (b_totals totals)));
     (9, to_string (p_errors (b_totals totals)))].

(** src/src/logs.rs, lines 801-830 of [summary_lines] *)
Definition backend_lines (s : Summary) : list string :=
  match by_backend s with
  | [] => []
  | rows =>
      let routed := foldr N.add 0%N ((λ '(_, totals), p_requests (b_totals totals)) <$> rows) in
      ""%string
      :: columns 18 "BACKEND" [(10, "REQUESTS"); (8, "SHARE"); (12, "IN"); (12, "CACHED"); (12, "PREFILLED");
                               (12, "OUT"); (9, "ERRORS")]%string
      :: (backend_line routed <$> rows)
  end.

(** src/src/logs.rs:702-833 [summary_lines] *)
Definition summary_lines (path : string) (s : Summary) (malformed : N) : outcome (list string) :=
  let lines := window_lines path s malformed in
  if (s_requests s =? 0)%N then Done lines else
  match counter_lines s with
  | Panicked => Panicked
  | Done counters =>
      Done (lines ++ [EmptyString] ++ counters ++ [EmptyString] ++ percentile_lines s
            ++ [EmptyString] ++ principal_lines s ++ [EmptyString] ++ path_lines s ++ backend_lines s)
  end.

(** ** Standard output *)

(** src/src/logs.rs:860-866 [pipe_ok] *)
Definition pipe_ok (error : IoError) : result IoError () :=
  if bool_decide (kind error = BrokenPipe) then Ok () else Err error.

Section Stdout.

(** The error of the write of a line, by the number of lines written before, and of the flush. *)
Context (on_line : nat → option IoError) (on_flush : option IoError).

(** src/src/logs.rs:846-858 [write_lines]; the state is the lines standard output took *)
Fixpoint write_lines (lines : list string) : M (list string) (result IoError ()) :=
  match lines with
  | line :: lines =>
      out ← get_state;
      match on_line (length out) with
      | Some error => mret (pipe_ok error)
      | None => _ ← modify (λ out, out ++ [line]); write_lines lines
      end
  | [] => mret (match on_flush with Some error => pipe_ok error | None => Ok () end)
  end.

(** src/src/logs.rs:697-699 [print_summary] *)
Definition print_summary (path : string) (s : Summary) (malformed : N) : M (list string) (result IoError ()) :=
  lines ← expect (match summary_lines path s malformed with Done lines => Some lines | Panicked => None end);
  write_lines lines.
End Stdout.

(** [Box<dyn Error>] *)
Inductive BoxError := Message (text : string) | Io (error : IoError).

Section Run.
Context (from_slice : bytes → option LogRecord) (files : Files) (faults : PollFaults).
Context (on_line : nat → option IoError) (on_flush : option IoError).
Context (explore : string → Tail → list LogRecord → M (list string) (result BoxError ())).

(** src/src/logs.rs:673-694 [run] *)
Definition run (path : string) (summary_only : bool) : M (list string) (result BoxError ()) :=
  if bool_decide (path = "-"%string)
  then mret (Err (Message "cannot read the audit log from stdout; pass --log-file <PATH>")) else
  if negb (bool_decide (is_Some (at_path files)))
  then mret (Err (Message ("no audit log at " +:+ path +:+ ". Start the proxy, or pass --log-file <PATH>."))) else
  match poll from_slice files faults Tail_new with
  | (Panicked, _) => panic
  | (Done (Err error), _) => mret (Err (Io error))
  | (Done (Ok appended), tail) =>
      if summary_only
      then s ← expect (match summarize (records appended) with Done s => Some s | Panicked => None end);
           printed ← print_summary on_line on_flush path s (malformed tail);
           mret (map_err Io printed)
      else explore path tail (records appended)
  end.
End Run.

(** ** Thousands *)

Definition comma_before (len index : nat) (digit : ascii) : bytes :=
  (if (0 <? index) && bool_decide ((len - index) mod 3 = 0) then [","%char] else []) ++ [digit].

Lemma thousands_eq value :
  thousands value = str (mjoin (imap (comma_before (length (show_N value))) (show_N value))).
Proof. done. Qed.

(** The digits of the thousands, a comma, and three digits. *)
Lemma group_three (d : bytes) a b c :
  d ≠ [] →
  mjoin (imap (comma_before (length (d ++ [a; b; c]))) (d ++ [a; b; c]))
  = mjoin (imap (comma_before (length d)) d) ++ [","; a; b; c]%char.
Proof.
  intros Hd. assert (0 < length d) as Hl by (destruct d; [done|simpl; lia]).
  rewrite imap_app, join_app, length_app. cbn [length]. f_equal.
  - f_equal. apply imap_ext. intros i x Hi. apply lookup_lt_Some in Hi. unfold comma_before.
    replace (length d + 3 - i) with (length d - i + 1 * 3) by lia. by rewrite Nat.Div0.mod_add.
  - cbn. unfold comma_before. rewrite (proj2 (Nat.ltb_lt 0 (length d + 0))) by lia.
    replace (length d + 3 - (length d + 0)) with 3 by lia.
    replace (length d + 3 - (length d + 1)) with 2 by lia.
    replace (length d + 3 - (length d + 2)) with 1 by lia. rewrite !andb_false_r. done.
Qed.

Lemma thousands_small n : (n < 1000)%N → thousands n = to_string n.
Proof.
  intros Hn. rewrite thousands_eq. unfold to_string. f_equal.
  pose proof (show_N_length n 2 Hn) as Hl.
  destruct (show_N n) as [|a [|b [|c [|d l]]]]; simpl in Hl; try lia; done.
Qed.

Definition three_digits (n : N) : string :=
  str [digit (n / 100 mod 10); digit (n / 10 mod 10); digit (n mod 10)].

Lemma thousands_big n :
  (1000 <= n)%N → thousands n = thousands (n / 1000) +:+ "," +:+ three_digits n.
Proof.
  intros Hn. rewrite !thousands_eq. rewrite (show_N_thousand n) by done.
  rewrite group_three by apply show_N_nonempty. rewrite str_app. done.
Qed.

Lemma keep_digits l : Forall (λ x, is_ascii_digit x = true) l → keep (λ x, negb (Ascii.eqb x ",")) l = l.
Proof.
  induction 1 as [|x l Hx _ IH]; [done|]. cbn. rewrite IH. by destruct (Ascii.eqb_spec x ",") as [->|].
Qed.

Lemma keep_commas len l :
  Forall (λ x, is_ascii_digit x = true) l →
  ∀ k, keep (λ x, negb (Ascii.eqb x ",")) (mjoin (imap (λ i, comma_before len (k + i)) l)) = l.
Proof.
  induction 1 as [|x l Hx Hl IH]; intros k; [done|].
  rewrite imap_cons. cbn [mjoin list_join]. rewrite List.filter_app. cbn.
  transitivity ([x] ++ l); [|done]. f_equal.
  - unfold comma_before. rewrite List.filter_app, (keep_digits [x]) by by repeat constructor.
    by destruct ((0 <? k + 0) && _).
  - rewrite <- (IH (S k)) at 2. do 2 f_equal. apply imap_ext. intros i y _. cbn. by rewrite Nat.add_succ_r.
Qed.

(** [thousands] writes the decimal digits of the number, with a comma before every full group of three counted from
    the right: the text without its commas is the number's, and a number from 1,000 on is written as its thousands, a
    comma and three digits. *)
Theorem thousands_spec (n : N) :
  thousands n = (if (n <? 1000)%N then to_string n else thousands (n / 1000) +:+ "," +:+ three_digits n)
  ∧ keep (λ x, negb (Ascii.eqb x ",")) (bs (thousands n)) = show_N n
  ∧ parse_unsigned n (keep (λ x, negb (Ascii.eqb x ",")) (bs (thousands n))) = Some n.
Proof.
  assert (keep (λ x, negb (Ascii.eqb x ",")) (bs (thousands n)) = show_N n) as Hk.
  { rewrite thousands_eq, bs_str. apply (keep_commas _ _ (show_N_digits n) 0). }
  rewrite Hk. split_and!; [|done|by apply parse_unsigned_show].
  destruct (N.ltb_spec n 1000); [by apply thousands_small|by apply thousands_big].
Qed.

Lemma chars_three n : chars (three_digits n) = 3.
Proof.
  unfold three_digits. unfold chars. rewrite bs_str, digits_chars; [done|].
  repeat constructor; apply is_ascii_digit_digit, N.mod_lt; done.
Qed.

Lemma chars_thousands n k :
  (n < 10 ^ N.of_nat (S k))%N → chars (thousands n) ≤ S k + k / 3.
Proof.
  revert n. induction k as [k IH] using (well_founded_induction lt_wf). intros n Hn.
  destruct (N.lt_ge_cases n 1000) as [Hs|Hb].
  { rewrite thousands_small, chars_to_string by done. pose proof (show_N_length n k Hn). lia. }
  rewrite thousands_big, !chars_app, chars_three by done. change (chars ",") with 1.
  destruct k as [|[|[|k]]].
  1-3: exfalso; cbn in Hn; lia.
  assert (chars (thousands (n / 1000)) ≤ S k + k / 3) as H.
  { apply IH; [lia|]. apply N.Div0.div_lt_upper_bound. replace (N.of_nat (S (S (S (S k))))) with (3 + N.of_nat (S k))%N in Hn by lia.
    by rewrite N.pow_add_r in Hn. }
  replace (S (S (S k)) / 3) with (k / 3 + 1); [lia|].
  replace (S (S (S k))) with (k + 1 * 3) by lia. by rewrite Nat.div_add.
Qed.

(** ** Aligned tables *)

Lemma chars_truncate text width : 0 < width → chars (truncate text width) ≤ width.
Proof.
  intros Hw. unfold truncate. destruct (Nat.leb_spec (chars text) width) as [|_]; [done|].
  rewrite str_app, chars_app. change (chars (str ELLIPSIS)) with 1.
  unfold chars. rewrite bs_str. pose proof (chars_take (width - 1) (bs text)). lia.
Qed.

(** A count of at most eight digits, and an amount of at most nine. *)
Definition short_count (n : N) : Prop := (n < 10 ^ 8)%N.
Definition short_amount (n : N) : Prop := (n < 10 ^ 9)%N.

Lemma chars_count_cell n : short_count n → chars (thousands n) ≤ 10.
Proof. intros H. etransitivity; [exact (chars_thousands n 7 H)|done]. Qed.

Lemma chars_amount_cell n : short_amount n → chars (thousands n) ≤ 12.
Proof. intros H. etransitivity; [exact (chars_thousands n 8 H)|cbv; lia]. Qed.

Lemma chars_number n k : (n < 10 ^ N.of_nat (S k))%N → chars (to_string n) ≤ S k.
Proof. rewrite chars_to_string. apply show_N_length. Qed.

(** Totals whose numbers fit their columns. *)
Definition short_key (t : KeyTotals) : Prop :=
  short_count (k_requests t) ∧ (k_errors t < 10 ^ 7)%N ∧ short_amount (k_input_tokens t)
  ∧ short_amount (k_output_tokens t) ∧ short_amount (k_cached_tokens t) ∧ short_amount (k_prefilled_tokens t).
Definition short_path (t : PathTotals) : Prop :=
  short_count (p_requests t) ∧ short_amount (p_input_tokens t)
  ∧ short_amount (p_output_tokens t) ∧ short_amount (p_cached_tokens t) ∧ short_amount (p_prefilled_tokens t).

Create HintDb cells discriminated.
#[local] Hint Resolve chars_count_cell chars_amount_cell : cells.

(** The tables of the printed summary are aligned: whatever the names of the principals and the paths, which may be
    of any length and hold characters of several bytes, every row and the header have the same number of characters,
    as long as counts stay below a hundred million and token totals below a billion. *)
Theorem tables_aligned (s : Summary)
    (Hkeys : ∀ name totals, (name, totals) ∈ by_principal s → short_key totals)
    (Hpaths : ∀ path totals, (path, totals) ∈ by_path s → short_path totals) :
  (∀ line, line ∈ principal_lines s → chars line = 91) ∧ (∀ line, line ∈ path_lines s → chars line = 94).
Proof.
  split; intros line; [unfold principal_lines|unfold path_lines];
    rewrite elem_of_cons, list_elem_of_fmap; intros [->|([name t] & -> & Hin)]; [by vm_compute| |by vm_compute|].
  - destruct (Hkeys _ _ Hin) as (? & He & ? & ? & ? & ?). pose proof (chars_number _ 6 He).
    pose proof (chars_truncate name 23 ltac:(lia)).
    unfold principal_line. rewrite chars_columns; [done|lia|]. repeat (apply Forall_cons; split); auto with cells.
  - destruct (Hpaths _ _ Hin) as (? & ? & ? & ? & ?). pose proof (chars_truncate name 33 ltac:(lia)).
    unfold path_line. rewrite chars_columns; [done|lia|]. repeat (apply Forall_cons; split); auto with cells.
Qed.

(** ** What is printed *)

Section Printing.
Context (on_line : nat → option IoError) (on_flush : option IoError).

(** The first of some lines whose write fails. *)
Fixpoint first_fault (n : nat) (lines : list string) : option (nat * IoError) :=
  match lines with
  | [] => None
  | _ :: lines => match on_line n with Some error => Some (n, error) | None => first_fault (S n) lines end
  end.

(** What standard output takes, and the result. *)
Definition printed (lines : list string) : outcome (result IoError ()) * list string :=
  match first_fault 0 lines with
  | Some (n, error) => (Done (pipe_ok error), take n lines)
  | None => (Done (match on_flush with Some error => pipe_ok error | None => Ok () end), lines)
  end.

Lemma write_lines_run lines out :
  write_lines on_line on_flush lines out
  = match first_fault (length out) lines with
    | Some (n, error) => (Done (pipe_ok error), out ++ take (n - length out) lines)
    | None => (Done (match on_flush with Some error => pipe_ok error | None => Ok () end), out ++ lines)
    end.
Proof.
  revert out. induction lines as [|line lines IH]; intros out; cbn [write_lines first_fault].
  { by rewrite app_nil_r. }
  cbv [mbind M_mbind get_state]. destruct (on_line (length out)) as [error|] eqn:E.
  { by rewrite Nat.sub_diag, app_nil_r. }
  cbv [modify]. rewrite IH, length_app. cbn [length]. replace (length out + 1) with (S (length out)) by lia.
  assert (∀ n k error, first_fault k lines = Some (n, error) → k ≤ n) as Hge.
  { clear. induction lines as [|l lines IH]; intros n k error; cbn; [done|].
    destruct (on_line k); intros H; simplify_eq; [done|]. apply IH in H. lia. }
  destruct (first_fault (S (length out)) lines) as [[n error]|] eqn:Ef; rewrite <- app_assoc; [|done].
  apply Hge in Ef. replace (n - length out) with (S (n - S (length out))) by lia. done.
Qed.

Lemma write_lines_printed lines : write_lines on_line on_flush lines [] = printed lines.
Proof.
  rewrite write_lines_run. unfold printed. cbn. destruct (first_fault 0 lines) as [[n error]|]; [|done].
  by rewrite Nat.sub_0_r.
Qed.

(** The text of a log: its lines, or the panic of a sum. *)
Definition log_text (from_slice : bytes → option LogRecord) (path : string) (log : bytes) : outcome (list string) :=
  match summarize (records_in from_slice log) with
  | Panicked => Panicked
  | Done s => summary_lines path s (N.min U64_MAX (unreadable from_slice (split_lines log).1))
  end.

(** [logs --summary] on a log that can be read prints the summary of the records in the complete lines of the file,
    with the number of lines it could not read.  A reader that closes the pipe ends the output after any line without
    an error; any other failing write is reported, after the lines before it.  It panics exactly when a sum overflows:
    the percentage of a record, or the input and output totals together. *)
Theorem summary_printed from_slice files explore i path
    (Hfile : at_path files = Some i) (Hpath : path ≠ "-"%string) :
  let log := content files i in
  run from_slice files no_poll_faults on_line on_flush explore path true []
  = match log_text from_slice path log with
    | Panicked => (Panicked, [])
    | Done lines => let '(r, out) := printed lines in
                    (match r with Done r => Done (map_err Io r) | Panicked => Panicked end, out)
    end
  ∧ (log_text from_slice path log = Panicked ↔
     summarize (records_in from_slice log) = Panicked
     ∨ ∃ s, summarize (records_in from_slice log) = Done s ∧ s_requests s ≠ 0%N
            ∧ (U64_MAX < s_input_tokens s + s_output_tokens s)%N).
Proof.
  cbv zeta. split.
  - unfold run. rewrite bool_decide_false, Hfile by done. cbn [negb].
    rewrite bool_decide_true by by eexists. cbn [negb].
    destruct (first_poll from_slice files i Hfile) as (t & -> & Hm). cbn [records]. unfold log_text.
    destruct (summarize (records_in from_slice (content files i))) as [s|]; [|done].
    cbv [mbind M_mbind expect mret M_mret]. unfold print_summary. rewrite Hm.
    destruct (summary_lines path s _) as [lines|]; [|done].
    cbv [mbind M_mbind expect mret M_mret]. rewrite write_lines_printed. by destruct (printed lines) as [[r|] out].
  - unfold log_text, summary_lines, counter_lines.
    destruct (summarize _) as [s|]; [|by split; [left|]].
    destruct (N.eqb_spec (s_requests s) 0); [split; naive_solver|].
    destruct (N.leb_spec (s_input_tokens s + s_output_tokens s) U64_MAX); cbn [negb]; split;
      [done|intros [?|(s' & ? & _ & ?)]; [done|simplify_eq; lia]|intros _; right; by exists s|done].
Qed.
End Printing.

(** ** Concrete cases *)

Example text_cases :
  thousands 1234567 = "1,234,567"%string ∧ thousands 0 = "0"%string
  ∧ duration 999 = "999ms"%string ∧ duration 1500 = "1.5s"%string ∧ duration 61000 = "1m01s"%string
  ∧ rate 12345 = "12.3ms"%string ∧ truncate "abcdef" 4 = ("abc" +:+ str ELLIPSIS)%string.
Proof. by vm_compute. Qed.

Definition demo_summary : Summary :=
  Summary_default
    <| s_requests := 2%N |>
    <| by_principal := [("alice"%string, KeyTotals_default <| k_requests := 12345678%N |>);
                        ("a key with a very long name"%string, KeyTotals_default <| k_errors := 7%N |>)] |>
    <| by_path := [("/v1/models"%string, PathTotals_default)] |>.

Lemma tables_aligned_witness :
  (∀ line, line ∈ principal_lines demo_summary → chars line = 91) ∧ length (principal_lines demo_summary) = 3.
Proof.
  split; [|done]. apply (tables_aligned demo_summary).
  - intros name totals Hin%list_elem_of_In. destruct Hin as [[= _ <-]|[[= _ <-]|[]]]; by vm_compute.
  - intros path totals Hin%list_elem_of_In. destruct Hin as [[= _ <-]|[]]; by vm_compute.
Defined.

(** A pipe closed after [n] lines. *)
Definition closed_after (n : nat) : nat → option IoError :=
  λ k, if n <=? k then Some {| kind := BrokenPipe; io_message := "broken pipe" |} else None.

Definition demo_log : bytes := bs "{a}" ++ LF :: bs "oops" ++ [LF].

Lemma summary_printed_witness :
  run demo_slice (demo_file 1 demo_log) no_poll_faults (closed_after 3) None (λ _ _ _, mret (Ok ()))
    "requests.jsonl" true []
  = (Done (Ok ()), ["requests.jsonl"; "1 requests from  to "; "1 unreadable line(s) skipped"]%string).
Proof.
  destruct (summary_printed (closed_after 3) None demo_slice (demo_file 1 demo_log) (λ _ _ _, mret (Ok ())) 1
    "requests.jsonl") as [-> _]; [reflexivity|discriminate|]. vm_compute. reflexivity.
Defined.
