(* ===== verification/Terminal.v ===== *)
(** * [src/src/render.rs] and the terminal

    The key presses [crossterm] reports, as far as the views tell them apart,
    and the window of an off-screen table that the views draw.  Drawing a table
    into a buffer of its own is [ratatui]'s and a parameter. *)

From S2P Require Import Prelude RustStd.

(** ** Key presses *)

(** [KeyCode]; a character is its UTF-8 text. *)
Inductive KeyCode :=
  | Up | Down | Left | Right | Home | End_ | PageUp | PageDown | Enter | Esc | Delete | Backspace | Tab | BackTab
  | Char (c : string) | OtherKey.

#[export] Instance KeyCode_eq_dec : EqDecision KeyCode.
Proof. solve_decision. Defined.

(** [Event]: a key with whether it was pressed (and not released or repeated) and the Control modifier. *)
Inductive Event := Key (code : KeyCode) (press control : bool) | OtherEvent.

(** The press of Control-C every view ends on. *)
Definition interrupt (control : bool) (code : KeyCode) : bool := control && bool_decide (code = Char "c").

Definition is_key (codes : list KeyCode) (code : KeyCode) : bool := bool_decide (code ∈ codes).

(** src/src/render.rs:17-17 [SCROLL_STEP] *)
Definition SCROLL_STEP : N := 8.

Definition U16_MAX : N := 65535.

(** ** The scrolled table *)

Record Rect := mkRect { r_x : N; r_y : N; r_width : N; r_height : N }.

Section Render.
Context {Cell : Type}.

(** A buffer of cells; indexing outside it panics. *)
Record Buffer := mkBuffer { b_width : N; b_height : N; cell : N → N → Cell }.

Definition read_cell (b : Buffer) (x y : N) : option Cell :=
  if (x <? b_width b)%N && (y <? b_height b)%N then Some (cell b x y) else None.

Definition write_cell (x y : N) (c : Cell) : M Buffer () :=
  b ← get_state;
  if (x <? b_width b)%N && (y <? b_height b)%N
  then modify (λ b, {| b_width := b_width b; b_height := b_height b;
                       cell := λ i j, if (i =? x)%N && (j =? y)%N then c else cell b i j |})
  else panic.

(** The sum of two [u16]. *)
Definition u16_add (a b : N) : option N := checked_add U16_MAX a b.

(** src/src/render.rs, lines 37-43 of [render_scrolled_table]: one row of the window *)
Fixpoint blit_row (offscreen : Buffer) (area : Rect) (width scroll y : N) (xs : list N) : M Buffer () :=
  match xs with
  | [] => mret ()
  | x :: xs =>
      source ← expect (u16_add scroll x);
      if (width <=? source)%N then mret () else
      to_x ← expect (u16_add (r_x area) x);
      to_y ← expect (u16_add (r_y area) y);
      c ← expect (read_cell offscreen source y);
      _ ← write_cell to_x to_y c;
      blit_row offscreen area width scroll y xs
  end.

(** [0..n] *)
Definition range (n : N) : list N := N.of_nat <$> seq 0 (N.to_nat n).

(** src/src/render.rs:20-47 [render_scrolled_table]; [render] draws the table into a buffer of a width and height *)
Definition render_scrolled_table (render : N → N → N → N → Cell) (area : Rect) (natural_width scroll : N) :
    M Buffer () :=
  if (r_width area =? 0)%N || (r_height area =? 0)%N then mret () else
  let width := N.max natural_width (r_width area) in
  let scroll := N.min scroll (width - r_width area) in
  let offscreen := {| b_width := width; b_height := r_height area; cell := render width (r_height area) |} in
  for_each (range (r_height area)) (λ y, blit_row offscreen area width scroll y (range (r_width area))).

(** ** The window *)

Lemma write_cell_run x y c b :
  (x < b_width b)%N → (y < b_height b)%N →
  write_cell x y c b = (Done (), {| b_width := b_width b; b_height := b_height b;
                                    cell := λ i j, if (i =? x)%N && (j =? y)%N then c else cell b i j |}).
Proof.
  intros Hx Hy. unfold write_cell. cbv [mbind M_mbind get_state].
  by rewrite (proj2 (N.ltb_lt _ _) Hx), (proj2 (N.ltb_lt _ _) Hy).
Qed.

(** What a row of the window writes. *)
Lemma blit_row_run (offscreen : Buffer) (area : Rect) (width scroll y : N) n k b :
  (b_width b <= U16_MAX)%N → (b_height b <= U16_MAX)%N → (width <= U16_MAX)%N →
  b_width offscreen = width → (y < b_height offscreen)%N →
  (scroll + N.of_nat (k + n) <= width)%N →
  (r_x area + N.of_nat (k + n) <= b_width b)%N → (r_y area + y < b_height b)%N →
  ∃ b', blit_row offscreen area width scroll y (N.of_nat <$> seq k n) b = (Done (), b')
    ∧ b_width b' = b_width b ∧ b_height b' = b_height b
    ∧ ∀ i j, cell b' i j =
        if (j =? r_y area + y)%N && (r_x area + N.of_nat k <=? i)%N && (i <? r_x area + N.of_nat (k + n))%N
        then cell offscreen (scroll + (i - r_x area)) y else cell b i j.
Proof.
  intros Hbw Hbh Hw Ho Hy. revert k b Hbw Hbh. induction n as [|n IH]; intros k b Hbw Hbh Hs Hx Hyb.
  { exists b. split_and!; [done..|]. intros i j. rewrite Nat.add_0_r.
    destruct (N.leb_spec (r_x area + N.of_nat k) i), (N.ltb_spec i (r_x area + N.of_nat k)); try lia;
      by rewrite ?andb_false_r. }
  cbn [seq fmap list_fmap blit_row]. cbv [mbind M_mbind].
  assert (∀ a b, (a + b <= U16_MAX)%N → u16_add a b = Some (a + b)%N) as Hadd.
  { intros p q Hle. unfold u16_add, checked_add. by rewrite (proj2 (N.leb_le _ _) Hle). }
  rewrite !Hadd by lia. cbn [expect]. cbv [mret M_mret].
  rewrite (proj2 (N.leb_gt _ _)) by lia. cbv [mbind M_mbind].
  unfold read_cell. rewrite !(proj2 (N.ltb_lt _ _)) by lia. cbn [andb expect]. cbv [mret M_mret].
  rewrite write_cell_run by lia.
  match goal with |- context [blit_row _ _ _ _ _ _ ?x] => set (b1 := x) end.
  destruct (IH (S k) b1) as (b' & Hrun & H1 & H2 & H3); [done|done|subst b1; cbn [b_width b_height]; lia..|].
  change (fix list_fmap (l : list nat) : list N :=
    match l with [] => [] | x :: l0 => N.of_nat x :: list_fmap l0 end) with (fmap (M := list) N.of_nat) in *.
  exists b'. split; [exact Hrun|]. split_and!; [done..|]. intros i j. rewrite H3. subst b1. cbn [cell].
  replace (S k + n) with (k + S n) by lia.
  destruct (N.eqb_spec j (r_y area + y)); cbn [andb]; [|by rewrite andb_false_r].
  rewrite andb_true_r. destruct (N.eqb_spec i (r_x area + N.of_nat k)) as [->|Hne].
  - rewrite (proj2 (N.leb_gt _ _)) by lia. rewrite (proj2 (N.leb_le _ _)) by lia.
    rewrite (proj2 (N.ltb_lt _ _)) by lia. cbn [andb]. f_equal. lia.
  - destruct (N.leb_spec (r_x area + N.of_nat (S k)) i), (N.leb_spec (r_x area + N.of_nat k) i); try lia; done.
Qed.

(** The cells of a window: inside the area, those of the off-screen table from the scroll position on. *)
Definition window (render : N → N → N → N → Cell) (area : Rect) (natural_width scroll : N) (before : N → N → Cell)
    (i j : N) : Cell :=
  let width := N.max natural_width (r_width area) in
  if ((r_x area <=? i) && (i <? r_x area + r_width area) && (r_y area <=? j) && (j <? r_y area + r_height area))%N
  then render width (r_height area) (N.min scroll (width - r_width area) + (i - r_x area))%N (j - r_y area)%N
  else before i j.

(** Drawing a scrolled table into an area of the screen never indexes outside the screen or the table and never
    overflows a coordinate, whatever the scroll position.  It changes the cells of the area only, each to the cell of
    the off-screen table at the scroll position, which is cut so that the window stays within the table; a table
    narrower than the area is drawn at the area's width. *)
Theorem window_drawn (render : N → N → N → N → Cell) (area : Rect) (natural_width scroll : N) (b : Buffer)
    (Hw : (b_width b <= U16_MAX)%N) (Hh : (b_height b <= U16_MAX)%N) (Hn : (natural_width <= U16_MAX)%N)
    (Hx : (r_x area + r_width area <= b_width b)%N) (Hy : (r_y area + r_height area <= b_height b)%N) :
  ∃ b', render_scrolled_table render area natural_width scroll b = (Done (), b')
    ∧ b_width b' = b_width b ∧ b_height b' = b_height b
    ∧ ∀ i j, cell b' i j = window render area natural_width scroll (cell b) i j.
Proof.
  unfold render_scrolled_table, window.
  destruct ((r_width area =? 0)%N || (r_height area =? 0)%N) eqn:E0.
  { exists b. split_and!; [done..|]. intros i j. apply orb_true_iff in E0 as [E0|E0]; apply N.eqb_eq in E0.
    - destruct (N.leb_spec (r_x area) i), (N.ltb_spec i (r_x area + r_width area)); try lia; done.
    - destruct (N.leb_spec (r_y area) j), (N.ltb_spec j (r_y area + r_height area)); try lia;
        by rewrite ?andb_false_r. }
  set (width := N.max natural_width (r_width area)). set (s := N.min scroll (width - r_width area)).
  assert (width <= U16_MAX)%N as Hwidth by lia. assert (s + r_width area <= width)%N as Hs by lia.
  clearbody width s. unfold range at 1.
  assert (∀ n, (N.of_nat n <= r_height area)%N → ∃ b',
    for_each (N.of_nat <$> seq 0 n) (λ y, blit_row {| b_width := width; b_height := r_height area;
      cell := render width (r_height area) |} area width s y (range (r_width area))) b = (Done (), b')
    ∧ b_width b' = b_width b ∧ b_height b' = b_height b
    ∧ ∀ i j, cell b' i j =
        if ((r_x area <=? i) && (i <? r_x area + r_width area) && (r_y area <=? j) && (j <? r_y area + N.of_nat n))%N
        then render width (r_height area) (s + (i - r_x area))%N (j - r_y area)%N else cell b i j) as Hrows.
  { induction n as [|n IH]; intros Hle.
    { exists b. split_and!; [done..|]. intros i j. cbn [N.of_nat]. rewrite N.add_0_r.
      destruct (N.leb_spec (r_y area) j), (N.ltb_spec j (r_y area)); try lia; by rewrite ?andb_false_r. }
    destruct IH as (b1 & Hrun1 & Hw1 & Hh1 & Hc1); [lia|].
    rewrite seq_S, fmap_app. cbn [Nat.add].
    rewrite (for_each_app _ _ _ _ b1) by done. cbn [fmap list_fmap for_each]. cbv [mbind M_mbind].
    destruct (blit_row_run {| b_width := width; b_height := r_height area; cell := render width (r_height area) |}
      area width s (N.of_nat n) (N.to_nat (r_width area)) 0 b1) as (b2 & Hrun2 & Hw2 & Hh2 & Hc2);
      [lia|lia|lia|done|cbn [b_height]; lia|lia|lia|lia|].
    unfold range. rewrite Hrun2. exists b2. split_and!; [done|congruence..|]. intros i j.
    rewrite Hc2, Hc1. rewrite Nat.add_0_l, N2Nat.id. cbn [cell]. change (N.of_nat 0) with 0%N. rewrite N.add_0_r.
    destruct (N.eqb_spec j (r_y area + N.of_nat n)) as [->|Hne]; cbn [andb].
    - rewrite (proj2 (N.leb_le (r_y area) _)) by lia. rewrite (proj2 (N.ltb_lt (r_y area + N.of_nat n) (r_y area + N.of_nat (S n)))) by lia.
      rewrite (proj2 (N.ltb_ge (r_y area + N.of_nat n) _)) by lia. rewrite !andb_true_r, andb_false_r.
      by replace (r_y area + N.of_nat n - r_y area)%N with (N.of_nat n) by lia.
    - destruct (N.ltb_spec j (r_y area + N.of_nat n)), (N.ltb_spec j (r_y area + N.of_nat (S n))); try lia; done. }
  destruct (Hrows (N.to_nat (r_height area))) as (b' & H1 & H2 & H3 & H4); [lia|].
  exists b'. split_and!; [done..|]. intros i j. rewrite H4. by rewrite N2Nat.id.
Qed.
End Render.
Arguments Buffer : clear implicits.

(** A three-column screen, and a table of five columns scrolled past its end. *)
Lemma window_drawn_witness :
  ∃ b', render_scrolled_table (λ _ _ i j, (10 * j + i)%N) {| r_x := 1; r_y := 0; r_width := 2; r_height := 1 |} 5 9
          {| b_width := 3; b_height := 1; cell := λ _ _, 99%N |} = (Done (), b')
    ∧ cell b' 0 0 = 99%N ∧ cell b' 1 0 = 3%N ∧ cell b' 2 0 = 4%N.
Proof.
  destruct (window_drawn (λ _ _ i j, (10 * j + i)%N) {| r_x := 1; r_y := 0; r_width := 2; r_height := 1 |} 5 9
    {| b_width := 3; b_height := 1; cell := λ _ _, 99%N |}) as (b' & H1 & _ & _ & H2); [cbv; discriminate..|].
  exists b'. split; [exact H1|]. rewrite !H2. vm_compute. done.
Defined.
