(* ===== verification/Manage.v ===== *)
(** * [src/src/manage.rs]: creating and administering keys

    [key create], and the key manager as a state machine: a state, one
    operation per key press, and what is drawn as text.  The key file is on a
    disk whose every call can fail, the audit log is read like the log commands
    read it.  Nobody else writes the key file meanwhile, which the README asks
    for.  Widgets and the terminal are [ratatui]'s. *)

From S2P Require Import Prelude RustStd Float64 Text Disk Timestamp Logs Summary LogText Terminal Keys.

(** ** [key create] *)

(** The disk and standard output. *)
Record Shell := mkShell { sh_disk : Disk; sh_out : list string }.

Definition in_disk {A} (m : M Disk A) : M Shell A :=
  λ s, let '(r, d) := m (sh_disk s) in (r, s <| sh_disk := d |>).
Definition in_out {A} (m : M (list string) A) : M Shell A :=
  λ s, let '(r, out) := m (sh_out s) in (r, s <| sh_out := out |>).

Definition show_bool (b : bool) : string := if b then "true" else "false".

(** What the calls of a command meet: the error of reading the key file, the faults of saving it, and those of writing
    to standard output. *)
Record Around := mkAround {
  on_key_read : option IoError;
  on_save : Faults;
  on_line : nat → option IoError;
  on_flush : option IoError;
  log_files : Files;
  on_poll : PollFaults;
}.

Definition read_keys (around : Around) (d : Disk) : result IoError bytes :=
  match on_key_read around with Some error => Err error | None => read_target d end.

Section Create.
Context `{KeyCrypto, JsonOps KeyFile}.

(** src/src/manage.rs, lines 52-62 of [create]: what is printed *)
Definition created_lines (path name : string) (record : KeyRecord) (key : bytes) : list string :=
  [str key; EmptyString;
   "  name        " +:+ name;
   "  identifier  " +:+ identifier record;
   "  admin       " +:+ show_bool (admin record);
   "  stored in   " +:+ path;
   EmptyString;
   "This is the only time the key is shown; only its digest is stored.";
   "Key created. Restart mistralrs_proxy to apply changes."]%string.

(** src/src/manage.rs:35-65 [create]; [filled1] and [filled2] are the two draws of randomness *)
Definition create (path : string) (name : bytes) (admin : bool) (around : Around)
    (filled1 filled2 : nat → result string bytes) (now_unix_ms : N) : M Shell (result BoxError ()) :=
  let name := trim name in
  if bool_decide (name = []) then mret (Err (Message "a key name cannot be empty")) else
  s ← get_state;
  file ←? mret (map_err Io (load_or_default path (read_keys around (sh_disk s))));
  if existsb (λ key, String.eqb (Keys.name key) (str name)) (keys file)
  then mret (Err (Message ("a key named " +:+ fmt_debug (str name) +:+ " already exists in " +:+ path))) else
  let admin := admin || bool_decide (keys file = []) in
  match generate (str name) admin filled1 filled2 now_unix_ms with
  | Panicked => panic
  | Done (Err error) => mret (Err (Io error))
  | Done (Ok (record, key)) =>
      let file := {| version := version file; keys := keys file ++ [record] |} in
      saved ← in_disk (save (on_save around) file);
      match saved with
      | Err error => mret (Err (Io error))
      | Ok _ =>
          written ← in_out (write_lines (on_line around) (on_flush around) (created_lines path (str name) record key));
          mret (map_err Io written)
      end
  end.
End Create.

(** ** The key manager *)

(** src/src/manage.rs:105-109 [Mode] *)
Inductive Mode := Browse | ConfirmDelete | ConfirmDiscard.

#[export] Instance Mode_eq_dec : EqDecision Mode.
Proof. solve_decision. Defined.

(** src/src/manage.rs:111-124 [App] *)
Record App := mkApp {
  path : string;
  log_file : string;
  usage : option (list (string * KeyTotals));
  file : KeyFile;
  selected : nat;
  dirty : bool;
  saved : bool;
  status : string;
  table_scroll : N;
  mode : Mode;
  quit : bool;
}.

(** src/src/manage.rs:127-154 [App::new] *)
Definition App_new (f : KeyFile) (path_ log_file_ : string) (usage_ : option (list (string * KeyTotals))) : App :=
  {| path := path_; log_file := log_file_; usage := usage_; file := f; selected := 0; dirty := false;
     saved := false;
     status := if bool_decide (is_Some usage_) then "Loaded " +:+ path_
               else "No audit log (pass --log-file); usage columns are empty: " +:+ log_file_;
     table_scroll := 0; mode := Browse; quit := false |}.

(** The manager and the disk it works on. *)
Record Desk := mkDesk { app : App; desk_disk : Disk }.

Definition on_app (f : App → App) : M Desk () := modify (λ s, s <| app := f (app s) |>).
Definition say (text : string) : M Desk () := on_app (λ a, a <| status := text |>).
Definition on_desk {A} (m : M Disk A) : M Desk A :=
  λ s, let '(r, d) := m (desk_disk s) in (r, s <| desk_disk := d |>).

Definition key_count (a : App) : nat := length (keys (file a)).

Definition enabled_admin (key : KeyRecord) : bool := admin key && negb (disabled key).

(** src/src/manage.rs:238-251 [App::would_orphan_admin] *)
Definition would_orphan_admin (a : App) : bool :=
  match keys (file a) !! selected a with
  | None => false
  | Some selected =>
      admin selected && negb (disabled selected)
      && (length (List.filter enabled_admin (keys (file a))) =? 1)
  end.

Definition update_key (f : KeyRecord → KeyRecord) (a : App) : App :=
  a <| file := {| version := version (file a); keys := alter f (selected a) (keys (file a)) |} |>
    <| dirty := true |>.

(** src/src/manage.rs:253-263 [App::toggle_admin] *)
Definition toggle_admin : M Desk () :=
  s ← get_state;
  if would_orphan_admin (app s) then say "Refusing to clear the last enabled admin key." else
  match keys (file (app s)) !! selected (app s) with
  | None => mret ()
  | Some key =>
      _ ← on_app (update_key (λ key, key <| admin := negb (admin key) |>));
      say (name key +:+ ": admin = " +:+ show_bool (negb (admin key)) +:+ ". Press s to save.")
  end.

(** src/src/manage.rs:265-278 [App::toggle_disabled] *)
Definition toggle_disabled : M Desk () :=
  s ← get_state;
  if would_orphan_admin (app s) then say "Refusing to disable the last enabled admin key." else
  match keys (file (app s)) !! selected (app s) with
  | None => mret ()
  | Some key =>
      _ ← on_app (update_key (λ key, key <| disabled := negb (disabled key) |>));
      say (name key +:+ ": disabled = " +:+ show_bool (negb (disabled key)) +:+ ". Press s to save.")
  end.

(** src/src/manage.rs:280-289 [App::delete] *)
Definition delete_key : M Desk () :=
  _ ← on_app (λ a, a <| mode := Browse |>);
  s ← get_state;
  match keys (file (app s)) !! selected (app s) with
  | None => mret ()
  | Some removed =>
      _ ← on_app (λ a,
        let kept := delete (selected a) (keys (file a)) in
        a <| file := {| version := version (file a); keys := kept |} |>
          <| selected := Nat.min (selected a) (length kept - 1) |>
          <| dirty := true |>);
      say ("Deleted " +:+ name removed +:+ ". Press s to save.")
  end.

Section Manager.
Context `{JsonOps KeyFile} (from_slice : bytes → option LogRecord).

(** src/src/manage.rs:96-102 [read_key_usage] *)
Definition read_key_usage (around : Around) : outcome (option (list (string * KeyTotals))) :=
  if negb (bool_decide (is_Some (at_path (log_files around)))) then Done None else
  match poll from_slice (log_files around) (on_poll around) Tail_new with
  | (Panicked, _) => Panicked
  | (Done (Err _), _) => Done None
  | (Done (Ok appended), _) =>
      match summarize (records appended) with
      | Panicked => Panicked
      | Done s => Done (Some (by_key s))
      end
  end.

(** src/src/manage.rs:291-307 [App::save] *)
Definition save_keys (around : Around) : M Desk () :=
  s ← get_state;
  if negb (dirty (app s)) then say "Nothing to save." else
  r ← on_desk (save (on_save around) (file (app s)));
  match r with
  | Ok _ =>
      _ ← on_app (λ a, a <| dirty := false |> <| saved := true |>);
      say ("Saved " +:+ path (app s) +:+ ". Restart mistralrs_proxy to apply changes.")
  | Err error => say ("Could not save: " +:+ io_message error)
  end.

(** src/src/manage.rs:309-320 [App::reload] *)
Definition reload (around : Around) : M Desk () :=
  s ← get_state;
  match load (path (app s)) (read_keys around (desk_disk s)) with
  | Ok f =>
      _ ← on_app (λ a, a <| file := f |>
                         <| selected := Nat.min (selected a) (length (keys f) - 1) |>
                         <| dirty := false |>);
      usage_ ← expect (match read_key_usage around with Done usage_ => Some usage_ | Panicked => None end);
      _ ← on_app (λ a, a <| usage := usage_ |>);
      say "Reloaded keys and usage; unsaved edits discarded."
  | Err error => say ("Could not reload: " +:+ io_message error)
  end.

(** src/src/manage.rs:195-235 [App::handle_browse] *)
Definition handle_browse (code : KeyCode) (around : Around) : M Desk () :=
  s ← get_state;
  let last := key_count (app s) - 1 in
  if is_key [Up; Char "k"] code then on_app (λ a, a <| selected := selected a - 1 |>)
  else if is_key [Down; Char "j"] code then on_app (λ a, a <| selected := Nat.min (selected a + 1) last |>)
  else if is_key [Home] code then on_app (λ a, a <| selected := 0 |>)
  else if is_key [End_] code then on_app (λ a, a <| selected := last |>)
  else if is_key [Char "a"] code then toggle_admin
  else if is_key [Char "d"] code then toggle_disabled
  else if is_key [Char "x"; Delete] code then
    if would_orphan_admin (app s) then say "Refusing to delete the last enabled admin key."
    else if key_count (app s) =? 1 then say "Refusing to delete the last key."
    else on_app (λ a, a <| mode := ConfirmDelete |>)
  else if is_key [Char "s"] code then save_keys around
  else if is_key [Char "r"] code then reload around
  else if is_key [Left; Char "h"] code
  then on_app (λ a, a <| table_scroll := (table_scroll a - SCROLL_STEP)%N |>)
  else if is_key [Right; Char "l"] code
  then on_app (λ a, a <| table_scroll := saturating_add U16_MAX (table_scroll a) SCROLL_STEP |>)
  else if is_key [Char "q"; Esc] code then
    on_app (λ a, if dirty a then a <| mode := ConfirmDiscard |> else a <| quit := true |>)
  else mret ().

(** src/src/manage.rs:175-193 [App::handle] *)
Definition handle (code : KeyCode) (around : Around) : M Desk () :=
  s ← get_state;
  match mode (app s) with
  | ConfirmDelete =>
      if is_key [Char "y"; Char "Y"] code then delete_key
      else _ ← on_app (λ a, a <| mode := Browse |>); say "Delete cancelled."
  | ConfirmDiscard =>
      if is_key [Char "y"; Char "Y"] code then on_app (λ a, a <| quit := true |>)
      else _ ← on_app (λ a, a <| mode := Browse |>); say "Still editing."
  | Browse => handle_browse code around
  end.

(** src/src/manage.rs, lines 165-176 of [App::run]: one event *)
Definition round (event : Event) (around : Around) : M Desk () :=
  match event with
  | Key code true control =>
      if interrupt control code then on_app (λ a, a <| quit := true |>) else handle code around
  | _ => mret ()
  end.

(** src/src/manage.rs:156-173 [App::run]; [Err] in the list is an error of drawing or of reading an event, and the end
    of the list is where the manager waits for the next one *)
Fixpoint run_manager (events : list (result IoError (Event * Around))) : M Desk (result IoError ()) :=
  s ← get_state;
  if quit (app s) then mret (Ok ()) else
  match events with
  | [] => mret (Ok ())
  | Err error :: _ => mret (Err error)
  | Ok (event, around) :: events => _ ← round event around; run_manager events
  end.

(** src/src/manage.rs, lines 69-83 of [manage]: before the view opens *)
Definition open_manager (path_ log_file_ : string) (is_terminal : bool) (around : Around) (d : Disk) :
    outcome (result BoxError Desk) :=
  match load_or_default path_ (read_keys around d) with
  | Err error => Done (Err (Io error))
  | Ok f =>
      if bool_decide (keys f = [])
      then Done (Err (Message ("no keys in " +:+ path_ +:+ "; run `mistralrs_proxy key create <name>` first")))
      else if negb is_terminal then Done (Err (Message "`key manage` needs an interactive terminal"))
      else match read_key_usage around with
           | Panicked => Panicked
           | Done usage_ => Done (Ok {| app := App_new f path_ log_file_ usage_; desk_disk := d |})
           end
  end.
End Manager.

(** ** What is drawn *)

(** src/src/manage.rs:463-469 [App::usage_of] *)
Definition usage_of (a : App) (name : string) : option KeyTotals :=
  rows ← usage a;
  snd <$> List.find (λ '(key, _), String.eqb key name) rows.

(** src/src/manage.rs:24-24 [SECOND_MS] *)
Definition SECOND_MS : N := 1000.
Definition MINUTE_MS : N := 60 * SECOND_MS.
Definition HOUR_MS : N := 60 * MINUTE_MS.
Definition DAY_MS : N := 24 * HOUR_MS.

(** src/src/manage.rs:473-481 [ago] *)
Definition ago (now then_ : N) : string :=
  let elapsed := (now - then_)%N in
  if (elapsed <? MINUTE_MS)%N then to_string (elapsed / SECOND_MS) +:+ "s ago"
  else if (elapsed <? HOUR_MS)%N then to_string (elapsed / MINUTE_MS) +:+ "m ago"
  else if (elapsed <? DAY_MS)%N then to_string (elapsed / HOUR_MS) +:+ "h ago"
  else to_string (elapsed / DAY_MS) +:+ "d ago".

(** [chars().take(n)] *)
Definition first_chars (n : nat) (s : string) : string := str (take_chars n (bs s)).

(** src/src/manage.rs, lines 349-355 of [App::draw]: the title *)
Definition title (a : App) : string :=
  " mistralrs_proxy keys · " +:+ to_string (N.of_nat (key_count a)) +:+ " key"
  +:+ (if key_count a =? 1 then "" else "s") +:+ (if dirty a then " · UNSAVED" else "")
  +:+ " · " +:+ path a +:+ " ".

(** src/src/manage.rs, lines 367-402 of [App::draw]: the cells of a key *)
Definition key_row (a : App) (now : N) (key : KeyRecord) : list string :=
  let usage_ := usage_of a (name key) in
  [name key; identifier key;
   if admin key then "yes" else "no";
   if disabled key then "DISABLED" else "active";
   match usage_ with
   | Some u => if (0 <? last_seen_unix_ms u)%N then ago now (last_seen_unix_ms u) else "-"
   | None => "-"
   end;
   match usage_ with
   | Some u => thousands (saturating_add U64_MAX (k_input_tokens u) (k_output_tokens u))
   | None => "-"
   end;
   match usage_ with
   | Some u => if (0 <? openwebui_users u)%N then to_string (openwebui_users u) else ""
   | None => ""
   end;
   if (created_at_unix_ms key =? 0)%N then "unknown"
   else first_chars 10 (format_timestamp (created_at_unix_ms key));
   first_chars 16 (key_sha256 key)]%string.

(** src/src/manage.rs, lines 453-459 of [App::draw]: the help line *)
Definition help (a : App) : string :=
  match mode a with
  | Browse => "↑/↓ move ←/→ scroll   a admin   d disable   x delete   s save   r reload   q quit"
  | ConfirmDelete => "Delete this key permanently? y / n"
  | ConfirmDiscard => "Quit and discard unsaved changes? y / n"
  end.

(** src/src/manage.rs:485-485 [KEYS_TABLE_WIDTH] *)
Definition KEYS_TABLE_WIDTH : N := 108.

(** ** Keys after an edit *)

Definition admins (l : list KeyRecord) : nat := length (List.filter enabled_admin l).

(** There is an administrator key that is enabled. *)
Definition has_admin (f : KeyFile) : Prop := 0 < admins (keys f).

Lemma admins_middle l i key :
  l !! i = Some key →
  admins l = admins (take i l ++ drop (S i) l) + (if enabled_admin key then 1 else 0).
Proof.
  intros Hk. rewrite <- (take_drop_middle l i key Hk) at 1. unfold admins.
  rewrite !List.filter_app, !length_app. cbn [List.filter]. destruct (enabled_admin key); cbn; lia.
Qed.

Lemma alter_split {A} (f : A → A) l i (x : A) :
  l !! i = Some x → alter f i l = take i l ++ f x :: drop (S i) l.
Proof.
  revert i. induction l as [|y l IH]; intros [|i]; cbn; [done..|by intros [= ->]|].
  intros Hx. f_equal. by apply IH.
Qed.

Lemma delete_split {A} l i (x : A) : l !! i = Some x → delete i l = take i l ++ drop (S i) l.
Proof. intros _. apply delete_take_drop. Qed.

(** An edit of the selected key keeps an administrator, unless it was the only one. *)
Lemma admin_kept a key :
  keys (file a) !! selected a = Some key → would_orphan_admin a = false → has_admin (file a) →
  0 < admins (take (selected a) (keys (file a)) ++ drop (S (selected a)) (keys (file a))).
Proof.
  intros Hk Hw Ha. unfold has_admin in Ha. rewrite (admins_middle _ _ _ Hk) in Ha.
  unfold would_orphan_admin in Hw. rewrite Hk in Hw. fold (enabled_admin key) (admins (keys (file a))) in Hw.
  rewrite (admins_middle _ _ _ Hk) in Hw. destruct (enabled_admin key); [|lia].
  cbn [andb] in Hw. apply Nat.eqb_neq in Hw. lia.
Qed.

Lemma admins_more l1 l2 key : admins (l1 ++ l2) ≤ admins (l1 ++ key :: l2).
Proof.
  unfold admins. rewrite !List.filter_app, !length_app. cbn [List.filter]. destruct (enabled_admin key); cbn; lia.
Qed.

(** Edits that keep the name, the identifier and the digest keep a file valid. *)
Lemma valid_alter f v l i :
  (∀ key, name (f key) = name key ∧ identifier (f key) = identifier key ∧ key_sha256 (f key) = key_sha256 key) →
  key_file_valid {| version := v; keys := l |} → key_file_valid {| version := v; keys := alter f i l |}.
Proof.
  intros Hf (Hv & Hok & Hi & Hd). cbn in *.
  assert (∀ A (g : KeyRecord → A), (∀ key, g (f key) = g key) → g <$> alter f i l = g <$> l) as Hmap.
  { intros A g Hg. revert i. clear -Hg. induction l as [|x l IH]; intros [|i]; cbn; [done..| |].
    - by rewrite Hg.
    - f_equal. apply IH. }
  split_and!; cbn; [done| |rewrite Hmap; [done|apply Hf]|rewrite Hmap; [done|]].
  - apply Forall_alter; [done|]. intros key _ (H1 & H2 & H3). destruct (Hf key) as (E1 & E2 & E3).
    unfold record_ok, record_digest. by rewrite E1, E2, E3.
  - intros key. unfold record_digest. by destruct (Hf key) as (_ & _ & ->).
Qed.

Lemma valid_delete v l i key :
  l !! i = Some key → key_file_valid {| version := v; keys := l |} →
  key_file_valid {| version := v; keys := take i l ++ drop (S i) l |}.
Proof.
  intros Hk (Hv & Hok & Hi & Hd). cbn in *.
  assert (l ≡ₚ key :: (take i l ++ drop (S i) l)) as Hp.
  { rewrite <- (take_drop_middle l i key Hk) at 1. by rewrite Permutation_middle. }
  rewrite Hp in Hok, Hi, Hd. apply Forall_cons in Hok as [_ Hok].
  apply NoDup_cons in Hi as [_ Hi], Hd as [_ Hd]. by split_and!.
Qed.

(** ** What every key press keeps *)

Section Safety.
Context `{JsonLaws KeyFile} (from_slice : bytes → option LogRecord).
Context (strict : Prop) (p : string).

(** A file with a key, and with an enabled administrator when there was one. *)
Definition stored_ok (f : KeyFile) : Prop := keys f ≠ [] ∧ (strict → has_admin f).

Definition holds_ok (target : option bytes) : Prop :=
  ∃ f, load p (read_target (disk_of target)) = Ok f ∧ stored_ok f.

Record keeps (s : Desk) : Prop := {
  kp_path : path (app s) = p;
  kp_valid : key_file_valid (file (app s));
  kp_some : stored_ok (file (app s));
  kp_selected : selected (app s) < key_count (app s);
  kp_disk : ∃ f, load p (read_target (desk_disk s)) = Ok f ∧ stored_ok f
                 ∧ (dirty (app s) = false → file (app s) = f);
  kp_crash : Forall holds_ok (crash_points (desk_disk s));
  kp_delete : mode (app s) = ConfirmDelete → would_orphan_admin (app s) = false ∧ 2 ≤ key_count (app s);
  kp_discard : mode (app s) = ConfirmDiscard → dirty (app s) = true;
}.

Notation kept m := (triple keeps m (λ _, keeps) keeps).

Lemma kept_bind {A B} (m : M Desk A) (f : A → M Desk B) : kept m → (∀ x, kept (f x)) → kept (m ≫= f).
Proof. apply triple_bind. Qed.

Lemma kept_get {B} (f : Desk → M Desk B) :
  (∀ s0, triple (λ s, s = s0 ∧ keeps s) (f s0) (λ _, keeps) keeps) → kept (get_state ≫= f).
Proof. intros Hf s Hs. by apply (Hf s s). Qed.

Lemma kept_say text : kept (say text).
Proof. intros s [? ? ? ? ? ? ? ?]. by split. Qed.

Lemma kept_say_from s0 text : triple (λ s, s = s0 ∧ keeps s) (say text) (λ _, keeps) keeps.
Proof. intros s [_ Hs]. by apply kept_say. Qed.

(** The mode the manager goes back to. *)
Lemma kept_browse : kept (on_app (λ a, a <| mode := Browse |>)).
Proof. intros s [? ? ? ? ? ? ? ?]. by split. Qed.

Lemma kept_quit : kept (on_app (λ a, a <| quit := true |>)).
Proof. intros s [? ? ? ? ? ? ? ?]. by split. Qed.

Lemma kept_scroll f : kept (on_app (λ a, a <| table_scroll := f a |>)).
Proof. intros s [? ? ? ? ? ? ? ?]. by split. Qed.

Lemma kept_usage u : kept (on_app (λ a, a <| usage := u |>)).
Proof. intros s [? ? ? ? ? ? ? ?]. by split. Qed.

(** An edit of the selected key. *)
Lemma kept_update f s key :
  keeps s → mode (app s) = Browse → keys (file (app s)) !! selected (app s) = Some key →
  would_orphan_admin (app s) = false →
  (∀ key, name (f key) = name key ∧ identifier (f key) = identifier key ∧ key_sha256 (f key) = key_sha256 key) →
  keeps (s <| app := update_key f (app s) |>).
Proof.
  intros [Hp Hv [Hs1 Hs2] Hsel Hd Hc _ _] Hm Hk Hw Hf.
  assert (length (alter f (selected (app s)) (keys (file (app s)))) = key_count (app s)) as Hlen by apply length_alter.
  split; unfold update_key, constant; cbn.
  - exact Hp.
  - apply valid_alter; [exact Hf|]. by destruct (file (app s)).
  - split; cbn.
    + intros E. rewrite E in Hlen. unfold key_count in *. cbn in Hlen. lia.
    + intros Hst. unfold has_admin. cbn. rewrite (alter_split f _ _ key) by done.
      eapply Nat.lt_le_trans; [exact (admin_kept _ _ Hk Hw (Hs2 Hst))|apply admins_more].
  - unfold key_count in *. cbn. by rewrite Hlen.
  - destruct Hd as (g & H1 & H2 & _). by exists g.
  - exact Hc.
  - intros E. change (mode (app s) = ConfirmDelete) in E. congruence.
  - done.
Qed.

Lemma update_run f text s :
  (_ ← on_app (update_key f); say text) s
  = (Done (), (s <| app := update_key f (app s) |>)
              <| app := update_key f (app s) <| status := text |> |>).
Proof. done. Qed.

Lemma kept_toggle f text s key :
  keeps s → mode (app s) = Browse → keys (file (app s)) !! selected (app s) = Some key →
  would_orphan_admin (app s) = false →
  (∀ key, name (f key) = name key ∧ identifier (f key) = identifier key ∧ key_sha256 (f key) = key_sha256 key) →
  match (_ ← on_app (update_key f); say text) s with (_, s') => keeps s' end.
Proof.
  intros Hs Hm Hk Hw Hf. rewrite update_run.
  exact (kept_say text _ (kept_update f s key Hs Hm Hk Hw Hf)).
Qed.

Lemma kept_toggle_admin s : keeps s → mode (app s) = Browse → match toggle_admin s with (_, s') => keeps s' end.
Proof.
  intros Hs Hm. unfold toggle_admin. cbv [mbind M_mbind get_state].
  destruct (would_orphan_admin (app s)) eqn:Hw; [exact (kept_say _ s Hs)|].
  destruct (keys (file (app s)) !! selected (app s)) as [key|] eqn:Hk; [|exact Hs].
  by apply (kept_toggle (λ key, key <| admin := negb (admin key) |>) _ s key).
Qed.

Lemma kept_toggle_disabled s :
  keeps s → mode (app s) = Browse → match toggle_disabled s with (_, s') => keeps s' end.
Proof.
  intros Hs Hm. unfold toggle_disabled. cbv [mbind M_mbind get_state].
  destruct (would_orphan_admin (app s)) eqn:Hw; [exact (kept_say _ s Hs)|].
  destruct (keys (file (app s)) !! selected (app s)) as [key|] eqn:Hk; [|exact Hs].
  by apply (kept_toggle (λ key, key <| disabled := negb (disabled key) |>) _ s key).
Qed.

(** The manager without the selected key. *)
Definition without_key (a : App) : App :=
  let rest := take (selected a) (keys (file a)) ++ drop (S (selected a)) (keys (file a)) in
  a <| mode := Browse |> <| file := {| version := version (file a); keys := rest |} |>
    <| selected := Nat.min (selected a) (length rest - 1) |> <| dirty := true |>.

Lemma delete_run s key :
  keys (file (app s)) !! selected (app s) = Some key →
  delete_key s = say ("Deleted " +:+ name key +:+ ". Press s to save.") (s <| app := without_key (app s) |>).
Proof.
  intros Hk. unfold delete_key. cbv [mbind M_mbind get_state on_app modify].
  match goal with |- context [keys (file (app ?x)) !! selected (app ?x)] =>
    change (keys (file (app x)) !! selected (app x)) with (keys (file (app s)) !! selected (app s)) end.
  rewrite Hk. unfold without_key. by rewrite <- (delete_split _ _ key Hk).
Qed.

Lemma kept_delete s :
  keeps s → mode (app s) = ConfirmDelete → match delete_key s with (_, s') => keeps s' end.
Proof.
  intros [Hp Hv [Hs1 Hs2] Hsel Hd Hc Hdel _] Hm. destruct (Hdel Hm) as [Hw Hlen].
  destruct (lookup_lt_is_Some_2 _ _ Hsel) as [key Hk]. rewrite (delete_run _ _ Hk).
  refine (kept_say _ _ _).
  pose proof (f_equal length (take_drop_middle _ _ _ Hk)) as Hl. rewrite length_app in Hl. cbn in Hl.
  fold (key_count (app s)) in Hl.
  assert (length (take (selected (app s)) (keys (file (app s))) ++ drop (S (selected (app s))) (keys (file (app s))))
          = key_count (app s) - 1) as Hlen' by (rewrite length_app; lia).
  split; unfold without_key, constant; cbn.
  - exact Hp.
  - apply (valid_delete _ _ _ key Hk). by destruct (file (app s)).
  - split; cbn.
    + intros E. rewrite E in Hlen'. cbn in Hlen'. lia.
    + intros Hst. by apply (admin_kept _ key Hk Hw), Hs2.
  - unfold key_count in *. cbn. rewrite Hlen'. lia.
  - destruct Hd as (g & H1 & H2 & _). by exists g.
  - exact Hc.
  - done.
  - done.
Qed.

Lemma kept_save around s : keeps s → mode (app s) = Browse → match save_keys around s with (_, s') => keeps s' end.
Proof.
  intros Hs Hm. unfold save_keys. cbv [mbind M_mbind get_state].
  destruct (dirty (app s)) eqn:Hdirty; cbn [negb]; [|exact (kept_say _ s Hs)].
  pose proof Hs as [Hp Hv Hst Hsel Hd Hc _ _]. destruct (json_total (file (app s))) as [json Hj].
  destruct (key_save_run (on_save around) _ (desk_disk s) json Hv Hj) as (r & d' & Hrun & (pts & Hpts & Hall) & Ht & _).
  pose proof (key_load_saved p _ json Hv Hj) as Hload.
  assert (holds_ok (target (desk_disk s))) as Hold.
  { destruct Hd as (g & H1 & H2 & _). exists g. by split. }
  assert (Forall holds_ok (crash_points d')) as Hc'.
  { rewrite Hpts. apply Forall_app. split; [done|]. eapply Forall_impl; [exact Hall|].
    intros t [->| ->]; [done|]. by exists (file (app s)). }
  unfold on_desk. rewrite Hrun. destruct r as [[]|error]; cbn [is_ok] in Ht.
  - cbv [on_app modify say]. unfold constant in *; destruct s as [[] ?]; split; cbn in *; try done; [|by rewrite Hm..].
    eexists. split_and!; [unfold read_target; rewrite Ht; exact Hload|exact Hst|done].
  - cbv [on_app modify say]. unfold constant in *; destruct s as [[] ?]; split; cbn in *; try done; [|by rewrite Hm..].
    unfold read_target. rewrite Ht. destruct Hd as (g & H1 & H2 & H3). exists g. by split_and!.
Qed.

Lemma loaded_valid path_ read f : load path_ read = Ok f → key_file_valid f.
Proof.
  unfold load. destruct read as [c|]; [|done]. cbn. destruct (from_str c) as [g|]; [|done]. cbn.
  destruct (validate g) as [[]|] eqn:Hv; [|done]. cbn. intros [= <-]. by apply key_validate_Ok.
Qed.

Lemma kept_reload around s :
  keeps s → mode (app s) = Browse → match reload from_slice around s with (_, s') => keeps s' end.
Proof.
  intros Hs Hm. unfold reload. cbv [mbind M_mbind get_state]. pose proof Hs as [Hp Hv Hst Hsel Hd Hc _ _].
  destruct (load (path (app s)) (read_keys around (desk_disk s))) as [f|error] eqn:Hl; [|exact (kept_say _ s Hs)].
  pose proof (loaded_valid _ _ _ Hl) as Hvf. unfold read_keys in Hl.
  destruct (on_key_read around); [done|]. rewrite Hp in Hl.
  destruct Hd as (g & H1 & H2 & _). assert (g = f) as -> by congruence.
  assert (keeps (s <| app := (app s) <| file := f |>
    <| selected := Nat.min (selected (app s)) (length (keys f) - 1) |> <| dirty := false |> |>)) as Hs1.
  { unfold constant in *; destruct s as [[] ?]; split; cbn in *; try done; [|by exists f|by rewrite Hm..].
    unfold key_count. cbn. destruct H2 as [Hne _]. destruct (keys f); [done|cbn; lia]. }
  unfold on_app at 1, modify at 1. destruct (read_key_usage from_slice around) as [u|]; cbn [expect]; [|exact Hs1].
  cbv [mret M_mret mbind M_mbind].
  exact (kept_say _ _ (kept_usage u _ Hs1)).
Qed.

(** A press that changes what is selected. *)
Lemma kept_select s n : keeps s → mode (app s) = Browse → n < key_count (app s) →
  keeps (s <| app := (app s) <| selected := n |> |>).
Proof.
  intros [Hp Hv Hst Hsel Hd Hc Hdel Hdis] Hm Hn. destruct s as [[] ?]. unfold constant. split; cbn in *; try done.
  by rewrite Hm.
Qed.

Lemma kept_ask s : keeps s → would_orphan_admin (app s) = false → key_count (app s) ≠ 1 →
  keeps (s <| app := (app s) <| mode := ConfirmDelete |> |>).
Proof.
  intros [Hp Hv Hst Hsel Hd Hc Hdel Hdis] Hw Hn. destruct s as [[] ?]. unfold constant. split; cbn in *; try done.
  intros _. split; [done|]. unfold key_count in *. cbn in *. lia.
Qed.

Lemma kept_leave s : keeps s →
  keeps (s <| app := if dirty (app s) then (app s) <| mode := ConfirmDiscard |> else (app s) <| quit := true |> |>).
Proof.
  intros Hs. destruct (dirty (app s)) eqn:Ed; [|exact (kept_quit s Hs)].
  destruct Hs as [Hp Hv Hst Hsel Hd Hc Hdel Hdis]. destruct s as [[] ?]. unfold constant. by split; cbn in *.
Qed.

Lemma kept_browsing code around s :
  keeps s → mode (app s) = Browse → match handle_browse from_slice code around s with (_, s') => keeps s' end.
Proof.
  intros Hs Hm. pose proof (kp_selected s Hs) as Hsel.
  unfold handle_browse. cbv [mbind M_mbind get_state on_app modify].
  destruct (is_key [Up; Char "k"] code). { apply kept_select; [done|done|lia]. }
  destruct (is_key [Down; Char "j"] code). { apply kept_select; [done|done|lia]. }
  destruct (is_key [Home] code). { apply kept_select; [done|done|lia]. }
  destruct (is_key [End_] code). { apply kept_select; [done|done|lia]. }
  destruct (is_key [Char "a"] code). { by apply kept_toggle_admin. }
  destruct (is_key [Char "d"] code). { by apply kept_toggle_disabled. }
  destruct (is_key [Char "x"; Delete] code).
  { destruct (would_orphan_admin (app s)) eqn:Hw; [exact (kept_say _ s Hs)|].
    destruct (Nat.eqb_spec (key_count (app s)) 1); [exact (kept_say _ s Hs)|]. by apply kept_ask. }
  destruct (is_key [Char "s"] code). { by apply kept_save. }
  destruct (is_key [Char "r"] code). { by apply kept_reload. }
  destruct (is_key [Left; Char "h"] code).
  { exact (kept_scroll (λ a, (table_scroll a - SCROLL_STEP)%N) s Hs). }
  destruct (is_key [Right; Char "l"] code).
  { exact (kept_scroll (λ a, saturating_add U16_MAX (table_scroll a) SCROLL_STEP) s Hs). }
  destruct (is_key [Char "q"; Esc] code); [exact (kept_leave s Hs)|done].
Qed.

Lemma kept_handle code around s : keeps s → match handle from_slice code around s with (_, s') => keeps s' end.
Proof.
  intros Hs. unfold handle. cbv [mbind M_mbind get_state]. destruct (mode (app s)) eqn:Hm.
  - by apply kept_browsing.
  - destruct (is_key _ code); [by apply kept_delete|]. exact (kept_say _ _ (kept_browse s Hs)).
  - destruct (is_key _ code); [exact (kept_quit s Hs)|]. exact (kept_say _ _ (kept_browse s Hs)).
Qed.

Lemma kept_round event around s : keeps s → match round from_slice event around s with (_, s') => keeps s' end.
Proof.
  intros Hs. unfold round. destruct event as [code [] control|]; [|done..].
  destruct (interrupt control code); [exact (kept_quit s Hs)|by apply kept_handle].
Qed.

(** The presses that end the manager with edits that were not saved. *)
Definition discards (s : Desk) (event : Event) : bool :=
  match event with
  | Key code true control =>
      interrupt control code
      || bool_decide (mode (app s) = ConfirmDiscard) && is_key [Char "y"; Char "Y"] code
  | _ => false
  end.

(** Only such a press, or leaving a clean state, ends it. *)
Lemma quits_only event around s :
  quit (app s) = false → discards s event = false →
  match round from_slice event around s with
  | (_, s') => quit (app s') = true → dirty (app s') = false
  end.
Proof.
  intros Hq Hd. destruct event as [code [] control|]; [|cbn; congruence..].
  cbn in Hd. apply orb_false_iff in Hd as [Hi Hd]. unfold round. rewrite Hi. unfold handle.
  cbv [mbind M_mbind get_state].
  destruct s as [[pt lf us fl sel dr sv st ts mo qt] d]. cbn in Hq, Hd |- *. subst qt. destruct mo; cbn in Hd.
  - clear Hd. unfold handle_browse. cbv [mbind M_mbind get_state on_app modify].
    repeat (destruct (is_key _ code); [try (rsimpl; congruence)|]); [..|rsimpl; congruence].
    + unfold toggle_admin. cbv [mbind M_mbind get_state on_app modify say mret M_mret].
      repeat case_match; simplify_eq; rsimpl; congruence.
    + unfold toggle_disabled. cbv [mbind M_mbind get_state on_app modify say mret M_mret].
      repeat case_match; simplify_eq; rsimpl; congruence.
    + cbv [on_app modify say]. repeat case_match; simplify_eq; rsimpl; congruence.
    + unfold save_keys. cbv [mbind M_mbind get_state on_app modify say on_desk]. cbn [app dirty file desk_disk].
      destruct dr; cbn [negb]; [|rsimpl; congruence].
      destruct (save _ _ _) as [[[[]|]|] d']; rsimpl; congruence.
    + unfold reload. cbv [mbind M_mbind get_state on_app modify say].
      destruct (load _ _); [|rsimpl; congruence].
      destruct (read_key_usage _ _); cbv [expect mret M_mret panic]; rsimpl; congruence.
    + destruct dr; rsimpl; congruence.
  - destruct (is_key _ code).
    + unfold delete_key. cbv [mbind M_mbind get_state on_app modify say mret M_mret]. repeat case_match; simplify_eq; rsimpl; congruence.
    + cbv [on_app modify say]. rsimpl. congruence.
  - rewrite bool_decide_true in Hd by done. cbn in Hd. rewrite Hd. cbv [on_app modify say]. rsimpl. congruence.
Qed.

(** The manager after some events, and whether one of them discarded edits. *)
Lemma run_kept events s :
  keeps s → (quit (app s) = true → dirty (app s) = false) →
  match run_manager from_slice events s with
  | (_, s') => keeps s'
      ∧ (quit (app s') = true → dirty (app s') = false
         ∨ ∃ earlier event around later s1, events = earlier ++ Ok (event, around) :: later
             ∧ run_manager from_slice earlier s = (Done (Ok ()), s1) ∧ discards s1 event = true)
  end.
Proof.
  revert s. induction events as [|[[event around]|error] events IH]; intros s Hs Hq; cbn [run_manager];
    cbv [mbind M_mbind get_state]; destruct (quit (app s)) eqn:Eq; try (by split; [|left; apply Hq]).
  { by split; [|rewrite Eq]. }
  2:{ by split; [|rewrite Eq]. }
  pose proof (kept_round event around s Hs) as Hs1. pose proof (quits_only event around s Eq) as Hq1.
  destruct (discards s event) eqn:Ed.
  { assert (∀ s', quit (app s') = true → dirty (app s') = false
      ∨ ∃ earlier event0 around0 later s1, Ok (event, around) :: events = earlier ++ Ok (event0, around0) :: later
          ∧ run_manager from_slice earlier s = (Done (Ok ()), s1) ∧ discards s1 event0 = true) as Hex.
    { intros s' _. right. exists [], event, around, events, s. split_and!; [done| |done].
      cbn [run_manager]. cbv [mbind M_mbind get_state]. by rewrite Eq. }
    destruct (round from_slice event around s) as [[[]|] s1]; [|by split; [|apply Hex]].
    assert (∀ l s, keeps s → match run_manager from_slice l s with (_, s') => keeps s' end) as Hkept.
    { clear -H0. intros l. induction l as [|[[event around]|error] l IH]; intros s Hs; cbn [run_manager];
        cbv [mbind M_mbind get_state]; destruct (quit (app s)); try done.
      pose proof (kept_round event around s Hs) as Hs1.
      destruct (round from_slice event around s) as [[[]|] s1]; [by apply IH|done]. }
    specialize (Hkept events s1 Hs1). destruct (run_manager from_slice events s1) as [r s']. by split; [|apply Hex]. }
  specialize (Hq1 eq_refl). destruct (round from_slice event around s) as [[[]|] s1] eqn:Er; [|by split; [|left; apply Hq1]].
  specialize (IH s1 Hs1 Hq1). destruct (run_manager from_slice events s1) as [r s'].
  destruct IH as [IH1 IH2]. split; [done|]. intros Hq'. destruct (IH2 Hq') as [|(l1 & e & a & l2 & s2 & -> & Hr & Hd)]; [by left|].
  right. exists (Ok (event, around) :: l1), e, a, l2, s2. split_and!; [done| |done].
  cbn [run_manager]. cbv [mbind M_mbind get_state]. rewrite Eq. by rewrite Er.
Qed.
End Safety.

(** What the manager opens with. *)
Lemma open_run `{JsonLaws KeyFile} from_slice path_ log_file_ is_terminal around d s :
  open_manager from_slice path_ log_file_ is_terminal around d = Done (Ok s) →
  ∃ u, s = {| app := App_new (file (app s)) path_ log_file_ u; desk_disk := d |}
    ∧ load path_ (read_target d) = Ok (file (app s)) ∧ keys (file (app s)) ≠ [].
Proof.
  unfold open_manager, load_or_default. destruct (load path_ (read_keys around d)) as [f|error] eqn:Hl.
  - case_bool_decide as Hne; [done|]. destruct is_terminal; [|done].
    destruct (read_key_usage _ _) as [u|]; [|done]. intros [= <-]. exists u. split_and!; [done| |done].
    unfold read_keys in Hl. destruct (on_key_read around); [done|exact Hl].
  - case_bool_decide; [|done]. by case_bool_decide.
Qed.

(** C38: The key manager, for every sequence of key presses and for any faults of the disk.  The selection is always on a
    key.  The file on disk can always be loaded and always holds a key; if there was an enabled administrator key when
    the manager opened, there is one in every file it writes, also when it is interrupted at any moment of a save.
    Without unsaved edits the file it shows is the one on disk, and the only ways to leave it with unsaved edits are
    Control-C and a confirmed discard. *)
Theorem manager_safe `{JsonLaws KeyFile} (from_slice : bytes → option LogRecord) (path_ log_file_ : string)
    (around : Around) (d : Disk) (events : list (result IoError (Event * Around))) (s0 : Desk)
    (Hcrash : crash_points d = []) (Hopen : open_manager from_slice path_ log_file_ true around d = Done (Ok s0)) :
  let '(r, s) := run_manager from_slice events s0 in
  selected (app s) < key_count (app s)
  ∧ (∃ f, load path_ (read_target (desk_disk s)) = Ok f ∧ stored_ok (has_admin (file (app s0))) f
          ∧ (dirty (app s) = false → file (app s) = f))
  ∧ Forall (holds_ok (has_admin (file (app s0))) path_) (crash_points (desk_disk s))
  ∧ (quit (app s) = true → dirty (app s) = false
     ∨ ∃ earlier event around later s1, events = earlier ++ Ok (event, around) :: later
         ∧ run_manager from_slice earlier s0 = (Done (Ok ()), s1) ∧ discards s1 event = true).
Proof.
  destruct (open_run _ _ _ _ _ _ _ Hopen) as (u & Hs & Hl & Hne).
  assert (keeps (has_admin (file (app s0))) path_ s0) as Hk.
  { remember (file (app s0)) as f eqn:Ef. clear Ef. subst s0. split; cbn; try done.
    - by eapply loaded_valid.
    - unfold key_count. cbn. destruct (keys f); [done|cbn; lia].
    - by exists f.
    - by rewrite Hcrash. }
  pose proof (run_kept from_slice _ _ events s0 Hk) as Hrun.
  destruct (run_manager from_slice events s0) as [r s]. destruct Hrun as [[? ? ? ? ? ? ? ?] Hq]; [by rewrite Hs|].
  by split_and!.
Qed.

(** ** Creating a key *)

(** What [key create] reads: a missing file is an empty one. *)
Definition keys_before `{JsonOps KeyFile} (path_ : string) (around : Around) (d : Disk) (f : KeyFile) : Prop :=
  load_or_default path_ (read_keys around d) = Ok f.

(** Why a key is not created: no name, an unreadable file, a name in use, no randomness, or a failed save. *)
Definition create_refused `{KeyCrypto, JsonOps KeyFile} (path_ : string) (name_ : bytes) (around : Around)
    (filled1 filled2 : nat → result string bytes) (d : Disk) : Prop :=
  trim name_ = []
  ∨ (∃ error, load_or_default path_ (read_keys around d) = Err error)
  ∨ (∃ before, keys_before path_ around d before ∧ str (trim name_) ∈ name <$> keys before)
  ∨ (∃ label admin_ now error, generate label admin_ filled1 filled2 now = Done (Err error))
  ∨ (∃ f error d', save (on_save around) f d = (Done (Err error), d')).

Lemma in_disk_run {A} (m : M Disk A) s r d :
  m (sh_disk s) = (r, d) → in_disk m s = (r, s <| sh_disk := d |>).
Proof. intros Hm. unfold in_disk. by rewrite Hm. Qed.

(** [key create] either changes nothing and prints nothing, and reports an error, because
    the name was blank or taken, the file could not be read or written, or there was no randomness; or it adds exactly one key.  Then
    the trimmed name is not blank and was free, the file on disk holds the keys it held and one more, enabled, whose
    digest is that of the key that is printed first; and it is an administrator key when that was asked for or when it
    is the first.  A closed pipe after that is not an error; another failing write is reported, but the key is there. *)
Theorem key_create_spec `{KeyCryptoLaws, JsonLaws KeyFile} (path_ : string) (name_ : bytes) (admin_ : bool)
    (around : Around) (filled1 filled2 : nat → result string bytes) (now : N) (s : Shell) :
  match create path_ name_ admin_ around filled1 filled2 now s with
  | (Done r, s') =>
      (∃ error, r = Err error ∧ target (sh_disk s') = target (sh_disk s) ∧ sh_out s' = sh_out s
         ∧ create_refused path_ name_ around filled1 filled2 (sh_disk s))
      ∨ ∃ before record key,
          keys_before path_ around (sh_disk s) before
          ∧ trim name_ ≠ [] ∧ str (trim name_) ∉ name <$> keys before
          ∧ load path_ (read_target (sh_disk s')) = Ok {| version := version before; keys := keys before ++ [record] |}
          ∧ name record = str (trim name_) ∧ disabled record = false ∧ record_digest record = Some (sha256 key)
          ∧ admin record = admin_ || bool_decide (keys before = [])
          ∧ ∃ n, sh_out s' = sh_out s ++ take n (created_lines path_ (str (trim name_)) record key)
  | (Panicked, s') => s' = s
  end.
Proof.
  unfold create. case_bool_decide as Hn.
  { left. eexists. split_and!; [reflexivity..|by left]. }
  cbv [mbind M_mbind get_state try_bind].
  destruct (load_or_default path_ (read_keys around (sh_disk s))) as [before|error] eqn:Hb;
    cbn [map_err]; cbv [mret M_mret].
  2:{ left. eexists. split_and!; [reflexivity..|]. right; left. by eexists. }
  destruct (existsb _ (keys before)) eqn:Hex.
  { left. eexists. split_and!; [reflexivity..|]. right; right; left. exists before. split; [done|].
    apply existsb_exists in Hex as (k & Hk%list_elem_of_In & E%String.eqb_eq). rewrite <- E.
    by apply list_elem_of_fmap_2. }
  destruct (generate _ _ filled1 filled2 now) as [[[record key]|error]|] eqn:Hg; [| |done].
  2:{ left. eexists. split_and!; [reflexivity..|]. do 3 right; left. by eexists _, _, _, _. }
  destruct (generate_Ok _ _ _ _ _ _ _ Hg) as (G1 & G2 & G3 & G4).
  set (after := {| version := version before; keys := keys before ++ [record] |}).
  destruct (save_total (on_save around) after path_ (sh_disk s)) as (r & d' & Hsave & Hr).
  rewrite (in_disk_run _ _ _ _ Hsave). destruct r as [[]|error]; cbn [is_ok] in Hr.
  2:{ left. eexists. split_and!; [reflexivity|exact Hr|reflexivity|]. do 4 right. by eexists _, _, _. }
  destruct Hr as [_ Hload]. unfold in_out. cbn [sh_out].
  match goal with |- context [write_lines ?a ?b ?l ?o] => pose proof (write_lines_run a b l o) as Hw;
    destruct (write_lines a b l o) as [rw out'] end.
  assert (∃ n r, rw = Done r ∧ out' = sh_out s ++ take n (created_lines path_ (str (trim name_)) record key)) as (n & rr & -> & ->).
  { destruct (first_fault _ _ _) as [[k e]|]; injection Hw as -> ->; [by eexists _, _|].
    exists (length (created_lines path_ (str (trim name_)) record key)). eexists. split; [done|]. by rewrite firstn_all. }
  right. exists before, record, key. split_and!; try done; [|by exists n].
  intros (k & Hk & Hin)%list_elem_of_fmap. apply not_true_iff_false in Hex. apply Hex, existsb_exists.
  exists k. rewrite <- list_elem_of_In. split; [done|]. by apply String.eqb_eq.
Qed.

(** ** A concrete desk *)

Definition calm : Around :=
  {| on_key_read := None; on_save := no_faults; on_line := λ _, None; on_flush := None;
     log_files := {| at_path := None; content := λ _, [] |}; on_poll := no_poll_faults |}.

Definition demo_keys_disk : Disk := disk_of (target (save no_faults demo_keys (disk_of None)).2).

Definition pressed (c : string) : result IoError (Event * Around) := Ok (Key (Char c) true false, calm).

Definition demo_desk : Desk :=
  match open_manager (λ _, None) "keys.json" "proxy.jsonl" true calm demo_keys_disk with
  | Done (Ok s) => s
  | _ => {| app := App_new KeyFile_default "" "" None; desk_disk := disk_of None |}
  end.

(** The last administrator cannot be disabled; the other key can be deleted, and the edit saved. *)
Lemma manager_safe_witness :
  let s := (run_manager (λ _, None) (pressed <$> ["d"; "j"; "x"; "y"; "s"; "q"]%string) demo_desk).2 in
  (∃ f, load "keys.json" (read_target (desk_disk s)) = Ok f
        ∧ stored_ok (has_admin (file (app demo_desk))) f ∧ file (app s) = f)
  ∧ key_count (app s) = 1 ∧ quit (app s) = true.
Proof.
  cbv zeta.
  pose proof (manager_safe (λ _, None) "keys.json" "proxy.jsonl" calm demo_keys_disk
    (pressed <$> ["d"; "j"; "x"; "y"; "s"; "q"]%string) demo_desk eq_refl) as H.
  assert (open_manager (λ _, None) "keys.json" "proxy.jsonl" true calm demo_keys_disk = Done (Ok demo_desk)) as Ho.
  { assert (match open_manager (λ _, None) "keys.json" "proxy.jsonl" true calm demo_keys_disk with
            | Done (Ok _) => true | _ => false end = true) as Hb by (vm_compute; reflexivity).
    unfold demo_desk. destruct (open_manager _ _ _ _ _ _) as [[s|e]|]; [reflexivity|discriminate Hb..]. }
  specialize (H Ho).
  assert (let s := (run_manager (λ _, None) (pressed <$> ["d"; "j"; "x"; "y"; "s"; "q"]%string) demo_desk).2 in
    (key_count (app s), quit (app s), dirty (app s)) = (1, true, false)) as Hc by (vm_compute; reflexivity).
  destruct (run_manager _ _ demo_desk) as [r s]. destruct H as (_ & (f & H1 & H2 & H3) & _). cbn in Hc |- *.
  injection Hc as C1 C2 C3. split; [|by split]. exists f. split_and!; [exact H1|exact H2|by apply H3].
Defined.

Lemma key_create_spec_witness :
  let s := {| sh_disk := demo_keys_disk; sh_out := [] |} in
  match create "keys.json" (bs " carol ") false calm (demo_draw "e") (demo_draw "f") 9 s with
  | (Done _, s') => length (sh_out s') = 9
      ∧ ∃ f, load "keys.json" (read_target (sh_disk s')) = Ok f ∧ length (keys f) = 3
  | (Panicked, _) => False
  end.
Proof.
  cbv zeta.
  pose proof (key_create_spec "keys.json" (bs " carol ") false calm (demo_draw "e") (demo_draw "f") 9
    {| sh_disk := demo_keys_disk; sh_out := [] |}) as H.
  assert (match create "keys.json" (bs " carol ") false calm (demo_draw "e") (demo_draw "f") 9
    {| sh_disk := demo_keys_disk; sh_out := [] |} with
    | (Done _, s') => length (sh_out s') = 9 | (Panicked, _) => False end) as Hc by (vm_compute; reflexivity).
  assert (load_or_default "keys.json" (read_keys calm demo_keys_disk) = Ok demo_keys) as Hb by (vm_compute; reflexivity).
  destruct (create _ _ _ _ _ _ _ _) as [[r|] s']; [|done]. split; [done|].
  destruct H as [(e & _ & _ & Hout & _)|(before & record & key & Hk & _ & _ & Hl & _)].
  - rewrite Hout in Hc. discriminate Hc.
  - unfold keys_before in Hk. cbn [sh_disk] in Hk. rewrite Hb in Hk. injection Hk as <-.
    eexists. split; [exact Hl|]. reflexivity.
Defined.
