(* ===== verification/ControlClient.v ===== *)
(** * [src/src/backend_cli.rs], the client of the control plane, and the router it talks to

    A request is a method and a path; what connecting, sending and collecting
    the answer gave is a parameter, and so are the JSON of the messages and
    what axum does with a path segment and a query.  [ControlApi] is what the
    commands and the live manager need of the client.  The last part puts the
    routes of the control plane behind the client. *)

From S2P Require Import Prelude RustStd Float64 Telemetry Backend Runtime Routing Utf8 Disk BackendState Control Fences.

(** ** The client *)

Inductive Method := GET | POST.

#[export] Instance Method_eq_dec : EqDecision Method.
Proof. solve_decision. Defined.

(** src/src/backend_cli.rs:173-176 [ClientError] *)
Record ClientError := mkClientError { cli_status : option N; cli_message : string }.

(** src/src/backend_cli.rs:179-184 [ClientError::new] *)
Definition ClientError_new (message : string) : ClientError := {| cli_status := None; cli_message := message |}.

(** src/src/backend_cli.rs:195-207 [ClientError::Display]; [status_text] is the [Display] of [StatusCode] *)
Definition ClientError_display (status_text : N → string) (self : ClientError) : string :=
  match cli_status self with
  | Some status => "control server returned " +:+ status_text status +:+ ": " +:+ cli_message self
  | None => cli_message self
  end.

(** The JSON of a message, and of the [error] field of a refusal. *)
Class WireOps (T : Type) := { wire_encode : T → bytes; wire_decode : bytes → option T }.

Class WireLaws (T : Type) `{WireOps T} : Prop := {
  wire_roundtrip : ∀ t : T, wire_decode (wire_encode t) = Some t;
}.

(** What an exchange over the socket gave. *)
Inductive Exchange :=
  | ConnectTimeout
  | ConnectFailed (error : string)
  | ExchangeFailed (error : string)
  | RequestTimeout
  | Response (status : N) (body : bytes).

(** [StatusCode::is_success] *)
Definition is_success (status : N) : bool := (200 <=? status)%N && (status <? 300)%N.

Section Client.
Context `{WireOps string} (socket : string) (decode_error : string).

(** src/src/backend_cli.rs:81-159 [ControlClient::request]; [decode_error] is what [serde_json] reports for a body that
    is not the message expected *)
Definition request {T} `{WireOps T} (path : string) (exchanged : Exchange) : result ClientError T :=
  match exchanged with
  | ConnectTimeout => Err (ClientError_new ("timed out connecting to control socket " +:+ socket))
  | ConnectFailed error =>
      Err (ClientError_new ("could not connect to control socket " +:+ socket +:+ ": " +:+ error))
  | ExchangeFailed error => Err (ClientError_new error)
  | RequestTimeout => Err (ClientError_new ("control request " +:+ path +:+ " timed out after 5s"))
  | Response status body =>
      if negb (is_success status)
      then Err {| cli_status := Some status;
                  cli_message := match wire_decode (T := string) body with
                                 | Some message => message
                                 | None => str (from_utf8_lossy body)
                                 end |}
      else ok_or (wire_decode body) (ClientError_new decode_error)
  end.
End Client.

(** What the commands need of a client; [S] is the server with everything around it. *)
Class ControlApi (S : Type) := {
  api_list : M S (result ClientError BackendListResponse);
  api_status : string → M S (result ClientError BackendView);
  api_drain : string → M S (result ClientError DrainStartedResponse);
  api_operation : Uuid → M S (result ClientError DrainProgress);
  api_activate : string → M S (result ClientError ActionResponse);
  api_disable : string → bool → M S (result ClientError ActionResponse);
  api_reload : M S (result ClientError ReloadResponse);
}.

Section Requests.
Context `{WireOps string, WireOps BackendListResponse, WireOps BackendView, WireOps DrainStartedResponse,
  WireOps DrainProgress, WireOps ActionResponse, WireOps ReloadResponse}.
Context {S : Type} (socket decode_error : string) (exchange : Method → string → M S Exchange).

Definition send {T} `{WireOps T} (method : Method) (path : string) : M S (result ClientError T) :=
  exchanged ← exchange method path;
  mret (request socket decode_error path exchanged).

(** src/src/backend_cli.rs:44-46 [ControlClient::list] *)
Definition client_list : M S (result ClientError BackendListResponse) := send GET "/control/backends".
(** src/src/backend_cli.rs:48-51 [ControlClient::status] *)
Definition client_status (id : string) : M S (result ClientError BackendView) :=
  send GET ("/control/backends/" +:+ id).
(** src/src/backend_cli.rs:53-56 [ControlClient::drain] *)
Definition client_drain (id : string) : M S (result ClientError DrainStartedResponse) :=
  send POST ("/control/backends/" +:+ id +:+ "/drain").
(** src/src/backend_cli.rs:58-61 [ControlClient::operation] *)
Definition client_operation (id : Uuid) : M S (result ClientError DrainProgress) :=
  send GET ("/control/operations/" +:+ id).
(** src/src/backend_cli.rs:63-66 [ControlClient::activate] *)
Definition client_activate (id : string) : M S (result ClientError ActionResponse) :=
  send POST ("/control/backends/" +:+ id +:+ "/activate").
(** src/src/backend_cli.rs:68-75 [ControlClient::disable] *)
Definition client_disable (id : string) (force : bool) : M S (result ClientError ActionResponse) :=
  send POST (if force then "/control/backends/" +:+ id +:+ "/disable?force=true"
             else "/control/backends/" +:+ id +:+ "/disable").
(** src/src/backend_cli.rs:77-79 [ControlClient::reload] *)
Definition client_reload : M S (result ClientError ReloadResponse) := send POST "/control/runtime/reload".

(** The client is what the commands need. *)
Definition client_api : ControlApi S :=
  {| api_list := client_list; api_status := client_status; api_drain := client_drain;
     api_operation := client_operation; api_activate := client_activate; api_disable := client_disable;
     api_reload := client_reload |}.
End Requests.

(** ** The routes *)

(** What axum does with a path segment, a query and an operation id. *)
Class AxumOps := {
  segment_decode : bytes → option bytes;
  disable_query : bytes → option (option bool);
  uuid_parse : bytes → option Uuid;
}.

Definition plain (s : bytes) : Prop := Forall (λ x, backend_id_byte x = true) s.

Class AxumLaws `{AxumOps} : Prop := {
  segment_plain : ∀ s, plain s → segment_decode s = Some s;
  no_query : disable_query [] = Some None;
  force_query : disable_query (bs "force=true") = Some (Some true);
}.

(** The path and the query of a request. *)
Definition split_query (uri : bytes) : bytes * bytes :=
  let '(path, rest) := span (λ x, negb (Ascii.eqb x "?")) uri in (path, drop 1 rest).

Inductive Route :=
  | ListBackends | GetBackend (id : string) | StartDrain (id : string) | Activate (id : string)
  | Disable (id : string) (force : option bool) | GetOperation (id : Uuid) | Reload.

Inductive Routed := ToRoute (route : Route) | NoRoute | MethodNotAllowed | BadParameter.

Section Router.
Context `{AxumOps}.

Definition with_id (segment : bytes) (to_route : string → Route) : Routed :=
  match segment with
  | [] => NoRoute
  | _ => match segment_decode segment with Some id => ToRoute (to_route (str id)) | None => BadParameter end
  end.

Definition on_method (allowed method : Method) (routed : Routed) : Routed :=
  if bool_decide (allowed = method) then routed else MethodNotAllowed.

Definition is_segment (name : string) (segment : bytes) : bool := bool_decide (segment = bs name).

(** src/src/control.rs:229-239 [ControlState::router] *)
Definition router (method : Method) (uri : string) : Routed :=
  let '(path, query) := split_query (bs uri) in
  match split_on "/" path with
  | [[]; control; a] =>
      if is_segment "control" control && is_segment "backends" a then on_method GET method (ToRoute ListBackends)
      else NoRoute
  | [[]; control; a; b] =>
      if negb (is_segment "control" control) then NoRoute
      else if is_segment "backends" a then on_method GET method (with_id b GetBackend)
      else if is_segment "operations" a then
        on_method GET method
          (match b with
           | [] => NoRoute
           | _ => match uuid_parse b with Some id => ToRoute (GetOperation id) | None => BadParameter end
           end)
      else if is_segment "runtime" a && is_segment "reload" b then on_method POST method (ToRoute Reload)
      else NoRoute
  | [[]; control; a; b; c] =>
      if negb (is_segment "control" control && is_segment "backends" a) then NoRoute
      else if is_segment "drain" c then on_method POST method (with_id b StartDrain)
      else if is_segment "activate" c then on_method POST method (with_id b Activate)
      else if is_segment "disable" c then
        on_method POST method
          (match disable_query query with
           | Some force => with_id b (λ id, Disable id force)
           | None => BadParameter
           end)
      else NoRoute
  | _ => NoRoute
  end.
End Router.

(** ** The control plane behind the socket *)

(** What the handlers of one request meet. *)
Record Surroundings {Uri : Type} := mkSurroundings {
  su_faults : Faults;
  su_rollback : Faults;
  su_fresh : Uuid;
  su_loaded : result RuntimeConfigError (RuntimeConfig (Uri:=Uri));
  su_generations : string → Uuid;
  su_now : N;
  su_unix_ms : N;
}.
Arguments Surroundings : clear implicits.

Section Served.
Context {Uri : Type} `{UriOps Uri} `{JsonOps StateFile}.
Context `{AxumOps, WireOps string, WireOps BackendListResponse, WireOps BackendView, WireOps DrainStartedResponse,
  WireOps DrainProgress, WireOps ActionResponse, WireOps ReloadResponse}.
Context (su : Surroundings Uri) (rejection : bytes) (closed : string).

Definition answer {T} `{WireOps T} (status : N) (r : result ControlError T) : N * bytes :=
  match r with
  | Ok body => (status, wire_encode body)
  | Err error => let '(status, message) := into_response error in (status, wire_encode message)
  end.

(** A request to its handler and its answer; [rejection] is the body of a framework refusal. *)
Definition serve (method : Method) (uri : string) : M (ControlState (Uri:=Uri)) (N * bytes) :=
  match router method uri with
  | NoRoute => mret (404%N, [])
  | MethodNotAllowed => mret (405%N, [])
  | BadParameter => mret (400%N, rejection)
  | ToRoute ListBackends => r ← list_backends (su_now su); mret (200%N, wire_encode r)
  | ToRoute (GetBackend id) => r ← get_backend id (su_now su); mret (answer 200 r)
  | ToRoute (StartDrain id) =>
      r ← start_drain id (su_faults su) (su_fresh su) (su_now su) (su_unix_ms su);
      mret (match r with
            | Ok (status, body) => (status, wire_encode body)
            | Err error => answer (T := DrainStartedResponse) 200 (Err error)
            end)
  | ToRoute (Activate id) =>
      r ← activate_backend id (su_faults su) (su_rollback su) (su_now su) (su_unix_ms su); mret (answer 200 r)
  | ToRoute (Disable id force) =>
      r ← disable_backend id force (su_faults su) (su_now su) (su_unix_ms su); mret (answer 200 r)
  | ToRoute (GetOperation id) => r ← get_operation id; mret (answer 200 r)
  | ToRoute Reload => r ← reload_runtime (su_loaded su) (su_generations su) (su_now su); mret (answer 200 r)
  end.

(** The exchange over a socket the control plane listens on; a handler that panics closes the connection. *)
Definition over_socket (method : Method) (uri : string) : M (ControlState (Uri:=Uri)) Exchange :=
  λ s, match serve method uri s with
       | (Done (status, body), s') => (Done (Response status body), s')
       | (Panicked, s') => (Done (ExchangeFailed closed), s')
       end.

(** What the client makes of a handler's result. *)
Definition client_result {T} (m : M (ControlState (Uri:=Uri)) (result ControlError T)) :
    M (ControlState (Uri:=Uri)) (result ClientError T) :=
  λ s, match m s with
       | (Done (Ok body), s') => (Done (Ok body), s')
       | (Done (Err error), s') =>
           (Done (Err {| cli_status := Some (ce_status error); cli_message := ce_message error |}), s')
       | (Panicked, s') => (Done (Err (ClientError_new closed)), s')
       end.
End Served.

(** ** Paths and segments *)

Lemma span_plain (p : ascii → bool) a r :
  Forall (λ x, p x = true) a → span p (a ++ r) = (a ++ (span p r).1, (span p r).2).
Proof.
  induction 1 as [|x a Hx _ IH]; cbn; [by destruct (span p r)|]. by rewrite Hx, IH.
Qed.

Lemma split_query_none a : Forall (λ x, negb (Ascii.eqb x "?") = true) a → split_query a = (a, []).
Proof.
  intros Ha. unfold split_query. rewrite <- (app_nil_r a) at 1. rewrite span_plain by done. cbn. by rewrite app_nil_r.
Qed.

Lemma split_query_some a q :
  Forall (λ x, negb (Ascii.eqb x "?") = true) a → split_query (a ++ "?"%char :: q) = (a, q).
Proof. intros Ha. unfold split_query. rewrite span_plain by done. cbn. by rewrite app_nil_r. Qed.

Lemma plain_segment s : plain s → "/"%char ∉ s.
Proof. intros Hs Hin. by apply (proj1 (Forall_forall _ _) Hs) in Hin. Qed.

Lemma plain_path s : plain s → Forall (λ x, negb (Ascii.eqb x "?") = true) s.
Proof. intros Hs. eapply Forall_impl; [exact Hs|]. intros x Hx. by destruct (Ascii.eqb_spec x "?") as [->|]. Qed.

(** A text without a slash. *)
Ltac no_slash := apply (bool_decide_unpack _); vm_compute; exact I.

(** The segments of the paths the client asks for. *)
Lemma item_path kind id :
  plain (bs id) → "/"%char ∉ bs kind → Forall (λ x, negb (Ascii.eqb x "?") = true) (bs kind) →
  split_query (bs ("/control/" +:+ kind +:+ "/" +:+ id)) = (bs ("/control/" +:+ kind +:+ "/" +:+ id), [])
  ∧ split_on "/" (bs ("/control/" +:+ kind +:+ "/" +:+ id)) = [[]; bs "control"; bs kind; bs id].
Proof.
  intros Hid Hk Hk'. rewrite !bs_app. split.
  - apply split_query_none. rewrite !Forall_app. split_and!;
      first [by apply plain_path | done | by repeat constructor].
  - cbn. rewrite split_on_app by done. cbn. by rewrite split_on_no by by apply plain_segment.
Qed.

Lemma action_path id action :
  plain (bs id) → "/"%char ∉ bs action →
  split_on "/" (bs ("/control/backends/" +:+ id +:+ "/" +:+ action)) = [[]; bs "control"; bs "backends"; bs id; bs action].
Proof.
  intros Hid Ha. rewrite !bs_app. cbn. rewrite split_on_app by by apply plain_segment.
  by rewrite split_on_no.
Qed.

(** The characters of a path with an id. *)
Ltac path_chars :=
  rewrite ?bs_app, ?Forall_app; split_and!; first [by apply plain_path | done | by repeat constructor].

(** ** What the client reaches *)

Section Reaching.
Context {Uri : Type} `{UriOps Uri} `{JsonOps StateFile}.
Context `{AxumLaws, WireLaws string, WireLaws DrainStartedResponse, WireLaws DrainProgress, WireLaws ActionResponse,
  WireLaws ReloadResponse, WireOps BackendListResponse, WireOps BackendView}.

(** Every refusal of a handler has a status that is not a success. *)
Definition refuses {T} (m : M (ControlState (Uri:=Uri)) (result ControlError T)) : Prop :=
  ∀ s e s', m s = (Done (Err e), s') → is_success (ce_status e) = false.

Lemma refuses_bind {A T} (m : M ControlState A) (f : A → M ControlState (result ControlError T)) :
  (∀ a, refuses (f a)) → refuses (m ≫= f).
Proof. intros Hf s e s' (a & s1 & _ & Hrun)%M_bind_Done. by eapply Hf. Qed.

Lemma refuses_ok {T} (r : T) : refuses (mret (Ok r)).
Proof. by intros s e s'. Qed.

Lemma refuses_err {T} e : is_success (ce_status e) = false → refuses (T:=T) (mret (Err e)).
Proof. by intros He s e' s' [= <- _]. Qed.

Ltac refusing :=
  repeat first [apply refuses_ok | apply refuses_err; reflexivity | apply refuses_bind; intros ?
               | case_bool_decide | case_match].

Lemma refuses_drain id faults fresh now unix_ms : refuses (start_drain id faults fresh now unix_ms).
Proof.
  unfold start_drain. intros s e s' (r & s1 & Hr & Hk)%M_bind_Done.
  destruct r as [operation|error].
  - apply M_bind_Done in Hk as (p & s2 & _ & [=]).
  - injection Hk as <- _. revert Hr. assert (refuses (Control.begin_drain id faults fresh now unix_ms)) as Hb; [|apply Hb].
    unfold Control.begin_drain. refusing.
Qed.

Lemma refuses_activate id faults rollback now unix_ms : refuses (activate_backend id faults rollback now unix_ms).
Proof. unfold activate_backend, Control.activate. refusing. Qed.

Lemma refuses_disable id force faults now unix_ms : refuses (disable_backend id force faults now unix_ms).
Proof. unfold disable_backend, Control.disable. refusing. Qed.

Lemma refuses_operation id : refuses (get_operation id).
Proof. unfold get_operation. apply refuses_bind. intros s. destruct (operations s !! id); cbn; refusing. Qed.

Lemma refuses_reload loaded (fresh : string → Uuid) now : refuses (reload_runtime loaded fresh now).
Proof. unfold reload_runtime, Control.reload. refusing. Qed.

Context (su : Surroundings Uri) (rejection : bytes) (closed socket decode_error : string).

Notation exchange := (over_socket su rejection closed).

(** The body of a handler's answer. *)
Definition body_of {R T} (body : R → T) (m : M (ControlState (Uri:=Uri)) (result ControlError R)) :
    M (ControlState (Uri:=Uri)) (result ControlError T) :=
  r ← m; mret (match r with Ok r => Ok (body r) | Err e => Err e end).

(** An answer of a handler comes back as it was. *)
Lemma send_answer {R T} `{WireLaws T} (body : R → T) method path to_answer
    (m : M (ControlState (Uri:=Uri)) (result ControlError R)) s :
  refuses m → serve su rejection method path = (r ← m; mret (to_answer r)) →
  (∀ s r s', m s = (Done (Ok r), s') →
     ∃ status, is_success status = true ∧ to_answer (Ok r) = (status, wire_encode (body r))) →
  (∀ e, to_answer (Err e) = (ce_status e, wire_encode (ce_message e))) →
  send (T := T) socket decode_error exchange method path s = client_result closed (body_of body m) s.
Proof.
  intros Href Hserve Hok Herr. unfold send, over_socket, client_result, body_of. cbv [mbind M_mbind].
  rewrite Hserve. cbv [mbind M_mbind mret M_mret]. destruct (m s) as [[[r|e]|] s'] eqn:Em; cbn.
  - destruct (Hok _ _ _ Em) as (status & Hs & ->). unfold request. rewrite Hs. cbn [negb]. by rewrite wire_roundtrip.
  - rewrite Herr. cbn. rewrite (Href _ _ _ Em). cbn [negb]. by rewrite wire_roundtrip.
  - done.
Qed.

Lemma drain_status id faults fresh now unix_ms s r s' :
  start_drain id faults fresh now unix_ms s = (Done (Ok r), s') → is_success r.1 = true.
Proof.
  intros (o & s1 & _ & Hk)%M_bind_Done. destruct o; [|done].
  apply M_bind_Done in Hk as (p & s2 & _ & [= <- _]). cbn. by destruct (safe_to_stop p).
Qed.

(** The routes of the paths the client asks for. *)
Lemma route_action id action method to_route :
  plain (bs id) → bs id ≠ [] →
  (method, action, to_route) ∈ [(POST, "drain"%string, StartDrain); (POST, "activate"%string, Activate);
                                (POST, "disable"%string, λ id, Disable id None)] →
  router method ("/control/backends/" +:+ id +:+ "/" +:+ action) = ToRoute (to_route id).
Proof.
  intros Hid Hne Hin.
  assert ("/"%char ∉ bs action ∧ Forall (λ x, negb (Ascii.eqb x "?") = true) (bs action)) as [Ha Hq].
  { apply list_elem_of_In in Hin. destruct Hin as [[= <- <- <-]|[[= <- <- <-]|[[= <- <- <-]|[]]]]; (split; [no_slash|by repeat constructor]). }
  unfold router. rewrite split_query_none, action_path by
    (done || path_chars).
  cbn [is_segment]. unfold with_id.
  apply list_elem_of_In in Hin. destruct Hin as [[= <- <- <-]|[[= <- <- <-]|[[= <- <- <-]|[]]]]; cbn.
  all: destruct (bs id) as [|x l] eqn:E; [done|]; rewrite ?no_query; cbn; rewrite segment_plain by done;
       rewrite <- E, str_bs; done.
Qed.
Lemma route_force id :
  plain (bs id) → bs id ≠ [] →
  router POST ("/control/backends/" +:+ id +:+ "/disable?force=true") = ToRoute (Disable id (Some true)).
Proof.
  intros Hid Hne. unfold router.
  replace ("/control/backends/" +:+ id +:+ "/disable?force=true")%string
    with (("/control/backends/" +:+ id +:+ "/" +:+ "disable") +:+ "?force=true")%string by
    (apply (inj bs); rewrite !bs_app, <- !app_assoc; done).
  rewrite (bs_app _ "?force=true"). change (bs "?force=true") with ("?"%char :: bs "force=true").
  rewrite split_query_some, action_path; [|done|no_slash|].
  - cbn [is_segment]. unfold with_id. cbn. rewrite force_query. destruct (bs id) as [|x l] eqn:E; [done|].
    rewrite segment_plain by done. by rewrite <- E, str_bs.
  - path_chars.
Qed.

Lemma route_operation id :
  plain (bs id) → bs id ≠ [] → uuid_parse (bs id) = Some id →
  router GET ("/control/operations/" +:+ id) = ToRoute (GetOperation id).
Proof.
  intros Hid Hne Hu. unfold router.
  destruct (item_path "operations" id Hid) as [E1 E2]; [no_slash|by repeat constructor|].
  change ("/control/operations/" +:+ id)%string with ("/control/" +:+ "operations" +:+ "/" +:+ id)%string.
  rewrite E1, E2. cbn. rewrite Hu. by destruct (bs id).
Qed.

(** A drain and a poll of the client are the handlers'. *)
Lemma reach_drain id s :
  validate_backend_id id = Ok () →
  client_drain socket decode_error exchange id s
  = client_result closed (body_of snd (start_drain id (su_faults su) (su_fresh su) (su_now su) (su_unix_ms su))) s.
Proof.
  intros Hv%validate_backend_id_Ok. pose proof (id_bytes id Hv) as Hid. destruct Hv as [Hlen _].
  assert (bs id ≠ []) as Hne by (intros E; rewrite E in Hlen; cbn in Hlen; lia).
  assert (router POST ("/control/backends/" +:+ id +:+ "/drain") = ToRoute (StartDrain id)) as R
    by (apply (route_action id "drain"); [done|done|set_solver]).
  eapply (send_answer snd); [apply refuses_drain|unfold serve; rewrite R; reflexivity| |reflexivity].
  intros s0 [st b] s' Hrun. exists st. split; [by apply (drain_status _ _ _ _ _ _ _ _ Hrun)|reflexivity].
Qed.

(** An operation id that axum reads as itself. *)
Definition sendable (operation : Uuid) : Prop :=
  uuid_parse (bs operation) = Some operation ∧ plain (bs operation) ∧ bs operation ≠ [].

Lemma reach_operation operation s :
  sendable operation →
  client_operation socket decode_error exchange operation s
  = client_result closed (body_of Datatypes.id (get_operation operation)) s.
Proof.
  intros (Hop & Hplain & Hne). pose proof (route_operation operation Hplain Hne Hop) as R.
  eapply (send_answer Datatypes.id); [apply refuses_operation|unfold serve; rewrite R; reflexivity| |reflexivity].
  intros s0 r s' _. by exists 200%N.
Qed.

(** C32: The client and the control plane fit together.  For every backend id that a configuration accepts and every
    operation id, what [drain], [operation], [activate], [disable] and [reload] of the client return over the socket is
    what the handler of that operation returned for exactly that id: the path is routed to it, a success comes back as
    the message it was, and a refusal comes back with its status and its text.  A handler that panics is an error of
    the client. *)
Theorem client_reaches (id : string) (operation : Uuid) (force : bool) (s : ControlState (Uri:=Uri))
    (Hid : validate_backend_id id = Ok ())
    (Hop : sendable operation) :
  client_drain socket decode_error exchange id s
    = client_result closed (body_of snd
        (start_drain id (su_faults su) (su_fresh su) (su_now su) (su_unix_ms su))) s
  ∧ client_operation socket decode_error exchange operation s
    = client_result closed (body_of Datatypes.id (get_operation operation)) s
  ∧ client_activate socket decode_error exchange id s
    = client_result closed (body_of Datatypes.id
        (activate_backend id (su_faults su) (su_rollback su) (su_now su) (su_unix_ms su))) s
  ∧ client_disable socket decode_error exchange id force s
    = client_result closed (body_of Datatypes.id
        (disable_backend id (if force then Some true else None) (su_faults su) (su_now su) (su_unix_ms su))) s
  ∧ client_reload socket decode_error exchange s
    = client_result closed (body_of Datatypes.id (reload_runtime (su_loaded su) (su_generations su) (su_now su))) s.
Proof.
  split_and!; [by apply reach_drain|by apply reach_operation|..].
  all: apply validate_backend_id_Ok in Hid as Hv; pose proof (id_bytes id Hv) as Hbytes; destruct Hv as [Hlen _];
    clear Hid; rename Hbytes into Hid.
  all: assert (bs id ≠ []) as Hidne by (intros E; rewrite E in Hlen; cbn in Hlen; lia).
  - assert (router POST ("/control/backends/" +:+ id +:+ "/activate") = ToRoute (Activate id)) as R2
      by (apply (route_action id "activate"); [done|done|set_solver]).
    eapply (send_answer Datatypes.id); [apply refuses_activate|unfold serve; rewrite R2; reflexivity| |reflexivity].
    intros s0 r s' _. by exists 200%N.
  - assert (router POST ("/control/backends/" +:+ id +:+ "/disable") = ToRoute (Disable id None)) as R3
      by (apply (route_action id "disable" POST (λ id, Disable id None)); [done|done|set_solver]).
    pose proof (route_force id Hid Hidne) as R4. destruct force.
    + eapply (send_answer Datatypes.id); [apply refuses_disable|unfold serve; rewrite R4; reflexivity| |reflexivity].
      intros s0 r s' _. by exists 200%N.
    + eapply (send_answer Datatypes.id); [apply refuses_disable|unfold serve; rewrite R3; reflexivity| |reflexivity].
      intros s0 r s' _. by exists 200%N.
  - eapply (send_answer Datatypes.id); [apply refuses_reload|unfold serve; cbn; reflexivity| |reflexivity].
    intros s0 r s' _. by exists 200%N.
Qed.
End Reaching.

(** ** A concrete wire *)

(** Every countable type can be sent: the code of the value in binary. *)
Definition countable_wire T `{Countable T} : WireOps T :=
  {| wire_encode := λ t, bits_of (encode t); wire_decode := λ s, decode (of_bits (s ++ [LF])) |}.

Lemma countable_wire_laws T `{Countable T} : @WireLaws T (countable_wire T).
Proof. split. intros t. cbn. by rewrite of_bits_of, decode_encode. Qed.

#[export] Instance TelemetryState_countable : Countable TelemetryState.
Proof.
  by apply (inj_countable' (λ t, match t with Fresh => 0 | Stale => 1 | Unavailable_ => 2 end)
    (λ n, match n with 0 => Fresh | 1 => Stale | _ => Unavailable_ end)); intros [].
Defined.

#[export] Instance DrainPhase_countable : Countable DrainPhase.
Proof.
  by apply (inj_countable'
    (λ t, match t with PhaseDraining => 0 | PhaseComplete => 1 | PhaseFailed => 2 | PhaseCancelled => 3 end)
    (λ n, match n with 0 => PhaseDraining | 1 => PhaseComplete | 2 => PhaseFailed | _ => PhaseCancelled end)); intros [].
Defined.

#[export] Instance DrainProgress_eq_dec : EqDecision DrainProgress.
Proof. solve_decision. Defined.
#[export] Instance DrainProgress_countable : Countable DrainProgress.
Proof.
  by apply (inj_countable'
    (λ p, (dp_operation_id p, dp_backend_id p, phase p, safe_to_stop p, dp_elapsed_ms p, dp_proxy_active p,
           engine_running p, engine_waiting p, dp_telemetry p, dp_message p))
    (λ '(a, b, c, d, e, f, g, h, i, j), mkDrainProgress a b c d e f g h i j)); intros [].
Defined.

#[export] Instance DrainStartedResponse_eq_dec : EqDecision DrainStartedResponse.
Proof. solve_decision. Defined.
#[export] Instance DrainStartedResponse_countable : Countable DrainStartedResponse.
Proof.
  by apply (inj_countable' (λ p, (ds_operation_id p, ds_backend_id p, ds_mode p, ds_safe_to_stop p))
    (λ '(a, b, c, d), mkDrainStartedResponse a b c d)); intros [].
Defined.

#[export] Instance ActionResponse_eq_dec : EqDecision ActionResponse.
Proof. solve_decision. Defined.
#[export] Instance ActionResponse_countable : Countable ActionResponse.
Proof.
  by apply (inj_countable' (λ p, (ar_backend_id p, ar_mode p, ar_message p))
    (λ '(a, b, c), mkActionResponse a b c)); intros [].
Defined.

#[export] Instance ReloadResponse_eq_dec : EqDecision ReloadResponse.
Proof. solve_decision. Defined.
#[export] Instance ReloadResponse_countable : Countable ReloadResponse.
Proof.
  by apply (inj_countable' (λ p, (rr_revision p, rr_added p, rr_revived p, rr_updated p, rr_retired p))
    (λ '(a, b, c, d, e), mkReloadResponse a b c d e)); intros [].
Defined.

Module DemoWire.
#[export] Instance text_wire : WireOps string := countable_wire string.
#[export] Instance text_laws : WireLaws string := countable_wire_laws string.
#[export] Instance started_wire : WireOps DrainStartedResponse := countable_wire DrainStartedResponse.
#[export] Instance started_laws : WireLaws DrainStartedResponse := countable_wire_laws DrainStartedResponse.
#[export] Instance progress_wire : WireOps DrainProgress := countable_wire DrainProgress.
#[export] Instance progress_laws : WireLaws DrainProgress := countable_wire_laws DrainProgress.
#[export] Instance action_wire : WireOps ActionResponse := countable_wire ActionResponse.
#[export] Instance action_laws : WireLaws ActionResponse := countable_wire_laws ActionResponse.
#[export] Instance reload_wire : WireOps ReloadResponse := countable_wire ReloadResponse.
#[export] Instance reload_laws : WireLaws ReloadResponse := countable_wire_laws ReloadResponse.
(** Nothing is listed in the example. *)
#[export] Instance list_wire : WireOps BackendListResponse := {| wire_encode := λ _, []; wire_decode := λ _, None |}.
#[export] Instance view_wire : WireOps BackendView := {| wire_encode := λ _, []; wire_decode := λ _, None |}.

#[export] Instance demo_axum : AxumOps :=
  {| segment_decode := Some;
     disable_query := λ q, if bool_decide (q = []) then Some None
                           else if bool_decide (q = bs "force=true") then Some (Some true) else None;
     uuid_parse := λ s, Some (str s) |}.
#[export] Instance demo_axum_laws : AxumLaws.
Proof. by split. Qed.
End DemoWire.

Definition demo_around : Surroundings SimpleUri :=
  {| su_faults := no_faults; su_rollback := no_faults; su_fresh := "op-1"; su_loaded := Err (Validation "no file");
     su_generations := λ _, "g"; su_now := 10; su_unix_ms := 7 |}.

Section Demo.
Import DemoWire.

(** Draining [east] over the socket. *)
Lemma client_reaches_witness :
  match client_drain "control.sock" "not a message" (over_socket demo_around [] "closed") "east" demo_control with
  | (Done (Ok started), _) => ds_backend_id started = "east"%string ∧ ds_safe_to_stop started = false
  | _ => False
  end.
Proof.
  destruct (client_reaches demo_around [] "closed" "control.sock" "not a message" "east" "op-1" false demo_control)
    as [H _]; [reflexivity|split; [reflexivity|split; [repeat constructor|discriminate]]|].
  rewrite H. vm_compute. split; reflexivity.
Defined.
End Demo.
