(* ===== verification/Workers.v ===== *)
(** * The workers of [src/src/routing.rs]

    [run_telemetry_worker] scrapes every configured backend and
    [run_readiness_worker] probes it, round after round; the requests of a
    round finish in any order, and other activity goes on between ([Elsewhere]).
    [worker_evidence] carries the guarantee of [Drain.v] to the worker itself:
    the idle evidence of a drain rests on two scrapes the worker began after the
    drain, for as long as the backends are not reconfigured. *)

From S2P Require Import Prelude RustStd Utf8 Float64 Telemetry Backend Runtime Routing Circuit Health Selection Disk BackendState Control Fences Drain ControlClient.

(** ** A page *)

Inductive BodyRead := BodyTimedOut | BodyFailed (error : string) | BodyComplete (bytes_ : bytes).

(** What a request for a page came to. *)
Inductive Fetch :=
| RequestInvalid (error : string)
| RequestTimedOut
| RequestFailed (error : string)
| Answered (status : N) (body : BodyRead).

(** What becomes ready while a worker waits: a job's request, the failure of its task, and what the rest of the
    program does with the routing state. *)
Inductive WorkerEvent {Uri : Type} :=
| TaskDone (id : string) (fetch : Fetch) (now : N)
| TaskFailed (id error : string)
| Elsewhere (f : RoutingState (Uri:=Uri) → RoutingState (Uri:=Uri)).
Arguments WorkerEvent : clear implicits.

Section Workers.
Context {Uri : Type} `{UriOps Uri} (status_text : N → string) (panic_message : string).

(** src/src/routing.rs:1258-1282 [fetch_text]; the body is limited to [MAX_PROBE_BODY_BYTES], whose error is a failed
    read *)
Definition fetch_text (timeout_ms : N) (fetch : Fetch) : result string bytes :=
  match fetch with
  | RequestInvalid error => Err error
  | RequestTimedOut => Err ("request timed out after " +:+ to_string timeout_ms +:+ "ms")
  | RequestFailed error => Err error
  | Answered status body =>
      if negb (is_success status) then Err ("HTTP " +:+ status_text status) else
      match body with
      | BodyTimedOut => Err ("response body timed out after " +:+ to_string timeout_ms +:+ "ms")
      | BodyFailed error => Err error
      | BodyComplete text => if is_utf8 text then Ok text else Err "response body is not UTF-8"
      end
  end.

(** src/src/routing.rs:1237-1244 [scrape_metrics] *)
Definition scrape_metrics (timeout_ms : N) (fetch : Fetch) : outcome (result string MistralRsMetrics) :=
  match fetch_text timeout_ms fetch with
  | Err error => Done (Err error)
  | Ok text =>
      match parse_mistralrs_metrics text with
      | Done r => Done (map_err metrics_parse_error_display r)
      | Panicked => Panicked
      end
  end.

(** src/src/routing.rs:1246-1256 [probe_readiness] *)
Definition probe_readiness (timeout_ms : N) (fetch : Fetch) : result (ReadinessFailureKind * string) () :=
  match fetch_text timeout_ms fetch with
  | Ok _ => Ok ()
  | Err error => Err (if String.prefix "HTTP " error then KUnready else KUnreachable, error)
  end.

(** ** A worker *)

(** The routing state, the lines the worker printed, and the scrapes it recorded, with their backends. *)
Record Worker := mkWorker {
  router : RoutingState (Uri:=Uri);
  printed : list string;
  recorded : list (string * Cycle);
}.

Definition on_router {A} (m : M (RoutingState (Uri:=Uri)) A) : M Worker A := λ s,
  let '(r, x) := m (router s) in (r, s <| router := x |>).

Definition say (quiet : bool) (line : string) : M Worker () :=
  if quiet then mret () else modify (λ s, s <| printed := printed s ++ [line] |>).

Definition note_cycle (id : string) (cycle : Cycle) : M Worker () :=
  modify (λ s, s <| recorded := recorded s ++ [(id, cycle)] |>).

(** A job of the set: the backend's identity and generation, and what its task needs. *)
Definition Job (A : Type) : Type := string * N * A.
Definition job_id {A} (job : Job A) : string := job.1.1.

(** [JoinSet::join_next], when it yields that backend's task: the job, and the jobs that are left *)
Fixpoint take_job {A} (id : string) (jobs : list (Job A)) : option (Job A * list (Job A)) :=
  match jobs with
  | [] => None
  | job :: jobs =>
      if decide (job_id job = id) then Some (job, jobs)
      else '(found, rest) ← take_job id jobs; Some (found, job :: rest)
  end.

(** src/src/routing.rs, lines 1158-1167 of [run_telemetry_worker]: the scrapes a round begins *)
Fixpoint begin_cycle (l : list (Backend (Uri:=Uri) * N)) (now : string → N) :
    M (RoutingState (Uri:=Uri)) (list (Job MetricsScrapeContext)) :=
  match l with
  | [] => mret []
  | (backend, generation) :: l =>
      scrape ← begin_metrics_scrape (b_id backend) generation (now (b_id backend));
      jobs ← begin_cycle l now;
      mret (match scrape with
            | Some scrape => (b_id backend, generation, scrape) :: jobs
            | None => jobs
            end)
  end.

(** src/src/routing.rs, lines 1168-1189 of [run_telemetry_worker]: one joined scrape; a panic of the parser is a join
    error, which ends the worker *)
Definition telemetry_joined (quiet : bool) (timeout_ms : N) (job : Job MetricsScrapeContext) (fetch : Fetch) (now : N) :
    M Worker (result string ()) :=
  let '(id, generation, scrape) := job in
  let cycle := λ result, {| cy_dispatches := ctx_dispatches scrape; cy_begun := ctx_observed_at scrape;
                            cy_result := result; cy_recorded := now |} in
  match scrape_metrics timeout_ms fetch with
  | Done (Ok metrics) =>
      _ ← on_router (record_metrics_success_for id generation metrics scrape now);
      _ ← note_cycle id (cycle (Ok metrics));
      mret (Ok ())
  | Done (Err error) =>
      previous ← on_router (status id now);
      _ ← on_router (record_metrics_failure_for id generation (ctx_serial scrape) error now);
      _ ← note_cycle id (cycle (Err error));
      _ ← (if bool_decide (st_telemetry <$> previous = Some Fresh)
           then say quiet ("WARN backend " +:+ id +:+ " telemetry became unavailable: " +:+ error) else mret ());
      mret (Ok ())
  | Panicked => mret (Err ("backend telemetry scrape task failed: " +:+ panic_message))
  end.

(** src/src/routing.rs, lines 1211-1227 of [run_readiness_worker]: one joined probe *)
Definition readiness_joined (quiet : bool) (timeout_ms : N) (job : Job ()) (fetch : Fetch) (now : N) :
    M Worker (result string ()) :=
  let '(id, generation, _) := job in
  let changed := λ old new : ReadinessState, " backend " +:+ id +:+ " readiness changed from "
    +:+ ReadinessState_display old +:+ " to " +:+ ReadinessState_display new in
  match probe_readiness timeout_ms fetch with
  | Ok _ =>
      change ← on_router (record_readiness_success_for id generation now);
      _ ← match change with Some (old, new) => say quiet ("INFO" +:+ changed old new) | None => mret () end;
      mret (Ok ())
  | Err (kind, error) =>
      change ← on_router (record_readiness_failure_for id generation kind error now);
      _ ← match change with Some (old, new) => say quiet ("WARN" +:+ changed old new) | None => mret () end;
      mret (Ok ())
  end.

(** The joining of a round's jobs: the jobs that are still out when the events end, or the error that ends the worker. *)
Fixpoint join_jobs {A} (task : string) (joined : Job A → Fetch → N → M Worker (result string ()))
    (jobs : list (Job A)) (events : list (WorkerEvent Uri)) : M Worker (result string (list (Job A))) :=
  match events with
  | [] => mret (Ok jobs)
  | event :: events =>
      let again := join_jobs task joined jobs events in
      match event with
      | Elsewhere f => _ ← modify (λ s, s <| router := f (router s) |>); again
      | TaskDone id fetch now =>
          match take_job id jobs with
          | None => again
          | Some (job, jobs) =>
              r ← joined job fetch now;
              match r with
              | Err error => mret (Err error)
              | Ok _ => join_jobs task joined jobs events
              end
          end
      | TaskFailed id error =>
          match take_job id jobs with
          | None => again
          | Some _ => mret (Err (task +:+ " task failed: " +:+ error))
          end
      end
  end.

(** A round of a worker: when it reaches each backend, and what becomes ready until the next. *)
Record WorkerRound := mkWorkerRound { reached : string → N; ready : list (WorkerEvent Uri) }.

(** src/src/routing.rs:1148-1192 [run_telemetry_worker]; [None]: it still runs *)
Fixpoint run_telemetry_worker (quiet : bool) (rounds : list WorkerRound) : M Worker (option string) :=
  match rounds with
  | [] => mret None
  | round :: rounds =>
      config ← on_router runtime_config;
      let timeout := scrape_timeout_ms (telemetry config) in
      l ← on_router instances;
      jobs ← on_router (begin_cycle l (reached round));
      left ← join_jobs "backend telemetry scrape" (telemetry_joined quiet timeout) jobs (ready round);
      match left with
      | Err error => mret (Some error)
      | Ok [] => run_telemetry_worker quiet rounds
      | Ok (_ :: _) => mret None
      end
  end.

(** src/src/routing.rs:1194-1235 [run_readiness_worker]; [None]: it still runs *)
Fixpoint run_readiness_worker (quiet : bool) (rounds : list WorkerRound) : M Worker (option string) :=
  match rounds with
  | [] => mret None
  | round :: rounds =>
      config ← on_router runtime_config;
      let timeout := probe_timeout_ms (readiness config) in
      l ← on_router instances;
      let jobs := (λ '(backend, generation), (b_id backend, generation, ())) <$> l in
      left ← join_jobs "backend readiness probe" (readiness_joined quiet timeout) jobs (ready round);
      match left with
      | Err error => mret (Some error)
      | Ok [] => run_readiness_worker quiet rounds
      | Ok (_ :: _) => mret None
      end
  end.
End Workers.

(** ** What other activity leaves alone *)

Section Kept.
Context {Uri : Type} `{UriOps Uri}.
Implicit Types (s : RoutingState (Uri:=Uri)).

(** The part of a live record that telemetry writes, and the generation it belongs to. *)
Definition same_telemetry (live live' : LiveBackend) : Prop :=
  topology_generation live' = topology_generation live
  ∧ metrics_scrapes_started live' = metrics_scrapes_started live
  ∧ metrics_last_completed_scrape live' = metrics_last_completed_scrape live
  ∧ engine_idle_streak live' = engine_idle_streak live ∧ metrics live' = metrics live.

(** The published configuration stands, and the telemetry of every configured backend. *)
Record kept s s' : Prop := {
  kp_published : published_runtime (Routing.runtime s') = published_runtime (Routing.runtime s);
  kp_runtime : runtime_wf (Routing.runtime s) → runtime_wf (Routing.runtime s');
  kp_live : runtime_wf (Routing.runtime s) → ∀ id g live,
    configured_generation (Routing.runtime s) id = Some g → live_backends (inner s) !! id = Some live →
    topology_generation live = g →
    ∃ live', live_backends (inner s') !! id = Some live' ∧ same_telemetry live live';
}.

Lemma configured_published (rt rt' : RuntimeState (Uri:=Uri)) id :
  published_runtime rt' = published_runtime rt → configured_generation rt' id = configured_generation rt id.
Proof. unfold configured_generation. by intros ->. Qed.

#[export] Instance same_telemetry_preorder : PreOrder same_telemetry.
Proof. split; unfold same_telemetry; [done|]. intros a b c ? ?. split_and!; intuition congruence. Qed.

#[export] Instance kept_preorder : PreOrder kept.
Proof.
  split.
  - intros s. split; [done|done|]. intros _ id g live _ Hl _. by exists live.
  - intros s1 s2 s3 [P1 W1 L1] [P2 W2 L2]. split; [congruence|auto|]. intros Hw id g live Hg Hl Ht.
    destruct (L1 Hw id g live Hg Hl Ht) as (live2 & H2 & Hsame). pose proof Hsame as [Ht2 _].
    destruct (L2 (W1 Hw) id g live2) as (live3 & H3 & ?); [by rewrite (configured_published _ _ _ P1)|done|congruence|].
    exists live3. split; [done|]. by etrans.
Qed.

Definition keeps {A} (m : M (RoutingState (Uri:=Uri)) A) : Prop := ∀ s a s', m s = (Done a, s') → kept s s'.

Lemma keeps_bind {A B} (m : M RoutingState A) (f : A → M RoutingState B) :
  keeps m → (∀ a, keeps (f a)) → keeps (m ≫= f).
Proof.
  intros Hm Hf s b s' (a & s1 & H1 & H2)%M_bind_Done. transitivity s1; [by eapply Hm|by eapply Hf].
Qed.

Lemma keeps_mret {A} (a : A) : keeps (mret a).
Proof. by intros s b s' [= _ <-]. Qed.

(** What changes only the leases, and what changes only the live records. *)
Lemma keeps_leases {A} (m : M RoutingState A) :
  traffics m → (∀ s a s', m s = (Done a, s') → inner s' = inner s) → keeps m.
Proof.
  intros Ht Hi s a s' Hrun. pose proof (Ht _ _ _ Hrun) as Htr. split.
  - by destruct Htr.
  - intros Hw. by eapply runtime_wf_traffic.
  - intros _ id g live _ Hl _. rewrite (Hi _ _ _ Hrun). by exists live.
Qed.

Lemma keeps_live {A} id (m : M LiveBackend A) :
  (∀ live, same_telemetry live (m live).2) → keeps (on_live id m).
Proof.
  intros Hm s a s' Hrun. pose proof (on_live_runtime _ _ _ _ _ Hrun) as Hrt.
  split; [by rewrite Hrt|by rewrite Hrt|]. intros _ i g live Hg Hl Ht.
  unfold on_live in Hrun. destruct (live_backends (inner s) !! id) as [lv|] eqn:El; [|injection Hrun as _ <-; by exists live].
  specialize (Hm lv). destruct (m lv) as [[b|] lv']; [|done]. injection Hrun as _ <-. simpl in *.
  destruct (decide (i = id)) as [->|Hne].
  - rewrite lookup_insert_eq. exists lv'. split; [done|]. congruence.
  - rewrite lookup_insert_ne by done. by exists live.
Qed.

Lemma keeps_ensure : keeps ensure_backends.
Proof.
  intros s a s' Hrun. pose proof (ensure_runtime _ _ _ Hrun) as Hrt. split; [by rewrite Hrt|by rewrite Hrt|].
  intros Hw id g live Hg Hl Ht. destruct (ensure_run s Hw) as (m & Hens & Hm). rewrite Hens in Hrun.
  injection Hrun as _ <-. simpl. rewrite Hm, Hg, Hl. simpl. exists live. rewrite Ht, N.eqb_refl. done.
Qed.

Lemma same_telemetry_permit id now live : same_telemetry live (live_permit id now live).2.
Proof.
  unfold live_permit, get_state, modify, mbind, M_mbind, mret, M_mret, same_telemetry.
  destruct (circuit live) as [|until|[]]; simpl; try done. by destruct (until <=? now)%N.
Qed.

Lemma same_telemetry_readiness config g now live :
  same_telemetry live (live_readiness_success config g now live).2.
Proof.
  unfold same_telemetry. run_live. destruct (negb _); [done|]. simpl. by destruct (success_threshold config <=? _)%N.
Qed.

(** Choosing a backend for a request, and recording a probe, leave the telemetry alone. *)
Lemma keeps_permit_drop permit now : keeps (CircuitPermit_drop permit now).
Proof.
  unfold CircuitPermit_drop. destruct (negb _); [|apply keeps_mret].
  apply keeps_bind; [|intros; apply keeps_mret].
  unfold CircuitPermit_neutral, resolve. destruct (resolved permit); [apply keeps_mret|].
  apply keeps_bind; [|intros; apply keeps_mret]. apply keeps_bind; [|intros; apply keeps_mret].
  apply keeps_live. intros live. unfold live_outcome, same_telemetry, get_state, modify, mbind, M_mbind, mret, M_mret.
  repeat (case_match; simpl; try done).
Qed.

Lemma keeps_reserve clock eligible l : keeps (reserve clock eligible l).
Proof.
  induction l as [|c l IH]; simpl; [apply keeps_mret|]. destruct (clock (cand_id c)) as [t1 t2].
  apply keeps_bind; [|intros [sel|]; [apply keeps_mret|exact IH]].
  unfold attempt. apply keeps_bind.
  { apply keeps_bind; [|intros; apply keeps_mret]. apply keeps_live. intros. apply same_telemetry_permit. }
  intros [p|]; [|apply keeps_mret]. apply keeps_bind.
  { apply keeps_leases; [apply traffics_acquire|]. intros s a s'. unfold on_backends.
    destruct (on_registry _ _) as [r rt]. by intros [= _ <-]. }
  intros [lease|e]; [apply keeps_mret|]. apply keeps_bind; [apply keeps_permit_drop|intros; apply keeps_mret].
Qed.

Lemma keeps_select now clock : keeps (select now clock).
Proof.
  apply keeps_bind.
  - intros s a s'. unfold candidates_phase, get_state, instances, runtime_config,
      gets, modify, mbind, M_mbind, mret, M_mret. simpl.
    destruct (backend_instances _); [|done].
    destruct (ensure_backends s) as [[[]|] s1] eqn:He; [|done]. intros [= _ <-].
    apply keeps_ensure in He. destruct He as [H1 H2 H3]. by split.
  - intros [cands cursor]. case_bool_decide; [apply keeps_mret|apply keeps_reserve].
Qed.

Lemma keeps_readiness id g now : keeps (record_readiness_success_for id g now).
Proof.
  unfold record_readiness_success_for. apply keeps_bind; [by intros s a s' [= _ <-]|intros config].
  apply keeps_bind; [apply keeps_ensure|intros _]. apply keeps_bind; [|intros; apply keeps_mret].
  apply keeps_live. intros live. apply same_telemetry_readiness.
Qed.

(** ** The scrapes of a backend *)

(** A live record after those cycles, with that many scrapes begun. *)
Definition tracked (g : N) (l : list Cycle) (begun : nat) (live : LiveBackend) : Prop :=
  topology_generation live = g ∧ metrics_scrapes_started live = N.of_nat begun
  ∧ metrics_last_completed_scrape live = N.of_nat (length l)
  ∧ engine_idle_streak live = N.min U64_MAX (run_of saw_idle (rev l))
  ∧ ∀ c k m, rev l = c :: k → cy_result c = Ok m →
      ∃ obs, metrics live = Some obs ∧ scrape_serial obs = N.of_nat (length l) ∧ observed_at obs = cy_begun c.

Lemma tracked_same g l begun live live' : same_telemetry live live' → tracked g l begun live → tracked g l begun live'.
Proof.
  intros (H1 & H2 & H3 & H4 & H5) (T1 & T2 & T3 & T4 & T5). unfold tracked. rewrite H1, H2, H3, H4, H5. by split_and!.
Qed.

Lemma tracked_new g : tracked g [] 0 (LiveBackend_new g).
Proof. by split_and!. Qed.

Lemma tracked_begin g l begun d n live :
  (N.of_nat begun < U64_MAX)%N → tracked g l begun live →
  ∃ live', live_begin_scrape g d n live
    = (Done (Some {| ctx_serial := N.of_nat (begun + 1); ctx_dispatches := d; ctx_observed_at := n |}), live')
    ∧ tracked g l (begun + 1) live'.
Proof.
  intros Hb (Hg & Hs & Hl & Hi & Ho). destruct live; simpl in *; subst. run_live. simpl. rewrite N.eqb_refl. simpl.
  no_overflow. assert (N.of_nat begun + 1 = N.of_nat (begun + 1))%N as -> by lia.
  eexists. split; [reflexivity|]. by split_and!.
Qed.

(** The result of a scrape that is under way. *)
Definition cycle_of (scrape : MetricsScrapeContext) (result : result string MistralRsMetrics) (now : N) : Cycle :=
  {| cy_dispatches := ctx_dispatches scrape; cy_begun := ctx_observed_at scrape; cy_result := result;
     cy_recorded := now |}.

Definition live_result (g : N) (scrape : MetricsScrapeContext) (result : result string MistralRsMetrics) (now : N) :
    M LiveBackend () :=
  match result with
  | Ok m => live_metrics_success g m scrape now
  | Err error => live_metrics_failure g (ctx_serial scrape) error now
  end.

Lemma tracked_result g l scrape result now live :
  ctx_serial scrape = N.of_nat (length l + 1) → tracked g l (length l + 1) live →
  ∃ live', live_result g scrape result now live = (Done (), live')
    ∧ tracked g (l ++ [cycle_of scrape result now]) (length l + 1) live'.
Proof.
  unfold tracked. rewrite rev_app_distr, length_app. simpl. rewrite run_of_cons.
  intros Hser (Hg & Hs & Hl & Hi & _). destruct live; simpl in Hg, Hs, Hl, Hi; subst.
  assert ((ctx_serial scrape <=? N.of_nat (length l))%N = false) as Hn by (rewrite Hser; apply N.leb_gt; lia).
  unfold saw_idle, cycle_of, live_result. destruct result as [m|e]; run_live; rsimpl; rewrite N.eqb_refl; simpl;
    rewrite Hn; simpl.
  - destruct (tokens_processed_total m), (prefill_tokens_processed_total m),
      (decode_tokens_processed_total m); rsimpl; (eexists; split; [reflexivity|]); simpl;
      rewrite saturated_streak; (split_and!; try done; [by destruct (_ && _)|]);
      intros c k m' [= <- <-]; simpl; intros [= <-]; by eexists.
  - eexists; split; [reflexivity|]. rsimpl. split_and!; try done. by intros c k m' [= <- <-].
Qed.
End Kept.

(** ** The rounds of the telemetry worker *)

Section Rounds.
Context {Uri : Type} `{UriOps Uri} (status_text : N → string) (panic_message : string).
Implicit Types (s : RoutingState (Uri:=Uri)) (w : Worker (Uri:=Uri)).

(** Every configured backend's record is tracked: [L] its cycles, [out] the scrapes under way. *)
Definition levels s (L : string → list Cycle) (out : string → nat) : Prop :=
  runtime_wf (Routing.runtime s)
  ∧ ∀ id g, configured_generation (Routing.runtime s) id = Some g →
      ∃ live, live_backends (inner s) !! id = Some live ∧ tracked g (L id) (length (L id) + out id) live.

Lemma levels_ext s L L' out out' :
  (∀ id, L id = L' id) → (∀ id, out id = out' id) → levels s L out → levels s L' out'.
Proof. intros HL Ho [Hw Hl]. split; [done|]. intros id g Hg. rewrite <- HL, <- Ho. by apply Hl. Qed.

Lemma levels_kept s s' L out : kept s s' → levels s L out → levels s' L out.
Proof.
  intros [Hp Hr Hk] [Hw Hl]. split; [auto|]. intros id g Hg. rewrite (configured_published _ _ _ Hp) in Hg.
  destruct (Hl id g Hg) as (live & E & Ht). destruct (Hk Hw id g live Hg E) as (live' & E' & Hs); [apply Ht|].
  exists live'. split; [done|]. by eapply tracked_same.
Qed.

(** An action on the record of one configured backend, after the membership was brought up to date. *)
Lemma live_action {A} id g (m : M LiveBackend A) s L out :
  levels s L out → configured_generation (Routing.runtime s) id = Some g →
  (∀ live, tracked g (L id) (length (L id) + out id) live → ∃ a live', m live = (Done a, live')) →
  ∃ live a live' s', live_backends (inner s) !! id = Some live ∧ m live = (Done a, live')
    ∧ (_ ← ensure_backends; on_live id m) s = (Done (Some a), s')
    ∧ Routing.runtime s' = Routing.runtime s ∧ live_backends (inner s') !! id = Some live'
    ∧ ∀ i gi, i ≠ id → configured_generation (Routing.runtime s) i = Some gi →
        live_backends (inner s') !! i = live_backends (inner s) !! i.
Proof.
  intros [Hw Hl] Hg Hm. destruct (ensure_run s Hw) as (map & Hens & Hmap).
  assert (∀ i gi, configured_generation (Routing.runtime s) i = Some gi → map !! i = live_backends (inner s) !! i) as Hsame.
  { intros i gi Hgi. destruct (Hl i gi Hgi) as (lv & E & Ht & _). rewrite Hmap, Hgi, E. simpl.
    by rewrite Ht, N.eqb_refl. }
  destruct (Hl id g Hg) as (live & E & Ht). destruct (Hm live Ht) as (a & live' & Hrun).
  exists live, a, live'. unfold mbind, M_mbind. rewrite Hens. unfold on_live. cbn [inner live_backends].
  rewrite (Hsame id g Hg), E, Hrun. eexists. split_and!; try done; cbn [inner live_backends Routing.runtime].
  - apply lookup_insert_eq.
  - intros i gi Hne Hgi. rewrite lookup_insert_ne by done. by eapply Hsame.
Qed.

Lemma levels_update s s' id g L out (l : list Cycle) (o : nat) live' :
  levels s L out → Routing.runtime s' = Routing.runtime s →
  configured_generation (Routing.runtime s) id = Some g →
  live_backends (inner s') !! id = Some live' → tracked g l (length l + o) live' →
  (∀ i gi, i ≠ id → configured_generation (Routing.runtime s) i = Some gi →
     live_backends (inner s') !! i = live_backends (inner s) !! i) →
  levels s' (λ i, if decide (i = id) then l else L i) (λ i, if decide (i = id) then o else out i).
Proof.
  intros [Hw Hl] Hrt Hg Hid Ht Hrest. split; [by rewrite Hrt|]. intros i gi Hgi. rewrite Hrt in Hgi.
  destruct (decide (i = id)) as [->|Hne].
  - exists live'. split; [done|]. assert (gi = g) as -> by congruence. done.
  - rewrite (Hrest i gi Hne Hgi). by apply Hl.
Qed.

(** The job of a configured backend whose scrape is under way. *)
Definition job_ok s (L : string → list Cycle) (job : Job MetricsScrapeContext) : Prop :=
  let '(id, g, scrape) := job in
  configured_generation (Routing.runtime s) id = Some g ∧ ctx_serial scrape = N.of_nat (length (L id) + 1).

Lemma begin_cycle_run l now s L (out : string → nat) :
  levels s L out → NoDup ((λ x, b_id x.1) <$> l) →
  (∀ b g, (b, g) ∈ l → configured_generation (Routing.runtime s) (b_id b) = Some g ∧ out (b_id b) = 0
     ∧ (N.of_nat (length (L (b_id b))) < U64_MAX)%N) →
  ∃ jobs s', begin_cycle l now s = (Done jobs, s') ∧ Routing.runtime s' = Routing.runtime s
    ∧ job_id <$> jobs = (λ x, b_id x.1) <$> l ∧ Forall (job_ok s L) jobs
    ∧ levels s' L (λ id, if decide (id ∈ job_id <$> jobs) then 1 else out id).
Proof.
  revert s out. induction l as [|[b g] l IH]; intros s out Hlv Hnd Hl; cbn [begin_cycle].
  { by exists [], s. }
  rewrite fmap_cons in Hnd. apply NoDup_cons in Hnd as [Hni Hnd]. cbn [fst] in Hni.
  destruct (Hl b g) as (Hg & Hout & Hmax); [left|].
  set (d := match registry_get (registry (Routing.runtime s)) (b_id b) with
            | Some slot => snap_total_acquired (BackendSlot_snapshot slot (now (b_id b))) | None => 0%N end).
  assert (∀ live, tracked g (L (b_id b)) (length (L (b_id b)) + out (b_id b)) live → ∃ live',
    live_begin_scrape g d (now (b_id b)) live
    = (Done (Some {| ctx_serial := N.of_nat (length (L (b_id b)) + 1); ctx_dispatches := d;
                     ctx_observed_at := now (b_id b) |}), live')
    ∧ tracked g (L (b_id b)) (length (L (b_id b)) + 1) live') as Hbegin.
  { intros live. rewrite Hout, Nat.add_0_r. by apply tracked_begin. }
  destruct (live_action (b_id b) g (live_begin_scrape g d (now (b_id b))) s L out Hlv Hg)
    as (live & a & live' & s1 & E & Hrun & Hact & Hrt & Hid & Hrest).
  { intros live Ht. destruct (Hbegin live Ht) as (live' & ? & _). by eexists _, live'. }
  pose proof Hlv as [Hw Hlv0].
  destruct (Hlv0 (b_id b) g Hg) as (live0 & E0 & Ht0). rewrite E in E0. injection E0 as <-.
  destruct (Hbegin live Ht0) as (live1 & Hrun1 & Ht1). rewrite Hrun in Hrun1. injection Hrun1 as -> ->.
  assert (levels s1 L (λ i, if decide (i = b_id b) then 1 else out i)) as Hlv1.
  { eapply levels_ext; [| |eapply (levels_update s s1 (b_id b) g L out (L (b_id b)) 1 live1); done]; [|done].
    intros i. simpl. by case_decide; subst. }
  destruct (IH s1 _ Hlv1 Hnd) as (jobs & s2 & Hrun2 & Hrt2 & Hids & Hjobs & Hlv2).
  { intros b' g' Hin. rewrite Hrt. destruct (Hl b' g') as (? & ? & ?); [by right|]. split; [done|]. split; [|done].
    rewrite decide_False; [done|]. intros Eb. apply Hni. rewrite <- Eb. by apply (list_elem_of_fmap_2 (λ x, b_id x.1) l (b', g')). }
  assert (begin_metrics_scrape (b_id b) g (now (b_id b)) s
    = (Done (Some {| ctx_serial := N.of_nat (length (L (b_id b)) + 1); ctx_dispatches := d;
                     ctx_observed_at := now (b_id b) |}), s1)) as Hb.
  { unfold begin_metrics_scrape, get_state. fold d. cbv [mbind M_mbind] in Hact |- *. fold d.
    destruct (ensure_backends s) as [[[]|] s0]; [|done]. by rewrite Hact. }
  eexists _, s2. unfold mbind, M_mbind. rewrite Hb, Hrun2. split; [reflexivity|].
  split; [congruence|]. split; [by rewrite !fmap_cons, Hids|]. split.
  - constructor; [by split|]. eapply Forall_impl; [exact Hjobs|]. intros [[i gi] sc]. unfold job_ok. by rewrite Hrt.
  - eapply levels_ext; [..|exact Hlv2]; [done|]. intros i. rewrite fmap_cons. simpl.
    destruct (decide (i ∈ job_id <$> jobs)) as [Hi|Hi].
    + by rewrite decide_True by by right.
    + destruct (decide (i = b_id b)) as [->|Hne]; [by rewrite decide_True by left|].
      rewrite decide_False; [done|]. by intros [?|?]%elem_of_cons.
Qed.

(** The scrapes of a backend that were recorded. *)
Definition cycles_of (id : string) (l : list (string * Cycle)) : list Cycle :=
  omap (λ x, if decide (x.1 = id) then Some x.2 else None) l.

Lemma cycles_of_snoc i id c l :
  cycles_of i (l ++ [(id, c)]) = if decide (i = id) then cycles_of id l ++ [c] else cycles_of i l.
Proof.
  unfold cycles_of. rewrite omap_app. simpl. destruct (decide (id = i)) as [->|Hne].
  - by rewrite decide_True.
  - rewrite decide_False by done. by rewrite app_nil_r.
Qed.

Definition out_of (jobs : list (Job MetricsScrapeContext)) (id : string) : nat :=
  if decide (id ∈ job_id <$> jobs) then 1 else 0.

(** Between the events of a round, those jobs are out. *)
Record watching w (jobs : list (Job MetricsScrapeContext)) : Prop := {
  wt_levels : levels (router w) (λ id, cycles_of id (recorded w)) (out_of jobs);
  wt_nodup : NoDup (job_id <$> jobs);
  wt_jobs : Forall (job_ok (router w) (λ id, cycles_of id (recorded w))) jobs;
}.

(** A recorded scrape. *)
Lemma record_run id g scrape result now s L out :
  levels s L out → configured_generation (Routing.runtime s) id = Some g → out id = 1 →
  ctx_serial scrape = N.of_nat (length (L id) + 1) →
  ∃ s', (_ ← ensure_backends; _ ← on_live id (live_result g scrape result now); mret ()) s = (Done (), s')
    ∧ Routing.runtime s' = Routing.runtime s
    ∧ levels s' (λ i, if decide (i = id) then L id ++ [cycle_of scrape result now] else L i)
        (λ i, if decide (i = id) then 0 else out i).
Proof.
  intros Hlv Hg Hout Hser.
  destruct (live_action id g (live_result g scrape result now) s L out Hlv Hg)
    as (live & a & live' & s1 & E & Hrun & Hact & Hrt & Hid & Hrest).
  { intros live. rewrite Hout. intros Ht. destruct (tracked_result g (L id) scrape result now live Hser Ht)
      as (live' & ? & _). by eexists _, live'. }
  pose proof Hlv as [Hw Hlv0]. destruct (Hlv0 id g Hg) as (live0 & E0 & Ht0). rewrite E in E0. injection E0 as <-.
  rewrite Hout in Ht0. destruct (tracked_result g (L id) scrape result now live Hser Ht0) as (live1 & Hrun1 & Ht1).
  rewrite Hrun in Hrun1. injection Hrun1 as -> ->. exists s1. split.
  - cbv [mbind M_mbind] in Hact |- *. destruct (ensure_backends s) as [[[]|] s0]; [|done]. by rewrite Hact.
  - split; [done|]. eapply (levels_update s s1 id g); try done. by rewrite length_app, Nat.add_0_r.
Qed.

Lemma kept_status id now s r s1 :
  runtime_wf (Routing.runtime s) → status id now s = (Done r, s1) → kept s s1.
Proof.
  intros Hw Hrun. destruct (status_run s id now Hw) as (r' & s1' & Hrun' & Hrt & Hlive & _).
  rewrite Hrun in Hrun'. injection Hrun' as <- <-. split; [by rewrite Hrt|by rewrite Hrt|].
  intros _ i g live Hg Hl Ht. exists live. split; [|done]. rewrite Hlive, Hg, Hl. simpl. by rewrite Ht, N.eqb_refl.
Qed.

(** Taking a job that was done out of the set. *)
Lemma watching_recorded w w' id g scrape result now jobs rest :
  watching w jobs → jobs ≡ₚ (id, g, scrape) :: rest →
  Routing.runtime (router w') = Routing.runtime (router w) →
  recorded w' = recorded w ++ [(id, cycle_of scrape result now)] →
  levels (router w') (λ i, if decide (i = id) then cycles_of id (recorded w) ++ [cycle_of scrape result now]
                           else cycles_of i (recorded w))
    (λ i, if decide (i = id) then 0 else out_of jobs i) →
  watching w' rest.
Proof.
  intros [Hlv Hnd Hjobs] Hp Hrt Hrec Hlv'. rewrite Hp in Hnd, Hjobs. rewrite fmap_cons in Hnd.
  apply NoDup_cons in Hnd as [Hni Hnd]. apply Forall_cons in Hjobs as [_ Hjobs]. change (job_id (id, g, scrape)) with id in Hni.
  split; [|done|].
  - eapply levels_ext; [..|exact Hlv'].
    + intros i. rewrite Hrec, cycles_of_snoc. done.
    + intros i. assert (i ∈ job_id <$> jobs ↔ i = id ∨ i ∈ job_id <$> rest) as Hi
        by (by rewrite Hp, fmap_cons, elem_of_cons).
      unfold out_of. repeat case_decide; naive_solver.
  - rewrite Forall_forall in Hjobs |- *. intros [[i gi] sc] Hin. destruct (Hjobs _ Hin) as [H1 H2].
    unfold job_ok. rewrite Hrt, Hrec, cycles_of_snoc. split; [done|]. destruct (decide (i = id)) as [->|]; [|done].
    exfalso. apply Hni. by apply (list_elem_of_fmap_2 job_id rest (id, gi, sc)).
Qed.

Lemma telemetry_joined_run quiet timeout id g scrape fetch now jobs rest w :
  watching w jobs → jobs ≡ₚ (id, g, scrape) :: rest →
  ∃ r w', telemetry_joined status_text panic_message quiet timeout (id, g, scrape) fetch now w = (Done r, w')
    ∧ match r with
      | Ok _ => watching w' rest ∧ ∃ c, recorded w' = recorded w ++ [(id, c)]
      | Err _ => w' = w
      end.
Proof.
  intros Hwt Hp. pose proof Hwt as [Hlv Hnd Hjobs].
  assert (job_ok (router w) (λ id, cycles_of id (recorded w)) (id, g, scrape)) as [Hg Hser].
  { rewrite Forall_forall in Hjobs. apply Hjobs. rewrite Hp. left. }
  assert (out_of jobs id = 1) as Hout.
  { unfold out_of. rewrite decide_True; [done|]. rewrite Hp, fmap_cons. left. }
  unfold telemetry_joined. destruct (scrape_metrics status_text timeout fetch) as [[m|error]|]; [| |by eexists _, w].
  - destruct (record_run id g scrape (Ok m) now (router w) _ _ Hlv Hg Hout Hser) as (s1 & Hrun & Hrt & Hlv1).
    change (record_metrics_success_for id g m scrape now (router w) = (Done (), s1)) in Hrun.
    unfold on_router, note_cycle, modify. cbv [mbind M_mbind mret M_mret]. rewrite Hrun. eexists _, _.
    split; [reflexivity|]. split; [|by eexists]. eapply (watching_recorded w _ id g scrape (Ok m) now); try done.
  - destruct (status_run (router w) id now) as (previous & s1 & Hst & Hrt1 & _); [apply Hlv|].
    assert (levels s1 (λ id, cycles_of id (recorded w)) (out_of jobs)) as Hlv1.
    { eapply levels_kept; [eapply kept_status; [apply Hlv|exact Hst]|done]. }
    destruct (record_run id g scrape (Err error) now s1 _ _ Hlv1) as (s2 & Hrun & Hrt & Hlv2); [by rewrite Hrt1|done|done|].
    change (record_metrics_failure_for id g (ctx_serial scrape) error now s1 = (Done (), s2)) in Hrun.
    unfold on_router, note_cycle, say, modify. cbv [mbind M_mbind mret M_mret]. rewrite Hst. cbn [router].
    unfold constant. cbn. rewrite Hrun.
    destruct (bool_decide _), quiet; (eexists _, _; split; [reflexivity|]; split; [|by eexists];
      eapply (watching_recorded w _ id g scrape (Err error) now); [done|done|cbn; congruence|done|exact Hlv2]).
Qed.

Lemma take_job_Some {A} id (jobs : list (Job A)) job rest :
  take_job id jobs = Some (job, rest) → job_id job = id ∧ jobs ≡ₚ job :: rest.
Proof.
  revert job rest. induction jobs as [|j jobs IH]; intros job rest; simpl; [done|].
  case_decide; [by intros [= <- <-]|]. destruct (take_job id jobs) as [[found l]|]; simpl; [|done].
  intros [= <- <-]. destruct (IH found l eq_refl) as [? ->]. split; [done|]. apply Permutation_swap.
Qed.

(** Other activity that leaves configuration and telemetry alone. *)
Definition event_ok (event : WorkerEvent Uri) : Prop :=
  match event with Elsewhere f => ∀ s, kept s (f s) | _ => True end.

Lemma watching_kept w jobs s' :
  kept (router w) s' → watching w jobs →
  watching {| router := s'; printed := printed w; recorded := recorded w |} jobs.
Proof.
  intros Hk [Hlv Hnd Hj]. split; [by eapply levels_kept|done|].
  eapply Forall_impl; [exact Hj|]. intros [[i g] sc]. unfold job_ok. simpl.
  by rewrite (configured_published _ _ _ (kp_published _ _ Hk)).
Qed.

(** At most one more cycle than before for each job that was out. *)
Definition grown (l l' : list (string * Cycle)) (jobs jobs' : list (Job MetricsScrapeContext)) : Prop :=
  ∀ id, length (cycles_of id l') + out_of jobs' id ≤ length (cycles_of id l) + out_of jobs id.

Lemma grown_refl l jobs : grown l l jobs jobs.
Proof. intros id. lia. Qed.

Lemma join_jobs_run task quiet timeout events jobs w :
  watching w jobs → Forall event_ok events →
  ∃ r w', join_jobs task (telemetry_joined status_text panic_message quiet timeout) jobs events w = (Done r, w')
    ∧ ∃ left, watching w' left ∧ grown (recorded w) (recorded w') jobs left
      ∧ match r with Ok jobs' => jobs' = left | Err _ => True end.
Proof.
  revert jobs w. induction events as [|event events IH]; intros jobs w Hwt Hok; cbn [join_jobs].
  { eexists _, w. split; [reflexivity|exists jobs; auto using grown_refl]. }
  apply Forall_cons in Hok as [He Hok].
  destruct event as [id fetch now|id error|f].
  - destruct (take_job id jobs) as [[[[i g] scrape] rest]|] eqn:Et; [|by apply IH].
    apply take_job_Some in Et as [Hi Hp]. change (job_id (i, g, scrape)) with i in Hi. subst i.
    destruct (telemetry_joined_run quiet timeout id g scrape fetch now jobs rest w Hwt Hp) as (r & w1 & Hrun & Hr).
    unfold mbind, M_mbind. rewrite Hrun. destruct r as [[]|error]; [|subst w1; eexists _, w; split; [reflexivity|]; exists jobs; auto using grown_refl].
    destruct Hr as [Hwt1 [c Hc]]. destruct (IH rest w1 Hwt1 Hok) as (r & w2 & Hrun2 & left & Hl & Hg & Hr).
    exists r, w2. split; [done|]. exists left. split; [done|]. split; [|done]. intros i. specialize (Hg i).
    rewrite Hc, cycles_of_snoc in Hg. assert (i ∈ job_id <$> jobs ↔ i = id ∨ i ∈ job_id <$> rest) as Hi
      by (by rewrite Hp, fmap_cons, elem_of_cons).
    pose proof (wt_nodup _ _ Hwt) as Hnd. rewrite Hp, fmap_cons in Hnd. apply NoDup_cons in Hnd as [Hni _].
    change (job_id (id, g, scrape)) with id in Hni. unfold out_of in *.
    destruct (decide (i = id)) as [->|]; repeat case_decide; rewrite ?length_app in Hg; simpl in Hg; naive_solver lia.
  - destruct (take_job id jobs) as [x|]; [|by apply IH]. eexists _, w. split; [reflexivity|exists jobs; auto using grown_refl].
  - destruct w as [s0 p rec]. apply (IH jobs {| router := f s0; printed := p; recorded := rec |}); [|done].
    by apply (watching_kept {| router := s0; printed := p; recorded := rec |}).
Qed.

Lemma worker_run quiet rounds w :
  watching w [] → (∀ id, (N.of_nat (length (cycles_of id (recorded w)) + length rounds) ≤ U64_MAX)%N) →
  Forall (λ round, Forall event_ok (ready round)) rounds →
  ∃ o w', run_telemetry_worker status_text panic_message quiet rounds w = (Done o, w') ∧ ∃ jobs, watching w' jobs.
Proof.
  revert w. induction rounds as [|round rounds IH]; intros w Hwt Hmax Hok; cbn [run_telemetry_worker].
  { eexists _, w. split; [reflexivity|]. by exists []. }
  apply Forall_cons in Hok as [He Hok]. destruct Hwt as [Hlv _ _].
  destruct (instances_spec _ (proj1 Hlv)) as (l & Hl & Hnd & Hin).
  destruct (begin_cycle_run l (reached round) (router w) _ _ Hlv Hnd) as (jobs & s1 & Hrun1 & Hrt & Hids & Hjobs & Hlv1).
  { intros b g Hb. apply Hin in Hb as [Hb Hg]. split; [|split; [done|]].
    - unfold configured_generation. by rewrite bool_decide_true by by apply list_elem_of_fmap_2.
    - specialize (Hmax (b_id b)). simpl in Hmax. lia. }
  set (w1 := {| router := s1; printed := printed w; recorded := recorded w |}).
  assert (watching w1 jobs) as Hwt1.
  { split; [|by rewrite Hids|].
    - eapply levels_ext; [..|exact Hlv1]; [done|]. intros id. unfold out_of at 2. by destruct (decide (id ∈ job_id <$> jobs)).
    - eapply Forall_impl; [exact Hjobs|]. intros [[i g] sc]. unfold job_ok. simpl. by rewrite Hrt. }
  destruct (join_jobs_run "backend telemetry scrape" quiet
    (scrape_timeout_ms (telemetry (config (published_runtime (Routing.runtime (router w)))))) (ready round) jobs w1 Hwt1 He)
    as (r & w2 & Hrun2 & left & Hl2 & Hg2 & Hr).
  assert (∀ k, ((config ← on_router runtime_config;
      l ← on_router instances;
      jobs ← on_router (begin_cycle l (reached round));
      left ← join_jobs "backend telemetry scrape"
        (telemetry_joined status_text panic_message quiet (scrape_timeout_ms (telemetry config))) jobs (ready round);
      k left) : M Worker (option string)) w = k r w2) as Hround.
  { intros k. clear -Hl Hrun1 Hrun2. subst w1. destruct w as [s p rec]. cbn [router printed recorded] in *.
    cbv [mbind M_mbind on_router runtime_config gets instances]. cbn. rewrite Hl. cbn. rewrite Hrun1. cbn.
    unfold constant. by rewrite Hrun2. }
  rewrite Hround. destruct r as [[|job jobs']|error].
  - subst left. apply IH; [done| |done]. intros id. specialize (Hg2 id). specialize (Hmax id).
    assert (out_of jobs id ≤ 1) by (unfold out_of; case_decide; lia). simpl in *. unfold out_of in Hg2 at 1.
    rewrite decide_False in Hg2 by apply not_elem_of_nil. lia.
  - eexists _, w2. split; [reflexivity|]. by exists left.
  - eexists _, w2. split; [reflexivity|]. by exists left.
Qed.

(** The records of a new routing state. *)
Lemma new_levels (rt : RuntimeState (Uri:=Uri)) s :
  runtime_wf rt → RoutingState_new rt = Done s →
  watching {| router := s; printed := []; recorded := [] |} [].
Proof.
  intros Hw. unfold RoutingState_new. destruct (instances_spec rt Hw) as (l & Hl & Hnd & Hin). rewrite Hl.
  intros [= <-]. split; [|constructor|constructor]. split; [done|]. intros id g Hg. cbn [inner live_backends Routing.runtime router] in *.
  assert (∃ b, (b, g) ∈ l ∧ b_id b = id) as (b & Hb & Hid).
  { unfold configured_generation in Hg. case_bool_decide as Hid; [|done].
    apply list_elem_of_fmap in Hid as (b & -> & Hb). exists b. split; [by apply Hin|done]. }
  exists (LiveBackend_new g). split; [|apply tracked_new]. clear Hin Hg Hl.
  assert (∀ l (m : gmap string LiveBackend), (b, g) ∉ l → b_id b ∉ (λ x : Backend * N, b_id x.1) <$> l →
    foldl (λ m '(backend, generation), <[b_id backend := LiveBackend_new generation]> m) m l !! b_id b = m !! b_id b) as Hskip.
  { clear. intros l. induction l as [|[b' g'] l IH]; intros m Hn Hni; [done|]. simpl.
    rewrite fmap_cons, not_elem_of_cons in Hni. destruct Hni as [Hne Hni]. rewrite IH; [by apply lookup_insert_ne|set_solver|done]. }
  subst id. generalize (∅ : gmap string LiveBackend). induction l as [|[b' g'] l IH]; intros m; [by apply elem_of_nil in Hb|].
  rewrite fmap_cons in Hnd. apply NoDup_cons in Hnd as [Hni Hnd]. simpl. apply elem_of_cons in Hb as [[= <- <-]|Hb]; [|by apply IH].
  rewrite Hskip; [apply lookup_insert_eq| |done]. intros Hin. apply Hni. by apply (list_elem_of_fmap_2 (λ x : Backend * N, b_id x.1) l (b, g)).
Qed.

(** C14: what the idle evidence of a drain is worth, through the telemetry worker.  Start the worker on a new
    routing state and let it go through any number of rounds: its scrapes answer in any order, late or never, and between any two
    of them the rest of the program does anything that leaves the configuration and the telemetry alone.  The worker never
    panics.  If at some point the status of a configured backend is evidence of an idle engine for a drain that began when
    [started] scrapes of that backend had begun, then the last two scrapes the worker recorded of it both saw an
    engine with nothing running and nothing waiting, both had begun after the drain did, and the last is no older than
    the freshness limit. *)
Theorem worker_evidence (rt : RuntimeState (Uri:=Uri)) s (quiet : bool) (rounds : list (WorkerRound (Uri:=Uri))) :
  runtime_wf rt → RoutingState_new rt = Done s → (N.of_nat (length rounds) ≤ U64_MAX)%N →
  Forall (λ round, Forall event_ok (ready round)) rounds →
  ∃ o w', run_telemetry_worker status_text panic_message quiet rounds
            {| router := s; printed := []; recorded := [] |} = (Done o, w')
    ∧ ∀ id, id ∈ b_id <$> backends (config (published_runtime (Routing.runtime (router w')))) →
      ∃ live, live_backends (inner (router w')) !! id = Some live
        ∧ ∀ operation snap (backend : Backend (Uri:=Uri)) now stale_after limit,
            idle_evidence operation (status_snapshot snap live backend now stale_after limit) = true →
            ∃ l0 c1 c2, cycles_of id (recorded w') = l0 ++ [c1; c2] ∧ saw_idle c1 = true ∧ saw_idle c2 = true
              ∧ (metrics_scrapes_started_at_start operation ≤ N.of_nat (length l0))%N
              ∧ (now - cy_begun c2 ≤ stale_after)%N.
Proof.
  intros Hw Hnew Hmax Hok. pose proof (new_levels rt s Hw Hnew) as Hwt.
  destruct (worker_run quiet rounds _ Hwt) as (o & w' & Hrun & jobs & Hwt'); [done|done|].
  exists o, w'. split; [done|]. intros id Hid. destruct (wt_levels _ _ Hwt') as [Hw' Hl].
  assert (∃ g, configured_generation (Routing.runtime (router w')) id = Some g) as [g Hg].
  { unfold configured_generation. rewrite bool_decide_true by done.
    apply list_elem_of_fmap in Hid as (b & -> & Hb). destruct (rw_generations _ Hw' b Hb) as (g & ? & _). by exists g. }
  destruct (Hl id g Hg) as (live & E & _ & _ & _ & Hi & Hobs). exists live. split; [done|].
  intros operation snap backend now stale_after limit. by apply cycles_evidence.
Qed.
End Rounds.

(** ** A worker that sees an idle engine *)

Definition idle_page : bytes :=
  bs "mistralrs_sequences_running 0" ++ LF :: bs "mistralrs_sequences_waiting 0" ++ LF ::
  bs "mistralrs_sequences_capacity 32" ++ LF :: bs "mistralrs_kv_cache_blocks_used 0" ++ LF ::
  bs "mistralrs_kv_cache_blocks_total 100" ++ [LF].

Lemma demo_runtime_wf : runtime_wf demo_runtime.
Proof.
  destruct (from_config_stage demo_config 0) as (st & E & Hwf & _); [apply demo_ids|apply demo_ids|].
  unfold demo_runtime. by rewrite E.
Qed.

(** A selection of a backend for a request. *)
Definition a_selection (s : RoutingState (Uri:=SimpleUri)) : RoutingState :=
  match select 7 demo_clock s with (Done _, s') => s' | (Panicked, _) => s end.

(** [west] answers first, then a request is served, then [east] answers. *)
Definition demo_round (at_ : N) : WorkerRound (Uri:=SimpleUri) :=
  {| reached := λ _, at_;
     ready := [TaskDone "west" (Answered 503 (BodyComplete [])) (at_ + 1); Elsewhere a_selection;
               TaskDone "east" (Answered 200 (BodyComplete idle_page)) (at_ + 2)] |}.

Definition demo_rounds : list WorkerRound := [demo_round 10; demo_round 20; demo_round 30].

Definition demo_worker : M (Worker (Uri:=SimpleUri)) (option string) :=
  run_telemetry_worker (λ _, "503 Service Unavailable") "" false demo_rounds.

Definition demo_new : RoutingState (Uri:=SimpleUri) :=
  match RoutingState_new demo_runtime with Done s => s | Panicked => empty_router end.

Definition demo_seen : bool :=
  let w := (demo_worker {| router := demo_new; printed := []; recorded := [] |}).2 in
  match live_backends (inner (router w)) !! "east" with
  | Some live => idle_evidence demo_operation
                   (status_snapshot (BackendSlot_snapshot demo_busy 35) live demo_endpoint 35 5000 (f64_of_N 1))
  | None => false
  end.

Theorem worker_evidence_witness :
  demo_seen = true
  ∧ ∃ w' l0 c1 c2, (demo_worker {| router := demo_new; printed := []; recorded := [] |}).2 = w'
      ∧ cycles_of "east" (recorded w') = l0 ++ [c1; c2] ∧ saw_idle c1 = true ∧ saw_idle c2 = true
      ∧ (1 ≤ N.of_nat (length l0))%N.
Proof.
  assert (demo_seen = true) as Hseen by (vm_compute; reflexivity). split; [exact Hseen|].
  destruct (worker_evidence (λ _, "503 Service Unavailable") "" demo_runtime demo_new false demo_rounds demo_runtime_wf)
    as (o & w' & Hrun & Hev).
  - vm_compute. reflexivity.
  - vm_compute. intros [=].
  - assert (∀ at_, Forall event_ok (ready (demo_round at_))) as Hok.
    { intros at_. constructor; [exact I|]. constructor; [|constructor; [exact I|constructor]]. intros s. unfold a_selection.
      destruct (select 7 demo_clock s) as [[r|] s'] eqn:E; [|reflexivity]. exact (keeps_select 7 demo_clock s r s' E). }
    constructor; [exact (Hok 10%N)|]. constructor; [exact (Hok 20%N)|]. constructor; [exact (Hok 30%N)|constructor].
  - exists w'. unfold demo_seen, demo_worker in *. rewrite Hrun in Hseen |- *. cbn [snd] in Hseen |- *.
    destruct (Hev "east") as (live & E & Hlive).
    { assert (bool_decide ("east" ∈ b_id <$> backends (config (published_runtime (Routing.runtime (router
        (run_telemetry_worker (λ _, "503 Service Unavailable") "" false demo_rounds
           {| router := demo_new; printed := []; recorded := [] |}).2))))) = true) as Hin by (vm_compute; reflexivity).
      rewrite Hrun in Hin. apply bool_decide_eq_true in Hin. exact Hin. }
    rewrite E in Hseen. destruct (Hlive _ _ _ _ _ _ Hseen) as (l0 & c1 & c2 & H1 & H2 & H3 & H4 & _).
    exists l0, c1, c2. split; [reflexivity|]. split; [exact H1|]. split; [exact H2|]. split; [exact H3|exact H4].
Defined.
