(* ===== verification/BackendCli.v ===== *)
(** * [src/src/backend_cli.rs]: the [backend] commands

    The commands over any server that offers [ControlApi]: what they print,
    what they return, the wait for a drain with its deadline and Control-C, and
    the tables.  A command runs against a state of the server; what happens to
    it between two requests, and the clock, are in a list of [Tick]s, so a
    command that is still waiting when the list ends has not returned. *)

From S2P Require Import Prelude RustStd Float64 Text Telemetry Backend Runtime Routing Disk BackendState Control Fences Drain ControlClient.

(** ** Text *)

(** src/src/backend_cli.rs:533-535 [optional_count] *)
Definition optional_count (value : option N) : string :=
  match value with Some value => to_string value | None => "-" end.

(** src/src/backend_cli.rs:537-539 [format_elapsed] *)
Definition format_elapsed (ms : N) : string :=
  padded 2 (ms / 60000) +:+ ":" +:+ padded 2 (ms mod 60000 / 1000).

(** src/src/backend_cli.rs:545-559 [format_age]; a precision does not show on an integer *)
Definition format_age (ms : N) : string :=
  if (ms <? 60000)%N then fmt_prec 1 (fdiv (f64_of_N ms) (f64_of_N 1000)) +:+ "s"
  else if (ms <? 3600000)%N then to_string (ms / 1000) +:+ "s"
  else if (ms <? 86400000)%N then to_string (ms / 60000) +:+ "m"
  else if (ms <? 604800000)%N then to_string (ms / 3600000) +:+ "h"
  else to_string (ms / 86400000) +:+ "d " +:+ to_string (ms mod 86400000 / 3600000) +:+ "h".

(** src/src/backend_cli.rs:561-570 [truncate] *)
Definition truncate (value : string) (width : nat) : string :=
  if chars value <=? width then value else str (take_chars (width - 1) (bs value)) +:+ "…".

(** [map_or_else] of an optional value over a dash. *)
Definition or_dash {A} (show : A → string) (value : option A) : string :=
  match value with Some value => show value | None => "-" end.

(** src/src/backend_cli.rs:472-478 [format_cell] *)
Definition format_cell (cell : string) (width : nat) (left_aligned : bool) : string :=
  if left_aligned then pad_end width cell else pad_start width cell.

(** src/src/backend_cli.rs, lines 394-397 of [render_backend_table] *)
Definition headers : list string :=
  ["BACKEND"; "MODE"; "STATE"; "PROXY"; "RUN/CAP"; "WAIT"; "KV%"; "TOK/S"; "PREF T/S"; "DECODE T/S"; "PRESS"; "AGE"]%string.

(** src/src/backend_cli.rs, lines 401-429 of [render_backend_table]: the cells of a backend *)
Definition backend_row (backend : BackendView) : list string :=
  [truncate (v_id backend) 24;
   BackendMode_display (v_mode backend);
   BackendDisplayState_display (v_state backend);
   to_string (v_proxy_active backend);
   match v_running backend, v_effective_capacity backend with
   | Some running, Some capacity => to_string running +:+ "/" +:+ to_string capacity
   | _, _ => "-"
   end;
   optional_count (v_waiting backend);
   or_dash (λ ratio, fmt_prec 0 (fmul ratio (f64_of_N 100))) (v_kv_ratio backend);
   or_dash (fmt_prec 1) (v_token_rate backend);
   or_dash (fmt_prec 1) (v_prefill_token_rate backend);
   or_dash (fmt_prec 1) (v_decode_token_rate backend);
   or_dash (fmt_prec 2) (v_pressure backend);
   or_dash format_age (v_metrics_age_ms backend)]%string.

(** The widest of some cells. *)
Definition widest (cells : list string) : nat := foldr Nat.max 0 (chars <$> cells).

(** src/src/backend_cli.rs, lines 433-443 of [render_backend_table]: [row[column]] is in range, every row having a cell
    per header *)
Definition column_widths (rows : list (list string)) : list nat :=
  imap (λ column header, Nat.max (widest ((λ row, default EmptyString (row !! column)) <$> rows)) (chars header)) headers.

(** src/src/backend_cli.rs, lines 446-455 of [render_backend_table]: a line *)
Definition table_line (widths : list nat) (cells : list string) : string :=
  String.concat " " (imap (λ column cell,
    format_cell cell (default 0 (widths !! column)) (column <? 3)) cells).

(** src/src/backend_cli.rs:392-470 [render_backend_table] *)
Definition render_backend_table (backends : list BackendView) : string :=
  let rows := backend_row <$> backends in
  let widths := column_widths rows in
  String.concat "" ((λ cells, table_line widths cells +:+ str [LF]) <$> (headers :: rows)).

(** src/src/backend_cli.rs:382-386 [print_backend_table] *)
Definition backend_table_lines (backends : list BackendView) : list string :=
  str <$> lines (bs (render_backend_table backends)).

(** src/src/backend_cli.rs:480-515 [print_backend_detail] *)
Definition backend_detail_lines (backend : BackendView) : list string :=
  [v_id backend;
   "  state       " +:+ BackendDisplayState_display (v_state backend);
   "  mode        " +:+ BackendMode_display (v_mode backend);
   "  URL         " +:+ v_url backend;
   "  readiness   " +:+ ReadinessState_display (v_readiness backend);
   "  telemetry   " +:+ TelemetryState_display (v_telemetry backend);
   "  circuit     " +:+ CircuitState_display (v_circuit backend);
   "  eligible    " +:+ (if v_eligible backend then "true" else "false");
   "  proxy       " +:+ to_string (v_proxy_active backend) +:+ " active";
   "  engine      " +:+ optional_count (v_running backend) +:+ " running, " +:+ optional_count (v_waiting backend)
     +:+ " waiting / " +:+ optional_count (v_effective_capacity backend) +:+ " capacity";
   "  KV cache    " +:+ match v_kv_ratio backend with
                        | Some ratio => fmt_prec 1 (fmul ratio (f64_of_N 100)) +:+ "%"
                        | None => "unavailable"
                        end;
   "  pressure    " +:+ or_dash (fmt_prec 3) (v_pressure backend)]%string
  ++ match v_readiness_error backend with Some error => [("  ready error " +:+ error)%string] | None => [] end
  ++ match v_metrics_error backend with Some error => [("  metric error " +:+ error)%string] | None => [] end.

(** src/src/backend_cli.rs:522-531 [print_changes] *)
Definition changes_line (label : string) (values : list string) : string :=
  "  " +:+ pad_end 8 label +:+ " "
  +:+ (if bool_decide (values = []) then "none" else String.concat ", " values).

(** ** The commands *)

(** src/src/config.rs:33-91 [BackendCommand], without the socket; [Manage] opens the live manager *)
Inductive BackendCommand :=
  | List_ (json : bool)
  | Status (backend : option string) (watch json : bool)
  | Manage_
  | Drain_ (backend : string) (no_wait : bool) (timeout_seconds : option N)
  | Disable_ (backend : string) (force : bool)
  | Activate_ (backend : string)
  | Reload_.

(** [Box<dyn Error>] *)
Inductive CliError := CMessage (text : string) | CIo (error : IoError) | CClient (error : ClientError) | CJson (error : string).

(** A round of waiting: what becomes of the server before it, the clock when it begins, whether its request is overtaken
    by the deadline, and Control-C while it sleeps. *)
Record Tick (S : Type) := mkTick {
  at_check : N;
  late : bool;
  meanwhile : S → S;
  ctrl_c : option (result IoError ());
}.
Arguments mkTick {S}. Arguments at_check {S}. Arguments late {S}. Arguments meanwhile {S}. Arguments ctrl_c {S}.

(** The server, and what was printed. *)
Record Cli (S : Type) := mkCli { server : S; out : list string }.
Arguments mkCli {S}. Arguments server {S}. Arguments out {S}.

(** The last instant, in milliseconds: the seconds of a [timespec] are an [i64]. *)
Definition INSTANT_MAX_MS : N := 9223372036854775807999.

(** [Instant + Duration] *)
Definition instant_add (now seconds : N) : option N :=
  let at_ := (now + 1000 * seconds)%N in if (at_ <=? INSTANT_MAX_MS)%N then Some at_ else None.

Section Commands.
Context {S : Type} `{ControlApi S}.
Context (list_json : BackendListResponse → result string string) (view_json : BackendView → result string string).
Context (manage : M (Cli S) (result CliError ())).

Definition on_server {A} (m : M S A) : M (Cli S) A :=
  λ c, let '(r, s) := m (server c) in (r, {| server := s; out := out c |}).

Definition print (lines : list string) : M (Cli S) () :=
  modify (λ c, {| server := server c; out := out c ++ lines |}).

Definition pass_time (tick : Tick S) : M (Cli S) () :=
  modify (λ c, {| server := meanwhile tick (server c); out := out c |}).

(** [?] on a request. *)
Definition ask {A} (m : M S (result ClientError A)) : M (Cli S) (result CliError A) :=
  r ← on_server m; mret (map_err CClient r).

(** src/src/backend_cli.rs:517-520 [print_json] *)
Definition print_json (text : result string string) : M (Cli S) (result CliError ()) :=
  match text with
  | Ok text => _ ← print [text]; mret (Ok ())
  | Err error => mret (Err (CJson error))
  end.

(** src/src/backend_cli.rs, lines 236-250 of [run_async]: one round of [status] *)
Definition status_round (backend : option string) (json : bool) : M (Cli S) (result CliError ()) :=
  match backend with
  | Some id =>
      status ←? ask (api_status id);
      if json then print_json (view_json status) else _ ← print (backend_detail_lines status); mret (Ok ())
  | None =>
      response ←? ask api_list;
      if json then print_json (list_json response)
      else _ ← print (backend_table_lines (views response)); mret (Ok ())
  end.

(** src/src/backend_cli.rs, lines 235-258 of [run_async]: [status], which repeats until Control-C with [--watch] *)
Fixpoint status_loop (backend : option string) (watch json : bool) (ticks : list (Tick S)) :
    M (Cli S) (option (result CliError ())) :=
  r ← status_round backend json;
  match r with
  | Err error => mret (Some (Err error))
  | Ok _ =>
      if negb watch then mret (Some (Ok ())) else
      match ticks with
      | [] => mret None
      | tick :: ticks =>
          match ctrl_c tick with
          | Some _ => mret (Some (Ok ()))
          | None => _ ← pass_time tick; status_loop backend watch json ticks
          end
      end
  end.

Definition timed_out (started : DrainStartedResponse) : CliError :=
  CMessage ("timed out waiting for " +:+ ds_backend_id started +:+ "; it remains draining (operation "
            +:+ ds_operation_id started +:+ ")").

(** What a progress line shows. *)
Definition shown (p : DrainProgress) : DrainPhase * N * option N * option N * TelemetryState :=
  (phase p, dp_proxy_active p, engine_running p, engine_waiting p, dp_telemetry p).

(** src/src/backend_cli.rs, lines 348-355 of [wait_for_drain] *)
Definition progress_line (p : DrainProgress) : string :=
  pad_start 8 (format_elapsed (dp_elapsed_ms p)) +:+ "  proxy=" +:+ to_string (dp_proxy_active p)
  +:+ "  running=" +:+ optional_count (engine_running p) +:+ "  waiting=" +:+ optional_count (engine_waiting p)
  +:+ "  telemetry=" +:+ TelemetryState_display (dp_telemetry p).

(** src/src/backend_cli.rs, lines 321-339 of [wait_for_drain]: the deadline and the request *)
Definition poll_operation (started : DrainStartedResponse) (deadline : option N) (tick : Tick S) :
    M (Cli S) (result CliError DrainProgress) :=
  match deadline with
  | Some deadline =>
      if (deadline <=? at_check tick)%N then mret (Err (timed_out started)) else
      if late tick then mret (Err (timed_out started)) else ask (api_operation (ds_operation_id started))
  | None => ask (api_operation (ds_operation_id started))
  end.

(** src/src/backend_cli.rs, lines 340-370 of [wait_for_drain]: what is printed of the progress, and whether the wait is
    over *)
Definition judge (previous : option (DrainPhase * N * option N * option N * TelemetryState)) (p : DrainProgress) :
    M (Cli S) (option (result CliError ())) :=
  _ ← (if bool_decide (previous = Some (shown p)) then mret () else print [progress_line p]);
  match phase p with
  | PhaseComplete =>
      if safe_to_stop p
      then _ ← print [(dp_backend_id p +:+ ": disabled — safe to stop")%string]; mret (Some (Ok ()))
      else mret None
  | PhaseFailed | PhaseCancelled =>
      mret (Some (Err (CMessage (default "drain did not complete"%string (dp_message p)))))
  | PhaseDraining => mret None
  end.

(** src/src/backend_cli.rs:312-380 [wait_for_drain], from a deadline on *)
Fixpoint wait_for_drain (started : DrainStartedResponse) (deadline : option N)
    (previous : option (DrainPhase * N * option N * option N * TelemetryState)) (ticks : list (Tick S)) :
    M (Cli S) (option (result CliError ())) :=
  match ticks with
  | [] => mret None
  | tick :: ticks =>
      _ ← pass_time tick;
      polled ← poll_operation started deadline tick;
      match polled with
      | Err error => mret (Some (Err error))
      | Ok p =>
          verdict ← judge previous p;
          match verdict with
          | Some r => mret (Some r)
          | None =>
              match ctrl_c tick with
              | Some (Err error) => mret (Some (Err (CIo error)))
              | Some (Ok _) =>
                  _ ← print [("detached; " +:+ ds_backend_id started +:+ " remains draining (operation "
                              +:+ ds_operation_id started +:+ ")")%string];
                  mret (Some (Ok ()))
              | None => wait_for_drain started deadline (Some (shown p)) ticks
              end
          end
      end
  end.

(** src/src/backend_cli.rs, lines 260-280 of [run_async] and 317-318 of [wait_for_drain]: [drain], begun at [now] *)
Definition drain_command (backend : string) (no_wait : bool) (timeout_seconds : option N) (now : N)
    (ticks : list (Tick S)) : M (Cli S) (option (result CliError ())) :=
  started ← ask (api_drain backend);
  match started with
  | Err error => mret (Some (Err error))
  | Ok started =>
      _ ← print [(ds_backend_id started +:+ ": " +:+ BackendMode_display (ds_mode started) +:+ "; operation "
                  +:+ ds_operation_id started)%string];
      if ds_safe_to_stop started
      then _ ← print [(ds_backend_id started +:+ ": safe to stop")%string]; mret (Some (Ok ()))
      else if no_wait then mret (Some (Ok ())) else
      match timeout_seconds with
      | None => wait_for_drain started None None ticks
      | Some seconds =>
          deadline ← expect (instant_add now seconds);
          wait_for_drain started (Some deadline) None ticks
      end
  end.

(** src/src/backend_cli.rs:218-310 [run_async] *)
Definition run_async (command : BackendCommand) (now : N) (ticks : list (Tick S)) :
    M (Cli S) (option (result CliError ())) :=
  let returning (m : M (Cli S) (result CliError ())) : M (Cli S) (option (result CliError ())) :=
    r ← m; mret (Some r) in
  match command with
  | List_ json =>
      returning (response ←? ask api_list;
                 if json then print_json (list_json response)
                 else _ ← print (backend_table_lines (views response)); mret (Ok ()))
  | Status backend watch json => status_loop backend watch json ticks
  | Drain_ backend no_wait timeout_seconds => drain_command backend no_wait timeout_seconds now ticks
  | Disable_ backend force =>
      returning (response ←? ask (api_disable backend force);
                 _ ← print [(ar_backend_id response +:+ ": " +:+ ar_message response)%string]; mret (Ok ()))
  | Activate_ backend =>
      returning (response ←? ask (api_activate backend);
                 _ ← print [(ar_backend_id response +:+ ": " +:+ ar_message response)%string]; mret (Ok ()))
  | Reload_ =>
      returning (response ←? ask api_reload;
                 _ ← print [("runtime revision " +:+ to_string (rr_revision response) +:+ " applied")%string;
                            changes_line "added" (rr_added response);
                            changes_line "revived" (rr_revived response);
                            changes_line "updated" (rr_updated response);
                            changes_line "retired" (rr_retired response)];
                 mret (Ok ()))
  | Manage_ => returning manage
  end.
End Commands.

(** ** The wait ends *)

Section Waiting.
Context {S : Type} `{ControlApi S}.

(** A request that always comes back, with an answer or an error. *)
Definition returns {A} (m : M S A) : Prop := ∀ s, ∃ a s', m s = (Done a, s').

Lemma poll_deadline started deadline (tick : Tick S) c :
  (deadline <= at_check tick)%N ∨ late tick = true →
  poll_operation started (Some deadline) tick c = (Done (Err (timed_out started)), c).
Proof.
  unfold poll_operation. intros [Hd|Hl]; [by destruct (N.leb_spec deadline (at_check tick)); [|lia]|].
  rewrite Hl. by destruct (deadline <=? at_check tick)%N.
Qed.

Lemma ask_returns {A} (m : M S (result ClientError A)) c :
  returns m → ∃ r c', ask m c = (Done r, c').
Proof.
  intros Hm. destruct (Hm (server c)) as (r & s' & E). unfold ask, on_server. cbv [mbind M_mbind]. rewrite E. by eexists _, _.
Qed.

Lemma judge_returns previous p c : ∃ v c', judge (S:=S) previous p c = (Done v, c').
Proof.
  unfold judge, print, modify. cbv [mbind M_mbind mret M_mret].
  case_bool_decide; destruct (phase p); try destruct (safe_to_stop p); by eexists _, _.
Qed.

(** Once a round finds the deadline passed, the wait is over. *)
Lemma wait_returns started deadline ticks :
  (∀ k, returns (api_operation k)) →
  Exists (λ tick, (deadline <= at_check tick)%N ∨ late tick = true) ticks →
  ∀ previous c, ∃ r c', wait_for_drain started (Some deadline) previous ticks c = (Done (Some r), c').
Proof.
  intros Hop. induction ticks as [|tick ticks IH]; intros Hex previous c; [by apply Exists_nil in Hex|].
  cbn [wait_for_drain]. unfold mbind at 1, M_mbind at 1. cbn [pass_time modify].
  set (c1 := mkCli _ _).
  destruct (decide ((deadline <= at_check tick)%N ∨ late tick = true)) as [Hd|Hd].
  { unfold mbind, M_mbind. rewrite poll_deadline by done. by eexists _, _. }
  apply Exists_cons in Hex as [?|Hex]; [done|].
  assert (∃ r c2, poll_operation started (Some deadline) tick c1 = (Done r, c2)) as (r & c2 & Hp).
  { unfold poll_operation. case_match; [by eexists _, _|]. case_match; [by eexists _, _|]. by apply ask_returns. }
  unfold mbind, M_mbind. rewrite Hp. destruct r as [p|error]; [|by eexists _, _].
  destruct (judge_returns previous p c2) as (v & c3 & Hj). rewrite Hj. destruct v; [by eexists _, _|].
  destruct (ctrl_c tick) as [[[]|]|]; [by eexists _, _|by eexists _, _|by apply IH].
Qed.

(** C33: A drain with a deadline ends.  [drain --timeout-seconds] returns whatever the server answers and whatever
    becomes of it, whether the drain ends, never ends, or every request fails: once a round of the wait finds the
    deadline passed, or its request is overtaken by it, the command is over, with a result and not a panic.  The
    deadline must be an instant of the clock. *)
Theorem drain_ends (backend : string) (no_wait : bool) (seconds now deadline : N) (ticks : list (Tick S)) c
    (Hdrain : ∀ id, returns (api_drain id)) (Hop : ∀ k, returns (api_operation k))
    (Hdeadline : instant_add now seconds = Some deadline)
    (Hticks : Exists (λ tick, (deadline <= at_check tick)%N ∨ late tick = true) ticks) :
  ∃ r c', drain_command backend no_wait (Some seconds) now ticks c = (Done (Some r), c').
Proof.
  unfold drain_command. unfold mbind at 1, M_mbind at 1.
  destruct (ask_returns (api_drain backend) c (Hdrain backend)) as (r & c1 & E). rewrite E.
  destruct r as [started|error]; [|by eexists _, _].
  unfold mbind at 1, M_mbind at 1. cbn [print modify].
  destruct (ds_safe_to_stop started); [by eexists _, _|]. destruct no_wait; [by eexists _, _|].
  rewrite Hdeadline. unfold expect, mbind, M_mbind. by apply wait_returns.
Qed.

(** What a successful wait saw. *)
Lemma judge_ok previous p c c' :
  judge (S:=S) previous p c = (Done (Some (Ok ())), c') → phase p = PhaseComplete ∧ server c' = server c.
Proof.
  unfold judge, print, modify. cbv [mbind M_mbind mret M_mret].
  case_bool_decide; destruct (phase p); try destruct (safe_to_stop p); intros [= <-]; done.
Qed.

Lemma judge_server previous p c v c' : judge (S:=S) previous p c = (Done v, c') → server c' = server c.
Proof.
  unfold judge, print, modify. cbv [mbind M_mbind mret M_mret].
  case_bool_decide; destruct (phase p); try destruct (safe_to_stop p); intros [= _ <-]; done.
Qed.

Lemma ask_ok {A} (m : M S (result ClientError A)) c a c' :
  ask m c = (Done (Ok a), c') → m (server c) = (Done (Ok a), server c').
Proof.
  unfold ask, on_server. cbv [mbind M_mbind mret M_mret]. destruct (m (server c)) as [[[x|e]|] s']; by intros [= <- <-].
Qed.

Lemma poll_ok started deadline (tick : Tick S) c p c' :
  poll_operation started deadline tick c = (Done (Ok p), c') →
  api_operation (ds_operation_id started) (server c) = (Done (Ok p), server c').
Proof.
  unfold poll_operation. repeat case_match; try (by intros [=]); apply ask_ok.
Qed.

(** A wait that succeeds without Control-C ends with a poll that found the drain complete.  [P] holds of the server
    when the wait begins, and what happens in between keeps it; polling does not change the server. *)
Lemma wait_ok (P : S → Prop) started deadline ticks :
  (∀ s r s', api_operation (ds_operation_id started) s = (Done (Ok r), s') → s' = s) →
  Forall (λ tick, ctrl_c tick = None ∧ ∀ s, P s → P (meanwhile tick s)) ticks →
  ∀ previous c c', wait_for_drain started deadline previous ticks c = (Done (Some (Ok ())), c') → P (server c) →
  P (server c') ∧ ∃ p, api_operation (ds_operation_id started) (server c') = (Done (Ok p), server c')
    ∧ phase p = PhaseComplete.
Proof.
  intros Hsame Hticks. induction Hticks as [|tick ticks [Hcc HP] _ IH]; intros previous c c'; [by intros [=]|].
  cbn [wait_for_drain]. intros (u & c1 & [= _ <-] & Hrun)%M_bind_Done Hc.
  apply M_bind_Done in Hrun as ([p|error] & c2 & Hp & Hrun); [|by injection Hrun].
  apply poll_ok in Hp. pose proof (Hsame _ _ _ Hp) as E2. cbn in E2.
  apply M_bind_Done in Hrun as (v & c3 & Hj & Hrun). pose proof (judge_server _ _ _ _ _ Hj) as E3.
  assert (P (server c3)) as H3 by (rewrite E3, E2; by apply HP).
  destruct v as [r|].
  - injection Hrun as -> <-. split; [done|]. exists p. apply judge_ok in Hj as [Hj _]. split; [|done].
    rewrite E3. cbn in Hp. rewrite E2 at 1. by rewrite <- Hp.
  - rewrite Hcc in Hrun. by eapply IH.
Qed.
End Waiting.

(** ** A drain over the control plane *)

Section Draining.
Context {Uri : Type} `{UriOps Uri} `{JsonOps StateFile}.
Context `{AxumLaws, WireLaws string, WireLaws DrainStartedResponse, WireLaws DrainProgress, WireLaws ActionResponse,
  WireLaws ReloadResponse, WireOps BackendListResponse, WireOps BackendView}.
Context (su : Surroundings Uri) (rejection : bytes) (closed socket decode_error : string).
Notation State := (ControlState (Uri:=Uri)).

(** The client over the socket of the control plane. *)
Definition control_api : ControlApi State := client_api socket decode_error (over_socket su rejection closed).

(** A request of the client that came back as a success. *)
Lemma client_result_ok {R T} (body : R → T) (m : M State (result ControlError R)) s t s' :
  client_result closed (body_of body m) s = (Done (Ok t), s') → ∃ r, m s = (Done (Ok r), s') ∧ t = body r.
Proof.
  unfold client_result, body_of. cbv [mbind M_mbind mret M_mret].
  destruct (m s) as [[[r|e]|] s1]; intros [= <- <-]. by exists r.
Qed.

Lemma get_operation_ok k (s : State) p s' :
  get_operation k s = (Done (Ok p), s') → s' = s ∧ ∃ o, operations s !! k = Some o ∧ progress o = p.
Proof.
  unfold get_operation. cbv [mbind M_mbind get_state mret M_mret].
  destruct (operations s !! k) as [o|]; intros [= <- <-]. split; [done|]. by exists o.
Qed.

(** A drain of [id] under way, filed under [k]. *)
Definition under_way (s : State) (k : Uuid) (id : string) : Prop :=
  ∃ o, operations s !! k = Some o ∧ drains id o = true.

Lemma ensure_under_way id fresh now (s : State) o s' :
  ensure_drain_operation id fresh now s = (Done o, s') → operations s !! fresh = None → filed (operations s) →
  operations s' !! op_id o = Some o ∧ drains id o = true
  ∧ (operations s !! op_id o = Some o ∨ op_id o = fresh ∧ operations s !! fresh = None).
Proof.
  unfold ensure_drain_operation, get_state, mbind at 1, M_mbind at 1. intros Hrun Hfresh Hf. revert Hrun.
  destruct (head _) as [o'|] eqn:Eh.
  - intros [= <- <-]. apply keep_first in Eh as (l1 & l2 & El & Hd & _).
    assert (o' ∈ (map_to_list (operations s)).*2) as Ho by (rewrite El; apply elem_of_app; right; left).
    apply list_elem_of_fmap in Ho as ([k x] & -> & Hk%elem_of_map_to_list). cbn in *.
    destruct (Hf k x Hk) as [-> _]. split_and!; [done..|by left].
  - intros (r & s1 & Hst & (u & s2 & [= _ <-] & [= <- <-])%M_bind_Done)%M_bind_Done.
    cbn. rewrite lookup_insert_eq. split_and!; [done| |by right]. by rewrite drains_true.
Qed.

(** What a successful start of a drain leaves. *)
Lemma start_drain_ok id faults fresh now unix_ms (s : State) r s' :
  start_drain id faults fresh now unix_ms s = (Done (Ok r), s') → operations s !! fresh = None → filed (operations s) →
  filed (operations s') ∧ under_way s' (ds_operation_id r.2) id ∧ ds_safe_to_stop r.2 = false
  ∧ (ds_operation_id r.2 = fresh ∨ under_way s (ds_operation_id r.2) id).
Proof.
  intros (ro & s1 & Hb & Hrun)%M_bind_Done Hfresh Hf. destruct ro as [o|e]; [|by injection Hrun].
  assert (operations s1 !! op_id o = Some o ∧ drains id o = true
          ∧ (operations s !! op_id o = Some o ∨ op_id o = fresh ∧ operations s !! fresh = None)) as (Ho & Hd & Hold).
  { revert Hb. unfold Control.begin_drain. intros (slot & s2 & Hs2%quiet_slot & Hrun2)%M_bind_Done.
    destruct slot as [slot|]; [|by injection Hrun2].
    apply M_bind_Done in Hrun2 as (u & s3 & Hs3%quiet_backend & Hrun2).
    apply M_bind_Done in Hrun2 as (p & s4 & Hs4 & Hrun2).
    assert (operations s4 = operations s) as E.
    { rewrite <- Hs2, <- Hs3. revert Hs4. case_bool_decide; [apply quiet_store|apply quiet_mret]. }
    destruct p as [[]|e]; [|by apply M_bind_Done in Hrun2 as (v & s5 & _ & [=])].
    apply M_bind_Done in Hrun2 as (o' & s5 & He & [= <- <-]). rewrite <- E in *. by eapply ensure_under_way. }
  assert (filed (operations s1)) as Hf1 by by eapply begin_drain_refines.
  apply M_bind_Done in Hrun as (p & s2 & Hp & [= <- <-]).
  unfold current_progress, gets in Hp. rewrite Ho in Hp. injection Hp as <- <-. cbn.
  destruct (Hf1 _ _ Ho) as [_ Hsafe]. pose proof (proj1 (drains_true _ _) Hd) as [_ Hdr]. rewrite Hdr in Hsafe.
  split_and!; [done|by exists o|by rewrite Hsafe|]. destruct Hold as [Hold|[Hold _]]; [right; by exists o|by left].
Qed.

(** Whose drain an operation is does not change. *)
Lemma steps_keep_drain (s s' : State) k id :
  rtc task_step s s' → filed (operations s) ∧ (∃ ph, book s !! k = Some (id, ph)) →
  filed (operations s') ∧ (∃ ph, book s' !! k = Some (id, ph)).
Proof.
  induction 1 as [|a b c Hab _ IH]; [done|]. intros [Hf [ph Hk]]. apply IH.
  destruct (task_refines _ _ Hab Hf) as [Hbook Hf']. split; [done|].
  clear -Hbook Hk. revert ph Hk. induction Hbook as [|x y z Hxy _ IH]; intros ph Hk; [by exists ph|].
  destruct Hxy as [k' id' Hn _ ->|k' id' p Hn _ ->]; destruct (decide (k' = k)) as [->|Hne].
  - by rewrite Hn in Hk.
  - by apply (IH ph); rewrite lookup_insert_ne.
  - rewrite Hn in Hk. injection Hk as -> _. by apply (IH p); rewrite lookup_insert_eq.
  - by apply (IH ph); rewrite lookup_insert_ne.
Qed.

Lemma book_under_way (s : State) k id : under_way s k id → ∃ ph, book s !! k = Some (id, ph).
Proof.
  intros (o & Ho & [Hb _]%drains_true). exists (phase (progress o)).
  unfold book. by rewrite lookup_fmap, Ho, <- Hb.
Qed.

(** A completed operation of a backend. *)
Definition completed (s : State) (k : Uuid) (id : string) : Prop :=
  ∃ o, operations s !! k = Some o ∧ op_backend_id o = id
  ∧ phase (progress o) = PhaseComplete ∧ safe_to_stop (progress o) = true.

(** What happens between the rounds: any steps of the control plane, and no Control-C. *)
Definition undisturbed (tick : Tick State) : Prop :=
  ctrl_c tick = None ∧ ∀ s, rtc task_step s (meanwhile tick s).

Lemma wait_completed started deadline previous ticks id c c' :
  sendable (ds_operation_id started) → Forall undisturbed ticks →
  filed (operations (server c)) → under_way (server c) (ds_operation_id started) id →
  wait_for_drain (H := control_api) started deadline previous ticks c = (Done (Some (Ok ())), c') →
  completed (server c') (ds_operation_id started) id.
Proof.
  intros Hk Hticks Hf Hway%book_under_way Hrun.
  assert (Forall (λ tick, ctrl_c tick = None ∧ ∀ s,
    filed (operations s) ∧ (∃ ph, book s !! ds_operation_id started = Some (id, ph)) →
    filed (operations (meanwhile tick s)) ∧ (∃ ph, book (meanwhile tick s) !! ds_operation_id started = Some (id, ph)))
    ticks) as Hkeep.
  { eapply Forall_impl; [exact Hticks|]. intros tick [Hcc Hsteps]. split; [done|]. intros s Hs.
    exact (steps_keep_drain _ _ _ _ (Hsteps s) Hs). }
  apply (wait_ok (λ s, filed (operations s) ∧ ∃ ph, book s !! ds_operation_id started = Some (id, ph))) in Hrun
    as ([Hf' [ph Hb]] & p & Hp & Hphase); [| |exact Hkeep|by split].
  2: { cbn. intros s p s'. rewrite reach_operation by done. by intros (q & [-> _]%get_operation_ok & _)%client_result_ok. }
  cbn in Hp. rewrite reach_operation in Hp by done.
  apply client_result_ok in Hp as (q & (_ & o & Ho & <-)%get_operation_ok & ->). exists o. split_and!; [done| |done|].
  - unfold book in Hb. rewrite lookup_fmap, Ho in Hb. by injection Hb.
  - destruct (Hf' _ _ Ho) as [_ ->]. by rewrite bool_decide_true.
Qed.

(** C29: A drain command that succeeds is a drain that completed.  When [drain], not told to return at once and not
    interrupted, succeeds over the socket of the control plane, then the control plane has a completed operation of
    that very backend, whatever drain tasks, requests, operators and reloads did in between; the operation was under
    way when the command began, or was begun by it, so a drain completed earlier is never reported as this one.  With a
    deadline the command may fail but never succeeds early. *)
Theorem drain_exit_safe (id : string) (timeout : option N) (now : N) (ticks : list (Tick State)) c c'
    (Hid : validate_backend_id id = Ok ())
    (Hfiled : filed (operations (server c))) (Hfresh : operations (server c) !! su_fresh su = None)
    (Hsend : ∀ k, k = su_fresh su ∨ is_Some (operations (server c) !! k) → sendable k)
    (Hticks : Forall undisturbed ticks)
    (Hrun : drain_command (H := control_api) id false timeout now ticks c = (Done (Some (Ok ())), c')) :
  ∃ k, completed (server c') k id ∧ (operations (server c) !! k = None ∨ under_way (server c) k id).
Proof.
  apply M_bind_Done in Hrun as ([started|error] & c1 & Hask & Hrun); [|by injection Hrun].
  apply ask_ok in Hask. cbn in Hask. rewrite reach_drain in Hask by done.
  apply client_result_ok in Hask as (r & Hask & ->).
  apply start_drain_ok in Hask as (Hf1 & Hway & Hsafe & Hk); [|done..].
  apply M_bind_Done in Hrun as (u & c2 & [= _ <-] & Hrun). rewrite Hsafe in Hrun. cbn in Hrun.
  assert (sendable (ds_operation_id r.2)) as Hk'.
  { apply Hsend. destruct Hk as [->|(o & Ho & _)]; [by left|right; by rewrite Ho]. }
  exists (ds_operation_id r.2). split; [|destruct Hk as [->|Hk]; [left; exact Hfresh|by right]].
  destruct timeout as [seconds|]; [|by eapply wait_completed in Hrun].
  apply M_bind_Done in Hrun as (deadline & c3 & He & Hrun). unfold expect in He.
  destruct (instant_add now seconds); [injection He as -> <-|done]. by eapply wait_completed in Hrun.
Qed.
End Draining.

(** ** The table *)

Lemma chars_format_cell cell width left_aligned : chars cell ≤ width → chars (format_cell cell width left_aligned) = width.
Proof. intros Hc. destruct left_aligned; [by apply chars_pad_end|by apply chars_pad_start]. Qed.

(** The characters of cells and what is between them. *)
Lemma chars_concat sep cells :
  chars (String.concat sep cells) = sum_list_with chars cells + chars sep * pred (length cells).
Proof.
  induction cells as [|cell [|next cells] IH]; [by rewrite Nat.mul_0_r|simpl; lia|].
  change (String.concat sep (cell :: next :: cells)) with (cell +:+ sep +:+ String.concat sep (next :: cells)).
  rewrite !chars_app, IH. cbn [sum_list_with length pred]. lia.
Qed.

Lemma widest_ge cell cells : cell ∈ cells → chars cell ≤ widest cells.
Proof. unfold widest. induction 1 as [|x y l _ IH]; cbn in *; lia. Qed.

Lemma backend_row_length view : length (backend_row view) = length headers.
Proof. done. Qed.

(** No cell is wider than its column. *)
Lemma cell_fits rows cells column cell :
  cells ∈ headers :: rows → cells !! column = Some cell → column < length headers →
  chars cell ≤ default 0 (column_widths rows !! column).
Proof.
  intros Hin Hcell Hcol. apply lookup_lt_is_Some in Hcol as [header Hh].
  unfold column_widths. rewrite list_lookup_imap, Hh. cbn. apply elem_of_cons in Hin as [->|Hin].
  - rewrite Hh in Hcell. injection Hcell as ->. lia.
  - pose proof (widest_ge cell ((λ row, default EmptyString (row !! column)) <$> rows)) as Hw.
    rewrite Hw; [lia|]. apply list_elem_of_fmap. exists cells. by rewrite Hcell.
Qed.

(** Cells that fit fill their columns. *)
Lemma sum_cells (left_aligned : nat → bool) widths cells :
  length widths = length cells →
  (∀ column cell, cells !! column = Some cell → chars cell ≤ default 0 (widths !! column)) →
  sum_list_with chars (imap (λ column cell, format_cell cell (default 0 (widths !! column)) (left_aligned column)) cells)
  = sum_list widths.
Proof.
  revert widths left_aligned. induction cells as [|cell cells IH]; intros [|w widths] left_aligned Hw Hfit; try done.
  cbn [imap sum_list_with]. rewrite chars_format_cell by exact (Hfit 0 cell eq_refl). cbn [lookup list_lookup default].
  simpl. f_equal. apply (IH widths (λ column, left_aligned (S column))); [by injection Hw|].
  intros column c Hc. exact (Hfit (S column) c Hc).
Qed.

Lemma chars_table_line rows cells :
  cells ∈ headers :: rows → length cells = length headers →
  chars (table_line (column_widths rows) cells) = sum_list (column_widths rows) + 11.
Proof.
  intros Hin Hlen. unfold table_line. rewrite chars_concat, length_imap, Hlen.
  change (chars " " * pred (length headers)) with 11. f_equal.
  assert (length (column_widths rows) = length cells) as Hw by (unfold column_widths; by rewrite length_imap, Hlen).
  assert (∀ column cell, cells !! column = Some cell → chars cell ≤ default 0 (column_widths rows !! column)) as Hfit.
  { intros column cell Hc. eapply cell_fits; [done..|]. rewrite <- Hlen. by eapply lookup_lt_Some. }
  by apply (sum_cells (λ column, column <? 3)).
Qed.

(** The table of backends is aligned.  Whatever the backends, with ids of any length and characters, counts of any
    size and any rates, the table is a header and one line per backend, in their order, and all of these lines have the
    same number of characters; the id takes at most 24 of them. *)
Theorem table_aligned (backends : list BackendView) :
  ∃ header rows,
    render_backend_table backends = String.concat "" ((λ line, line +:+ str [LF]) <$> header :: rows)
    ∧ length rows = length backends
    ∧ (∀ line, line ∈ rows → chars line = chars header)
    ∧ (∀ view, view ∈ backends → chars (truncate (v_id view) 24) ≤ 24).
Proof.
  set (rows := backend_row <$> backends).
  exists (table_line (column_widths rows) headers), (table_line (column_widths rows) <$> rows).
  assert (∀ cells, cells ∈ headers :: rows → chars (table_line (column_widths rows) cells) = sum_list (column_widths rows) + 11) as Hall.
  { intros cells Hin. apply chars_table_line; [done|]. apply elem_of_cons in Hin as [->|Hin]; [done|].
    by apply list_elem_of_fmap in Hin as (view & -> & _). }
  split_and!.
  - unfold render_backend_table. fold rows. cbn [fmap list_fmap]. by rewrite <- list_fmap_compose.
  - unfold rows. by rewrite !length_fmap.
  - intros line (cells & -> & Hin)%list_elem_of_fmap. rewrite !Hall; [done|by left|by right].
  - intros view _. unfold truncate. case_match eqn:E; [by apply Nat.leb_le|].
    rewrite chars_app. change (chars "…") with 1. unfold chars. rewrite bs_str.
    pose proof (chars_take (24 - 1) (bs (v_id view))). lia.
Qed.

(** An age is kept narrow, though not below nine characters. *)
Example format_age_cases :
  format_age 999 = "1.0s"%string ∧ format_age 59999 = "60.0s"%string ∧ format_age 60000 = "60s"%string
  ∧ format_age 3600000 = "60m"%string ∧ format_age 86400000 = "24h"%string ∧ format_age 604800000 = "7d 0h"%string
  ∧ format_age 86436000000 = "1000d 10h"%string ∧ format_elapsed 61500 = "01:01"%string.
Proof. vm_compute. done. Qed.

(** ** A concrete drain *)

Section Demo.
Import DemoWire.

Notation State := (ControlState (Uri:=SimpleUri)).

(** The client of the example's control plane. *)
Definition demo_api : ControlApi State := control_api demo_around [] "closed" "control.sock" "not a message".

(** The state a finished action leaves. *)
Definition after {A} (m : M State A) (s : State) : State := match m s with (Done _, s') => s' | _ => s end.

(** Two scrapes of an idle engine, and the drain task's confirmation. *)
Definition demo_scrape (now : N) : State → State := after (on_routing (record_metrics_success "east" demo_idle_metrics now)).

Definition demo_confirm (s : State) : State :=
  match operations s !! "op-1" with
  | Some o => if bool_decide (phase (progress o) = PhaseDraining)
              then after (drive_confirm o demo_observed no_faults 45 9) s else s
  | None => s
  end.

Lemma after_routing {A} (m : M RoutingState A) (s : State) : rtc task_step s (after (on_routing m) s).
Proof.
  unfold after. destruct (on_routing m s) as [[a|] s'] eqn:E; [|done]. apply rtc_once. by eapply task_routing.
Qed.

Lemma after_scrape now (s : State) : rtc task_step s (demo_scrape now s).
Proof. apply after_routing. Qed.

Lemma after_confirm (s : State) : rtc task_step s (demo_confirm s).
Proof.
  unfold demo_confirm, after. destruct (operations s !! "op-1") as [o|] eqn:Eo; [|done].
  case_bool_decide as Hd; [|done]. destruct (drive_confirm _ _ _ _ _ s) as [[a|] s'] eqn:E; [|done].
  apply rtc_once. by eapply task_confirm.
Qed.

Definition demo_ticks : list (Tick State) :=
  [mkTick 1000 false (λ s, s) None;
   mkTick 2000 false (λ s, demo_confirm (demo_scrape 40 (demo_scrape 30 (demo_scrape 20 s)))) None].

Definition demo_cli : Cli State := mkCli demo_control [].

(** The drain of [east] succeeds in the second round, and then it has completed. *)
Lemma drain_exit_safe_witness :
  let run := drain_command (H := demo_api) "east" false (Some 60%N) 0 demo_ticks demo_cli in
  run.1 = Done (Some (Ok ())) ∧ ∃ k, completed (server run.2) k "east".
Proof.
  intros run. assert (run.1 = Done (Some (Ok ()))) as Hr by (vm_compute; reflexivity). split; [exact Hr|].
  destruct run as [r c'] eqn:E. cbn in Hr. subst r.
  destruct (drain_exit_safe demo_around [] "closed" "control.sock" "not a message" "east" (Some 60%N) 0 demo_ticks
    demo_cli c') as (k & Hk & _).
  - reflexivity.
  - apply map_Forall_empty.
  - reflexivity.
  - intros k [->|[o Ho]]; [|].
    2: { exfalso. change ((∅ : gmap Uuid DrainOperation) !! k = Some o) in Ho. rewrite lookup_empty in Ho. discriminate Ho. }
    split; [reflexivity|split; [repeat constructor|discriminate]].
  - apply Forall_cons. split; [split; [reflexivity|intros s; reflexivity]|].
    apply Forall_cons. split; [split; [reflexivity|]|apply Forall_nil; exact I].
    intros s. cbn. etransitivity; [|apply after_confirm]. do 2 (etransitivity; [|apply after_scrape]). apply after_scrape.
  - exact E.
  - exists k. exact Hk.
Defined.

(** A server that answers every poll with a drain that goes on. *)
Definition stuck_api : ControlApi () :=
  {| api_list := mret (Err (ClientError_new "no"));
     api_status := λ _, mret (Err (ClientError_new "no"));
     api_drain := λ id, mret (Ok (mkDrainStartedResponse "op-1" id Draining false));
     api_operation := λ k, mret (Ok (progress demo_operation));
     api_activate := λ _, mret (Err (ClientError_new "no"));
     api_disable := λ _ _, mret (Err (ClientError_new "no"));
     api_reload := mret (Err (ClientError_new "no")) |}.

Lemma drain_ends_witness :
  ∃ r c', drain_command (H := stuck_api) "east" false (Some 2%N) 0
    [mkTick 0 false (λ s, s) None; mkTick 1000 false (λ s, s) None; mkTick 2000 false (λ s, s) None]%N (mkCli () [])
  = (Done (Some r), c').
Proof.
  apply (drain_ends (H := stuck_api) "east" false 2 0 2000).
  - intros id s. eexists _, _. reflexivity.
  - intros k s. eexists _, _. reflexivity.
  - reflexivity.
  - right. right. left. left. vm_compute. discriminate.
Defined.

(** The deadline is computed after the drain was asked for, so a timeout too large for the clock panics with the backend
    already draining. *)
Example huge_timeout :
  let run := drain_command (H := demo_api) "east" false (Some 18446744073709551615%N) 0 demo_ticks demo_cli in
  run.1 = Panicked ∧ fmap (λ slot, mode (state slot)) (control_slots (server run.2) !! "east") = Some Draining.
Proof. vm_compute. split; reflexivity. Qed.
End Demo.
