(* ===== verification/BackendManage.v ===== *)
(** * [src/src/backend_manage.rs]: the live backend manager

    The manager over any server that offers [ControlApi], as a state machine:
    a state, one operation per key, a refresh every second, and what is drawn
    as text.  The state of the server holds everything around it, so what
    happens between two requests is part of the requests.  What passes between
    the operator, the manager and the server is kept in order in a trace, which
    the theorems speak about.  Widgets, colours and the terminal are
    [ratatui]'s. *)

From S2P Require Import Prelude RustStd Float64 Text Telemetry Backend Runtime Routing Disk Control Terminal ControlClient BackendCli.

(** ** The state *)

(** src/src/backend_manage.rs:24-24 [REFRESH_INTERVAL] *)
Definition REFRESH_INTERVAL : N := 1000.

(** src/src/backend_manage.rs:30-30 [TABLE_WIDTH] *)
Definition TABLE_WIDTH : N := 98.

(** src/src/backend_manage.rs:47-51 [Mode] *)
Inductive Mode := Browse | ConfirmDrain | ConfirmDisable.

#[export] Instance Mode_eq_dec : EqDecision Mode.
Proof. solve_decision. Defined.

(** src/src/backend_manage.rs:53-62 [App]; the last refresh in milliseconds *)
Record App := mkApp {
  response : BackendListResponse;
  selected : nat;
  mode : Mode;
  show_help : bool;
  status : string;
  table_scroll : N;
  last_refresh : N;
  quit : bool;
}.

(** src/src/backend_manage.rs:65-79 [App::new] *)
Definition App_new (response_ : BackendListResponse) (now : N) : App :=
  {| response := response_; selected := 0; mode := Browse; show_help := false;
     status := "Connected · runtime revision " +:+ to_string (runtime_revision response_) +:+ " · "
               +:+ list_routing_policy response_;
     table_scroll := 0; last_refresh := now; quit := false |}.

Definition backends (a : App) : list BackendView := views (response a).

(** src/src/backend_manage.rs:289-291 [App::selected_backend] *)
Definition selected_backend (a : App) : option BackendView := backends a !! selected a.

Definition selected_id (a : App) : option string := v_id <$> selected_backend a.

(** ** What is drawn *)

(** src/src/backend_manage.rs:515-520 [run_capacity] *)
Definition run_capacity (backend : BackendView) : string :=
  match v_running backend, v_effective_capacity backend with
  | Some running, Some capacity => to_string running +:+ "/" +:+ to_string capacity
  | _, _ => "-"
  end.

(** src/src/backend_manage.rs:522-524 [decimal] *)
Definition decimal (value : option f64) (precision : nat) : string := or_dash (fmt_prec precision) value.

(** src/src/backend_manage.rs:526-528 [percent] *)
Definition percent (value : option f64) : string :=
  or_dash (λ value, fmt_prec 0 (fmul value (f64_of_N 100)) +:+ "%") value.

(** src/src/backend_manage.rs:530-549 [age]; the closure is [format_age], line for line *)
Definition age (value : option N) : string := or_dash format_age value.

(** src/src/backend_manage.rs, lines 303-313 of [App::draw]: the title *)
Definition title (a : App) : string :=
  " mistralrs_proxy backends · " +:+ to_string (N.of_nat (length (backends a))) +:+ " backend"
  +:+ (if length (backends a) =? 1 then "" else "s") +:+ " · rev " +:+ to_string (runtime_revision (response a))
  +:+ " · " +:+ list_routing_policy (response a) +:+ " ".

Inductive RowColor := DarkGray | Yellow | Green | Red.

(** src/src/backend_manage.rs, lines 330-335 of [App::draw]: the colour of a row *)
Definition row_color (backend : BackendView) : RowColor :=
  match v_mode backend with
  | Disabled => DarkGray
  | Draining => Yellow
  | Active => if v_eligible backend then Green else Red
  end.

(** src/src/backend_manage.rs, lines 336-349 of [App::draw]: the cells of a row *)
Definition row_cells (backend : BackendView) : list string :=
  [v_id backend;
   BackendMode_display (v_mode backend);
   BackendDisplayState_display (v_state backend);
   to_string (v_proxy_active backend);
   run_capacity backend;
   optional_count (v_waiting backend);
   percent (v_kv_ratio backend);
   decimal (v_token_rate backend) 1;
   decimal (v_prefill_token_rate backend) 1;
   decimal (v_decode_token_rate backend) 1;
   decimal (v_pressure backend) 2;
   age (v_metrics_age_ms backend)]%string.

(** src/src/backend_manage.rs, lines 354-367 of [App::draw]: the widths of the columns; the last one stretches *)
Definition column_lengths : list nat := [12; 8; 12; 5; 7; 5; 5; 6; 6; 8; 5; 6].

(** src/src/backend_manage.rs, lines 369-373 of [App::draw]: the header *)
Definition header_cells : list string :=
  ["BACKEND"; "MODE"; "STATE"; "PROXY"; "RUN/CAP"; "WAIT"; "KV%"; "TOK/S"; "PREF/S"; "DECODE/S"; "PRESS"; "AGE"]%string.

Definition newline : string := str [LF].

(** src/src/backend_manage.rs, lines 395-427 of [App::draw]: the details of the selected backend *)
Definition details (a : App) : string :=
  match selected_backend a with
  | None => "No configured backends."
  | Some backend =>
      v_id backend +:+ newline
      +:+ "URL: " +:+ v_url backend +:+ newline
      +:+ "readiness: " +:+ ReadinessState_display (v_readiness backend) +:+ " (" +:+ age (v_readiness_age_ms backend)
      +:+ ")   telemetry: " +:+ TelemetryState_display (v_telemetry backend) +:+ " (" +:+ age (v_metrics_age_ms backend)
      +:+ ")   circuit: " +:+ CircuitState_display (v_circuit backend) +:+ newline
      +:+ "proxy active: " +:+ to_string (v_proxy_active backend) +:+ "   oldest: "
      +:+ age (v_oldest_proxy_request_ms backend) +:+ "   engine: " +:+ optional_count (v_running backend)
      +:+ " running / " +:+ optional_count (v_waiting backend) +:+ " waiting / "
      +:+ optional_count (v_effective_capacity backend) +:+ " capacity" +:+ newline
      +:+ "KV: " +:+ percent (v_kv_ratio backend) +:+ "   prefill: " +:+ decimal (v_prefill_token_rate backend) 1
      +:+ "/s   decode: " +:+ decimal (v_decode_token_rate backend) 1 +:+ "/s   tokens/s: "
      +:+ decimal (v_token_rate backend) 1 +:+ "   pressure: " +:+ decimal (v_pressure backend) 3 +:+ newline
      +:+ match v_readiness_error backend with Some error => "readiness error: " +:+ error +:+ newline | None => "" end
      +:+ match v_metrics_error backend with Some error => "metrics error: " +:+ error | None => "" end
  end.

(** src/src/backend_manage.rs, lines 435-443 of [App::draw]: the help line *)
Definition help_text (a : App) : string :=
  match mode a with
  | ConfirmDrain => "Drain selected backend? y / n"
  | ConfirmDisable => "Force-disable selected backend? y / n"
  | Browse =>
      if show_help a then "Press ?, q, or Esc to close help"
      else "↑/↓ move ←/→ scroll d drain D force-disable a activate r reload R refresh ? help q quit"
  end.

(** src/src/backend_manage.rs, lines 469-477 of [App::draw_help_overlay]: where the overlay is; it lies in the frame *)
Definition overlay_area (area : Rect) : Rect :=
  let width := N.min (r_width area - 8) 56 in
  let height := N.min (r_height area - 4) 14 in
  {| r_x := r_x area + (r_width area - width) / 2; r_y := r_y area + (r_height area - height) / 2;
     r_width := width; r_height := height |}.

(** src/src/backend_manage.rs, lines 478-491 of [App::draw_help_overlay]: what it says *)
Definition overlay_rows : list (string * string) :=
  [("j / ↓", "move down"); ("k / ↑", "move up"); ("h / ←", "scroll table left"); ("l / →", "scroll table right");
   ("Home / End", "first / last backend"); ("d", "drain: stop new work, wait for idle");
   ("D", "force-disable: skip the idle wait"); ("a", "activate a disabled backend"); ("r", "reload runtime.toml");
   ("R", "refresh now"); ("?", "toggle this help"); ("q / Esc", "quit")]%string.

(** A frame as text. *)
Record Screen := mkScreen {
  sc_title : string;
  sc_rows : list (RowColor * list string);
  sc_selected : option nat;
  sc_scroll : N;
  sc_details : string;
  sc_help : string;
  sc_highlight : bool;
  sc_status : string;
  sc_overlay : option Rect;
}.

(** src/src/backend_manage.rs:293-466 [App::draw]: the frame for an area of the terminal *)
Definition screen (area : Rect) (a : App) : Screen :=
  {| sc_title := title a;
     sc_rows := (λ backend, (row_color backend, row_cells backend)) <$> backends a;
     sc_selected := if bool_decide (backends a = []) then None else Some (selected a);
     sc_scroll := table_scroll a;
     sc_details := details a;
     sc_help := " " +:+ help_text a +:+ " ";
     sc_highlight := bool_decide (mode a ≠ Browse);
     sc_status := " " +:+ status a;
     sc_overlay := if show_help a then Some (overlay_area area) else None |}.

(** ** The manager *)

(** What is asked of the server. *)
Inductive Request := RList | RDrain (id : string) | RDisable (id : string) (force : bool) | RActivate (id : string) | RReload.

(** What passes between the operator, the manager and the server: a frame, a key press, a request, and the ids of a list
    that came back. *)
Inductive Entry := Shown (screen : Screen) | Pressed (code : KeyCode) | Asked (request : Request) | Listed (ids : list string).

(** The manager, its server, and what has passed. *)
Record Desk (S : Type) := mkDesk { app : App; desk_server : S; trace : list Entry }.
Arguments mkDesk {S}. Arguments app {S}. Arguments desk_server {S}. Arguments trace {S}.

(** The questions the manager asks before it drains or disables. *)
Definition drain_question (id : string) : string :=
  "Drain " +:+ id +:+ "? It will stop receiving new requests immediately. y / n".
Definition disable_question (id : string) : string :=
  "Force-disable " +:+ id +:+ "? In-flight requests are not waited for. y / n".

(** A pass of the loop: the frame and the errors of drawing it, the event if there was one, and the clock when a request
    of a key was answered, when the interval is checked, and when the refresh ends. *)
Record Round := mkRound {
  r_area : Rect;
  r_draw : option IoError;
  r_event : result IoError (option Event);
  r_answered : N;
  r_redraw : option IoError;
  r_check : N;
  r_refreshed : N;
}.

Section Manager.
Context {S : Type} `{ControlApi S} (status_text : N → string).

Definition on_app (f : App → App) : M (Desk S) () :=
  modify (λ d, {| app := f (app d); desk_server := desk_server d; trace := trace d |}).
Definition say (text : string) : M (Desk S) () := on_app (λ a, a <| status := text |>).
Definition note (entry : Entry) : M (Desk S) () :=
  modify (λ d, {| app := app d; desk_server := desk_server d; trace := trace d ++ [entry] |}).

Definition ask {A} (request : Request) (m : M S A) : M (Desk S) A :=
  _ ← note (Asked request);
  (λ d, let '(r, s) := m (desk_server d) in (r, {| app := app d; desk_server := s; trace := trace d |})) : M (Desk S) A.

Definition show_error (error : ClientError) : string := ClientError_display status_text error.

(** The place of a backend in a list. *)
Definition position (id : string) (l : list BackendView) : option nat := fst <$> list_find (λ view, v_id view = id) l.

(** src/src/backend_manage.rs, lines 264-279 of [App::refresh]: a list that came back *)
Definition relist (response_ : BackendListResponse) (a : App) : App :=
  a <| response := response_ |>
    <| selected := default (Nat.min (selected a) (length (views response_) - 1))
                     (id ← selected_id a; position id (views response_)) |>.

(** src/src/backend_manage.rs:263-287 [App::refresh] *)
Definition refresh (announce : bool) (now : N) : M (Desk S) () :=
  answer ← ask RList api_list;
  _ ← match answer with
      | Ok response_ =>
          _ ← note (Listed (v_id <$> views response_));
          _ ← on_app (relist response_);
          if announce then say "Refreshed live backend state." else mret ()
      | Err error => say ("Refresh failed: " +:+ show_error error)
      end;
  on_app (λ a, a <| last_refresh := now |>).

(** src/src/backend_manage.rs:200-218 [App::start_drain] *)
Definition start_drain (now : N) : M (Desk S) () :=
  d ← get_state;
  match selected_id (app d) with
  | None => mret ()
  | Some id =>
      answer ← ask (RDrain id) (api_drain id);
      match answer with
      | Ok started =>
          _ ← say (if ds_safe_to_stop started then id +:+ " is disabled and safe to stop."
                   else id +:+ " is draining · operation " +:+ ds_operation_id started
                        +:+ " · the drain continues if you quit");
          refresh false now
      | Err error => say ("Could not drain " +:+ id +:+ ": " +:+ show_error error)
      end
  end.

(** src/src/backend_manage.rs:220-231 [App::force_disable] *)
Definition force_disable (now : N) : M (Desk S) () :=
  d ← get_state;
  match selected_id (app d) with
  | None => mret ()
  | Some id =>
      answer ← ask (RDisable id true) (api_disable id true);
      match answer with
      | Ok response_ => _ ← say (id +:+ ": " +:+ ar_message response_); refresh false now
      | Err error => say ("Could not disable " +:+ id +:+ ": " +:+ show_error error)
      end
  end.

(** src/src/backend_manage.rs:233-244 [App::activate] *)
Definition activate (now : N) : M (Desk S) () :=
  d ← get_state;
  match selected_id (app d) with
  | None => mret ()
  | Some id =>
      answer ← ask (RActivate id) (api_activate id);
      match answer with
      | Ok response_ => _ ← say (id +:+ ": " +:+ ar_message response_); refresh false now
      | Err error => say ("Could not activate " +:+ id +:+ ": " +:+ show_error error)
      end
  end.

(** [len()] of a list, printed. *)
Definition count (l : list string) : string := to_string (N.of_nat (length l)).

(** src/src/backend_manage.rs:246-261 [App::reload] *)
Definition reload (now : N) : M (Desk S) () :=
  answer ← ask RReload api_reload;
  match answer with
  | Ok response_ =>
      _ ← say ("Applied runtime revision " +:+ to_string (rr_revision response_) +:+ " · +" +:+ count (rr_added response_)
               +:+ " revived " +:+ count (rr_revived response_) +:+ " updated " +:+ count (rr_updated response_)
               +:+ " retired " +:+ count (rr_retired response_));
      refresh false now
  | Err error => say ("Runtime reload failed: " +:+ show_error error)
  end.

(** src/src/backend_manage.rs, lines 141-197 of [App::handle]: a key while no dialog is open *)
Definition handle_browse (code : KeyCode) (now : N) : M (Desk S) () :=
  d ← get_state;
  let last := length (backends (app d)) - 1 in
  if is_key [Up; Char "k"] code then on_app (λ a, a <| selected := selected a - 1 |>)
  else if is_key [Down; Char "j"] code then on_app (λ a, a <| selected := Nat.min (selected a + 1) last |>)
  else if is_key [Left; Char "h"] code
  then on_app (λ a, a <| table_scroll := (table_scroll a - SCROLL_STEP)%N |>)
  else if is_key [Right; Char "l"] code
  then on_app (λ a, a <| table_scroll := saturating_add U16_MAX (table_scroll a) SCROLL_STEP |>)
  else if is_key [Home] code then on_app (λ a, a <| selected := 0 |>)
  else if is_key [End_] code then on_app (λ a, a <| selected := last |>)
  else if is_key [Char "d"] code then
    match selected_backend (app d) with
    | Some backend =>
        match v_mode backend with
        | Active => _ ← on_app (λ a, a <| mode := ConfirmDrain |>); say (drain_question (v_id backend))
        | _ => say (v_id backend +:+ " is already " +:+ BackendMode_display (v_mode backend) +:+ ".")
        end
    | None => mret ()
    end
  else if is_key [Char "D"] code then
    match selected_backend (app d) with
    | Some backend =>
        match v_mode backend with
        | Disabled => say (v_id backend +:+ " is already disabled.")
        | _ => _ ← on_app (λ a, a <| mode := ConfirmDisable |>); say (disable_question (v_id backend))
        end
    | None => mret ()
    end
  else if is_key [Char "?"] code then on_app (λ a, a <| show_help := negb (show_help a) |>)
  else if is_key [Char "a"] code then activate now
  else if is_key [Char "r"] code then reload now
  else if is_key [Char "R"] code then refresh true now
  else if is_key [Char "q"; Esc] code then on_app (λ a, a <| quit := true |>)
  else mret ().

(** src/src/backend_manage.rs:108-198 [App::handle] *)
Definition handle (code : KeyCode) (now : N) : M (Desk S) () :=
  d ← get_state;
  if show_help (app d) then
    if is_key [Char "?"; Char "q"; Esc] code then on_app (λ a, a <| show_help := false |>) else mret ()
  else
    match mode (app d) with
    | ConfirmDrain =>
        _ ← on_app (λ a, a <| mode := Browse |>);
        if is_key [Char "y"; Char "Y"] code then start_drain now else say "Drain cancelled."
    | ConfirmDisable =>
        _ ← on_app (λ a, a <| mode := Browse |>);
        if is_key [Char "y"; Char "Y"] code then force_disable now else say "Force-disable cancelled."
    | Browse => handle_browse code now
    end.

Definition draw (area : Rect) (error : option IoError) : M (Desk S) (result IoError ()) :=
  match error with
  | Some error => mret (Err error)
  | None => d ← get_state; _ ← note (Shown (screen area (app d))); mret (Ok ())
  end.

(** src/src/backend_manage.rs, lines 101-103 of [App::run]: the refresh that is due *)
Definition refresh_due (r : Round) : M (Desk S) (result IoError ()) :=
  d ← get_state;
  _ ← (if (REFRESH_INTERVAL <=? r_check r - last_refresh (app d))%N then refresh false (r_refreshed r) else mret ());
  mret (Ok ()).

(** src/src/backend_manage.rs, lines 87-103 of [App::run]: a pass of the loop *)
Definition round (r : Round) : M (Desk S) (result IoError ()) :=
  _ ←? draw (r_area r) (r_draw r);
  match r_event r with
  | Err error => mret (Err error)
  | Ok (Some (Key code true control)) =>
      _ ← note (Pressed code);
      if interrupt control code then _ ← on_app (λ a, a <| quit := true |>); mret (Ok ())
      else _ ← handle code (r_answered r); _ ←? draw (r_area r) (r_redraw r); refresh_due r
  | Ok _ => refresh_due r
  end.

(** src/src/backend_manage.rs:81-106 [App::run]; at the end of the list the manager waits for the next event *)
Fixpoint run (rounds : list Round) : M (Desk S) (result IoError ()) :=
  d ← get_state;
  if quit (app d) then mret (Ok ()) else
  match rounds with
  | [] => mret (Ok ())
  | r :: rounds => _ ←? round r; run rounds
  end.

(** src/src/backend_manage.rs:33-44 [manage]: the command [backend manage], with its terminal *)
Definition manage (is_terminal : bool) (now : N) (rounds : list Round) : M (Cli S) (result CliError ()) :=
  if negb is_terminal then mret (Err (CMessage "`backend manage` needs an interactive terminal")) else
  response_ ←? BackendCli.ask api_list;
  λ c, let '(r, d) := run rounds {| app := App_new response_ now; desk_server := server c; trace := [] |} in
       (match r with Done r => Done (map_err CIo r) | Panicked => Panicked end, {| server := desk_server d; out := out c |}).
End Manager.

(** ** What passes *)

(** Entries other than key presses and actions. *)
Definition quiet (entry : Entry) : Prop :=
  match entry with Pressed _ => False | Asked request => request = RList | Shown _ | Listed _ => True end.

(** A list without the backend came back. *)
Definition lost (id : string) (l : list Entry) : Prop := ∃ ids, Listed ids ∈ l ∧ id ∉ ids.

(** A key raised a question about a backend, the next frame showed it, and no key was pressed since. *)
Definition asked_about (key : KeyCode) (question : string → string) (t : list Entry) (id : string) (since : list Entry) : Prop :=
  ∃ t0 scr, t = t0 ++ Pressed key :: Shown scr :: since ∧ sc_status scr = (" " +:+ question id)%string ∧ Forall quiet since.

(** The question was answered with [y] just now; the backend is the one it was about, unless that one was lost. *)
Definition confirmed (key : KeyCode) (question : string → string) (t : list Entry) (id : string) : Prop :=
  ∃ t' y asked since,
    t = t' ++ [Pressed y] ∧ (y = Char "y" ∨ y = Char "Y")
    ∧ asked_about key question t' asked since ∧ (id = asked ∨ lost asked since).

(** What must have passed before a request. *)
Definition justified (t : list Entry) (request : Request) : Prop :=
  match request with
  | RList => True
  | RDrain id => confirmed (Char "d") drain_question t id
  | RDisable id force => force = true ∧ confirmed (Char "D") disable_question t id
  | RActivate _ => ∃ t', t = t' ++ [Pressed (Char "a")]
  | RReload => ∃ t', t = t' ++ [Pressed (Char "r")]
  end.

Definition all_justified (t : list Entry) : Prop := ∀ t1 request t2, t = t1 ++ Asked request :: t2 → justified t1 request.

Lemma justified_snoc t entry :
  all_justified t → (∀ request, entry = Asked request → justified t request) → all_justified (t ++ [entry]).
Proof.
  intros Ht He t1 request t2. destruct t2 as [|x t2 _] using rev_ind.
  - intros [-> ->]%app_inj_tail. by apply He.
  - change (t1 ++ Asked request :: t2 ++ [x]) with (t1 ++ (Asked request :: t2) ++ [x]). rewrite app_assoc.
    intros [-> _]%app_inj_tail. by eapply Ht.
Qed.

Lemma justified_quiet t l : all_justified t → Forall quiet l → all_justified (t ++ l).
Proof.
  intros Ht Hl. revert t Ht. induction Hl as [|e l He _ IH]; intros t Ht; [by rewrite app_nil_r|].
  change (e :: l) with ([e] ++ l). rewrite app_assoc. apply IH. apply justified_snoc; [done|].
  intros request ->. by rewrite He.
Qed.

Lemma justified_request t request l :
  all_justified t → justified t request → Forall quiet l → all_justified (t ++ Asked request :: l).
Proof.
  intros Ht Hr Hl. change (Asked request :: l) with ([Asked request] ++ l). rewrite app_assoc.
  apply justified_quiet; [|done]. apply justified_snoc; [done|]. by intros r [= <-].
Qed.

(** The highlighted row exists. *)
Definition in_range (a : App) : Prop := selected a < length (backends a) ∨ backends a = [] ∧ selected a = 0.

(** A frame highlights one of its rows and details it, or says that there are none. *)
Definition framed (entry : Entry) : Prop :=
  match entry with
  | Shown scr => ∃ area a, scr = screen area a ∧ in_range a
  | _ => True
  end.

Lemma quiet_framed l : Forall quiet l → (∀ scr, Shown scr ∉ l) → Forall framed l.
Proof. rewrite !Forall_forall. intros _ Hn [scr|code|r|ids] Hin; [by destruct (Hn scr)|done..]. Qed.

(** ** What every key does *)

Section Keys.
Context {S : Type} `{ControlApi S} (status_text : N → string).
Implicit Types (d : Desk S).

Lemma ask_run {A} request (m : M S A) d :
  ∃ o s, ask request m d = (o, {| app := app d; desk_server := s; trace := trace d ++ [Asked request] |}).
Proof.
  unfold ask, note, modify. cbv [mbind M_mbind]. cbn. destruct (m (desk_server d)) as [o s]. by exists o, s.
Qed.

(** What a refresh passes. *)
Definition refreshed (l : list Entry) : Prop := ∃ listed, l = Asked RList :: listed ∧ (listed = [] ∨ ∃ ids, listed = [Listed ids]).

Lemma refreshed_quiet l : refreshed l → Forall quiet l ∧ Forall framed l.
Proof. intros (listed & -> & [->|[ids ->]]); split; repeat constructor. Qed.

Lemma position_Some id l i : position id l = Some i → ∃ view, l !! i = Some view ∧ v_id view = id.
Proof.
  unfold position. destruct (list_find _ l) as [[j view]|] eqn:E; [|done]. intros [= <-].
  apply list_find_Some in E as (Hl & Hid & _). by exists view.
Qed.

Lemma position_None id l : position id l = None → id ∉ v_id <$> l.
Proof.
  unfold position. destruct (list_find _ l) as [[j view]|] eqn:E; [done|]. intros _.
  apply list_find_None in E. rewrite Forall_forall in E. intros (view & -> & Hin)%list_elem_of_fmap. by apply (E view).
Qed.

(** The new list keeps the selected backend selected, unless it is not listed. *)
Lemma relist_spec response_ a :
  in_range (relist response_ a)
  ∧ ∀ id, selected_id a = Some id → selected_id (relist response_ a) = Some id ∨ id ∉ v_id <$> views response_.
Proof.
  unfold in_range, relist. set (sel := default _ _).
  assert (selected (a <| response := response_ |> <| selected := sel |>) = sel) as E1 by done.
  assert (backends (a <| response := response_ |> <| selected := sel |>) = views response_) as E2 by done.
  unfold selected_id at 2, selected_backend. rewrite E1, E2. clear E1 E2. unfold sel.
  assert (∀ i, (i < length (views response_) → i < length (views response_) ∨ views response_ = [] ∧ i = 0)) as Hlt by by left.
  destruct (selected_id a) as [id|]; cbn; [destruct (position id (views response_)) as [i|] eqn:E; cbn|].
  - apply position_Some in E as (view & Hv & Hid). split; [left; by eapply lookup_lt_Some|].
    intros ? [= <-]. left. by rewrite Hv, <- Hid.
  - apply position_None in E. split; [destruct (views response_); cbn; [right; split; [done|lia]|left; lia]|].
    intros ? [= <-]. by right.
  - split; [|done]. destruct (views response_); cbn; [right; split; [done|lia]|left; lia].
Qed.

(** A refresh keeps the selected backend, unless it is lost. *)
Lemma refresh_run announce now d :
  ∃ o d' l, refresh status_text announce now d = (o, d') ∧ trace d' = trace d ++ l ∧ refreshed l
    ∧ mode (app d') = mode (app d) ∧ show_help (app d') = show_help (app d)
    ∧ (in_range (app d) → in_range (app d'))
    ∧ (∀ id, selected_id (app d) = Some id → selected_id (app d') = Some id ∨ lost id l).
Proof.
  unfold refresh. cbv [mbind M_mbind get_state]. destruct (ask_run RList api_list d) as (o & s & E). rewrite E.
  destruct o as [[response_|error]|]; cbn -[app_nil_r].
  2,3: eexists _, _, [Asked RList]; split_and!; [reflexivity|done|eexists []; by auto|done|done|done|by left].
  destruct (relist_spec response_ (app d)) as [Hr Hs].
  assert (∀ id, selected_id (app d) = Some id → selected_id (relist response_ (app d)) = Some id
            ∨ lost id [Asked RList; Listed (v_id <$> views response_)]) as Hs'.
  { intros id Hid. destruct (Hs id Hid) as [?|Hn]; [by left|right]. eexists. split; [right; left|done]. }
  destruct announce; cbn; eexists _, _, [Asked RList; Listed (v_id <$> views response_)].
  all: split_and!; [reflexivity|by rewrite <- app_assoc|eexists; split; [done|]; eauto|done|done|done|done].
Qed.

(** A request, what is said of its answer, and the refresh after a success. *)
Lemma act_run {A} request (m : M S (result ClientError A)) (ok : A → string) (err : ClientError → string) now d :
  ∃ o d' l, (answer ← ask request m;
             match answer with
             | Ok a => _ ← say (ok a); refresh status_text false now
             | Err error => say (err error)
             end) d = (o, d')
    ∧ trace d' = trace d ++ Asked request :: l ∧ Forall quiet l ∧ Forall framed l
    ∧ mode (app d') = mode (app d) ∧ (in_range (app d) → in_range (app d')).
Proof.
  unfold mbind at 1, M_mbind at 1. destruct (ask_run request m d) as (o & s & E). rewrite E.
  destruct o as [[a|error]|].
  2,3: eexists _, _, []; split_and!; [reflexivity|done|by constructor|by constructor|done|done].
  unfold mbind, M_mbind. cbn [say on_app modify]. set (d1 := mkDesk _ _ _).
  destruct (refresh_run false now d1) as (o & d' & l & E' & Ht & Hl & Hm & _ & Hr & _). rewrite E'.
  apply refreshed_quiet in Hl as [Hq Hf].
  exists o, d', l. split_and!; [done|rewrite Ht; cbn; by rewrite <- app_assoc|done|done|done|done].
Qed.

(** A question is open. *)
Definition pending (key : KeyCode) (question : string → string) (t : list Entry) (a : App) : Prop :=
  show_help a = false
  ∧ ∃ id since, asked_about key question t id since ∧ (selected_id a = Some id ∨ lost id since).

Definition waiting (t : list Entry) (a : App) : Prop :=
  match mode a with
  | Browse => True
  | ConfirmDrain => pending (Char "d") drain_question t a
  | ConfirmDisable => pending (Char "D") disable_question t a
  end.

(** A question was raised by the key just pressed. *)
Definition raised (code : KeyCode) (a : App) : Prop :=
  show_help a = false ∧ ∃ id, selected_id a = Some id
  ∧ (mode a = ConfirmDrain ∧ code = Char "d" ∧ status a = drain_question id
     ∨ mode a = ConfirmDisable ∧ code = Char "D" ∧ status a = disable_question id).

(** What a key leaves. *)
Definition left (code : KeyCode) d (r : outcome () * Desk S) : Prop :=
  ∃ o d' l, r = (o, d') ∧ trace d' = trace d ++ l ∧ all_justified (trace d') ∧ Forall framed l
    ∧ in_range (app d') ∧ (mode (app d') = Browse ∨ l = [] ∧ raised code (app d')).

Lemma left_same code d a :
  all_justified (trace d) → in_range a → mode a = Browse ∨ raised code a →
  left code d (Done (), {| app := a; desk_server := desk_server d; trace := trace d |}).
Proof.
  intros Ht Hr Hm. eexists _, _, []. split; [reflexivity|]. cbn. rewrite app_nil_r.
  split_and!; [done|done|by constructor|done|destruct Hm; auto].
Qed.

Lemma left_act {A} code request (m : M S (result ClientError A)) ok err now d :
  all_justified (trace d) → justified (trace d) request → in_range (app d) → mode (app d) = Browse →
  left code d ((answer ← ask request m;
             match answer with
             | Ok a => _ ← say (ok a); refresh status_text false now
             | Err error => say (err error)
             end) d).
Proof.
  intros Ht Hj Hr Hm. destruct (act_run request m ok err now d) as (o & d' & l & E & Htr & Hq & Hf & Hm' & Hr').
  exists o, d', (Asked request :: l). split; [exact E|]. split; [exact Htr|]. split_and!.
  - rewrite Htr. by apply justified_request.
  - by constructor.
  - by apply Hr'.
  - rewrite Hm'. by left.
Qed.

Lemma left_idle code d :
  all_justified (trace d) → in_range (app d) → mode (app d) = Browse → left code d (Done (), d).
Proof. intros. destruct d as [a s t]. apply (left_same code (mkDesk a s t)); [done..|by left]. Qed.

(** An action on the selected backend, which its key justifies. *)
Ltac acting :=
  intros Ht Hr Hm Hj; cbv [mbind M_mbind get_state]; destruct (selected_id _) as [id|] eqn:Eid;
  [apply left_act; [done|by apply Hj|done|done]|by apply left_idle].

Lemma start_drain_left code now d :
  all_justified (trace d) → in_range (app d) → mode (app d) = Browse →
  (∀ id, selected_id (app d) = Some id → justified (trace d) (RDrain id)) → left code d (start_drain status_text now d).
Proof. unfold start_drain. acting. Qed.

Lemma force_disable_left code now d :
  all_justified (trace d) → in_range (app d) → mode (app d) = Browse →
  (∀ id, selected_id (app d) = Some id → justified (trace d) (RDisable id true)) →
  left code d (force_disable status_text now d).
Proof. unfold force_disable. acting. Qed.

Lemma activate_left code now d :
  all_justified (trace d) → in_range (app d) → mode (app d) = Browse →
  (∀ id, selected_id (app d) = Some id → justified (trace d) (RActivate id)) →
  left code d (activate status_text now d).
Proof. unfold activate. acting. Qed.

Lemma reload_left code now d :
  all_justified (trace d) → in_range (app d) → mode (app d) = Browse → justified (trace d) RReload →
  left code d (reload status_text now d).
Proof. intros Ht Hr Hm Hj. unfold reload. by apply left_act. Qed.

Lemma refresh_left code announce now d :
  all_justified (trace d) → in_range (app d) → mode (app d) = Browse → left code d (refresh status_text announce now d).
Proof.
  intros Ht Hr Hm. destruct (refresh_run announce now d) as (o & d' & l & E & Htr & Hl & Hm' & _ & Hr' & _).
  apply refreshed_quiet in Hl as [Hq Hf]. exists o, d', l. split; [exact E|]. split; [exact Htr|]. split_and!; [|done|auto|].
  - rewrite Htr. by apply justified_quiet.
  - rewrite Hm'. by left.
Qed.

Lemma is_key_one key code : is_key [key] code = true → code = key.
Proof. unfold is_key. by intros Hin%bool_decide_eq_true%list_elem_of_singleton. Qed.

(** Moving the selection. *)
Lemma in_range_select a i :
  in_range a → (backends a ≠ [] → i < length (backends a)) → (backends a = [] → i = 0) → in_range (a <| selected := i |>).
Proof.
  unfold in_range. change (backends (a <| selected := i |>)) with (backends a).
  change (selected (a <| selected := i |>)) with i. intros _ H1 H2.
  destruct (decide (backends a = [])) as [E|E]; [right; by auto|left; by auto].
Qed.

(** A new selection that is in range. *)
Ltac selecting :=
  apply left_same; [done| |by left];
  apply in_range_select; [done| |];
  match goal with Hr : in_range ?a |- _ => destruct Hr as [Hr|[Hr1 Hr2]] end; destruct (backends _); cbn in *; first [done|lia].

Lemma selected_backend_id a backend : selected_backend a = Some backend → selected_id a = Some (v_id backend).
Proof. intros E. unfold selected_id. by rewrite E. Qed.

Lemma handle_browse_left code now t d :
  trace d = t ++ [Pressed code] → all_justified (trace d) → in_range (app d) → mode (app d) = Browse →
  show_help (app d) = false → left code d (handle_browse status_text code now d).
Proof.
  intros Ht Hj Hr Hm Hh. unfold handle_browse. unfold mbind at 1, M_mbind at 1. cbn [get_state].
  repeat match goal with |- context [if is_key ?l code then _ else _] => destruct (is_key l code) eqn:? end.
  all: unfold on_app, say, modify; cbn beta; try by (apply left_same; [done..|by left]).
  all: try selecting.
  - apply is_key_one in Heqb5 as ->. unfold mret, M_mret.
    destruct (selected_backend (app d)) as [backend|] eqn:Es; [|by apply left_idle].
    destruct (v_mode backend); try by (apply left_same; [done..|by left]).
    apply (left_same _ d); [done..|right]. split; [done|]. exists (v_id backend).
    split; [exact (selected_backend_id _ _ Es)|by left].
  - apply is_key_one in Heqb6 as ->. unfold mret, M_mret.
    destruct (selected_backend (app d)) as [backend|] eqn:Es; [|by apply left_idle].
    destruct (v_mode backend); try by (apply left_same; [done..|by left]).
    all: apply (left_same _ d); [done..|right]; split; [done|]; exists (v_id backend).
    all: split; [exact (selected_backend_id _ _ Es)|by right].
  - apply is_key_one in Heqb8 as ->. apply activate_left; [done..|]. intros id _. by exists t.
  - apply is_key_one in Heqb9 as ->. apply reload_left; [done..|]. by exists t.
  - by apply refresh_left.
  - by apply left_idle.
Qed.

Lemma pending_confirmed key question t code d :
  pending key question t (app d) → trace d = t ++ [Pressed code] → is_key [Char "y"; Char "Y"] code = true →
  ∀ id, selected_id (app d) = Some id → confirmed key question (trace d) id.
Proof.
  intros (_ & asked & since & Hasked & Hsel) Ht Hy id Hid. exists t, code, asked, since. split; [done|]. split.
  - unfold is_key in Hy. apply bool_decide_eq_true in Hy. set_solver.
  - split; [done|]. destruct Hsel as [Hsel|Hlost]; [left|by right]. rewrite Hid in Hsel. by injection Hsel.
Qed.

Lemma handle_left code now t d :
  trace d = t ++ [Pressed code] → all_justified (trace d) → in_range (app d) → waiting t (app d) →
  left code d (handle status_text code now d).
Proof.
  intros Ht Hj Hr Hw. unfold handle. unfold mbind at 1, M_mbind at 1. cbn [get_state].
  unfold waiting in Hw. destruct (mode (app d)) eqn:Hm.
  - destruct (show_help (app d)) eqn:Hh; [|by eapply handle_browse_left].
    destruct (is_key _ code); [apply (left_same code d); [done..|by left]|by apply left_idle].
  - rewrite (proj1 Hw). unfold mbind, M_mbind. cbn [on_app modify]. destruct (is_key _ code) eqn:Hy.
    + set (d1 := mkDesk _ _ _). change (left code d1 (start_drain status_text now d1)).
      apply start_drain_left; [done..|]. intros id Hid. exact (pending_confirmed _ _ _ _ d Hw Ht Hy id Hid).
    + apply (left_same code d); [done..|by left].
  - rewrite (proj1 Hw). unfold mbind, M_mbind. cbn [on_app modify]. destruct (is_key _ code) eqn:Hy.
    + set (d1 := mkDesk _ _ _). change (left code d1 (force_disable status_text now d1)).
      apply force_disable_left; [done..|]. intros id Hid. split; [done|].
      exact (pending_confirmed _ _ _ _ d Hw Ht Hy id Hid).
    + apply (left_same code d); [done..|by left].
Qed.

(** ** A pass of the loop *)

(** What holds between two passes. *)
Definition sound d : Prop := all_justified (trace d) ∧ Forall framed (trace d) ∧ in_range (app d).

Definition settled d : Prop := sound d ∧ waiting (trace d) (app d).

(** The question stays open while nothing but frames and refreshes pass. *)
Lemma waiting_app t l a a' :
  waiting t a → Forall quiet l → mode a' = mode a → show_help a' = show_help a →
  (∀ id, selected_id a = Some id → selected_id a' = Some id ∨ lost id l) → waiting (t ++ l) a'.
Proof.
  intros Hw Hl Hm Hh Hs. unfold waiting in *. rewrite Hm.
  assert (∀ key question, pending key question t a → pending key question (t ++ l) a') as Hp.
  { intros key question (Hh' & id & since & (t0 & scr & -> & Hscr & Hq) & Hsel). split; [by rewrite Hh|].
    exists id, (since ++ l). split.
    - exists t0, scr. rewrite <- app_assoc. split; [done|]. split; [done|]. by apply Forall_app.
    - assert (∀ l', lost id l' → l' ⊆ since ++ l → lost id (since ++ l)) as Hsub.
      { intros l' (ids & Hin & Hid) Hl'. exists ids. split; [by apply Hl'|done]. }
      destruct Hsel as [Hsel|Hlost]; [|right; eapply Hsub; [done|set_solver]].
      destruct (Hs id Hsel) as [?|Hlost]; [by left|right; eapply Hsub; [done|set_solver]]. }
  destruct (mode a); auto.
Qed.

Lemma settled_refresh announce now d :
  settled d → ∃ o d', refresh status_text announce now d = (o, d') ∧ settled d'.
Proof.
  intros [(Hj & Hf & Hr) Hw]. destruct (refresh_run announce now d) as (o & d' & l & E & Ht & Hl & Hm & Hh & Hr' & Hs).
  apply refreshed_quiet in Hl as [Hq Hfr]. exists o, d'. split; [done|]. unfold settled, sound. rewrite Ht. split_and!.
  - by apply justified_quiet.
  - by apply Forall_app.
  - auto.
  - by eapply waiting_app.
Qed.

Lemma settled_due r d : settled d → ∃ o d', refresh_due status_text r d = (o, d') ∧ settled d'.
Proof.
  intros Hs. unfold refresh_due. unfold mbind at 1, M_mbind at 1. cbn [get_state].
  destruct (_ <=? _)%N; [|by eexists _, _]. destruct (settled_refresh false (r_refreshed r) d Hs) as (o & d' & E & Hs').
  unfold mbind, M_mbind. rewrite E. destruct o; by eexists _, _.
Qed.

(** A frame. *)
Lemma draw_run area d : draw area None d = (Done (Ok ()), {| app := app d; desk_server := desk_server d;
  trace := trace d ++ [Shown (screen area (app d))] |}).
Proof. done. Qed.

Lemma sound_shown area d :
  sound d → sound {| app := app d; desk_server := desk_server d; trace := trace d ++ [Shown (screen area (app d))] |}.
Proof.
  intros (Hj & Hf & Hr). split_and!; cbn; [by apply justified_snoc| |done].
  apply Forall_app. split; [done|]. constructor; [by exists area, (app d)|constructor].
Qed.

(** The first frame after a key shows the question that the key raised. *)
Lemma waiting_raised code area t a :
  mode a = Browse ∨ raised code a → waiting ((t ++ [Pressed code]) ++ [Shown (screen area a)]) a.
Proof.
  unfold waiting. intros [->|(Hh & id & Hid & [(-> & -> & Hs)|(-> & -> & Hs)])]; [done| |].
  all: split; [done|]; exists id, []; split; [|by left].
  all: exists t, (screen area a); rewrite <- app_assoc; split; [done|]; split; [|by constructor].
  all: cbn; by rewrite Hs.
Qed.

Lemma settled_shown area d :
  settled d → settled {| app := app d; desk_server := desk_server d; trace := trace d ++ [Shown (screen area (app d))] |}.
Proof.
  intros [Hs Hw]. split; [by apply sound_shown|]. cbn. apply (waiting_app _ _ (app d)); [done| |done|done|by left].
  repeat constructor.
Qed.

(** A key, the frame after it, and the refresh that is due. *)
Lemma key_run code r t d :
  sound d → trace d = t ++ [Pressed code] → waiting t (app d) →
  ∃ o d', (_ ← handle status_text code (r_answered r); _ ←? draw (r_area r) (r_redraw r); refresh_due status_text r) d = (o, d')
    ∧ sound d' ∧ (o = Done (Ok ()) → settled d').
Proof.
  intros (Hj & Hf & Hr) Ht Hw.
  destruct (handle_left code (r_answered r) t d Ht Hj Hr Hw) as (o & d1 & l & E & Ht1 & Hj1 & Hl & Hr1 & Hm).
  assert (sound d1) as Hs1 by (split_and!; [done|rewrite Ht1; by apply Forall_app|done]).
  unfold mbind at 1, M_mbind at 1. rewrite E. destruct o as [[]|]; [|by exists Panicked, d1].
  destruct (r_redraw r) as [error|]; [by exists (Done (Err error)), d1|].
  unfold try_bind at 1, mbind at 1, M_mbind at 1. rewrite draw_run.
  set (d2 := mkDesk (app d1) (desk_server d1) _).
  assert (settled d2) as Hs2.
  { split; [by apply sound_shown|]. cbn. destruct Hm as [Hm|[-> Hm]]; [unfold waiting; by rewrite Hm|].
    rewrite Ht1, app_nil_r, Ht. apply waiting_raised. by right. }
  destruct (settled_due r d2 Hs2) as (o & d' & E' & Hs'). exists o, d'. split; [exact E'|]. split; [apply Hs'|done].
Qed.

Lemma round_run r d :
  settled d → ∃ o d', round status_text r d = (o, d') ∧ sound d' ∧ (o = Done (Ok ()) → quit (app d') = true ∨ settled d').
Proof.
  intros Hs. unfold round. destruct (r_draw r) as [error|]; [exists (Done (Err error)), d; by destruct Hs|].
  unfold try_bind at 1, mbind at 1, M_mbind at 1. rewrite draw_run. apply (settled_shown (r_area r)) in Hs. set (d1 := mkDesk _ _ _) in *.
  destruct (settled_due r d1 Hs) as (o & d2 & E & Hs2).
  destruct (r_event r) as [[[code [] control|]|]|error].
  2-4: exists o, d2; split; [exact E|]; split; [apply Hs2|by right].
  2: exists (Done (Err error)), d1; split; [done|]; by destruct Hs.
  unfold mbind at 1, M_mbind at 1. cbn [note modify]. set (d3 := mkDesk _ _ _).
  assert (sound d3) as Hs3.
  { destruct Hs as [(Hj & Hf & Hr) _]. split_and!; [by apply justified_snoc| |done].
    apply Forall_app. split; [done|]. by repeat constructor. }
  destruct (interrupt control code); [eexists _, _; split; [reflexivity|]; split; [exact Hs3|by left]|].
  destruct (key_run code r (trace d1) d3 Hs3 eq_refl (proj2 Hs)) as (o' & d' & E' & Hs' & Hok).
  exists o', d'. split; [exact E'|]. split; [done|]. intros Ho. right. by apply Hok.
Qed.

Lemma run_sound rounds d : settled d → ∃ o d', run status_text rounds d = (o, d') ∧ sound d'.
Proof.
  revert d. induction rounds as [|r rounds IH]; intros d Hs; cbn [run]; unfold mbind at 1, M_mbind at 1; cbn [get_state].
  { destruct (quit (app d)); exists (Done (Ok ())), d; by destruct Hs. }
  destruct (quit (app d)) eqn:Hq; [exists (Done (Ok ())), d; by destruct Hs|].
  destruct (round_run r d Hs) as (o & d' & E & Hs' & Hok). unfold try_bind, mbind, M_mbind. rewrite E.
  destruct o as [[[]|error]|]; [|by eexists _, _|by eexists _, _].
  destruct (Hok eq_refl) as [Hq'|Hs2]; [|by apply IH].
  exists (Done (Ok ())), d'. split; [|done]. destruct rounds; cbn [run]; unfold mbind, M_mbind; cbn [get_state]; by rewrite Hq'.
Qed.

Lemma settled_new response_ now (s : S) : settled {| app := App_new response_ now; desk_server := s; trace := [] |}.
Proof.
  split; [|done]. split_and!; cbn; [|constructor|].
  - intros t1 request t2 E. by destruct t1.
  - unfold in_range, backends. cbn. destruct (views response_); cbn; [right; by split|left; lia].
Qed.

(** C30: The manager asks before it drains.  In every run of the live manager, over any server and with any keys,
    refreshes and errors, a drain is only asked of the server right after a [y] or [Y] that answered the question [d]
    raised, which a frame showed, with no key between the question and the answer; a forced disable likewise with [D];
    an activation right after [a] and a reload right after [r].  The backend drained or disabled is the one the
    question was about, unless a list that came back in between did not hold it. *)
Theorem manager_asks (response_ : BackendListResponse) (now : N) (s : S) (rounds : list Round) :
  ∃ o d, run status_text rounds {| app := App_new response_ now; desk_server := s; trace := [] |} = (o, d)
    ∧ ∀ t1 request t2, trace d = t1 ++ Asked request :: t2 → justified t1 request.
Proof.
  destruct (run_sound rounds _ (settled_new response_ now s)) as (o & d & E & Hj & _). by exists o, d.
Qed.

(** The frames of the manager are consistent.  In every run, each frame that was shown highlights an existing row,
    details the backend of that row, and has as many rows as backends; with no backends it highlights nothing and says
    so.  The selection never leaves the list, however it shrinks between refreshes. *)
Theorem manager_frames (response_ : BackendListResponse) (now : N) (s : S) (rounds : list Round) :
  ∃ o d, run status_text rounds {| app := App_new response_ now; desk_server := s; trace := [] |} = (o, d)
    ∧ ∀ scr, Shown scr ∈ trace d →
        match sc_selected scr with
        | None => sc_rows scr = [] ∧ sc_details scr = "No configured backends."%string
        | Some i => ∃ color cells view rest, sc_rows scr !! i = Some (color, cells) ∧ cells = row_cells view
            ∧ sc_details scr = (v_id view +:+ newline +:+ rest)%string
        end.
Proof.
  destruct (run_sound rounds _ (settled_new response_ now s)) as (o & d & E & _ & Hf & _). exists o, d. split; [done|].
  intros scr Hin. apply (proj1 (Forall_forall _ _) Hf) in Hin as (area & a & -> & Hr). cbn.
  case_bool_decide as Hb.
  - rewrite Hb. split; [done|]. unfold details, selected_backend. by rewrite Hb.
  - destruct Hr as [Hr|[? _]]; [|done]. apply lookup_lt_is_Some in Hr as [view Hv].
    exists (row_color view), (row_cells view), view. eexists. rewrite list_lookup_fmap, Hv. split; [done|]. split; [done|].
    unfold details, selected_backend. rewrite Hv. reflexivity.
Qed.
End Keys.

(** ** Examples *)

Section Demo.

Definition demo_view (id : string) : BackendView :=
  {| v_id := id; v_url := "http://127.0.0.1:1"; v_mode := Active; v_state := DReady; v_readiness := Ready;
     v_telemetry := Fresh; v_circuit := CClosed; v_eligible := true; v_proxy_active := 2; v_oldest_proxy_request_ms := None;
     v_running := Some 1000%N; v_waiting := None; v_reported_capacity := None; v_configured_capacity := None;
     v_effective_capacity := Some 1000%N; v_capacity_mismatch := false; v_kv_ratio := None; v_token_rate := None;
     v_prefill_token_rate := None; v_decode_token_rate := None; v_pressure := None; v_metrics_age_ms := Some 100%N;
     v_readiness_age_ms := None; v_metrics_error := None; v_readiness_error := None |}.

Definition demo_list (ids : list string) : BackendListResponse :=
  {| runtime_revision := 7; list_routing_policy := "least-pressure-v1"; views := demo_view <$> ids |}.

(** A server that lists one backend after the other; its state is the lists to come. *)
Definition scripted : ControlApi (list (list string)) :=
  {| api_list := λ s, (Done (Ok (demo_list (default [] (head s)))), tail s);
     api_status := λ _, mret (Err (ClientError_new "no"));
     api_drain := λ id, mret (Ok (mkDrainStartedResponse "op-1" id Draining false));
     api_operation := λ _, mret (Err (ClientError_new "no"));
     api_activate := λ _, mret (Err (ClientError_new "no"));
     api_disable := λ _ _, mret (Err (ClientError_new "no"));
     api_reload := mret (Err (ClientError_new "no")) |}.

Definition demo_round (code : KeyCode) (at_ : N) : Round :=
  {| r_area := mkRect 0 0 100 18; r_draw := None; r_event := Ok (Some (Key code true false)); r_answered := at_;
     r_redraw := None; r_check := at_; r_refreshed := at_ |}.

(** What was pressed and asked, and the status lines that were shown. *)
Definition told (entry : Entry) : list (KeyCode + Request + string) :=
  match entry with
  | Pressed code => [inl (inl code)]
  | Asked request => [inl (inr request)]
  | Shown scr => [inr (sc_status scr)]
  | Listed _ => []
  end.

(** The question is about [east]; a refresh no longer lists it; the answer drains [west]. *)
Example asked_another :
  let d := (run (H := scripted) to_string [demo_round (Char "d") 1000; demo_round (Char "y") 1100]
    {| app := App_new (demo_list ["east"; "west"]) 0; desk_server := [["west"]; ["west"]]; trace := [] |}).2 in
  (flat_map told (trace d))
  = [inr " Connected · runtime revision 7 · least-pressure-v1"; inl (inl (Char "d"));
     inr " Drain east? It will stop receiving new requests immediately. y / n"; inl (inr RList);
     inr " Drain east? It will stop receiving new requests immediately. y / n"; inl (inl (Char "y"));
     inl (inr (RDrain "west")); inl (inr RList);
     inr " west is draining · operation op-1 · the drain continues if you quit"]%string.
Proof. vm_compute. reflexivity. Qed.

(** Cells that do not fit their column at the natural width of the table. *)
Example clipped :
  let cells := row_cells (demo_view "gh200-prod-rack-1") in
  (λ '(cell, width), width <? chars cell) <$> zip cells column_lengths
  = [true; false; false; false; true; false; false; false; false; false; false; false].
Proof. vm_compute. reflexivity. Qed.

Example overlay_cases :
  overlay_area (mkRect 0 0 100 18) = mkRect 22 2 56 14 ∧ overlay_area (mkRect 0 0 6 3) = mkRect 3 1 0 0.
Proof. vm_compute. done. Qed.
End Demo.
