(* ===== verification/Explorer.v ===== *)
(** * [src/src/logs/tui.rs]: the log explorer

    The explorer as a state machine over [Tail]: a state, one operation per
    key, the refresh that reads what was appended, and what is drawn as text.
    The file, and what fails of a poll, may be different at every refresh.
    [serde_json] is the parameter [from_slice] of [Logs]; widgets, colours and
    the terminal are [ratatui]'s. *)

From S2P Require Import Prelude RustStd Float64 Text Disk Logs Summary LogText Terminal.

(** ** The state *)

(** src/src/logs/tui.rs:46-51 [View] *)
Inductive View := Users | Totals | Backends | Requests.

#[export] Instance View_eq_dec : EqDecision View.
Proof. solve_decision. Defined.

(** src/src/logs/tui.rs:54-54 [View::ALL] *)
Definition View_ALL : list View := [Users; Totals; Backends; Requests].

(** src/src/logs/tui.rs:56-63 [View::title] *)
Definition View_title (self : View) : string :=
  match self with Users => "Users" | Totals => "Summary" | Backends => "Backends" | Requests => "Requests" end.

(** src/src/logs/tui.rs:65-72 [View::next] *)
Definition View_next (self : View) : View :=
  match self with Users => Totals | Totals => Backends | Backends => Requests | Requests => Users end.

(** src/src/logs/tui.rs:75-97 [App]; the needle is its UTF-8 text *)
Record App := mkApp {
  path : string;
  tail : Tail;
  held : list LogRecord;
  report : Summary;
  view : View;
  selected : nat;
  selected_id : option string;
  needle : bytes;
  editing_filter : bool;
  errors_only : bool;
  user_selected : nat;
  chosen : option string;
  table_scroll : N;
  status : string;
  quit : bool;
}.

(** src/src/logs/tui.rs:100-121 [App::new]; [summarize] may panic *)
Definition App_new (path_ : string) (tail_ : Tail) (records_ : list LogRecord) : outcome App :=
  match summarize records_ with
  | Panicked => Panicked
  | Done summary_ =>
      Done {| path := path_; tail := tail_; held := records_; report := summary_; view := Users; selected := 0;
              selected_id := None; needle := []; editing_filter := false; errors_only := false; user_selected := 0;
              chosen := None; table_scroll := 0;
              status := "Loaded " +:+ thousands (N.of_nat (length records_)) +:+ " records"; quit := false |}
  end.

(** src/src/logs/tui.rs:183-193 [App::visible] *)
Definition visible (a : App) : list LogRecord :=
  let filtered := filter_records (held a) (needle a) (errors_only a) in
  reverse (match chosen a with
           | Some principal_ => keep (λ r, bool_decide (principal_bucket r (openwebui_keys (report a)) = principal_)) filtered
           | None => filtered
           end).

(** [iter().position(|record| record.request_id == id)] *)
Definition position (id : string) (l : list LogRecord) : option nat := fst <$> list_find (λ r, l_request_id r = id) l.

(** src/src/logs/tui.rs:170-180 [App::resolve_selection] *)
Definition resolve_selection (a : App) : App :=
  a <| selected := match selected_id a with
                   | None => 0
                   | Some id => default 0 (position id (visible a))
                   end |>.

(** src/src/logs/tui.rs:297-308 [App::select] *)
Definition select_row (index : nat) (a : App) : App :=
  let row := Nat.min index (length (visible a) - 1) in
  a <| selected := row |> <| selected_id := l_request_id <$> visible a !! row |>.

(** ** Keys and refreshes *)

Definition on_app (f : App → App) : M App () := modify f.
Definition say (text : string) : M App () := on_app (λ a, a <| status := text |>).

(** [String::pop]: the last character is dropped. *)
Definition pop_char (s : bytes) : bytes :=
  let '(_, rest) := span is_continuation (reverse s) in reverse (tl rest).

Section Explorer.
Context (from_slice : bytes → option LogRecord).

Definition on_tail {A} (m : M Tail A) : M App A :=
  λ a, let '(r, t) := m (tail a) in (r, a <| tail := t |>).

(** src/src/logs/tui.rs, lines 151-162 of [App::refresh]: what a poll gave *)
Definition absorb (appended : Appended) : M App () :=
  _ ← (if restarted appended
       then on_app (λ a, a <| held := [] |> <| status := "Log file shrank; reread from the start." |>)
       else mret ());
  if restarted appended || negb (bool_decide (records appended = [])) then
    _ ← on_app (λ a, a <| held := held a ++ records appended |>);
    a ← get_state;
    summary_ ← expect (match summarize (held a) with Done s => Some s | Panicked => None end);
    on_app (λ a, resolve_selection
      (a <| report := summary_ |>
         <| user_selected := Nat.min (user_selected a) (length (by_principal summary_) - 1) |>))
  else mret ().

(** src/src/logs/tui.rs:148-166 [App::refresh] *)
Definition refresh (files : Files) (faults : PollFaults) : M App () :=
  polled ← on_tail (poll from_slice files faults);
  match polled with
  | Ok appended => absorb appended
  | Err error => say ("Could not read the log: " +:+ io_message error)
  end.

(** src/src/logs/tui.rs, lines 196-219 of [App::handle]: a key while the filter is edited *)
Definition handle_filter (code : KeyCode) : M App () :=
  match code with
  | Char character => on_app (λ a, select_row 0 (a <| needle := needle a ++ bs character |>))
  | Backspace => on_app (λ a, select_row 0 (a <| needle := pop_char (needle a) |>))
  | Enter =>
      on_app (λ a, select_row 0 (a <| editing_filter := false |>
        <| status := if bool_decide (needle a = []) then "Filter cleared."
                     else "Filtering on " +:+ fmt_debug (str (needle a)) +:+ "." |>))
  | Esc =>
      on_app (λ a, select_row 0 (a <| editing_filter := false |> <| needle := [] |> <| status := "Filter cleared." |>))
  | _ => mret ()
  end.

(** src/src/logs/tui.rs, lines 222-231 of [App::handle]: the row of the users view that a key moves to *)
Definition moved_user (a : App) (code : KeyCode) : option nat :=
  let last := length (by_principal (report a)) - 1 in
  if is_key [Up; Char "k"] code then Some (user_selected a - 1)
  else if is_key [Down; Char "j"] code then Some (Nat.min (user_selected a + 1) last)
  else if is_key [PageUp] code then Some (user_selected a - 10)
  else if is_key [PageDown] code then Some (Nat.min (user_selected a + 10) last)
  else if is_key [Home; Char "g"] code then Some 0
  else if is_key [End_; Char "G"] code then Some last
  else None.

(** src/src/logs/tui.rs, lines 236-244 of [App::handle]: [Enter] in the users view *)
Definition open_user (a : App) : App :=
  match by_principal (report a) !! user_selected a with
  | Some (principal_, _) =>
      select_row 0 (a <| status := "Requests for " +:+ principal_ +:+ "; Esc shows everyone." |>
                      <| chosen := Some principal_ |> <| view := Requests |>)
  | None => a
  end.

(** src/src/logs/tui.rs, lines 247-294 of [App::handle]: a key in any view *)
Definition handle_view (code : KeyCode) (files : Files) (faults : PollFaults) : M App () :=
  a ← get_state;
  let last := length (visible a) - 1 in
  if is_key [Tab] code then on_app (λ a, a <| view := View_next (view a) |>)
  else if is_key [Left; Char "h"] code then on_app (λ a, a <| table_scroll := (table_scroll a - SCROLL_STEP)%N |>)
  else if is_key [Right; Char "l"] code
  then on_app (λ a, a <| table_scroll := saturating_add U16_MAX (table_scroll a) SCROLL_STEP |>)
  else if is_key [Char "1"] code then on_app (λ a, a <| view := Users |>)
  else if is_key [Char "2"] code then on_app (λ a, a <| view := Totals |>)
  else if is_key [Char "3"] code then on_app (λ a, a <| view := Backends |>)
  else if is_key [Char "4"] code then on_app (λ a, a <| view := Requests |>)
  else if is_key [Up; Char "k"] code then on_app (λ a, select_row (selected a - 1) a)
  else if is_key [Down; Char "j"] code then on_app (λ a, select_row (Nat.min (selected a + 1) last) a)
  else if is_key [PageUp] code then on_app (λ a, select_row (selected a - 10) a)
  else if is_key [PageDown] code then on_app (λ a, select_row (Nat.min (selected a + 10) last) a)
  else if is_key [Home; Char "g"] code then on_app (select_row 0)
  else if is_key [End_; Char "G"] code then on_app (select_row last)
  else if is_key [Char "/"] code then
    on_app (λ a, a <| editing_filter := true |> <| view := Requests |>
                   <| status := "Type to filter; Enter to keep, Esc to clear." |>)
  else if is_key [Char "e"] code then
    on_app (λ a, select_row 0 (a <| errors_only := negb (errors_only a) |> <| view := Requests |>
      <| status := if errors_only a then "Showing all requests." else "Showing errors and incomplete requests only." |>))
  else if is_key [Char "r"] code then
    _ ← refresh files faults;
    on_app (λ a, a <| status := thousands (N.of_nat (length (held a))) +:+ " records" |>)
  else if is_key [Esc] code && bool_decide (view a = Requests) && bool_decide (is_Some (chosen a)) then
    on_app (λ a, select_row 0 (a <| chosen := None |> <| status := "Showing requests from everyone." |>))
  else if is_key [Char "q"; Esc] code then on_app (λ a, a <| quit := true |>)
  else mret ().

(** src/src/logs/tui.rs:195-295 [App::handle] *)
Definition handle (code : KeyCode) (files : Files) (faults : PollFaults) : M App () :=
  a ← get_state;
  if editing_filter a then handle_filter code
  else if bool_decide (view a = Users) then
    match moved_user a code with
    | Some index => on_app (λ a, a <| user_selected := index |>)
    | None => if is_key [Enter] code then on_app open_user else handle_view code files faults
    end
  else handle_view code files faults.
End Explorer.

(** ** What is drawn *)

(** src/src/logs/tui.rs:755-755 [TOTALS_TABLE_WIDTH] *)
Definition TOTALS_TABLE_WIDTH : N := 96.
(** src/src/logs/tui.rs:756-756 [BACKENDS_TABLE_WIDTH] *)
Definition BACKENDS_TABLE_WIDTH : N := 145.
(** src/src/logs/tui.rs:757-757 [REQUESTS_TABLE_WIDTH] *)
Definition REQUESTS_TABLE_WIDTH : N := 126.

(** src/src/logs/tui.rs:885-887 [tokens] *)
Definition tokens (count : option N) : string := match count with Some count => thousands count | None => "-" end.

(** src/src/logs/tui.rs:878-883 [clock]: what follows the first [T], without the [Z]s at its end *)
Definition clock (started_at : string) : string :=
  let '(_, rest) := span (λ x, negb (Ascii.eqb x "T")) (bs started_at) in
  match rest with
  | [] => started_at
  | _ :: time => str (reverse (span (λ x, Ascii.eqb x "Z") (reverse time)).2)
  end.

Inductive Color := Plain | Cyan | Yellow | Red | Magenta.

(** src/src/logs/tui.rs:889-900 [status_style] *)
Definition status_style (record : LogRecord) : Color :=
  if negb (l_complete record) then Magenta else
  match l_status record with
  | Some status =>
      if (status / 100 =? 2)%N then Plain
      else if (status / 100 =? 3)%N then Cyan
      else if (status / 100 =? 4)%N then Yellow
      else Red
  | None => Magenta
  end.

(** [map_or_else] of an optional value over a dash. *)
Definition dash {A} (show : A → string) (value : option A) : string :=
  match value with Some value => show value | None => "-" end.

(** src/src/logs/tui.rs, lines 780-797 of [detail_lines]: the key; the slices of the digest may panic *)
Definition key_line (record : LogRecord) : outcome string :=
  match principal record, match l_key_sha256 record with
                          | None => Done "-"%string
                          | Some digest =>
                              match split_at (Nat.min 16 (length (bs digest))) (bs digest) with
                              | Done (head, _) => Done (str head)
                              | Panicked => Panicked
                              end
                          end with
  | Done principal_, Done digest =>
      Done ("key     " +:+ principal_ +:+ match l_openwebui_chat_id record with Some chat => "  chat " +:+ chat | None => "" end
            +:+ "  digest " +:+ digest
            +:+ "  admin " +:+ dash (λ admin : bool, if admin then "true" else "false") (l_key_admin record))
  | _, _ => Panicked
  end.

(** src/src/logs/tui.rs, lines 812-828 of [detail_lines]: the tokens; [Panicked] is the overflow of the product *)
Definition tokens_line (record : LogRecord) : outcome string :=
  let line cache := Done ("tokens  " +:+ tokens (l_input_tokens record) +:+ " in   " +:+ tokens (l_output_tokens record)
    +:+ " out   " +:+ tokens (l_total_tokens record) +:+ " total   " +:+ cache) in
  match l_cached_tokens record, l_input_tokens record with
  | Some cached, Some input =>
      if (0 <? input)%N then
        if (100 * cached <=? U64_MAX)%N
        then line (to_string cached +:+ " cached (" +:+ to_string (100 * cached / input) +:+ "% of input)")
        else Panicked
      else line (to_string cached +:+ " cached")
  | Some cached, None => line (to_string cached +:+ " cached")
  | None, _ => line "no cache data"%string
  end.

(** src/src/logs/tui.rs:759-871 [detail_lines]; a label and what follows it are one text *)
Definition detail_lines (record : LogRecord) : outcome (list string) :=
  match key_line record, tokens_line record with
  | Done key, Done tokens =>
      Done ["id      " +:+ l_request_id record +:+ "   started " +:+ l_started_at record;
            "request " +:+ l_method record +:+ " " +:+ l_uri record +:+ "  " +:+ l_http_version record +:+ "  from "
              +:+ l_client_ip record +:+ ":" +:+ to_string (l_client_port record);
            key;
            "outcome " +:+ match l_status record with Some status => to_string status | None => "no status" end +:+ "  "
              +:+ l_termination record +:+ "  " +:+ dash id (l_auth_error record);
            tokens;
            "timing  " +:+ duration (l_duration_ms record) +:+ " total   first byte "
              +:+ dash duration (l_time_to_first_byte_ms record) +:+ "   "
              +:+ (if l_streaming record then "streaming" else "non-streaming") +:+ "   "
              +:+ thousands (l_response_bytes record) +:+ " bytes out   "
              +:+ dash thousands (l_request_content_length record) +:+ " bytes in";
            "routing " +:+ dash id (l_backend_id record) +:+ " via " +:+ dash id (l_routing_policy record) +:+ " ("
              +:+ dash id (l_routing_reason record) +:+ ")   eligible "
              +:+ dash to_string (l_eligible_backend_count record) +:+ "   pressure "
              +:+ dash (fmt_prec 3) (l_backend_pressure_at_dispatch record) +:+ "   queue "
              +:+ dash duration (l_proxy_queue_ms record);
            "client  " +:+ truncate (default "-"%string (l_user_agent record)) 96]%string
  | _, _ => Panicked
  end.

(** src/src/logs/tui.rs, lines 524-531 of [App::draw_users]: the cells of a principal *)
Definition user_cells (row : string * KeyTotals) : list string :=
  let '(name, totals) := row in
  [truncate name 22; thousands (k_requests totals); thousands (k_input_tokens totals); thousands (k_cached_tokens totals);
   thousands (k_prefilled_tokens totals); thousands (k_output_tokens totals); to_string (k_errors totals)].

(** src/src/logs/tui.rs, lines 498-506 of [App::draw_summary]: the cells of an endpoint *)
Definition path_cells (row : string * PathTotals) : list string :=
  let '(name, totals) := row in
  [truncate name 22; thousands (p_requests totals); thousands (p_input_tokens totals); thousands (p_cached_tokens totals);
   thousands (p_prefilled_tokens totals); thousands (p_output_tokens totals); to_string (p_errors totals)].

(** src/src/logs/tui.rs:731-750 [totals_table]: the header and the lengths of the columns *)
Definition totals_columns (first : string) : list (string * nat) :=
  [(first, 22); ("REQUESTS", 10); ("IN", 12); ("CACHED", 12); ("PREFILLED", 12); ("OUT", 12); ("ERRORS", 8)]%string.

(** The requests that were routed. *)
Definition routed (a : App) : N :=
  foldr N.add 0%N ((λ '(_, totals), p_requests (b_totals totals)) <$> by_backend (report a)).

(** src/src/logs/tui.rs, lines 588-605 of [App::draw_backends]: the cells of a backend *)
Definition backend_cells (routed_ : N) (row : string * BackendTotals) : list string :=
  let '(backend, totals) := row in
  let requests := p_requests (b_totals totals) in
  let share := if (routed_ =? 0)%N then f64_zero
               else fdiv (fmul (f64_of_N requests) (f64_of_N 100)) (f64_of_N routed_) in
  [truncate backend 23; thousands requests; fmt_1 share +:+ "%";
   thousands (p_input_tokens (b_totals totals)); thousands (p_cached_tokens (b_totals totals));
   thousands (p_prefilled_tokens (b_totals totals)); thousands (p_output_tokens (b_totals totals));
   to_string (p_errors (b_totals totals)); distribution_p95 (queue_ms totals); distribution_p95 (first_byte_ms totals);
   distribution_p95 (b_latency_ms totals)]%string.

(** src/src/logs/tui.rs, lines 609-627 of [App::draw_backends]: the header and the lengths of the columns *)
Definition backend_columns : list (string * nat) :=
  [("BACKEND", 24); ("REQUESTS", 10); ("SHARE", 9); ("IN", 12); ("CACHED", 12); ("PREFILLED", 12); ("OUT", 12);
   ("ERRORS", 9); ("QUEUE95", 11); ("TTFB95", 11); ("LATENCY95", 11)]%string.

(** src/src/logs/tui.rs, lines 564-583 of [App::draw_backends]: what is above the table *)
Definition backends_overview (a : App) : list string :=
  let plural (n : N) := if (n =? 1)%N then EmptyString else "s"%string in
  let rows := N.of_nat (length (by_backend (report a))) in
  ["routed   " +:+ thousands (routed a) +:+ " request" +:+ plural (routed a) +:+ " across "
     +:+ to_string rows +:+ " backend" +:+ plural rows;
   "Historical request share and latency from proxy.jsonl"]%string.

(** src/src/logs/tui.rs, lines 647-666 of [App::draw_requests]: the cells of a request and their colour *)
Definition request_cells (openwebui : gset string) (record : LogRecord) : list string * Color :=
  ([clock (l_started_at record); l_method record; truncate (record_path record) 27;
    truncate (principal_bucket record openwebui) 21; truncate (default "-" (l_backend_id record)) 15;
    match l_status record with Some status => to_string status | None => "---" end;
    duration (l_duration_ms record); tokens (l_input_tokens record); tokens (l_cached_tokens record);
    tokens (l_output_tokens record)]%string, status_style record).

(** src/src/logs/tui.rs, lines 670-687 of [App::draw_requests]: the header and the lengths of the columns *)
Definition request_columns : list (string * nat) :=
  [("TIME", 12); ("METHOD", 6); ("ENDPOINT", 24); ("PRINCIPAL", 19); ("BACKEND", 16); ("STATUS", 6); ("TOOK", 8);
   ("IN", 8); ("CACHED", 8); ("OUT", 8)]%string.

(** src/src/logs/tui.rs, lines 403-458 of [App::draw_summary]: what is above the tables; [Panicked] is the overflow of
    the token total *)
Definition overview_lines (s : Summary) : outcome (list string) :=
  if negb (s_input_tokens s + s_output_tokens s <=? U64_MAX)%N then Panicked else
  Done ["window   " +:+ match first_at s, last_at s with
                        | Some first, Some last => first +:+ "  to  " +:+ last
                        | _, _ => "no requests recorded yet"
                        end;
        "requests " +:+ thousands (s_requests s) +:+ "   authorized " +:+ to_string (s_authorized s) +:+ "   rejected "
          +:+ to_string (s_rejected s) +:+ "   incomplete " +:+ to_string (s_incomplete s);
        "statuses 2xx " +:+ to_string (s_successful s) +:+ "   3xx " +:+ to_string (s_redirected s) +:+ "   4xx "
          +:+ to_string (s_client_errors s) +:+ "   5xx " +:+ to_string (s_server_errors s) +:+ "   none "
          +:+ to_string (s_no_status s);
        "tokens   " +:+ thousands (s_input_tokens s) +:+ " in   " +:+ thousands (s_output_tokens s) +:+ " out   "
          +:+ thousands (s_input_tokens s + s_output_tokens s) +:+ " total";
        "cache    " +:+ thousands (s_cached_tokens s) +:+ " cached   "
          +:+ dash (λ pct, fmt_1 pct +:+ "%") (Summary_cache_hit_pct s) +:+ " of input   "
          +:+ thousands (s_prefilled_tokens s) +:+ " prefilled";
        "shape    " +:+ thousands (s_streaming s) +:+ " streaming   " +:+ thousands (s_non_streaming s)
          +:+ " non-streaming"]%string.

(** What is below the tabs. *)
Inductive Body :=
  | UsersBody (rows : list (list string)) (highlighted : option nat)
  | TotalsBody (overview : list string) (percentiles : list (string * PercentileRow)) (paths : list (list string))
  | BackendsBody (overview : list string) (rows : list (list string))
  | RequestsBody (rows : list (list string * Color)) (highlighted : option nat) (details : list string).

(** src/src/logs/tui.rs:521-552 [App::draw_users] *)
Definition draw_users (a : App) : Body :=
  UsersBody (user_cells <$> by_principal (report a))
            (if bool_decide (by_principal (report a) = []) then None else Some (user_selected a)).

(** src/src/logs/tui.rs:401-519 [App::draw_summary] *)
Definition draw_summary (a : App) : outcome Body :=
  match overview_lines (report a) with
  | Panicked => Panicked
  | Done overview => Done (TotalsBody overview (percentile_rows (report a)) (path_cells <$> by_path (report a)))
  end.

(** src/src/logs/tui.rs:554-639 [App::draw_backends] *)
Definition draw_backends (a : App) : Body :=
  BackendsBody (backends_overview a) (backend_cells (routed a) <$> by_backend (report a)).

(** src/src/logs/tui.rs:641-728 [App::draw_requests] *)
Definition draw_requests (a : App) : outcome Body :=
  let shown := visible a in
  let last := length shown - 1 in
  match match shown !! Nat.min (selected a) last with
        | Some record => detail_lines record
        | None => Done ["no records match"%string]
        end with
  | Panicked => Panicked
  | Done details =>
      Done (RequestsBody (request_cells (openwebui_keys (report a)) <$> shown)
                         (if bool_decide (shown = []) then None else Some (Nat.min (selected a) last)) details)
  end.

(** src/src/logs/tui.rs, lines 320-330 of [App::draw]: the title *)
Definition title (a : App) : string :=
  " mistralrs_proxy logs · " +:+ thousands (N.of_nat (length (held a))) +:+ " request"
  +:+ (if length (held a) =? 1 then "" else "s")
  +:+ (if (0 <? malformed (tail a))%N then " · " +:+ to_string (malformed (tail a)) +:+ " unreadable" else "")
  +:+ " · " +:+ path a +:+ " ".

(** src/src/logs/tui.rs, lines 361-381 of [App::draw]: the help line *)
Definition help (a : App) : string :=
  if editing_filter a then "filter: " +:+ str (needle a) +:+ "_" else
  let scope := (match bool_decide (needle a = []), errors_only a with
                | true, false => ""
                | true, true => "  [errors only]"
                | false, false => "  [/" +:+ str (needle a) +:+ "]"
                | false, true => "  [/" +:+ str (needle a) +:+ " + errors]"
                end)%string
               +:+ match chosen a with Some principal_ => "  [" +:+ principal_ +:+ "]" | None => "" end in
  "tab views   ↑/↓ move   ←/→ scroll" +:+ (if bool_decide (view a = Users) then "   enter requests" else "")
  +:+ "   / filter   e errors   r refresh   q quit" +:+ scope.

(** A frame as text. *)
Record Screen := mkScreen {
  sc_title : string;
  sc_tab : option nat;
  sc_body : Body;
  sc_scroll : N;
  sc_help : string;
  sc_editing : bool;
  sc_status : string;
}.

(** src/src/logs/tui.rs:310-399 [App::draw] *)
Definition draw (a : App) : outcome Screen :=
  match match view a with
        | Users => Done (draw_users a)
        | Totals => draw_summary a
        | Backends => Done (draw_backends a)
        | Requests => draw_requests a
        end with
  | Panicked => Panicked
  | Done body =>
      Done {| sc_title := title a; sc_tab := fst <$> list_find (λ v, v = view a) View_ALL; sc_body := body;
              sc_scroll := table_scroll a; sc_help := " " +:+ help a +:+ " "; sc_editing := editing_filter a;
              sc_status := " " +:+ status a |}
  end.

(** ** The loop *)

(** The explorer and the frames it has shown. *)
Record Desk := mkDesk { app : App; frames : list Screen }.

(** A pass of the loop: an error of drawing, the event if one came within the interval, and the file and the faults of
    a refresh. *)
Record Round := mkRound {
  r_draw : option IoError;
  r_event : result IoError (option Event);
  r_files : Files;
  r_faults : PollFaults;
}.

Section Loop.
Context (from_slice : bytes → option LogRecord).

Definition on_desk {A} (m : M App A) : M Desk A :=
  λ d, let '(r, a) := m (app d) in (r, {| app := a; frames := frames d |}).

Definition show_frame (error : option IoError) : M Desk (result IoError ()) :=
  d ← get_state;
  screen ← expect (match draw (app d) with Done screen => Some screen | Panicked => None end);
  match error with
  | Some error => mret (Err error)
  | None => _ ← modify (λ d, {| app := app d; frames := frames d ++ [screen] |}); mret (Ok ())
  end.

(** src/src/logs/tui.rs, lines 125-141 of [App::run]: a pass of the loop *)
Definition round (r : Round) : M Desk (result IoError ()) :=
  _ ←? show_frame (r_draw r);
  match r_event r with
  | Err error => mret (Err error)
  | Ok None => _ ← on_desk (refresh from_slice (r_files r) (r_faults r)); mret (Ok ())
  | Ok (Some (Key code true control)) =>
      if interrupt control code then _ ← on_desk (on_app (λ a, a <| quit := true |>)); mret (Ok ())
      else _ ← on_desk (handle from_slice code (r_files r) (r_faults r)); mret (Ok ())
  | Ok (Some _) => mret (Ok ())
  end.

(** src/src/logs/tui.rs:123-145 [App::run]; at the end of the list the explorer waits for the next event *)
Fixpoint run_explorer (rounds : list Round) : M Desk (result IoError ()) :=
  d ← get_state;
  if quit (app d) then mret (Ok ()) else
  match rounds with
  | [] => mret (Ok ())
  | r :: rounds => _ ←? round r; run_explorer rounds
  end.

(** src/src/logs/tui.rs:31-43 [explore]: what [run] of logs.rs opens, with its terminal *)
Definition explore (is_terminal : bool) (rounds : list Round) (path_ : string) (tail_ : Tail) (records_ : list LogRecord) :
    M (list string) (result BoxError ()) :=
  if negb is_terminal then mret (Err (Message "`logs` needs an interactive terminal; pass --summary instead")) else
  match App_new path_ tail_ records_ with
  | Panicked => panic
  | Done a =>
      match run_explorer rounds {| app := a; frames := [] |} with
      | (Done r, _) => mret (map_err Io r)
      | (Panicked, _) => panic
      end
  end.
End Loop.

(** ** Coherent states *)

(** The highlighted row exists. *)
Definition row_in {A} (row : nat) (l : list A) : Prop := row < length l ∨ l = [] ∧ row = 0.

(** The summary is the one of the records, and the highlighted principal exists. *)
Definition summed (a : App) : Prop :=
  summarize (held a) = Done (report a) ∧ row_in (user_selected a) (by_principal (report a)).

(** The highlighted request exists.  It is the one selected, if that one is shown, and the newest otherwise. *)
Definition anchored (a : App) : Prop :=
  row_in (selected a) (visible a)
  ∧ match selected_id a with
    | None => selected a = 0
    | Some id => l_request_id <$> visible a !! selected a = Some id
                 ∨ id ∉ l_request_id <$> visible a ∧ selected a = 0
    end.

Definition coherent (a : App) : Prop := summed a ∧ anchored a.

Lemma row_min {A} (l : list A) i : row_in (Nat.min i (length l - 1)) l.
Proof. unfold row_in. destruct l; cbn; [right; split; [done|lia]|left; lia]. Qed.

Lemma row_last {A} (l : list A) : row_in (length l - 1) l.
Proof. unfold row_in. destruct l; cbn; [by right|left; lia]. Qed.

Lemma row_zero {A} (l : list A) : row_in 0 l.
Proof. unfold row_in. destruct l; cbn; [by right|left; lia]. Qed.

Lemma row_back {A} (l : list A) i k : row_in i l → row_in (i - k) l.
Proof. unfold row_in. intros [H|[-> ->]]; [left; lia|by right]. Qed.

Create HintDb rows discriminated.
#[local] Hint Resolve row_min row_last row_zero row_back : rows.

(** Selecting a row. *)
Lemma select_anchored index a : anchored (select_row index a).
Proof.
  unfold anchored, select_row. set (row := Nat.min index _).
  change (visible (a <| selected := row |> <| selected_id := ?x |>)) with (visible a).
  assert (row_in row (visible a)) as Hrow by apply row_min. split; [exact Hrow|]. unfold constant. cbn.
  destruct (visible a !! row) as [record|] eqn:El; [by left|].
  destruct Hrow as [Hlt%lookup_lt_is_Some_2|[_ Hr]]; [|exact Hr]. rewrite El in Hlt. by destruct Hlt.
Qed.

Lemma select_coherent index a : summed a → coherent (select_row index a).
Proof. intros Hs. split; [exact Hs|apply select_anchored]. Qed.

Lemma place_Some id l i : position id l = Some i → l_request_id <$> l !! i = Some id.
Proof.
  unfold position. destruct (list_find _ l) as [[j r]|] eqn:E; [|done]. intros [= <-].
  apply list_find_Some in E as (Hl & Hid & _). by rewrite Hl, <- Hid.
Qed.

Lemma place_None id l : position id l = None → id ∉ l_request_id <$> l.
Proof.
  unfold position. destruct (list_find _ l) as [[j r]|] eqn:E; [done|]. intros _.
  apply list_find_None in E. rewrite Forall_forall in E. intros (r & -> & Hin)%list_elem_of_fmap. by apply (E r).
Qed.

(** Finding the selected request again. *)
Lemma resolve_anchored a : anchored (resolve_selection a).
Proof.
  unfold anchored, resolve_selection. set (row := match selected_id a with Some _ => _ | None => _ end).
  change (visible (a <| selected := row |>)) with (visible a).
  change (selected (a <| selected := row |>)) with row. change (selected_id (a <| selected := row |>)) with (selected_id a).
  unfold row. destruct (selected_id a) as [id|]; [|split; [apply row_zero|done]].
  destruct (position id (visible a)) as [i|] eqn:E; cbn.
  - apply place_Some in E. split; [left|by left].
    destruct (visible a !! i) eqn:Ei; [by eapply lookup_lt_Some|done].
  - apply place_None in E. split; [apply row_zero|by right].
Qed.

(** A key that leaves the log alone. *)
Definition same_log (a a' : App) : Prop := tail a' = tail a ∧ held a' = held a ∧ report a' = report a.

Section Keys.
Context (from_slice : bytes → option LogRecord).

(** What a key does other than a refresh. *)
Definition local (m : M App ()) (a : App) : Prop :=
  ∃ a', m a = (Done (), a') ∧ same_log a a' ∧ (coherent a → coherent a').

Lemma local_idle a : local (mret ()) a.
Proof. by exists a. Qed.

Lemma local_on f a : same_log a (f a) → (coherent a → coherent (f a)) → local (on_app f) a.
Proof. intros Hs Hc. by exists (f a). Qed.

(** A state that differs in what is neither the log nor the rows, and one whose row was selected anew. *)
Ltac elsewhere := first [apply local_idle | apply local_on; [done|by intros [??]]].
Ltac selecting := apply local_on; [done|intros [Hsum _]; apply select_coherent; exact Hsum].

Lemma handle_filter_local code a : local (handle_filter code) a.
Proof. destruct code; cbv beta iota delta [handle_filter]; first [selecting|elsewhere]. Qed.

Lemma open_user_local a : local (on_app open_user) a.
Proof.
  apply local_on; unfold open_user; destruct (by_principal (report a) !! _) as [[p totals]|]; try done.
  intros [Ha _]. by apply select_coherent.
Qed.

(** The key [r]. *)
Definition reread (files : Files) (faults : PollFaults) : M App () :=
  _ ← refresh from_slice files faults;
  on_app (λ a, a <| status := thousands (N.of_nat (length (held a))) +:+ " records" |>).

(** What a key does: something local, or [r]. *)
Definition keyed (files : Files) (faults : PollFaults) (m : M App ()) (a : App) : Prop :=
  local m a ∨ m a = reread files faults a.

Lemma keyed_state files faults (k : App → M App ()) a :
  keyed files faults (k a) a → keyed files faults (a ← get_state; k a) a.
Proof. done. Qed.

Lemma handle_view_keyed code files faults a : keyed files faults (handle_view from_slice code files faults) a.
Proof.
  unfold handle_view. apply keyed_state.
  repeat match goal with |- context [if is_key ?l code then _ else _] => destruct (is_key l code) eqn:? end.
  all: repeat match goal with |- context [if ?b && ?c then _ else _] => destruct (b && c) eqn:? end.
  all: first [by right | left; first [selecting|elsewhere]].
Qed.

Lemma moved_user_in a code i : summed a → moved_user a code = Some i → row_in i (by_principal (report a)).
Proof.
  intros [_ Hu]. unfold moved_user.
  repeat match goal with |- context [if is_key ?l code then _ else _] => destruct (is_key l code) end.
  all: intros [= <-]; auto with rows.
Qed.

Lemma handle_keyed code files faults a : keyed files faults (handle from_slice code files faults) a.
Proof.
  unfold handle. apply keyed_state.
  destruct (editing_filter a); [left; apply handle_filter_local|].
  case_bool_decide; [|apply handle_view_keyed].
  destruct (moved_user a code) as [i|] eqn:Em.
  - left. apply local_on; [done|]. intros [Hs Ha]. split; [|exact Ha].
    split; [apply Hs|]. exact (moved_user_in a code i Hs Em).
  - destruct (is_key [Enter] code); [left; apply open_user_local|apply handle_view_keyed].
Qed.

(** ** The refresh *)

(** The end of a refresh: the summary of what is held, and the rows. *)
Definition recount : M App () :=
  a ← get_state;
  summary_ ← expect (match summarize (held a) with Done s => Some s | Panicked => None end);
  on_app (λ a, resolve_selection
    (a <| report := summary_ |>
       <| user_selected := Nat.min (user_selected a) (length (by_principal summary_) - 1) |>)).

Lemma recount_run a :
  match summarize (held a) with
  | Done s => ∃ a', recount a = (Done (), a') ∧ held a' = held a ∧ report a' = s ∧ tail a' = tail a ∧ quit a' = quit a
      ∧ summed a' ∧ anchored a'
  | Panicked => recount a = (Panicked, a)
  end.
Proof.
  unfold recount, mbind, M_mbind, get_state, on_app, modify. destruct (summarize (held a)) as [s|] eqn:Es; [|done].
  exists (resolve_selection (a <| report := s |>
    <| user_selected := Nat.min (user_selected a) (length (by_principal s) - 1) |>)).
  split_and!; [done..| |apply resolve_anchored]. split; [exact Es|]. apply row_min.
Qed.

(** What is absorbed is what a caller of the tail holds; the rows stay what they were, or are found again. *)
Lemma absorb_run appended a :
  summed a →
  match summarize (held_after (held a) appended) with
  | Done s => ∃ a', absorb appended a = (Done (), a') ∧ held a' = held_after (held a) appended ∧ report a' = s
      ∧ tail a' = tail a ∧ quit a' = quit a ∧ summed a' ∧ (anchored a → anchored a')
  | Panicked => ∃ a', absorb appended a = (Panicked, a')
  end.
Proof.
  intros [Hsum Hu]. unfold absorb, held_after.
  destruct (restarted appended); [|destruct (bool_decide_reflect (records appended = [])) as [He|He]].
  - set (a1 := a <| held := [] |> <| status := "Log file shrank; reread from the start." |> <| held := records appended |>).
    pose proof (recount_run a1) as H. change (held a1) with (records appended) in H.
    destruct (summarize (records appended)); [destruct H as (a' & E & H1 & H2 & H3 & H4 & H5 & H6)|by exists a1].
    exists a'. by split_and!.
  - rewrite He, app_nil_r, Hsum. by exists a.
  - set (a1 := a <| held := held a ++ records appended |>).
    pose proof (recount_run a1) as H. change (held a1) with (held a ++ records appended) in H.
    destruct (summarize (held a ++ records appended)); [destruct H as (a' & E & H1 & H2 & H3 & H4 & H5 & H6)|by exists a1].
    exists a'. by split_and!.
Qed.

(** Whatever a poll meets, a refresh that does not panic leaves a coherent state. *)
Lemma refresh_coherent files faults a :
  coherent a → ∃ o a', refresh from_slice files faults a = (o, a') ∧ (o = Done () → coherent a').
Proof.
  intros [Hs Ha]. unfold refresh, on_tail, mbind, M_mbind.
  destruct (poll from_slice files faults (tail a)) as [[[appended|error]|] t].
  - set (a1 := a <| tail := t |>). pose proof (absorb_run appended a1 Hs) as H.
    destruct (summarize _) as [s|].
    + destruct H as (a' & E & _ & _ & _ & _ & Hs' & Ha'). exists (Done ()), a'. split; [exact E|]. intros _. split; auto.
    + destruct H as (a' & E). by exists Panicked, a'.
  - eexists _, _. split; [reflexivity|]. by intros _.
  - eexists _, _. split; [reflexivity|done].
Qed.

Lemma handle_coherent code files faults a :
  coherent a → ∃ o a', handle from_slice code files faults a = (o, a') ∧ (o = Done () → coherent a').
Proof.
  intros Hc. destruct (handle_keyed code files faults a) as [(a' & E & _ & H)|E]; [exists (Done ()), a'; auto|].
  rewrite E. unfold reread, mbind, M_mbind. destruct (refresh_coherent files faults a Hc) as (o & a' & E' & H). rewrite E'.
  destruct o as [[]|]; [|by eexists _, _]. eexists _, _. split; [reflexivity|]. intros _. exact (H eq_refl).
Qed.

(** A frame that a coherent state draws. *)
Definition frame_ok (scr : Screen) : Prop :=
  match sc_body scr with
  | UsersBody rows highlighted => match highlighted with Some i => i < length rows | None => rows = [] end
  | RequestsBody rows highlighted details =>
      match highlighted with Some i => i < length rows | None => rows = [] ∧ details = ["no records match"%string] end
  | _ => True
  end.

Lemma draw_ok a scr : coherent a → draw a = Done scr → frame_ok scr.
Proof.
  intros [[_ Hu] [Hr _]]. unfold draw. destruct (view a).
  - intros [= <-]. unfold frame_ok, draw_users. cbn. case_bool_decide as E; [by rewrite E|].
    destruct Hu as [Hu|[? _]]; [by rewrite length_fmap|done].
  - destruct (draw_summary a) eqn:E; [|done]. intros [= <-]. unfold frame_ok. cbn.
    unfold draw_summary in E. destruct (overview_lines _); [|done]. by injection E as <-.
  - by intros [= <-].
  - unfold draw_requests. set (row := Nat.min _ _).
    destruct (match _ with Some _ => _ | None => _ end) as [details|] eqn:E; [|done]. intros [= <-]. unfold frame_ok. cbn.
    case_bool_decide as Ev.
    + rewrite Ev in *. cbn in E. injection E as <-. done.
    + rewrite length_fmap. unfold row. destruct (visible a); [done|cbn; lia].
Qed.

(** ** The loop *)

Definition desk_ok (d : Desk) : Prop := coherent (app d) ∧ Forall frame_ok (frames d).

(** A frame: nothing else changes. *)
Lemma show_frame_run error d :
  show_frame error d = (match draw (app d), error with
                        | Panicked, _ => (Panicked, d)
                        | Done _, Some error => (Done (Err error), d)
                        | Done scr, None => (Done (Ok ()), {| app := app d; frames := frames d ++ [scr] |})
                        end).
Proof. unfold show_frame, mbind, M_mbind, get_state. destruct (draw (app d)), error; done. Qed.

Lemma round_ok r d :
  desk_ok d → ∃ o d', round from_slice r d = (o, d') ∧ Forall frame_ok (frames d') ∧ (o ≠ Panicked → coherent (app d')).
Proof.
  intros [Hc Hf]. unfold round, try_bind. unfold mbind at 1, M_mbind at 1. rewrite show_frame_run.
  destruct (draw (app d)) as [scr|] eqn:Ed; [|by exists Panicked, d].
  destruct (r_draw r) as [error|]; [by exists (Done (Err error)), d|].
  set (d1 := mkDesk _ _).
  assert (Forall frame_ok (frames d1)) as Hf1.
  { apply Forall_app. split; [done|]. constructor; [by eapply draw_ok|constructor]. }
  destruct (r_event r) as [[[code [] control|]|]|error]; [|by exists (Done (Ok ())), d1|by exists (Done (Ok ())), d1| |
    by exists (Done (Err error)), d1].
  - destruct (interrupt control code); [eexists _, _; split; [reflexivity|]; split; [exact Hf1|]; intros _; exact Hc|].
    unfold on_desk, mbind, M_mbind. change (app d1) with (app d).
    destruct (handle_coherent code (r_files r) (r_faults r) (app d) Hc) as (o & a' & E & H). rewrite E.
    destruct o as [[]|]; eexists _, _; (split; [reflexivity|]); split; try done. intros _. by apply H.
  - unfold on_desk, mbind, M_mbind. change (app d1) with (app d).
    destruct (refresh_coherent (r_files r) (r_faults r) (app d) Hc) as (o & a' & E & H). rewrite E.
    destruct o as [[]|]; eexists _, _; (split; [reflexivity|]); split; try done. intros _. by apply H.
Qed.

Lemma run_ok rounds d :
  desk_ok d → ∃ o d', run_explorer from_slice rounds d = (o, d') ∧ Forall frame_ok (frames d')
    ∧ (o ≠ Panicked → coherent (app d')).
Proof.
  revert d. induction rounds as [|r rounds IH]; intros d Hd; cbn [run_explorer]; unfold mbind at 1, M_mbind at 1; cbn [get_state].
  { destruct (quit (app d)); exists (Done (Ok ())), d; by destruct Hd. }
  destruct (quit (app d)); [exists (Done (Ok ())), d; by destruct Hd|].
  destruct (round_ok r d Hd) as (o & d' & E & Hf & Hc). unfold try_bind, mbind, M_mbind. rewrite E.
  destruct o as [[[]|error]|]; [|by eexists _, _|by eexists _, _]. apply IH. split; [|done]. by apply Hc.
Qed.

Lemma new_coherent path_ tail_ records_ a : App_new path_ tail_ records_ = Done a → coherent a.
Proof.
  unfold App_new. destruct (summarize records_) as [s|] eqn:Es; [|done]. intros [= <-].
  split; (split; [|try done]); [exact Es|apply row_zero|apply row_zero].
Qed.

(** ** The selected request *)

(** What is selected and what is shown are asked for as before. *)
Definition same_choice (a a' : App) : Prop :=
  selected_id a' = selected_id a ∧ needle a' = needle a ∧ errors_only a' = errors_only a ∧ chosen a' = chosen a
  ∧ editing_filter a' = editing_filter a.

Lemma same_choice_trans a b c : same_choice a b → same_choice b c → same_choice a c.
Proof. unfold same_choice. intros (?&?&?&?&?) (?&?&?&?&?). split_and!; congruence. Qed.

(** An action that neither selects nor filters, whatever becomes of it. *)
Definition chooses_nothing (m : M App ()) : Prop := ∀ a, same_choice a (m a).2.

Lemma nothing_bind (m : M App ()) (f : () → M App ()) :
  chooses_nothing m → (∀ u, chooses_nothing (f u)) → chooses_nothing (m ≫= f).
Proof.
  intros Hm Hf a. specialize (Hm a). unfold mbind, M_mbind. destruct (m a) as [[u|] a1]; [|exact Hm].
  eapply same_choice_trans; [exact Hm|apply Hf].
Qed.

Lemma nothing_on f : (∀ a, same_choice a (f a)) → chooses_nothing (on_app f).
Proof. intros Hf a. apply Hf. Qed.

Lemma absorb_nothing appended : chooses_nothing (absorb appended).
Proof.
  apply nothing_bind; [by destruct (restarted appended); [apply nothing_on|]|]. intros _.
  destruct (_ || _); [|done]. apply nothing_bind; [by apply nothing_on|]. intros _ a.
  unfold mbind, M_mbind, get_state, on_app, modify. by destruct (summarize (held a)).
Qed.

Lemma refresh_nothing files faults : chooses_nothing (refresh from_slice files faults).
Proof.
  intros a. unfold refresh, on_tail, mbind, M_mbind.
  destruct (poll from_slice files faults (tail a)) as [[[appended|error]|] t]; [|done..].
  apply (same_choice_trans a (a <| tail := t |>)); [done|apply absorb_nothing].
Qed.

(** The keys that change the view, scroll it or read the log, pressed while no filter is typed. *)
Definition watching_keys : list KeyCode :=
  [Char "r"; Tab; Left; Right; Char "h"; Char "l"; Char "1"; Char "2"; Char "3"; Char "4"].

Lemma handle_nothing code files faults a :
  editing_filter a = false → code ∈ watching_keys → same_choice a (handle from_slice code files faults a).2.
Proof.
  intros He Hcode.
  assert (∀ b, same_choice b (reread files faults b).2) as Hread.
  { apply nothing_bind; [apply refresh_nothing|]. intros _. by apply nothing_on. }
  unfold handle, mbind at 1, M_mbind at 1, get_state at 1. rewrite He.
  unfold watching_keys in Hcode. rewrite !elem_of_cons, elem_of_nil in Hcode.
  destruct_or! Hcode; subst code; try done; case_bool_decide; first [exact (Hread a)|done].
Qed.

(** A pass in which nothing is pressed but those keys, or Control-C. *)
Definition watching (typing : bool) (r : Round) : Prop :=
  match r_event r with
  | Ok (Some (Key code true control)) => interrupt control code = true ∨ typing = false ∧ code ∈ watching_keys
  | _ => True
  end.

Lemma round_nothing r d :
  watching (editing_filter (app d)) r → same_choice (app d) (app (round from_slice r d).2).
Proof.
  unfold watching, round, try_bind. intros Hw. unfold mbind at 1, M_mbind at 1. rewrite show_frame_run.
  destruct (draw (app d)) as [scr|]; [|done]. destruct (r_draw r) as [error|]; [done|].
  destruct (r_event r) as [[[code [] control|]|]|error]; try done.
  - destruct (interrupt control code); [done|]. destruct Hw as [?|[Ht Hcode]]; [done|].
    pose proof (handle_nothing code (r_files r) (r_faults r) (app d) Ht Hcode) as H.
    unfold on_desk, mbind, M_mbind. cbn [app]. by destruct (handle _ _ _ _ _) as [[[]|] a'].
  - pose proof (refresh_nothing (r_files r) (r_faults r) (app d)) as H.
    unfold on_desk, mbind, M_mbind. cbn [app]. by destruct (refresh _ _ _ _) as [[[]|] a'].
Qed.


Lemma run_done d rounds : rounds = [] ∨ quit (app d) = true → run_explorer from_slice rounds d = (Done (Ok ()), d).
Proof. intros [->|Hq]; [|destruct rounds]; cbn [run_explorer]; unfold mbind, M_mbind; cbn [get_state]; [by destruct (quit _)|by rewrite Hq|by rewrite Hq]. Qed.

Lemma run_cons r rounds d :
  run_explorer from_slice (r :: rounds) d
  = if quit (app d) then (Done (Ok ()), d)
    else match round from_slice r d with
         | (Done (Ok _), d1) => run_explorer from_slice rounds d1
         | stopped => stopped
         end.
Proof.
  cbn [run_explorer]. unfold mbind at 1, M_mbind at 1. cbn [get_state]. destruct (quit (app d)); [done|].
  unfold try_bind, mbind, M_mbind. by destruct (round from_slice r d) as [[[[]|error]|] d1].
Qed.

Lemma run_nothing rounds d :
  Forall (watching (editing_filter (app d))) rounds → same_choice (app d) (app (run_explorer from_slice rounds d).2).
Proof.
  revert d. induction rounds as [|r rounds IH]; intros d Hw.
  { cbn [run_explorer]. unfold mbind, M_mbind. cbn [get_state]. by destruct (quit (app d)). }
  rewrite run_cons. destruct (quit (app d)); [done|].
  apply Forall_cons in Hw as [Hr Hw]. pose proof (round_nothing r d Hr) as Hs.
  destruct (round from_slice r d) as [[[[]|error]|] d1]; [|done..].
  cbn [snd] in Hs. eapply same_choice_trans; [exact Hs|]. apply IH.
  assert (editing_filter (app d1) = editing_filter (app d)) as -> by apply Hs. exact Hw.
Qed.

Lemma run_split before after d :
  run_explorer from_slice (before ++ after) d
  = match run_explorer from_slice before d with
    | (Done (Ok _), d1) => run_explorer from_slice after d1
    | stopped => stopped
    end.
Proof.
  revert d. induction before as [|r before IH]; intros d.
  - cbn [run_explorer]. unfold mbind, M_mbind. cbn [get_state]. by destruct (quit (app d)).
  - rewrite <- app_comm_cons, !run_cons. destruct (quit (app d)) eqn:Eq; [by rewrite run_done by by right|].
    destruct (round from_slice r d) as [[[[]|error]|] d1]; [apply IH|done..].
Qed.

(** C39: The explorer stays coherent.  Whatever keys are pressed, and whatever happens to the file and to each call of a
    poll, as long as no counting overflows: the summary is the one of exactly the records held, the highlighted
    principal and request exist, and the highlighted request is the selected one if that is shown, and the newest
    otherwise.  Every frame that was shown highlights a row it has, and says that no records match when it has none.
    And from any moment of the run on, as long as nobody presses a key that selects or filters, the selected request
    and the filters stay the same: however many records arrive above it, and though the file is replaced, shrinks or
    cannot be read in between, that request is highlighted whenever it is shown. *)
Theorem explorer_coherent (path_ : string) (tail_ : Tail) (records_ : list LogRecord) (a : App) (rounds : list Round)
    (Ha : App_new path_ tail_ records_ = Done a) :
  ∃ o d, run_explorer from_slice rounds {| app := a; frames := [] |} = (o, d)
    ∧ (o ≠ Panicked → coherent (app d)) ∧ (∀ scr, scr ∈ frames d → frame_ok scr)
    ∧ ∀ before after d1, rounds = before ++ after →
        run_explorer from_slice before {| app := a; frames := [] |} = (Done (Ok ()), d1) →
        Forall (watching (editing_filter (app d1))) after →
        same_choice (app d1) (app d)
        ∧ ∀ id, o ≠ Panicked → selected_id (app d1) = Some id → id ∈ l_request_id <$> visible (app d) →
            l_request_id <$> visible (app d) !! selected (app d) = Some id.
Proof.
  destruct (run_ok rounds {| app := a; frames := [] |}) as (o & d & E & Hf & Hc).
  { split; [by eapply new_coherent|constructor]. }
  exists o, d. split; [done|]. split; [done|]. split; [by apply Forall_forall|].
  intros before after d1 -> Hbefore Hw. rewrite run_split, Hbefore in E.
  pose proof (run_nothing after d1 Hw) as Hs. rewrite E in Hs. split; [exact Hs|].
  intros id Ho Hid Hshown. destruct (Hc Ho) as [_ [_ Hsel]]. destruct Hs as [Hs _]. cbn [snd] in Hs.
  rewrite Hs, Hid in Hsel. by destruct Hsel as [?|[? _]].
Qed.
End Keys.

(** ** A log that is written meanwhile *)

(** The token totals of some records, not saturated. *)
Definition token_total (l : list LogRecord) : N := (foldr N.add 0 (input_of <$> l) + foldr N.add 0 (output_of <$> l))%N.

(** A log that can be drawn: the details of every record, and the totals of all. *)
Definition drawable (l : list LogRecord) : Prop :=
  Forall (λ r, ∃ lines, detail_lines r = Done lines) l ∧ (token_total l <= U64_MAX)%N.

Lemma foldr_add_app l1 l2 : foldr N.add 0%N (l1 ++ l2) = (foldr N.add 0 l1 + foldr N.add 0 l2)%N.
Proof. induction l1 as [|x l1 IH]; simpl; [done|]. rewrite IH. apply N.add_assoc. Qed.

Lemma drawable_prefix l1 l2 : drawable (l1 ++ l2) → drawable l1.
Proof.
  intros [Hf Ht]. apply Forall_app in Hf as [Hf _]. split; [done|]. unfold token_total in *.
  rewrite !fmap_app, !foldr_add_app in Ht. lia.
Qed.

(** Details that can be drawn do not overflow the summary. *)
Lemma details_count r lines : detail_lines r = Done lines → ¬ overflows r.
Proof.
  unfold detail_lines, overflows. destruct (key_line r) as [key|]; [|done].
  destruct (tokens_line r) as [line|] eqn:Et; [|done]. intros _ Ho. revert Et.
  unfold tokens_line, hit_pct, positive, cached_of in *. destruct (l_input_tokens r) as [input|]; [|done].
  destruct (0 <? input)%N; [|done]. destruct (l_cached_tokens r) as [cached|]; cbn [default from_option] in *.
  - unfold id in Ho. by destruct (100 * cached <=? U64_MAX)%N.
  - exfalso. change (100 * 0 <=? U64_MAX)%N with true in Ho. discriminate Ho.
Qed.

Lemma summarize_run l :
  match summarize l with Done s => summarized l s | Panicked => Exists overflows l end.
Proof.
  unfold summarize. pose proof (tally_run _ (openwebui_keys_of l) l [] _ (tallied_start l)) as H.
  destruct (for_each l _ _) as [[[]|] t]; [|done]. by apply tallied_finish, H.
Qed.

Lemma drawable_summary l : drawable l → ∃ s, summarize l = Done s ∧ summarized l s.
Proof.
  intros [Hf _]. pose proof (summarize_run l) as H. destruct (summarize l) as [s|]; [by exists s|].
  exfalso. apply Exists_exists in H as (r & Hin & Ho). apply (proj1 (Forall_forall _ _) Hf) in Hin as [lines Hl].
  by apply details_count in Hl.
Qed.

Lemma visible_held a r : r ∈ visible a → r ∈ held a.
Proof.
  unfold visible, filter_records. rewrite elem_of_reverse. destruct (chosen a); rewrite !elem_of_keep; tauto.
Qed.

Lemma draw_done a : drawable (held a) → summarize (held a) = Done (report a) → ∃ scr, draw a = Done scr.
Proof.
  intros [Hf Ht] Hs. unfold draw. destruct (view a); [by eexists| |by eexists|].
  - unfold draw_summary, overview_lines.
    assert ((s_input_tokens (report a) + s_output_tokens (report a) <=? U64_MAX)%N = true) as ->; [|by eexists].
    pose proof (summarize_run (held a)) as H. rewrite Hs in H. destruct H as [-> _]. apply N.leb_le.
    unfold token_total in Ht. unfold report_of, summary_of. cbn. unfold constant, total. lia.
  - unfold draw_requests. destruct (visible a !! _) as [r|] eqn:Er; [|by eexists].
    apply list_elem_of_lookup_2, visible_held, (proj1 (Forall_forall _ _) Hf) in Er as [lines ->]. by eexists.
Qed.

Section Following.
Context (from_slice : bytes → option LogRecord) (i : N).

(** A pass while the file holds [s], with no faults. *)
Definition calm_round (event : option Event) (s : bytes) : Round :=
  {| r_draw := None; r_event := Ok event; r_files := {| at_path := Some i; content := λ _, s |};
     r_faults := no_poll_faults |}.

(** Each text continues the one before. *)
Fixpoint growing (s : bytes) (l : list bytes) : Prop :=
  match l with [] => True | s' :: l => (∃ more, s' = s ++ more) ∧ growing s' l end.

(** The explorer has read [s] of the file, and shows it. *)
Definition following (a : App) (s : bytes) : Prop :=
  tail_at (tail a) (Some (i, s)) ∧ held a = records_in from_slice s ∧ coherent a.

Lemma drawable_grown s more : drawable (records_in from_slice (s ++ more)) → drawable (records_in from_slice s).
Proof. rewrite (proj1 (records_grow from_slice s more)). apply drawable_prefix. Qed.

Lemma refresh_follows a s more :
  following a s → (N.of_nat (length (s ++ more)) <= U64_MAX)%N → drawable (records_in from_slice (s ++ more)) →
  ∃ a', refresh from_slice {| at_path := Some i; content := λ _, s ++ more |} no_poll_faults a = (Done (), a')
    ∧ following a' (s ++ more) ∧ quit a' = quit a.
Proof.
  intros (Ht & Hh & Hs & Ha) Hlen Hok. set (files := mkFiles _ _).
  destruct (poll_run from_slice files (tail a) (Some (i, s)) (held a) Ht) as (appended & t' & E & Ht' & Hh').
  { unfold next_look. cbn. split; [done|]. right. left. by exists more. }
  { exact Hh. }
  unfold refresh, on_tail, mbind, M_mbind. rewrite E. set (a1 := a <| tail := t' |>).
  pose proof (absorb_run appended a1 Hs) as H. change (held a1) with (held a) in H. rewrite Hh' in H.
  change (records_seen from_slice (seen_after files)) with (records_in from_slice (s ++ more)) in H.
  destruct (drawable_summary _ Hok) as (sm & Esm & _). rewrite Esm in H.
  destruct H as (a' & E' & Hheld & _ & Htail & Hq & Hs' & Ha'). exists a'. split; [exact E'|]. split; [|exact Hq].
  split_and!; [by rewrite Htail|done|]. split; [done|]. by apply Ha'.
Qed.

Lemma same_log_following a a' s : same_log a a' → coherent a' → following a s → following a' s.
Proof. intros (E1 & E2 & E3) Hc (Ht & Hh & _). unfold following. by rewrite E1, E2. Qed.

Lemma round_follows event s more d :
  following (app d) s → (N.of_nat (length (s ++ more)) <= U64_MAX)%N → drawable (records_in from_slice (s ++ more)) →
  ∃ d' s', round from_slice (calm_round event (s ++ more)) d = (Done (Ok ()), d') ∧ following (app d') s'
    ∧ (s' = s ∨ s' = s ++ more) ∧ (event = None → s' = s ++ more).
Proof.
  intros Hl Hlen Hok. pose proof Hl as (_ & Hh & [[Hs _] _]). unfold round, try_bind. unfold mbind at 1, M_mbind at 1.
  rewrite show_frame_run. destruct (draw_done (app d)) as [scr Ed]; [rewrite Hh; by eapply drawable_grown|done|].
  rewrite Ed. cbn [r_draw r_event calm_round r_files r_faults]. set (d1 := mkDesk _ _).
  destruct event as [[code [] control|]|].
  2,3: exists d1, s; split_and!; [done|exact Hl|by left|done].
  2: { destruct (refresh_follows (app d) s more Hl Hlen Hok) as (a' & E & Hl' & _).
       unfold on_desk, mbind, M_mbind. change (app d1) with (app d). rewrite E.
       eexists _, (s ++ more). split; [reflexivity|]. split; [exact Hl'|]. split; [by right|done]. }
  destruct (interrupt control code).
  { eexists _, s. split; [reflexivity|]. split; [exact Hl|]. split; [by left|done]. }
  unfold on_desk, mbind, M_mbind. change (app d1) with (app d). set (files := mkFiles _ _).
  destruct (handle_keyed from_slice code files no_poll_faults (app d)) as [(a' & E & Hsame & Hc)|E]; rewrite E.
  - eexists _, s. split; [reflexivity|]. split; [|split; [by left|done]].
    cbn. eapply same_log_following; [done| |done]. by apply Hc, Hl.
  - destruct (refresh_follows (app d) s more Hl Hlen Hok) as (a' & E' & Hl' & _).
    unfold reread, mbind, M_mbind. fold files in E'. rewrite E'.
    eexists _, (s ++ more). split; [reflexivity|]. split; [exact Hl'|]. split; [by right|done].
Qed.

(** What the file holds in the end. *)
Definition final (s : bytes) (l : list bytes) : bytes := default s (last l).

Lemma growing_final s l : growing s l → ∃ more, final s l = s ++ more.
Proof.
  revert s. induction l as [|s' l IH]; intros s Hg; [exists []; by rewrite app_nil_r|].
  destruct Hg as [[more ->] Hg]. destruct (IH _ Hg) as [more' E]. exists (more ++ more'). rewrite app_assoc, <- E.
  unfold final. destruct l as [|s2 l]; [done|]. change (last ((s ++ more) :: s2 :: l)) with (last (s2 :: l)).
  by destruct (last (s2 :: l)) eqn:El; [|apply last_None in El].
Qed.

Lemma final_cons s s' l : final s (s' :: l) = final s' l.
Proof.
  unfold final. destruct l as [|s2 l]; [done|]. change (last (s' :: s2 :: l)) with (last (s2 :: l)).
  by destruct (last (s2 :: l)) eqn:El; [|apply last_None in El].
Qed.


Lemma run_follows steps : ∀ d s c,
  following (app d) s → (∃ more, c = s ++ more) → growing c steps.*2 →
  (N.of_nat (length (final c steps.*2)) <= U64_MAX)%N → drawable (records_in from_slice (final c steps.*2)) →
  ∃ d' s', run_explorer from_slice (uncurry calm_round <$> steps) d = (Done (Ok ()), d') ∧ following (app d') s'
    ∧ s' ∈ s :: steps.*2 ∧ (quit (app d') = false → last steps.*1 = Some None → s' = final c steps.*2).
Proof.
  induction steps as [|[event c'] steps IH]; intros d s c Hl [more ->] Hg Hlen Hok.
  { exists d, s. split; [by apply run_done; left|]. split; [done|]. split; [by left|done]. }
  destruct (quit (app d)) eqn:Hq.
  { exists d, s. split; [apply run_done; by right|]. split; [done|]. split; [by left|]. by rewrite Hq. }
  change (((event, c') :: steps).*2) with (c' :: steps.*2) in *. change (((event, c') :: steps).*1) with (event :: steps.*1) in *.
  change (uncurry calm_round <$> (event, c') :: steps) with (calm_round event c' :: (uncurry calm_round <$> steps)).
  rewrite final_cons in *. destruct Hg as [[more' ->] Hg].
  rewrite <- (app_assoc s more more') in *. set (grown := more ++ more') in *.
  destruct (growing_final _ _ Hg) as [rest Er].
  destruct (round_follows event s grown d Hl) as (d1 & s1 & E & Hl1 & Hs1 & Hn1).
  { rewrite Er, length_app in Hlen. lia. }
  { rewrite Er in Hok. by eapply drawable_grown. }
  assert (run_explorer from_slice (calm_round event (s ++ grown) :: (uncurry calm_round <$> steps)) d
          = run_explorer from_slice (uncurry calm_round <$> steps) d1) as ->.
  { cbn [run_explorer]. unfold try_bind, mbind, M_mbind. cbn [get_state]. by rewrite Hq, E. }
  destruct (IH d1 s1 (s ++ grown) Hl1) as (d' & s' & E' & Hl' & Hin & Hlast); [|done..|].
  { destruct Hs1 as [->| ->]; [by exists grown|exists []; by rewrite app_nil_r]. }
  exists d', s'. split; [done|]. split; [done|]. split.
  { destruct Hs1 as [->| ->]; [|by right]. apply elem_of_cons in Hin as [->|Hin]; [by left|right; by right]. }
  intros Hq' Hev. destruct steps as [|step steps].
  - cbn in Hev. injection Hev as ->. rewrite run_done in E' by by left. injection E' as <-.
    cbn in Hin. apply list_elem_of_singleton in Hin as ->. by apply Hn1.
  - apply Hlast; [done|]. exact Hev.
Qed.

(** C31: The explorer follows the log.  While the proxy appends to the file, in any pieces, and whatever keys are pressed
    meanwhile, the explorer keeps running: it never panics and never fails, as long as the details and the token totals
    of the log can be written as numbers.  What it holds is at all times the records of the complete lines of the file
    as it was at one of the moments of the run, once each and in order, with their summary; and when the last thing
    that happened is the end of an interval, that is the whole file. *)
Theorem explorer_follows (path_ : string) (s0 : bytes) (t0 : Tail) (steps : list (option Event * bytes))
    (Ht : tail_at t0 (Some (i, s0))) (Hgrow : growing s0 steps.*2)
    (Hlen : (N.of_nat (length (final s0 steps.*2)) <= U64_MAX)%N)
    (Hok : drawable (records_in from_slice (final s0 steps.*2))) :
  ∃ a d s, App_new path_ t0 (records_in from_slice s0) = Done a
    ∧ run_explorer from_slice (uncurry calm_round <$> steps) {| app := a; frames := [] |} = (Done (Ok ()), d)
    ∧ s ∈ s0 :: steps.*2 ∧ held (app d) = records_in from_slice s ∧ summarized (held (app d)) (report (app d))
    ∧ (quit (app d) = false → last steps.*1 = Some None → s = final s0 steps.*2).
Proof.
  destruct (growing_final _ _ Hgrow) as [rest Er].
  destruct (drawable_summary (records_in from_slice s0)) as (sm & Esm & _).
  { rewrite Er in Hok. by eapply drawable_grown. }
  assert (∃ a, App_new path_ t0 (records_in from_slice s0) = Done a ∧ tail a = t0 ∧ held a = records_in from_slice s0)
    as (a & Ea & Etail & Eheld) by (unfold App_new; rewrite Esm; by eexists).
  destruct (run_follows steps {| app := a; frames := [] |} s0 s0) as (d & s & E & (Htail & Hheld & Hc) & Hin & Hlast); [|
    exists []; by rewrite app_nil_r|done..|].
  { split_and!; cbn [app]; [by rewrite Etail|done|by eapply new_coherent]. }
  exists a, d, s. split_and!; [done..| |done].
  pose proof (summarize_run (held (app d))) as H. destruct Hc as [[Hs _] _]. by rewrite Hs in H.
Qed.
End Following.

(** ** Examples *)

Definition demo_tail : Tail := Tail_new <| t_file := Some {| inode := 1; cursor := 0 |} |>.

Definition demo_press (code : KeyCode) : option Event := Some (Key code true false).

(** Half a record, then the requests view, the rest of it, and another one. *)
Definition demo_steps : list (option Event * bytes) :=
  [(None, bs "{a"); (demo_press (Char "4"), bs "{a"); (None, bs "{a}" ++ [LF]); (demo_press Down, bs "{a}" ++ [LF]);
   (None, bs "{a}" ++ LF :: bs "{b}" ++ [LF])].

Definition demo_record (id_ : string) : LogRecord := LogRecord_default <| l_request_id := id_ |>.

Lemma demo_final : records_in demo_slice (final [] demo_steps.*2) = [demo_record "{a}"; demo_record "{b}"].
Proof. vm_compute. reflexivity. Qed.

Lemma explorer_follows_witness :
  ∃ a d, App_new "proxy.jsonl" demo_tail [] = Done a
    ∧ run_explorer demo_slice (uncurry (calm_round 1) <$> demo_steps) {| app := a; frames := [] |} = (Done (Ok ()), d)
    ∧ held (app d) = [demo_record "{a}"; demo_record "{b}"] ∧ selected (app d) = 1.
Proof.
  destruct (explorer_follows demo_slice 1 "proxy.jsonl" [] demo_tail demo_steps) as (a & d & s & Ha & Hrun & _ & Hheld & _ & Hs).
  - by split_and!.
  - cbn. split_and!; [by eexists|exists []; vm_compute; reflexivity|by eexists|exists []; vm_compute; reflexivity| |exact I].
    by eexists.
  - vm_compute. discriminate.
  - split; [|vm_compute; discriminate]. rewrite demo_final.
    apply Forall_cons. split; [eexists; vm_compute; reflexivity|].
    apply Forall_cons. split; [eexists; vm_compute; reflexivity|apply Forall_nil; exact I].
  - exists a, d. split; [exact Ha|]. split; [exact Hrun|].
    assert (quit (app d) = false ∧ selected (app d) = 1) as [Hq Hsel].
    { revert Hrun. injection Ha as <-. intros Hrun.
      assert (quit (app (@Done (result IoError ()) (Ok ()), d).2) = false
              ∧ selected (app (@Done (result IoError ()) (Ok ()), d).2) = 1) as H; [|exact H].
      rewrite <- Hrun. vm_compute. split; reflexivity. }
    split; [|exact Hsel]. rewrite Hheld, (Hs Hq eq_refl). exact demo_final.
Defined.

(** Two requests, of which the older one is selected; then a poll that fails, another view, and a third request. *)
Definition demo_select : list Round :=
  [mkRound None (Ok None) (demo_file 1 (bs "{a}" ++ LF :: bs "{b}" ++ [LF])) no_poll_faults;
   mkRound None (Ok (demo_press (Char "4"))) (demo_file 1 []) no_poll_faults;
   mkRound None (Ok (demo_press Down)) (demo_file 1 []) no_poll_faults].

Definition demo_watch : list Round :=
  [mkRound None (Ok None) (demo_file 1 []) (length_fails {| kind := OtherKind; io_message := "no" |});
   mkRound None (Ok (demo_press (Char "2"))) (demo_file 1 []) no_poll_faults;
   mkRound None (Ok None) (demo_file 1 (bs "{a}" ++ LF :: bs "{b}" ++ LF :: bs "{c}" ++ [LF])) no_poll_faults].

Lemma explorer_coherent_witness :
  ∃ a d, App_new "proxy.jsonl" Tail_new [] = Done a
    ∧ run_explorer demo_slice (demo_select ++ demo_watch) {| app := a; frames := [] |} = (Done (Ok ()), d)
    ∧ coherent (app d) ∧ selected (app d) = 2 ∧ l_request_id <$> visible (app d) !! selected (app d) = Some "{a}"%string.
Proof.
  assert (∃ a, App_new "proxy.jsonl" Tail_new [] = Done a) as [a Ha] by (eexists; vm_compute; reflexivity).
  destruct (explorer_coherent demo_slice "proxy.jsonl" Tail_new [] a (demo_select ++ demo_watch) Ha)
    as (o & d & Hrun & Hc & _ & Hwatch).
  assert (o = Done (Ok ()) ∧ selected (app d) = 2 ∧ l_request_id <$> visible (app d) = ["{c}"; "{b}"; "{a}"]%string)
    as (-> & Hsel & Hshown).
  { revert Hrun. injection Ha as <-. intros Hrun.
    assert ((o, d).1 = Done (Ok ()) ∧ selected (app (o, d).2) = 2
            ∧ l_request_id <$> visible (app (o, d).2) = ["{c}"; "{b}"; "{a}"]%string) as H; [|exact H].
    rewrite <- Hrun. vm_compute. split_and!; reflexivity. }
  exists a, d. split; [exact Ha|]. split; [exact Hrun|]. split; [by apply Hc|]. split; [exact Hsel|].
  assert (∃ d1, run_explorer demo_slice demo_select {| app := a; frames := [] |} = (Done (Ok ()), d1)
    ∧ selected_id (app d1) = Some "{a}"%string ∧ editing_filter (app d1) = false) as (d1 & Hbefore & Hid & Hedit).
  { injection Ha as <-. eexists. split; [vm_compute; reflexivity|]. split; reflexivity. }
  destruct (Hwatch demo_select demo_watch d1 eq_refl Hbefore) as [_ Hkept].
  - rewrite Hedit. unfold demo_watch, watching. repeat (constructor; [try exact I|]); [|constructor].
    right. split; [done|]. unfold watching_keys. rewrite !elem_of_cons. tauto.
  - apply (Hkept "{a}"%string); [done|exact Hid|]. rewrite Hshown, !elem_of_cons. tauto.
Defined.

(** Until a key selects a row, a refresh does not keep the highlighted record highlighted. *)
Example first_row_moves :
  let shown (a : App) := l_request_id <$> visible a !! selected a in
  match App_new "proxy.jsonl" demo_tail [] with
  | Done a =>
      let a1 := (refresh demo_slice (demo_file 1 (bs "{a}" ++ [LF])) no_poll_faults a).2 in
      let a2 := (refresh demo_slice (demo_file 1 (bs "{a}" ++ LF :: bs "{b}" ++ [LF])) no_poll_faults a1).2 in
      shown a1 = Some "{a}"%string ∧ shown a2 = Some "{b}"%string
  | Panicked => False
  end.
Proof. vm_compute. split; reflexivity. Qed.

(** A path is cut to 27 characters, with an ellipsis, for a column of 24. *)
Example endpoint_clipped :
  let cells := (request_cells ∅ (LogRecord_default <| l_uri := "/v1/chat/completions/and/more" |>)).1 in
  chars (default EmptyString (cells !! 2)) = 27 ∧ (request_columns !! 2) = Some ("ENDPOINT"%string, 24).
Proof. vm_compute. split; reflexivity. Qed.

(** A digest whose sixteenth byte is inside a character panics when its record is drawn. *)
Example digest_panics :
  detail_lines (LogRecord_default <| l_key_name := Some "k"%string |>
    <| l_key_sha256 := Some ("0123456789abcde" +:+ "é")%string |>) = Panicked.
Proof. vm_compute. reflexivity. Qed.

Example clock_cases :
  clock "2026-01-02T03:04:05.678Z" = "03:04:05.678"%string ∧ clock "never" = "never"%string
  ∧ pop_char (bs "aé") = bs "a" ∧ pop_char [] = [].
Proof. vm_compute. done. Qed.
