(* ===== verification/Socket.v ===== *)
(** * The control socket: [src/src/control.rs] and [src/src/main.rs]

    The path of the control socket, the sockets other processes listen on, and
    the calls [serve] makes on them: [bind_control_socket] before it starts and
    [OwnedControlSocket] when it ends.  Every call may fail, and other
    processes may change the path just before it ([World]).  The theorems say
    which nodes these calls may remove. *)

From S2P Require Import Prelude RustStd Disk.

(** ** The path and its calls *)

Inductive FileType := FtSocket | FtFile | FtDirectory.

#[export] Instance FileType_eq_dec : EqDecision FileType.
Proof. solve_decision. Defined.

(** What a path names: a node on a device, its type and permission bits. *)
Record Node := mkNode { identity : N * N; file_type : FileType; permissions : N }.

(** The path of the control socket, and the nodes some process listens on. *)
Record Place := mkPlace { entry : option Node; listening : gset (N * N) }.

Inductive SocketCall :=
  CreateParent | StatPath | ConnectPath | RemoveStale | BindPath | StatBound | SetMode | StatOwned
| StatDropped | RemoveOwned.

(** Which calls fail, what other processes do just before each, and the node a bind creates. *)
Record World := mkWorld {
  refuses : SocketCall → option IoError;
  others : SocketCall → Place → Place;
  created : N * N;
}.

(** No other process touches the path or its listeners. *)
Definition undisturbed (w : World) : Prop := ∀ call s, others w call s = s.

Definition syscall {A} (w : World) (call : SocketCall) (effect : Place → result IoError A * Place) :
    M Place (result IoError A) :=
  λ s, let s := others w call s in
       match refuses w call with
       | Some error => (Done (Err error), s)
       | None => let '(r, s) := effect s in (Done r, s)
       end.

Definition io_error {A} (kind : ErrorKind) (message : string) : result IoError A :=
  Err {| kind := kind; io_message := message |}.

Definition no_entry {A} : result IoError A := io_error NotFound "No such file or directory (os error 2)".

(** [fs::symlink_metadata(path)], and [fs::metadata] of what is not a link. *)
Definition symlink_metadata (s : Place) : result IoError Node * Place :=
  (match entry s with Some node => Ok node | None => no_entry end, s).

(** [UnixStream::connect(path)]: the connection is closed again at once. *)
Definition connect (s : Place) : result IoError () * Place :=
  (match entry s with
   | None => no_entry
   | Some node =>
       if bool_decide (file_type node = FtSocket) && bool_decide (identity node ∈ listening s)
       then Ok () else io_error ConnectionRefused "Connection refused (os error 111)"
   end, s).

(** [fs::remove_file(path)] *)
Definition remove_file (s : Place) : result IoError () * Place :=
  match entry s with
  | None => (no_entry, s)
  | Some node =>
      if bool_decide (file_type node = FtDirectory)
      then (io_error OtherKind "Is a directory (os error 21)", s)
      else (Ok (), {| entry := None; listening := listening s |})
  end.

(** [UnixListener::bind(path)], with [umask] applied to the new node. *)
Definition bind (created : N * N) (umask : N) (s : Place) : result IoError () * Place :=
  match entry s with
  | Some _ => (io_error AddrInUse "Address already in use (os error 98)", s)
  | None =>
      (Ok (), {| entry := Some {| identity := created; file_type := FtSocket;
                                  permissions := N.ldiff 511 umask |};
                 listening := {[ created ]} ∪ listening s |})
  end.

(** [fs::set_permissions(path, permissions)] *)
Definition set_permissions (mode : N) (s : Place) : result IoError () * Place :=
  match entry s with
  | None => (no_entry, s)
  | Some node =>
      (Ok (), {| entry := Some {| identity := identity node; file_type := file_type node;
                                  permissions := mode |};
                 listening := listening s |})
  end.

(** ** The program *)

(** 0o660 *)
Definition SOCKET_MODE : N := 432.

(** src/src/control.rs, lines 823-855 of [bind_control_socket]: a socket nobody listens on is removed *)
Definition clear_path (w : World) (path : string) : M Place (result IoError ()) :=
  found ← syscall w StatPath symlink_metadata;
  match found with
  | Ok node =>
      if negb (bool_decide (file_type node = FtSocket))
      then mret (io_error AlreadyExists
                   ("control socket path " +:+ path +:+ " exists and is not a socket"))
      else
        connected ← syscall w ConnectPath connect;
        match connected with
        | Ok _ => mret (io_error AddrInUse ("a control server is already listening at " +:+ path))
        | Err error =>
            if bool_decide (kind error = ConnectionRefused) || bool_decide (kind error = NotFound)
            then syscall w RemoveStale remove_file
            else mret (Err error)
        end
  | Err error => if bool_decide (kind error = NotFound) then mret (Ok ()) else mret (Err error)
  end.

(** src/src/control.rs:816-862 [bind_control_socket]; [parent] is [path.parent()] *)
Definition bind_control_socket (w : World) (path : string) (parent : option string) (umask : N) :
    M Place (result IoError ()) :=
  _ ←? match parent with
       | Some parent =>
           if bool_decide (parent = ""%string) then mret (Ok ())
           else syscall w CreateParent (λ s, (Ok (), s))
       | None => mret (Ok ())
       end;
  _ ←? clear_path w path;
  _ ←? syscall w BindPath (bind (created w) umask);
  _ ←? syscall w StatBound symlink_metadata;
  syscall w SetMode (set_permissions SOCKET_MODE).

(** src/src/main.rs:518-522 [OwnedControlSocket]; [owned] is the device and the inode *)
Record OwnedControlSocket := mkOwned { owned_path : string; owned : N * N }.

(** src/src/main.rs:526-533 [OwnedControlSocket::new] *)
Definition OwnedControlSocket_new (w : World) (path : string) : M Place (result IoError OwnedControlSocket) :=
  metadata ←? syscall w StatOwned symlink_metadata;
  mret (Ok {| owned_path := path; owned := identity metadata |}).

(** src/src/main.rs:537-547 [OwnedControlSocket::Drop] *)
Definition OwnedControlSocket_drop (w : World) (self : OwnedControlSocket) : M Place () :=
  metadata ← syscall w StatDropped symlink_metadata;
  if match metadata with
     | Ok metadata => bool_decide (file_type metadata = FtSocket) && bool_decide (identity metadata = owned self)
     | Err _ => false
     end
  then _ ← syscall w RemoveOwned remove_file; mret () else mret ().

(** ** What the calls may remove *)

(** The path names something that is not a socket, or a socket that is listened on. *)
Definition taken (s : Place) : bool :=
  match entry s with
  | Some node => negb (bool_decide (file_type node = FtSocket)) || bool_decide (identity node ∈ listening s)
  | None => false
  end.

(** The path names the socket of that guard. *)
Definition is_owned (guard : OwnedControlSocket) (s : Place) : bool :=
  match entry s with
  | Some node => bool_decide (file_type node = FtSocket) && bool_decide (identity node = owned guard)
  | None => false
  end.

(** A connection that fails for another reason is not reported as refused. *)
Definition truthful (w : World) : Prop :=
  ∀ error, refuses w ConnectPath = Some error →
    kind error ≠ ConnectionRefused ∧ kind error ≠ NotFound.

Definition bound (w : World) (mode : N) : Node :=
  {| identity := created w; file_type := FtSocket; permissions := mode |}.

Lemma syscall_run {A} w call (effect : Place → result IoError A * Place) s :
  undisturbed w →
  syscall w call effect s =
    match refuses w call with
    | Some error => (Done (Err error), s)
    | None => (Done (effect s).1, (effect s).2)
    end.
Proof.
  intros Hw. unfold syscall. rewrite Hw. destruct (refuses w call); [done|]. by destruct (effect s).
Qed.

Lemma try_bind_run {S E A B} (m : M S (result E A)) (k : A → M S (result E B)) s r s1 :
  m s = (Done r, s1) →
  try_bind m k s = match r with Ok a => k a s1 | Err error => (Done (Err error), s1) end.
Proof. intros Hm. unfold try_bind, mbind, M_mbind. rewrite Hm. by destruct r. Qed.

(** A call whose failure ends the operation. *)
Lemma guarded {A B} w call (effect : Place → result IoError A * Place) (k : A → M Place (result IoError B)) s :
  undisturbed w →
  try_bind (syscall w call effect) k s =
    match refuses w call with
    | Some error => (Done (Err error), s)
    | None => match effect s with
              | (Ok a, s1) => k a s1
              | (Err error, s1) => (Done (Err error), s1)
              end
    end.
Proof.
  intros Hw. unfold try_bind, mbind, M_mbind, mret, M_mret. rewrite syscall_run by done.
  destruct (refuses w call); [done|]. by destruct (effect s) as [[] s1].
Qed.

(** The last three calls of [bind_control_socket]. *)
Lemma bind_tail w umask (s : Place) :
  undisturbed w →
  ∃ r s1, (_ ←? syscall w BindPath (bind (created w) umask);
           _ ←? syscall w StatBound symlink_metadata;
           syscall w SetMode (set_permissions SOCKET_MODE)) s = (Done r, s1)
    ∧ (entry s ≠ None → is_ok r = false ∧ s1 = s)
    ∧ (is_ok r = true →
       s1 = {| entry := Some (bound w SOCKET_MODE); listening := {[ created w ]} ∪ listening s |}).
Proof.
  intros Hw. rewrite guarded by done. destruct (refuses w BindPath); [by eexists _, _|].
  unfold bind. destruct (entry s); simpl; [by eexists _, _|]. rewrite guarded by done.
  destruct (refuses w StatBound); [by eexists _, _|]. simpl. rewrite syscall_run by done.
  destruct (refuses w SetMode); by eexists _, _.
Qed.

(** Clearing the path: a stale socket goes, what is [taken] stays. *)
Lemma clear_run w path (s : Place) :
  undisturbed w → truthful w →
  ∃ r s1, clear_path w path s = (Done r, s1)
    ∧ listening s1 = listening s ∧ (taken s = true → s1 = s).
Proof.
  intros Hw Ht. unfold clear_path. cbv [mbind M_mbind]. rewrite syscall_run by done.
  destruct (refuses w StatPath) as [error|]; simpl; [case_bool_decide; by eexists _, _|].
  unfold taken. destruct (entry s) as [node|] eqn:Es; simpl; [|by eexists _, _].
  case_bool_decide as Hty; simpl; [|by eexists _, _]. rewrite syscall_run by done. unfold connect. rewrite Es.
  destruct (refuses w ConnectPath) as [error|] eqn:Ec; simpl.
  { destruct (Ht _ Ec). rewrite !bool_decide_false by done. by eexists _, _. }
  rewrite bool_decide_true by done. simpl. case_bool_decide; simpl; [by eexists _, _|].
  rewrite syscall_run by done. destruct (refuses w RemoveStale); simpl; [by eexists _, _|].
  unfold remove_file. rewrite Es, Hty, bool_decide_false by done. by eexists _, _.
Qed.

Lemma bind_run w path parent umask (s : Place) :
  undisturbed w → truthful w →
  ∃ r s1, bind_control_socket w path parent umask s = (Done r, s1)
    ∧ (taken s = true → is_ok r = false ∧ s1 = s)
    ∧ (is_ok r = true →
       s1 = {| entry := Some (bound w SOCKET_MODE); listening := {[ created w ]} ∪ listening s |}).
Proof.
  intros Hw Ht. unfold bind_control_socket.
  assert (∃ r, match parent with
    | Some parent => if bool_decide (parent = ""%string) then mret (Ok ())
                     else syscall w CreateParent (λ s, (Ok (), s))
    | None => mret (Ok ())
    end s = (Done r, s)) as [r Hp].
  { destruct parent as [p|]; [|by eexists]. case_bool_decide; [by eexists|]. rewrite syscall_run by done.
    destruct (refuses w CreateParent); by eexists. }
  rewrite (try_bind_run _ _ _ _ _ Hp). destruct r as [[]|error]; [|by eexists _, _].
  destruct (clear_run w path s Hw Ht) as (r & s1 & Hc & Hl & Hsame).
  rewrite (try_bind_run _ _ _ _ _ Hc). destruct r as [[]|error]; [|eexists _, _; split; [done|]; naive_solver].
  destruct (bind_tail w umask s1 Hw) as (r & s2 & Hb & Hin & Hok).
  exists r, s2. split; [exact Hb|]. rewrite <- Hl. split; [|done]. intros Hst.
  rewrite (Hsame Hst) in *. apply Hin. unfold taken in Hst. by destruct (entry s).
Qed.

Lemma drop_run w guard (s : Place) :
  undisturbed w →
  OwnedControlSocket_drop w guard s
  = (Done (), if is_owned guard s && bool_decide (refuses w StatDropped = None)
                 && bool_decide (refuses w RemoveOwned = None)
              then {| entry := None; listening := listening s |} else s).
Proof.
  intros Hw. unfold OwnedControlSocket_drop, mbind, M_mbind. rewrite syscall_run by done.
  unfold is_owned. destruct (refuses w StatDropped); simpl; [by rewrite andb_false_r|].
  rewrite andb_true_r. destruct (entry s) as [node|] eqn:Es; simpl; [|done].
  destruct (bool_decide _ && bool_decide _) eqn:Eo; simpl; [|done].
  rewrite syscall_run by done. destruct (refuses w RemoveOwned); simpl; [done|].
  unfold remove_file. rewrite Es. apply andb_true_iff in Eo as [->%bool_decide_eq_true _].
  by rewrite bool_decide_false.
Qed.

(** C17: the control socket is taken over and given up safely.  Where no other process interferes
    during the calls, and whatever else fails, binding finishes; it refuses a path that
    names something other than a socket, or a socket with a listener, and changes nothing then.  When it
    succeeds the path names the new socket, with mode 0o660 and listened on.  The guard then made for
    the path owns that socket, and when it is dropped, whatever happened to the path meanwhile, it removes
    the node at the path exactly when that node is a socket with the owned identity (unless a call fails), and
    nothing else. *)
Theorem socket_ownership (w : World) (path : string) (parent : option string) (umask : N) (s : Place)
    (meanwhile : Place → Place) :
  undisturbed w → truthful w →
  ∃ r s1, bind_control_socket w path parent umask s = (Done r, s1)
    ∧ (taken s = true → is_ok r = false ∧ s1 = s)
    ∧ (is_ok r = true →
       s1 = {| entry := Some (bound w SOCKET_MODE); listening := {[ created w ]} ∪ listening s |}
       ∧ ∃ g, OwnedControlSocket_new w path s1 = (Done g, s1)
         ∧ ∀ guard, g = Ok guard → owned guard = created w
           ∧ OwnedControlSocket_drop w guard (meanwhile s1)
             = (Done (), if is_owned guard (meanwhile s1)
                            && bool_decide (refuses w StatDropped = None)
                            && bool_decide (refuses w RemoveOwned = None)
                         then {| entry := None; listening := listening (meanwhile s1) |}
                         else meanwhile s1)).
Proof.
  intros Hw Ht.
  destruct (bind_run w path parent umask s Hw Ht) as (r & s1 & Hrun & Htaken & Hok).
  exists r, s1. split; [done|]. split; [done|]. intros Hr. specialize (Hok Hr). split; [done|].
  subst s1. unfold OwnedControlSocket_new. rewrite guarded by done.
  destruct (refuses w StatOwned); simpl; (eexists; split; [reflexivity|]); intros guard; [done|].
  intros [= <-]. split; [done|]. by apply drop_run.
Qed.

(** ** No call panics *)

Definition total {S A} (m : M S A) : Prop := ∀ s, ∃ a s', m s = (Done a, s').

Lemma total_bind {S A B} (m : M S A) (f : A → M S B) : total m → (∀ a, total (f a)) → total (m ≫= f).
Proof.
  intros Hm Hf s. destruct (Hm s) as (a & s1 & H1). destruct (Hf a s1) as (b & s2 & H2).
  exists b, s2. unfold mbind, M_mbind. by rewrite H1.
Qed.

Lemma total_mret {S A} (a : A) : total (S:=S) (mret a).
Proof. intros s. by exists a, s. Qed.

Lemma total_try {S E A B} (m : M S (result E A)) (k : A → M S (result E B)) :
  total m → (∀ a, total (k a)) → total (try_bind m k).
Proof. intros Hm Hk. apply total_bind; [done|]. intros [a|e]; [apply Hk|apply total_mret]. Qed.

Lemma total_syscall {A} w call (effect : Place → result IoError A * Place) : total (syscall w call effect).
Proof.
  intros s. unfold syscall. destruct (refuses w call); [by eexists _, _|].
  destruct (effect _); by eexists _, _.
Qed.

#[export] Hint Resolve total_mret total_syscall total_bind total_try : proxy.

Lemma total_bind_socket w path parent mask : total (bind_control_socket w path parent mask).
Proof.
  apply total_try; [destruct parent; [case_bool_decide|]; auto with proxy|intros _].
  apply total_try; [|intros _; repeat (apply total_try; [auto with proxy|intros ?]); auto with proxy].
  apply total_bind; [auto with proxy|]. intros [node|error]; [|case_bool_decide; auto with proxy].
  destruct (negb _); [auto with proxy|]. apply total_bind; [auto with proxy|].
  intros [[]|error]; [auto with proxy|]. destruct (_ || _); auto with proxy.
Qed.

Lemma total_owned w path : total (OwnedControlSocket_new w path).
Proof. apply total_try; auto with proxy. Qed.

Lemma total_drop w guard : total (OwnedControlSocket_drop w guard).
Proof.
  apply total_bind; [auto with proxy|]. intros metadata. destruct (match metadata with Ok _ => _ | _ => _ end);
    auto with proxy.
Qed.

(** ** Examples *)

(** A world where every call works; the server's socket is node 7. *)
Definition calm : World := {| refuses := λ _, None; others := λ _ s, s; created := (0, 7)%N |}.

Definition stale_socket : Place :=
  {| entry := Some {| identity := (0, 3)%N; file_type := FtSocket; permissions := 432 |}; listening := ∅ |}.

Theorem socket_ownership_witness :
  taken stale_socket = false
  ∧ ∃ s1, bind_control_socket calm "control.sock" (Some "") 18 stale_socket = (Done (Ok ()), s1)
    ∧ entry s1 = Some (bound calm SOCKET_MODE)
    ∧ OwnedControlSocket_drop calm {| owned_path := "control.sock"; owned := (0, 7)%N |} s1
      = (Done (), {| entry := None; listening := listening s1 |}).
Proof.
  split; [vm_compute; reflexivity|].
  destruct (socket_ownership calm "control.sock" (Some "") 18 stale_socket (λ s, s))
    as (r & s1 & Hrun & _ & Hok); [by intros call s|by intros error|].
  assert (is_ok r = true) as Hr.
  { assert (match (bind_control_socket calm "control.sock" (Some "") 18 stale_socket).1 with
            | Done r => is_ok r | Panicked => false end = true) as H by (vm_compute; reflexivity).
    rewrite Hrun in H. exact H. }
  destruct r as [[]|e]; [|discriminate Hr]. exists s1. split; [exact Hrun|].
  destruct (Hok eq_refl) as [E (g & Hg & Hdrop)]. split; [rewrite E; reflexivity|].
  assert (g = Ok {| owned_path := "control.sock"; owned := (0, 7)%N |}) as ->
    by (revert Hg; rewrite E; intros [= <-]; reflexivity).
  destruct (Hdrop _ eq_refl) as [_ Hd]. rewrite Hd, E. reflexivity.
Defined.

(** The stale socket is removed by its path: when another server replaced it after the connection
    was refused, it is that server's socket that goes. *)
Definition racing : World :=
  {| refuses := λ _, None;
     others := λ call s, match call with
       | RemoveStale => {| entry := Some {| identity := (0, 5)%N; file_type := FtSocket; permissions := 432 |};
                           listening := {[ (0, 5)%N ]} |}
       | _ => s
       end;
     created := (0, 7)%N |}.

Example stale_race :
  bind_control_socket racing "control.sock" None 18 stale_socket
  = (Done (Ok ()), {| entry := Some (bound racing SOCKET_MODE);
                      listening := {[ (0, 7)%N; (0, 5)%N ]} |}).
Proof. vm_compute. reflexivity. Qed.
