(* ===== verification/Boot.v ===== *)
(** * The start of the server: [src/src/main.rs] and [src/src/config.rs]

    [load_keys] and the first half of [run]: the configuration, the durable
    fences, the listening sockets, the audit log, the routing state and the
    drains that were under way.  [boot_spec] says that a start never panics
    and what state it leaves; [restart_restores] that a server which comes
    back from the files of an earlier one has every gate as it was.

    Reading a file and opening a socket are inputs ([Startup]); the control
    socket is [Socket.v]'s. *)

From S2P Require Import Prelude RustStd Float64 Disk Usage Keys Auth Logging Socket Telemetry Backend Runtime Routing Selection BackendState Control Fences Drain.

(** src/src/config.rs:160-211 [ServeArgs]; with the fields of [KeysFile] and [ControlSocket] *)
Record ServeArgs := mkServeArgs {
  keys_file : string;
  listen_addr : string;
  runtime_file : string;
  control_socket : string;
  backend_state_file : string;
  connect_timeout_ms : N;
  log_file : string;
  arg_quiet : bool;
}.

(** src/src/config.rs:160-211 [ServeArgs]; the defaults *)
Definition ServeArgs_default : ServeArgs :=
  {| keys_file := "keys.json"; listen_addr := "127.0.0.1:3000"; runtime_file := "runtime.toml";
     control_socket := "control.sock"; backend_state_file := "backend-state.json";
     connect_timeout_ms := 5000; log_file := "proxy.jsonl"; arg_quiet := false |}.

(** src/src/main.rs:66-76 [load_keys] *)
Definition load_keys `{KeyCrypto} `{JsonOps KeyFile} (path : string) (disk : Disk) : result string KeyStore :=
  match from_file path disk with
  | Ok keys => Ok keys
  | Err error =>
      if bool_decide (kind error = NotFound)
      then Err ("no key file at " +:+ path +:+ ". Run `mistralrs_proxy key create <name>` to create one.")
      else Err (io_message error)
  end.

Section Boot.
Context {Uri : Type} `{UriOps Uri} `{JsonOps StateFile} (toml_from_str : string → result string RuntimeFile).

(** What starting meets outside of the process. *)
Record Startup := mkStartup {
  runtime_contents : result string string;
  state_file : Disk;
  tcp_bound : result IoError ();
  local_address : result IoError string;
  socket_world : World;
  socket_parent : option string;
  umask : N;
  log_opened : result IoError ();
  log_secured : result IoError ();
  log_spawned : result IoError ();
}.

(** What the server runs with; the runtime and the routing state of the proxy's handlers are the control
    plane's. *)
Record Serving := mkServing {
  sv_control : ControlState (Uri:=Uri);
  sv_logger : Logger (Uri:=Uri);
  sv_keys : KeyStore;
  sv_guard : OwnedControlSocket;
  sv_local_addr : string;
  sv_quiet : bool;
}.

(** src/src/logging.rs:368-387 [start]; with the spawning of the writer's thread *)
Definition logging_start (path : string) (env : Startup) (now : N) : fallible IoError (Logger (Uri:=Uri)) :=
  _ ← lift_result (if bool_decide (path = "-"%string) then Ok ()
                   else (_ ← log_opened env; log_secured env));
  match start_with_writer now with
  | None => Panicked
  | Some logger => _ ← lift_result (log_spawned env); mret logger
  end.

(** [?] on an [io::Result] in a function that returns a boxed error. *)
Definition boxed {A} (r : result IoError A) : result string A := map_err io_message r.

(** An action on a value the caller owns. *)
Definition run_on {S T A} (m : M T A) (t : T) : M S (A * T) := λ s,
  match m t with
  | (Done a, t) => (Done (a, t), s)
  | (Panicked, _) => (Panicked, s)
  end.

Definition lift_outcome {S A} (o : outcome A) : M S A :=
  match o with Done a => mret a | Panicked => panic end.

(** src/src/main.rs, lines 79-85 of [run]: the state that was stored, and the public listener *)
Definition restored (args : ServeArgs) (env : Startup) (now : N) :
    M Place (result string (RuntimeState (Uri:=Uri) * BackendStateStore * string)) :=
  candidate ←? mret (map_err RuntimeConfigError_display
                      (Runtime.load toml_from_str (runtime_file args) (runtime_contents env)));
  runtime ← lift_outcome (from_config candidate now);
  state ←? mret (boxed (BackendState.load (backend_state_file args) (read_target (state_file env))));
  let store := {| store_path := backend_state_file args; store_state := state; disk := state_file env |} in
  restored ← run_on (restore_modes (modes store) now) runtime;
  _ ←? mret (boxed (tcp_bound env));
  address ←? mret (boxed (local_address env));
  mret (Ok (restored.2, store, address)).

(** src/src/main.rs, lines 101-118 of [run]: the routing state, the control plane and its drains *)
Definition control_of (runtime : RuntimeState (Uri:=Uri)) (store : BackendStateStore)
    (fresh : string → Uuid) (now : N) : M Place ControlState :=
  routing ← lift_outcome (RoutingState_new runtime);
  resumed ← run_on (resume_persisted_drains fresh now) (ControlState_new routing store);
  mret resumed.2.

(** src/src/main.rs, lines 78-118 of [run]: up to the spawning of the workers; leaving after the guard was made
    drops it *)
Definition start (args : ServeArgs) (env : Startup) (keys : KeyStore) (fresh : string → Uuid) (now : N) :
    M Place (result string Serving) :=
  stored ←? restored args env now;
  _ ←? (r ← bind_control_socket (socket_world env) (control_socket args) (socket_parent env) (umask env);
        mret (boxed r));
  guard ←? (r ← OwnedControlSocket_new (socket_world env) (control_socket args); mret (boxed r));
  logger ← lift_outcome (logging_start (log_file args) env now);
  match logger with
  | Err error => _ ← OwnedControlSocket_drop (socket_world env) guard; mret (Err (io_message error))
  | Ok logger =>
      let '(runtime, store, address) := stored in
      control ← control_of runtime store fresh now;
      mret (Ok {| sv_control := control; sv_logger := logger; sv_keys := keys; sv_guard := guard;
                  sv_local_addr := address;
                  sv_quiet := arg_quiet args || bool_decide (log_file args = "-"%string) |})
  end.

(** src/src/main.rs, lines 149-162 of [run]: the line printed when the server listens *)
Definition banner (args : ServeArgs) (sv : Serving) : string :=
  let published := published_runtime (control_runtime (sv_control sv)) in
  let backend_count := N.of_nat (length (backends (config published))) in
  let key_count := len (sv_keys sv) in
  "INFO proxy listening on http://" +:+ sv_local_addr sv +:+ "; control " +:+ control_socket args
  +:+ "; runtime " +:+ runtime_file args +:+ " revision " +:+ to_string (revision published) +:+ "; "
  +:+ to_string backend_count +:+ " backend" +:+ plural backend_count +:+ "; " +:+ to_string key_count
  +:+ " key" +:+ plural key_count +:+ "; audit log " +:+ log_file args.
End Boot.

(** ** What a start leaves *)

Section Booted.
Context {Uri : Type} `{UriLaws Uri} `{JsonOps StateFile} (toml_from_str : string → result string RuntimeFile).
Implicit Types (s : ControlState (Uri:=Uri)) (sv : Serving (Uri:=Uri)).

(** Resuming finishes, and then the drains under way are those there were and those resumed. *)
Lemma resume_run (fresh : string → Uuid) ids now s :
  Inj (=) (=) fresh → runtime_wf (control_runtime s) → filed (operations s) →
  (∀ id, id ∈ ids → operations s !! fresh id = None ∨ running s id) →
  ∃ s', resume_drains ((λ id, (id, fresh id)) <$> ids) now s = (Done (), s')
    ∧ same_gates s s' ∧ ∀ id, running s' id ↔ running s id ∨ id ∈ ids.
Proof.
  intros Hinj. revert s. induction ids as [|id ids IH]; intros s Hwf Hf Hids; simpl.
  { exists s. split; [done|]. split; [done|]. intros i. rewrite elem_of_nil. tauto. }
  destruct (ensure_operation_run id (fresh id) now s Hwf) as (op & s1 & He & Hg & _).
  cbv [mbind M_mbind]. rewrite He. pose proof He as Hr.
  apply ensure_refines in Hr as [[_ Hf1] Hops]; [|apply Hids; left|done].
  assert (∀ i, running s1 i ↔ running s i ∨ i = id) as Hrun1.
  { intros i. destruct Hops as [[Hr ->]|(Hn & Hops & Hd)]; [naive_solver|]. unfold running. rewrite Hops. split.
    - intros (k & o & Hk & Ho). apply lookup_insert_Some in Hk as [[<- <-]|[_ Hk]]; [|left; by exists k, o].
      right. apply drains_true in Hd as [Hd _]. apply drains_true in Ho as [Ho _]. congruence.
    - intros [(k & o & Hk & Ho)| ->].
      + exists k, o. rewrite lookup_insert_ne; [done|congruence].
      + exists (fresh id), op. by rewrite lookup_insert_eq. }
  destruct (IH s1) as (s2 & Hrun & Hg2 & Hr2).
  - by destruct Hg as [-> _].
  - done.
  - intros i Hi. destruct (decide (i = id)) as [->|Hne]; [right; apply Hrun1; by right|].
    destruct (Hids i) as [Hi'|Hi']; [by right| |right; apply Hrun1; by left].
    destruct Hops as [[_ ->]|(Hn & -> & _)]; [by left|left].
    rewrite lookup_insert_ne; [done|]. intros ?%Hinj. congruence.
  - exists s2. split; [done|]. split; [by etrans|]. intros i. rewrite Hr2, Hrun1, elem_of_cons. tauto.
Qed.

(** The identities that are resumed: the registered backends whose gate is draining. *)
Lemma resumed_ids (slots : BackendRegistry) (fresh : string → Uuid) now :
  registry_wf slots →
  ∃ ids, (λ snapshot, (snapshot_id snapshot, fresh (snapshot_id snapshot)))
           <$> filter (λ snapshot, snap_mode snapshot = Draining) (registry_snapshots slots now)
         = (λ id, (id, fresh id)) <$> ids
    ∧ ∀ id, id ∈ ids ↔ ∃ slot, slots !! id = Some slot ∧ registered (state slot) = true
                               ∧ mode (state slot) = Draining.
Proof.
  intros Hwf. exists (snapshot_id <$> filter (λ snapshot, snap_mode snapshot = Draining) (registry_snapshots slots now)).
  split; [by rewrite <- list_fmap_compose|]. intros id. rewrite list_elem_of_fmap. split.
  - intros (snap & -> & [Hm Hs]%list_elem_of_filter). apply snapshots_elem in Hs as (i & slot & Hslot & Hr & ->).
    exists slot. destruct (Hwf i slot Hslot) as [_ Hid].
    assert (snapshot_id (BackendSlot_snapshot slot now) = i) as -> by exact Hid. by split_and!.
  - intros (slot & Hslot & Hr & Hm). destruct (Hwf id slot Hslot) as [_ Hid].
    exists (BackendSlot_snapshot slot now). split; [by rewrite <- Hid|]. apply list_elem_of_filter.
    split; [exact Hm|]. apply snapshots_elem. by exists id, slot.
Qed.
Lemma book_steps_one b b' : rtc book_step b b' → one_running b → one_running b'.
Proof. induction 1; [done|]. intros Hone. eauto using book_step_one. Qed.

Lemma valid_modes (store : BackendStateStore) id :
  state_valid (store_state store) → modes store !! id ≠ Some Active.
Proof.
  intros [_ Hv]. unfold modes. rewrite lookup_fmap. destruct (stored _ !! id) as [b|] eqn:E; [|done].
  intros [= Hm]. by destruct (Hv id b E).
Qed.

(** A server that has just started on that configuration and those fences. *)
Record booted (candidate : RuntimeConfig (Uri:=Uri)) (store : BackendStateStore) s : Prop := {
  bt_inv : control_inv s;
  bt_config : config (published_runtime (control_runtime s)) = candidate;
  bt_revision : revision (published_runtime (control_runtime s)) = 1%N;
  bt_store : state_store s = store;
  bt_slots : ∀ b, b ∈ backends candidate → ∃ slot, control_slots s !! b_id b = Some slot
    ∧ registered (state slot) = true ∧ mode (state slot) = default Active (modes store !! b_id b)
    ∧ spec (state slot) = registry_spec b ∧ leases (state slot) = [];
  bt_filed : filed (operations s);
  bt_one : one_running (book s);
  bt_running : ∀ id, running s id ↔ ∃ slot, control_slots s !! id = Some slot
    ∧ registered (state slot) = true ∧ mode (state slot) = Draining;
  bt_idle : ∀ id slot, control_slots s !! id = Some slot → leases (state slot) = [];
}.

Lemma control_of_run (runtime : RuntimeState (Uri:=Uri)) store fresh now (place : Place) candidate :
  Inj (=) (=) fresh → runtime_wf runtime → state_valid (store_state store) →
  config (published_runtime runtime) = candidate → revision (published_runtime runtime) = 1%N →
  stage 0 ∅ (registry runtime) (λ id, default Active (modes store !! id)) candidate →
  ∃ s, control_of runtime store fresh now place = (Done s, place) ∧ booted candidate store s.
Proof.
  intros Hinj Hwf Hv Hcfg Hrev Hst.
  destruct (instances_spec runtime Hwf) as (l & Hl & _).
  assert (∃ routing, RoutingState_new runtime = Done routing ∧ Routing.runtime routing = runtime)
    as (routing & Hnew & Hrt) by (unfold RoutingState_new; rewrite Hl; by eexists).
  set (s0 := ControlState_new routing store).
  assert (control_runtime s0 = runtime) as Hrt0 by exact Hrt.
  destruct (resumed_ids (registry runtime) fresh now (rw_registry _ Hwf)) as (ids & Hids & Hel).
  destruct (resume_run fresh ids now s0 Hinj) as (s & Hrun & Hg & Hr).
  { by rewrite Hrt0. }
  { apply map_Forall_empty. }
  { intros id _. left. apply lookup_empty. }
  assert (resume_persisted_drains fresh now s0 = (Done (), s)) as Hres.
  { unfold resume_persisted_drains, get_state, mbind, M_mbind.
    change (registry (Routing.runtime (c_routing s0))) with (control_slots s0).
    unfold control_slots. by rewrite Hrt0, Hids. }
  apply resume_refines in Hrun as [Hbook Hfiled]; [|done|apply map_Forall_empty|
    by intros; left; apply lookup_empty].
  exists s. split.
  { unfold control_of, lift_outcome, run_on, mbind, M_mbind, mret, M_mret. rewrite Hnew.
    fold s0. by rewrite Hres. }
  destruct Hg as [Hg1 Hg2]. rewrite Hrt0 in Hg1. simpl in Hg2.
  assert (∀ b, b ∈ backends candidate → ∃ slot, control_slots s !! b_id b = Some slot
    ∧ registered (state slot) = true ∧ mode (state slot) = default Active (modes store !! b_id b)
    ∧ spec (state slot) = registry_spec b ∧ leases (state slot) = []) as Hslots.
  { intros b Hb. unfold control_slots. rewrite Hg1. by apply (stage_slot _ _ _ _ _ Hst). }
  split; try done.
  - split; [by rewrite Hg1|by rewrite Hg2|]. intros id slot Hslot Hreg.
    assert (id ∈ b_id <$> backends candidate) as (b & -> & Hb)%list_elem_of_fmap.
    { rewrite <- Hcfg. apply (rw_members _ Hwf). exists slot. unfold control_slots in Hslot. by rewrite <- Hg1. }
    destruct (Hslots b Hb) as (slot' & Hs' & _ & Hm & _). assert (slot' = slot) as -> by congruence.
    rewrite Hg2, Hm. pose proof (valid_modes store (b_id b) Hv). by destruct (modes store !! b_id b) as [[]|].
  - by rewrite Hg1.
  - by rewrite Hg1.
  - eapply book_steps_one; [exact Hbook|]. intros k1 k2 id Hk. unfold book in Hk. simpl in Hk.
    by rewrite lookup_fmap, lookup_empty in Hk.
  - intros id. rewrite Hr, Hel. unfold control_slots. rewrite Hg1. split; [|tauto].
    intros [(k & o & Hk & _)|?]; [|done]. simpl in Hk. by rewrite lookup_empty in Hk.
  - intros id slot. unfold control_slots. rewrite Hg1. destruct Hst as [Hin Hout].
    destruct (decide (id ∈ b_id <$> backends candidate)) as [(b & -> & Hb)%list_elem_of_fmap|Hid].
    + destruct (Hin b Hb) as (slot' & -> & _ & _ & _ & Hls). intros [= <-]. rewrite Hls.
      unfold leases_before. by rewrite lookup_empty.
    + by rewrite (Hout id Hid), lookup_empty.
Qed.

(** What the configuration file and the state file hold. *)
Definition configured_as (args : ServeArgs) (env : Startup) (candidate : RuntimeConfig (Uri:=Uri)) : Prop :=
  Runtime.load toml_from_str (runtime_file args) (runtime_contents env) = Ok candidate.
Definition fenced_as (args : ServeArgs) (env : Startup) (state : StateFile) : Prop :=
  BackendState.load (backend_state_file args) (read_target (state_file env)) = Ok state.
Definition store_of (args : ServeArgs) (env : Startup) (state : StateFile) : BackendStateStore :=
  {| store_path := backend_state_file args; store_state := state; disk := state_file env |}.

Lemma configured_ids args env candidate :
  configured_as args env candidate → NoDup (b_id <$> backends candidate).
Proof.
  unfold configured_as, Runtime.load. destruct (runtime_contents env) as [contents|]; simpl; [|done].
  unfold parse. destruct (toml_from_str contents) as [file|]; simpl; [|done].
  destruct (negb _); [done|]. case_bool_decide; [done|]. destruct (validate_controls file); simpl; [|done].
  destruct (parse_backends ∅ (file_backends file)) as [l|] eqn:El; simpl; [|done]. intros [= <-].
  simpl. apply parse_backends_Ok in El as (Hall & Hnd & _). by rewrite (configures_ids _ _ Hall).
Qed.

(** The inputs that let the first part of a start through. *)
Definition startable (args : ServeArgs) (env : Startup) : Prop :=
  (∃ candidate, configured_as args env candidate) ∧ (∃ state, fenced_as args env state)
  ∧ is_ok (tcp_bound env) = true ∧ is_ok (local_address env) = true.

Lemma restored_run args env now (place : Place) :
  (∀ candidate, configured_as args env candidate →
     (1 + N.of_nat (length (backends candidate)) ≤ U64_MAX)%N) →
  ∃ r, restored toml_from_str args env now place = (Done r, place)
    ∧ (startable args env → is_ok r = true)
    ∧ ∀ runtime store address, r = Ok (runtime, store, address) →
        ∃ candidate state, configured_as args env candidate ∧ fenced_as args env state
          ∧ store = store_of args env state ∧ startable args env
          ∧ runtime_wf runtime ∧ config (published_runtime runtime) = candidate
          ∧ revision (published_runtime runtime) = 1%N
          ∧ stage 0 ∅ (registry runtime) (λ id, default Active (modes store !! id)) candidate.
Proof.
  intros Hsize. unfold restored.
  destruct (Runtime.load toml_from_str (runtime_file args) (runtime_contents env)) as [candidate|e] eqn:Ec.
  2:{ eexists. split; [reflexivity|]. split; [|done]. intros [[c Hc] _]. unfold configured_as in Hc. congruence. }
  pose proof (configured_ids args env candidate Ec) as Hnd.
  destruct (from_config_stage candidate now Hnd (Hsize _ Ec)) as (st & Hst & Hwf & Hcfg & Hrev & Hstage).
  erewrite try_bind_run by reflexivity. cbn [map_err]. rewrite Hst. cbv [lift_outcome mbind M_mbind mret M_mret].
  destruct (BackendState.load _ _) as [state|e] eqn:Ef.
  2:{ erewrite try_bind_run by reflexivity. eexists. split; [reflexivity|]. split; [|done].
      intros (_ & [st' Hst'] & _). unfold fenced_as in Hst'. congruence. }
  erewrite try_bind_run by reflexivity. cbn [boxed map_err].
  set (store := {| store_path := backend_state_file args; store_state := state; disk := state_file env |}).
  destruct (restore_modes_run st candidate (modes store) now) as (st' & Hrun & Hwf' & Hpub & Hst'); try done.
  { intros id. apply valid_modes. by eapply load_valid. }
  unfold run_on. rewrite Hrun.
  destruct (tcp_bound env) as [[]|e] eqn:Et; erewrite try_bind_run by reflexivity;
    cbn [boxed map_err]; [|by eexists; split; [reflexivity|]; split; [intros (_ & _ & ? & _); by rewrite Et in *|]].
  destruct (local_address env) as [address|e] eqn:Ea; erewrite try_bind_run by reflexivity;
    cbn [boxed map_err]; [|by eexists; split; [reflexivity|]; split; [intros (_ & _ & _ & ?); by rewrite Ea in *|]].
  eexists. split; [reflexivity|]. split; [done|]. intros rt store' address' [= <- <- <-].
  exists candidate, state. split_and!; try done; cbn [snd].
  - split_and!; [by eexists|by eexists|by rewrite Et|by rewrite Ea].
  - by rewrite Hpub.
  - by rewrite Hpub.
Qed.

(** The branches of a start. *)
Inductive start_branch (args : ServeArgs) (env : Startup) (keys : KeyStore) (now : N) (place : Place) :
    result string (Serving (Uri:=Uri)) → Place → Prop :=
| start_unreadable e : ¬ startable args env → start_branch args env keys now place (Err e) place
| start_unbound e (s1 : Place) :
    bind_control_socket (socket_world env) (control_socket args) (socket_parent env) (umask env) place
      = (Done (Err e), s1) →
    start_branch args env keys now place (Err (io_message e)) s1
| start_unowned e (s1 s2 : Place) :
    bind_control_socket (socket_world env) (control_socket args) (socket_parent env) (umask env) place
      = (Done (Ok ()), s1) →
    OwnedControlSocket_new (socket_world env) (control_socket args) s1 = (Done (Err e), s2) →
    start_branch args env keys now place (Err (io_message e)) s2
| start_unlogged e guard (s1 s2 s3 : Place) :
    bind_control_socket (socket_world env) (control_socket args) (socket_parent env) (umask env) place
      = (Done (Ok ()), s1) →
    OwnedControlSocket_new (socket_world env) (control_socket args) s1 = (Done (Ok guard), s2) →
    logging_start (Uri:=Uri) (log_file args) env now = Done (Err e) →
    OwnedControlSocket_drop (socket_world env) guard s2 = (Done (), s3) →
    start_branch args env keys now place (Err (io_message e)) s3
| start_serving candidate state sv (s1 s2 : Place) :
    startable args env → configured_as args env candidate → fenced_as args env state →
    booted candidate (store_of args env state) (sv_control sv) →
    bind_control_socket (socket_world env) (control_socket args) (socket_parent env) (umask env) place
      = (Done (Ok ()), s1) →
    OwnedControlSocket_new (socket_world env) (control_socket args) s1 = (Done (Ok (sv_guard sv)), s2) →
    logging_start (log_file args) env now = Done (Ok (sv_logger sv)) →
    sv_keys sv = keys →
    start_branch args env keys now place (Ok sv) s2.

Lemma logging_start_total path env now : ∃ r, logging_start (Uri:=Uri) path env now = Done r.
Proof.
  unfold logging_start. generalize (if bool_decide (path = "-"%string) then Ok () else (_ ← log_opened env; log_secured env)).
  intros [[]|e]; [|by eexists]. destruct (log_spawned env); by eexists.
Qed.

Lemma start_runs args env keys fresh now (place : Place) :
  Inj (=) (=) fresh →
  (∀ candidate, configured_as args env candidate →
     (1 + N.of_nat (length (backends candidate)) ≤ U64_MAX)%N) →
  ∃ r (s' : Place), start toml_from_str args env keys fresh now place = (Done r, s')
    ∧ start_branch args env keys now place r s'.
Proof.
  intros Hinj Hsize. unfold start. destruct (restored_run args env now place Hsize) as (r & Hr & Hok & Hst).
  rewrite (try_bind_run _ _ _ _ _ Hr). destruct r as [[[runtime store] address]|e].
  2:{ eexists _, _. split; [reflexivity|]. constructor. intros Hs. by specialize (Hok Hs). }
  destruct (Hst _ _ _ eq_refl) as (candidate & state & Hc & Hf & Hstore & Hs & Hwf & Hcfg & Hrev & Hstage).
  destruct (total_bind_socket (socket_world env) (control_socket args) (socket_parent env) (umask env) place)
    as (b & s1 & Hb).
  erewrite try_bind_run; [|unfold mbind, M_mbind, mret, M_mret; rewrite Hb; reflexivity].
  destruct b as [[]|e]; cbn [boxed map_err]; [|eexists _, _; split; [reflexivity|by apply start_unbound]].
  destruct (total_owned (socket_world env) (control_socket args) s1) as (g & s2 & Hg).
  erewrite try_bind_run; [|unfold mbind, M_mbind, mret, M_mret; rewrite Hg; reflexivity].
  destruct g as [guard|e]; cbn [boxed map_err]; [|eexists _, _; split; [reflexivity|by eapply start_unowned]].
  destruct (logging_start_total (log_file args) env now) as [lg Hlg].
  unfold mbind at 1, M_mbind at 1. rewrite Hlg. cbn [lift_outcome mret M_mret]. destruct lg as [logger|e].
  - destruct (control_of_run runtime store fresh now s2 candidate Hinj Hwf) as (control & Hrun & Hbooted); try done.
    { rewrite Hstore. by eapply load_valid. }
    unfold mbind, M_mbind. rewrite Hrun. eexists _, _. split; [reflexivity|]. subst store.
    by eapply start_serving.
  - destruct (total_drop (socket_world env) guard s2) as ([] & s3 & Hd).
    unfold mbind, M_mbind. rewrite Hd. eexists _, _. split; [reflexivity|]. by eapply start_unlogged.
Qed.

(** A start.  When no configuration overflows the generations, [start] never panics, and it
    ends in one of five ways.  A configuration, state file or listener that is refused ends it
    with the control socket's path untouched; so does, with its error, the binding of the control
    socket or the making of its guard; a log that cannot be opened ends it with the guard dropped.
    Otherwise the server is [booted]: the runtime is the parsed configuration at revision 1,
    every configured backend is registered in its stored mode, active without one, and has no lease,
    gates and fences agree, and exactly the draining backends have a drain under way. *)
Theorem boot_spec (args : ServeArgs) (env : Startup) (keys : KeyStore) (fresh : string → Uuid) (now : N)
    (place : Place) :
  Inj (=) (=) fresh →
  (∀ candidate, configured_as args env candidate →
     (1 + N.of_nat (length (backends candidate)) ≤ U64_MAX)%N) →
  ∃ r (s' : Place), start toml_from_str args env keys fresh now place = (Done r, s')
    ∧ start_branch args env keys now place r s'.
Proof. apply start_runs. Qed.

(** C15: a restart loses no fence.  Take a state of the control plane with its invariant (which every
    reachable state has) whose state file is in step with it, and stop the server there.  A server started again on that file and on the same configuration has every
    backend's gate in the mode it was left in, with no lease, has no other backends, keeps the fences, and has taken up
    again exactly the drains of the draining backends. *)
Theorem restart_restores (before : ControlState (Uri:=Uri)) (args : ServeArgs) (env : Startup) (keys : KeyStore)
    (fresh : string → Uuid) (now : N) (place s' : Place) (sv : Serving) :
  control_inv before → in_sync (state_store before) →
  configured_as args env (config (published_runtime (control_runtime before))) →
  (1 + N.of_nat (length (backends (config (published_runtime (control_runtime before))))) ≤ U64_MAX)%N →
  backend_state_file args = store_path (state_store before) →
  state_file env = disk (state_store before) → Inj (=) (=) fresh →
  start toml_from_str args env keys fresh now place = (Done (Ok sv), s') →
  control_inv (sv_control sv) ∧ state_store (sv_control sv) = state_store before
  ∧ (∀ id slot, control_slots before !! id = Some slot → registered (state slot) = true →
       ∃ slot', control_slots (sv_control sv) !! id = Some slot' ∧ registered (state slot') = true
         ∧ mode (state slot') = mode (state slot) ∧ leases (state slot') = [])
  ∧ (∀ id slot', control_slots (sv_control sv) !! id = Some slot' → registered (state slot') = true →
       ∃ slot, control_slots before !! id = Some slot ∧ registered (state slot) = true)
  ∧ ∀ id, running (sv_control sv) id ↔ ∃ slot, control_slots before !! id = Some slot
      ∧ registered (state slot) = true ∧ mode (state slot) = Draining.
Proof.
  intros Hinv [_ Hsync] Hconf Hsize Hpath Hdisk Hinj Hrun.
  destruct (start_runs args env keys fresh now place Hinj) as (r & s1 & Hrun' & Hbranch).
  { intros c Hc. unfold configured_as in *. rewrite Hconf in Hc. by injection Hc as <-. }
  rewrite Hrun in Hrun'. injection Hrun' as <- <-. inversion Hbranch as [| | | |c st sv0 p1 p2 _ Hc Hf Hb]; subst.
  assert (c = config (published_runtime (control_runtime before))) as ->
    by (unfold configured_as in *; congruence).
  assert (store_of args env st = state_store before) as Hstore.
  { unfold fenced_as in Hf. rewrite Hpath, Hdisk, Hsync in Hf. injection Hf as <-.
    unfold store_of. rewrite Hpath, Hdisk. by destruct (state_store before). }
  rewrite Hstore in Hb. destruct Hb as [Hi Hcfg _ Hst Hslots _ _ Hr _].
  assert (∀ id slot, control_slots before !! id = Some slot → registered (state slot) = true →
       ∃ slot', control_slots (sv_control sv) !! id = Some slot' ∧ registered (state slot') = true
         ∧ mode (state slot') = mode (state slot) ∧ leases (state slot') = []) as Hsame.
  { intros id slot Hs Hreg.
    assert (id ∈ b_id <$> backends (config (published_runtime (control_runtime before)))) as (b & -> & Hb)%list_elem_of_fmap.
    { apply (rw_members _ (ci_runtime _ Hinv)). by exists slot. }
    destruct (Hslots b Hb) as (slot' & ? & ? & Hm & _ & ?). exists slot'. split_and!; try done.
    rewrite Hm, (ci_fenced _ Hinv (b_id b) slot Hs Hreg). by destruct (mode (state slot)). }
  assert (∀ id slot', control_slots (sv_control sv) !! id = Some slot' → registered (state slot') = true →
       ∃ slot, control_slots before !! id = Some slot ∧ registered (state slot) = true) as Hback.
  { intros id slot' Hs Hreg. apply (rw_members _ (ci_runtime _ Hinv)). rewrite <- Hcfg.
    apply (rw_members _ (ci_runtime _ Hi)). by exists slot'. }
  split_and!; try done. intros id. rewrite Hr. split.
  - intros (slot' & Hs & Hreg & Hm). destruct (Hback id slot' Hs Hreg) as (slot & Hs0 & Hreg0).
    destruct (Hsame id slot Hs0 Hreg0) as (slot'' & Hs'' & _ & Hm'' & _). exists slot. split_and!; try done. congruence.
  - intros (slot & Hs & Hreg & Hm). destruct (Hsame id slot Hs Hreg) as (slot' & ? & ? & ? & _).
    exists slot'. split_and!; try done. congruence.
Qed.
End Booted.

(** ** A server that comes back *)

(** The files that [Fences.demo_draining] leaves, and a machine where every call works. *)
Definition demo_startup : Startup :=
  {| runtime_contents := Ok ""; state_file := disk (state_store demo_draining); tcp_bound := Ok ();
     local_address := Ok "127.0.0.1:3000"; socket_world := calm; socket_parent := Some ""; umask := 18;
     log_opened := Ok (); log_secured := Ok (); log_spawned := Ok () |}.

Definition demo_keys : KeyStore :=
  {| index := {| digests := []; identities := [] |}; Auth.writer := None; key_disk := disk_of None |}.

Definition demo_start : outcome (result string (Serving (Uri:=SimpleUri))) * Place :=
  start (λ _, Ok demo_file) ServeArgs_default demo_startup demo_keys (λ id, id) 50 stale_socket.

Lemma demo_configured :
  configured_as (Uri:=SimpleUri) (λ _, Ok demo_file) ServeArgs_default demo_startup demo_config
  ∧ config (published_runtime (control_runtime demo_draining)) = demo_config
  ∧ (1 + N.of_nat (length (backends demo_config)) ≤ U64_MAX)%N.
Proof. split; [|split]; vm_compute; try reflexivity. intros [=]. Qed.

Lemma demo_draining_sync : in_sync (state_store demo_draining).
Proof.
  split; [apply (control_step_inv demo_control); [exact demo_draining_step|exact demo_control_inv]|].
  vm_compute. reflexivity.
Qed.

(** It starts, prints its line, and drains [east] again. *)
Definition demo_served : bool :=
  match demo_start.1 with
  | Done (Ok sv) =>
      String.eqb (banner ServeArgs_default sv)
        "INFO proxy listening on http://127.0.0.1:3000; control control.sock; runtime runtime.toml revision 1; 2 backends; 0 keys; audit log proxy.jsonl"
      && bool_decide ((drains "east") <$> (operations (sv_control sv) !! "east") = Some true)
  | _ => false
  end.

Example demo_serves : demo_served = true.
Proof. vm_compute. reflexivity. Qed.

Theorem boot_spec_witness :
  ∃ r s', demo_start = (Done r, s')
    ∧ start_branch (λ _, Ok demo_file) ServeArgs_default demo_startup demo_keys 50 stale_socket r s'.
Proof.
  apply (boot_spec (λ _, Ok demo_file) ServeArgs_default demo_startup demo_keys (λ id, id) 50 stale_socket).
  - intros x y Hxy. exact Hxy.
  - intros c Hc. destruct demo_configured as (Hd & _ & Hn). unfold configured_as in Hc, Hd.
    rewrite Hd in Hc. injection Hc as <-. exact Hn.
Defined.

Theorem restart_restores_witness :
  ∃ sv s', demo_start = (Done (Ok sv), s') ∧ control_inv (sv_control sv) ∧ running (sv_control sv) "east".
Proof.
  assert (match demo_start.1 with Done (Ok _) => true | _ => false end = true) as Hok
    by (vm_compute; reflexivity).
  destruct demo_start as [[[sv|e]|] s'] eqn:E; try discriminate Hok. exists sv, s'. split; [reflexivity|].
  destruct demo_configured as (Hc & Hcfg & Hn).
  destruct (restart_restores (λ _, Ok demo_file) demo_draining ServeArgs_default demo_startup demo_keys
    (λ id, id) 50 stale_socket s' sv) as (H1 & _ & _ & _ & H5).
  - apply (control_step_inv demo_control); [exact demo_draining_step|exact demo_control_inv].
  - exact demo_draining_sync.
  - rewrite Hcfg. exact Hc.
  - rewrite Hcfg. exact Hn.
  - vm_compute. reflexivity.
  - reflexivity.
  - intros x y Hxy. exact Hxy.
  - exact E.
  - split; [exact H1|]. apply H5.
    assert (match control_slots demo_draining !! "east" with
            | Some slot => registered (state slot) && bool_decide (mode (state slot) = Draining)
            | None => false end = true) as Hm by (vm_compute; reflexivity).
    destruct (control_slots demo_draining !! "east") as [slot|]; [|discriminate Hm].
    exists slot. apply andb_true_iff in Hm as [Hr Hm]. split; [reflexivity|]. split; [exact Hr|].
    apply bool_decide_eq_true in Hm. exact Hm.
Defined.
