(* ===== verification/Life.v ===== *)
(** * A drained backend over the life of the proxy

    [Boot.v] starts a server from its files, [InFlight.v] runs it, and here
    it is also killed, at any moment, and started again ([life_step]).
    [safe_to_stop_lasts] is what an operator who stops a drained backend
    relies on. *)

From S2P Require Import Prelude RustStd Float64 Disk Usage Keys Auth Http Timestamp Logging AuditTrail Pipeline Socket Telemetry Backend Runtime Routing Selection BackendState Control Fences Drain Proxy Leases InFlight Boot.

Section Life.
Context {Uri HeaderMap : Type} `{UriLaws Uri} `{HeaderOps HeaderMap} `{HeaderText}
  `{IntoResponse HeaderMap} `{KeyCrypto} `{JsonLaws StateFile}
  (toml_from_str : string → result string RuntimeFile).
Implicit Types (s : ServerState (Uri:=Uri) (HeaderMap:=HeaderMap)).

(** The server once it has started: no request is at a backend. *)
Definition serving_system (sv : Serving (Uri:=Uri)) : ServerState (Uri:=Uri) (HeaderMap:=HeaderMap) :=
  {| server_control := sv_control sv; server_logger := sv_logger sv; server_keys := sv_keys sv; in_flight := ∅ |}.

(** A server was started on a state file with that content, with whatever else it met: any arguments,
    configuration, keys and listeners. *)
Definition started_on (content : option bytes) s : Prop :=
  ∃ args env keys fresh now place place' sv,
    target (state_file env) = content
    ∧ (∀ candidate, configured_as toml_from_str args env candidate →
         (1 + N.of_nat (length (backends candidate)) ≤ U64_MAX)%N)
    ∧ Inj (=) (=) fresh
    ∧ start toml_from_str args env keys fresh now place = (Done (Ok sv), place')
    ∧ s = serving_system sv.

(** One step; or the process dies, before, during or after one, and another is started on the file it
    leaves. *)
Inductive life_step s s' : Prop :=
| life_on : server_step s s' → life_step s s'
| life_killed s1 content :
    s1 = s ∨ server_step s s1 → content_during (server_store s) (server_store s1) content →
    started_on content s' → life_step s s'.

(** The step is one in which the operator asked for the backend's activation. *)
Definition life_asked (id : string) s s' : Prop :=
  ∃ s1, server_step s s1 ∧ asked id (server_control s) (server_control s1)
    ∧ (s' = s1 ∨ ∃ content, content_during (server_store s) (server_store s1) content ∧ started_on content s').

(** ** A start *)

Lemma started_inv content s :
  started_on content s →
  server_inv s ∧ (∀ id, fenced_in id content → fenced_empty id s).
Proof.
  intros (args & env & keys & fresh & now & place & place' & sv & Ht & Hsize & Hinj & Hrun & ->).
  destruct (start_runs toml_from_str args env keys fresh now place Hinj Hsize) as (r & p & Hrun' & Hbr).
  rewrite Hrun in Hrun'. injection Hrun' as <- <-.
  inversion Hbr as [| | | |c st sv0 p1 p2 _ _ Hf [Hi _ _ Hst _ _ _ _ Hidle]]; subst. split.
  - split; [done| |by apply Forall_nil]. intros id. unfold leases_before, slots_of. simpl.
    destruct (registry (Routing.runtime (c_routing (sv_control sv))) !! id) as [slot|] eqn:E; [|done].
    by rewrite (Hidle id slot E).
  - intros id (path & state' & Hload & Hfen). unfold fenced_as in Hf.
    assert (read_target (disk_of (target (state_file env))) = read_target (state_file env)) as Er by done.
    assert (state' = st) as ->.
    { apply (load_any_path path (backend_state_file args)) in Hload. rewrite Er in Hload. congruence. }
    split; [split|].
    + unfold server_store. simpl. rewrite Hst. unfold modes. simpl. by rewrite lookup_fmap, fmap_is_Some.
    + unfold server_store. simpl. rewrite Hst. simpl. by exists path, st.
    + unfold control_leases, leases_before. simpl.
      destruct (control_slots (sv_control sv) !! id) as [slot|] eqn:E; [|done]. by apply (Hidle id slot).
Qed.

(** ** Its life *)

Lemma life_step_inv s s' : life_step s s' → server_inv s → server_inv s'.
Proof.
  intros [Hstep|s1 content _ _ Hst] Hinv; [by apply (server_step_inv s)|]. by apply started_inv in Hst as [? _].
Qed.

Lemma life_keeps_stopped id s s' :
  server_inv s → life_step s s' → fenced_empty id s → fenced_empty id s' ∨ life_asked id s s'.
Proof.
  intros Hinv [Hstep|s1 content Hs1 Hc Hst] Hs.
  - destruct (step_keeps_stopped id s s' Hinv Hstep Hs) as [[? _]|Hask]; [by left|right].
    exists s'. split_and!; [done|done|by left].
  - destruct Hs1 as [->|Hstep].
    + left. apply started_inv in Hst as [_ Hf]. apply Hf.
      apply (writes_keep_content (λ i, i = id) (server_store s) (server_store s)); [done|apply writes_keep_refl|apply Hs|done].
    + destruct (step_keeps_stopped id s s1 Hinv Hstep Hs) as [[_ Hf]|Hask].
      * left. apply started_inv in Hst as [_ Hfen]. by apply Hfen, Hf.
      * right. exists s1. split_and!; [done|done|right]. by exists content.
Qed.

(** Until the operator asks for it, a stopped backend stays so. *)
Lemma stays_stopped id s s' :
  server_inv s → fenced_empty id s → rtc life_step s s' →
  stopped id s'
  ∨ ∃ s1 s2, rtc life_step s s1 ∧ stopped id s1 ∧ life_asked id s1 s2 ∧ rtc life_step s2 s'.
Proof.
  intros Hinv Hs Hr. induction Hr as [s|s s1 s' Hstep Hr IH]; [left; by apply fenced_empty_stopped|].
  destruct (life_keeps_stopped id s s1 Hinv Hstep Hs) as [Hs1|Hask].
  - destruct IH as [IH|(a & b & Ha & Hst & Hask & Hb)]; [by apply (life_step_inv s)|done|by left|].
    right. exists a, b. split; [by eapply rtc_l|]. done.
  - right. exists s, s1. split_and!; [done|by apply fenced_empty_stopped|done|done].
Qed.

(** C2: what a certified drain is worth.  When the confirmation of a drain under way reports
    [safe_to_stop], its backend is stopped: its fence stands in memory and in the file, its gate is
    closed and no request of the proxy is at it.  And it stays so, after any steps of the operator,
    the drain tasks, reloads, the workers and the requests, and after the process is killed at
    any moment, also while it writes the state file, and started again on that file with any
    configuration, as often as that happens, until the operator asks for the activation of that
    backend.  A run to a state where it is not stopped has a step that asks for it, and it was
    stopped until then: no reload, other drain, rollback, failed update, crash or request sends
    work to an inference server that may have been shut down. *)
Theorem safe_to_stop_lasts s operation observed faults now ux next control o s' :
  server_inv s → gate_room (server_control s) (op_backend_id operation) →
  operations (server_control s) !! op_id operation = Some operation →
  safe_to_stop (progress operation) = false →
  drive_confirm operation observed faults now ux (server_control s) = (Done next, control) →
  operations control !! op_id operation = Some o → safe_to_stop (progress o) = true →
  rtc life_step (with_control s control) s' →
  stopped (op_backend_id operation) (with_control s control)
  ∧ (stopped (op_backend_id operation) s'
     ∨ ∃ s1 s2, rtc life_step (with_control s control) s1 ∧ stopped (op_backend_id operation) s1
         ∧ life_asked (op_backend_id operation) s1 s2 ∧ rtc life_step s2 s').
Proof.
  intros Hinv Hroom Hop Hno Hrun Ho Hsafe Hr.
  assert (server_inv (with_control s control)) as Hinv'
    by by (apply operator_inv; [eapply step_confirm|]).
  enough (fenced_empty (op_backend_id operation) (with_control s control)) as Hs.
  { split; [by apply fenced_empty_stopped|]. by apply stays_stopped. }
  destruct (confirm_run (server_control s) operation observed faults now ux) as (report & c1 & nx & c2 & _ & Hrun' & Hc);
    [apply Hinv|done|].
  rewrite Hrun in Hrun'. injection Hrun' as <- <-.
  destruct (match report with Some st => certifiable operation st | None => false end).
  2:{ destruct Hc as (_ & _ & Hops). rewrite Hops, Hop in Ho. injection Ho as <-. congruence. }
  destruct Hc as (_ & slot & p & _ & _ & _ & Hsh & Hp). unfold shows in Hsh.
  rewrite Hsh, lookup_alter_eq, Hop in Ho. injection Ho as <-. rsimpl. simpl in Hsafe. rewrite Hsafe in Hp.
  destruct Hp as (_ & (slot' & Hs' & _ & Hl') & Hm & _ & Hload).
  assert (modes (state_store control) !! op_backend_id operation = Some Disabled) as Hfence
    by by rewrite Hm, lookup_insert_eq.
  unfold fenced_empty, durable, server_store, control_leases, leases_before. simpl. rewrite Hs', Hfence.
  split_and!; [by eexists| |done]. eexists _, _. split; [exact Hload|].
  unfold modes in Hfence. by rewrite <- (fmap_is_Some pb_mode), <- lookup_fmap, Hfence.
Qed.
End Life.

(** ** A concrete life *)

(** The drain of [east] when its confirmation comes. *)
Definition demo_draining_system : DemoSystem :=
  {| server_control := demo_idle; server_logger := demo_log; server_keys := demo_keystore; in_flight := ∅ |}.

Definition demo_under_way : DrainOperation := default demo_operation (operations demo_idle !! "op-1").

Definition demo_confirmed : ControlState (Uri:=SimpleUri) :=
  (drive_confirm demo_under_way demo_observed no_faults 45 9 demo_idle).2.

Definition demo_certified : bool :=
  match (drive_confirm demo_under_way demo_observed no_faults 45 9 demo_idle).1,
        operations demo_confirmed !! "op-1" with
  | Done _, Some o => safe_to_stop (progress o) && String.eqb (op_id demo_under_way) "op-1"
      && String.eqb (op_backend_id demo_under_way) "east" && negb (safe_to_stop (progress demo_under_way))
      && bool_decide (is_Some (operations demo_idle !! "op-1"))
      && match (demo_dispatch (with_control demo_draining_system demo_confirmed)).1 with Done _ => true | _ => false end
  | _, _ => false
  end.

(** The process is killed, and started again on its state file. *)
Definition demo_env (s : DemoSystem) : Startup :=
  {| runtime_contents := Ok ""; state_file := disk (server_store s); tcp_bound := Ok ();
     local_address := Ok "127.0.0.1:3000"; socket_world := calm; socket_parent := Some ""; umask := 18;
     log_opened := Ok (); log_secured := Ok (); log_spawned := Ok () |}.

Definition demo_restart (s : DemoSystem) : option DemoSystem :=
  match start (λ _, Ok demo_file) ServeArgs_default (demo_env s) demo_keys (λ id, id) 50 stale_socket with
  | (Done (Ok sv), _) => Some (serving_system sv)
  | _ => None
  end.

Lemma demo_restart_step (s s' : DemoSystem) :
  demo_restart s = Some s' → life_step (λ _, Ok demo_file) s s'.
Proof.
  unfold demo_restart. intros Hs.
  destruct (start _ _ _ _ _ _ _) as [[[sv|e]|] place'] eqn:E; [|done..]. injection Hs as <-.
  apply (life_killed _ _ _ s (target (disk (server_store s)))); [by left|left; left|].
  exists ServeArgs_default, (demo_env s), demo_keys, (λ id, id), 50%N, stale_socket, place', sv.
  split_and!; [done| |by intros x y|exact E|done].
  intros c Hc. destruct demo_configured as (Hd & _ & Hn). unfold configured_as in Hc, Hd.
  cbn [demo_env runtime_contents] in Hc. cbn [demo_startup runtime_contents] in Hd.
  rewrite Hd in Hc. injection Hc as <-. exact Hn.
Qed.

(** After it, a request is sent to the other backend and the process is killed. *)
Definition demo_after : DemoSystem := (demo_dispatch (with_control demo_draining_system demo_confirmed)).2.
Definition demo_restarted : DemoSystem := default demo_system (demo_restart demo_after).

Lemma safe_to_stop_lasts_witness :
  stopped "east" (with_control demo_draining_system demo_confirmed)
  ∧ rtc (life_step (λ _, Ok demo_file)) (with_control demo_draining_system demo_confirmed) demo_restarted.
Proof.
  assert (demo_certified = true) as Hc by (vm_compute; reflexivity). unfold demo_certified in Hc.
  destruct (drive_confirm demo_under_way demo_observed no_faults 45 9 demo_idle) as [[next|] control] eqn:Hrun;
    [|discriminate Hc].
  assert (demo_confirmed = control) as Econ by (unfold demo_confirmed; rewrite Hrun; reflexivity).
  cbn [fst] in Hc. destruct (operations demo_confirmed !! "op-1") as [o|] eqn:Ho; [|discriminate Hc].
  repeat (apply andb_true_iff in Hc as [Hc ?]).
  assert (op_id demo_under_way = "op-1") as Eid by by apply String.eqb_eq.
  assert (op_backend_id demo_under_way = "east") as Eback by by apply String.eqb_eq.
  assert (rtc (life_step (λ _, Ok demo_file)) (with_control demo_draining_system demo_confirmed) demo_restarted) as Hr.
  { assert (match demo_restart demo_after with Some _ => true | None => false end = true) as Hs
      by (vm_compute; reflexivity).
    apply (rtc_l _ _ demo_after); [apply life_on, demo_dispatch_step; [reflexivity|assumption]|].
    apply rtc_once, demo_restart_step. unfold demo_restarted.
    destruct (demo_restart demo_after); [reflexivity|discriminate Hs]. }
  split; [|exact Hr].
  destruct (safe_to_stop_lasts (λ _, Ok demo_file) demo_draining_system demo_under_way demo_observed no_faults 45 9 next control o
    demo_restarted) as [Hs _].
  - apply demo_idle_system; [exact demo_idle_inv|]. vm_compute. reflexivity.
  - apply demo_room. vm_compute. reflexivity.
  - rewrite Eid. unfold demo_under_way. cbn [server_control demo_draining_system].
    match goal with Hx : bool_decide _ = true |- _ => apply bool_decide_eq_true in Hx as [x Ex] end.
    rewrite Ex. reflexivity.
  - match goal with Hx : negb ?b = true |- _ => exact (proj1 (negb_true_iff b) Hx) end.
  - exact Hrun.
  - rewrite Eid, <- Econ. exact Ho.
  - exact Hc.
  - rewrite <- Econ. exact Hr.
  - rewrite Eback, <- Econ in Hs. exact Hs.
Defined.

(** A drain that a forced disable ends reports [safe_to_stop] at once, with the request still at the
    backend: [safe_to_stop_lasts] is about the confirmation, which is the only other way to that report. *)
Definition demo_forced : option (bool * nat) :=
  let s := (demo_dispatch demo_system).2 in
  let id := default "" ((λ stage, lease_slot (stage_lease stage)) <$> in_flight s !! "req-1") in
  match (_ ← Control.begin_drain id no_faults "op-1" 20 7;
         _ ← Control.disable id true no_faults 21 8;
         o ← gets (λ c, operations c !! "op-1");
         _ ← drive_observe (default demo_operation o) 22;
         gets (λ c, operations c !! "op-1")) (server_control s) with
  | (Done (Some o), _) => Some (safe_to_stop (progress o), size (requests_at id (in_flight s)))
  | _ => None
  end.

Example forced_not_idle : demo_forced = Some (true, 1%nat).
Proof. vm_compute. reflexivity. Qed.
