(* ===== verification/Serve.v ===== *)
(** * The running and the end of the server: [src/src/main.rs]

    The accept loops with their connection tasks ([Listener], driven by the
    events the scheduler makes ready), the shutdown of a server within its
    grace, and the end of [run] ([wind_down]), which leaves nothing running
    and the audit log flushed or detached. *)

From S2P Require Import Prelude RustStd Disk Socket.

(** What a task that was awaited gave; the outer error is a [JoinError]. *)
Notation Joined A := (result string (result IoError A)).

(** ** Connections *)

(** A connection task: serving, asked to close after its responses, or done. *)
Inductive ConnectionTask := Connected | Closing | Finished (result : result string ()).

(** How the server was rid of a connection task. *)
Inductive Fate := JoinedTask | AbortedTask.

(** A server: the value of the shutdown channel, its [JoinSet], the number of connections it
    accepted, what became of those it no longer holds, and what it printed. *)
Record Listener := mkListener {
  shutdown : bool;
  connections : gmap N ConnectionTask;
  accepted : N;
  fates : gmap N Fate;
  warned : list string;
}.

Definition Listener_new : Listener :=
  {| shutdown := false; connections := ∅; accepted := 0; fates := ∅; warned := [] |}.

(** What becomes ready. *)
Inductive Event :=
| ShutdownSent
| ConnectionEnds (id : N) (ended : result string ())
| ConnectionNoticed (id : N)
| Stopping
| Accepted (connection : result IoError (string * option string))
| JoinReady (id : N)
| JoinEmpty
| GraceOver.

(** src/src/main.rs:506-515 [wait_for_shutdown]: whether it returned; a change is a new value, or [None] when the
    sender is gone *)
Fixpoint wait_for_shutdown (value : bool) (changes : list (option bool)) : bool :=
  if value then true else
  match changes with
  | [] => false
  | None :: _ => true
  | Some value :: changes => wait_for_shutdown value changes
  end.

Definition set_task (id : N) (task : ConnectionTask) : M Listener () :=
  modify (λ s, s <| connections := <[id := task]> (connections s) |>).

Definition warn (quiet : bool) (line : string) : M Listener () :=
  if quiet then mret () else modify (λ s, s <| warned := warned s ++ [line] |>).

(** src/src/main.rs, lines 330-349 of [serve_public]: a connection's task, polled by the event *)
Definition connection_event (event : Event) : M Listener () :=
  s ← get_state;
  match event with
  | ShutdownSent => modify (λ s, s <| shutdown := true |>)
  | ConnectionEnds id ended =>
      match connections s !! id with
      | Some (Connected | Closing) => set_task id (Finished ended)
      | _ => mret ()
      end
  | ConnectionNoticed id =>
      match connections s !! id with
      | Some Connected => if wait_for_shutdown (shutdown s) [] then set_task id Closing else mret ()
      | _ => mret ()
      end
  | _ => mret ()
  end.

(** [JoinSet::spawn] *)
Definition spawn : M Listener () :=
  modify (λ s, s <| connections := <[accepted s := Connected]> (connections s) |> <| accepted := (accepted s + 1)%N |>).

(** [JoinSet::join_next], when it yields that task *)
Definition join_next (id : N) : M Listener (option (result string ())) :=
  s ← get_state;
  match connections s !! id with
  | Some (Finished ended) =>
      _ ← modify (λ s, s <| connections := delete id (connections s) |> <| fates := <[id := JoinedTask]> (fates s) |>);
      mret (Some ended)
  | _ => mret None
  end.

(** src/src/main.rs:473-476 [abort_connections]: a task that had finished is joined, the others are aborted *)
Definition abort_connections : M Listener () :=
  modify (λ s, s <| fates := ((λ task, match task with Finished _ => JoinedTask | _ => AbortedTask end)
                                <$> connections s) ∪ fates s |>
                 <| connections := ∅ |>).

Definition other_error (message : string) : IoError := {| kind := OtherKind; io_message := message |}.

(** ** Draining *)

(** src/src/main.rs, lines 444-470 of [drain_connections_with_grace]: the loop; [grace] is the grace in seconds as it is
    printed, and [None] means that it still waits *)
Fixpoint drain_loop (server : string) (quiet : bool) (grace : string) (events : list Event) :
    M Listener (option (result IoError ())) :=
  match events with
  | [] => mret None
  | event :: events =>
      let again := drain_loop server quiet grace events in
      match event with
      | JoinReady id =>
          joined ← join_next id;
          match joined with
          | Some (Err error) =>
              _ ← abort_connections;
              mret (Some (Err (other_error (server +:+ " connection task failed during shutdown: " +:+ error))))
          | _ => again
          end
      | JoinEmpty =>
          s ← get_state;
          if bool_decide (connections s = ∅) then mret (Some (Ok ())) else again
      | GraceOver =>
          s ← get_state;
          let remaining := N.of_nat (size (connections s)) in
          _ ← warn quiet ("WARN " +:+ server +:+ " server exceeded the " +:+ grace +:+ "s shutdown grace; aborting "
                +:+ to_string remaining +:+ " remaining connection" +:+ (if (remaining =? 1)%N then "" else "s"));
          _ ← abort_connections;
          mret (Some (Ok ()))
      | _ => _ ← connection_event event; again
      end
  end.

(** src/src/main.rs:432-471 [drain_connections_with_grace] *)
Definition drain_connections_with_grace (server : string) (quiet : bool) (grace : string) (events : list Event) :
    M Listener (option (result IoError ())) :=
  s ← get_state;
  if bool_decide (connections s = ∅) then mret (Some (Ok ())) else drain_loop server quiet grace events.

(** src/src/main.rs:32-32 [SERVER_SHUTDOWN_GRACE]; in seconds, as printed *)
Definition SERVER_SHUTDOWN_GRACE : string := "30".

(** src/src/main.rs:424-430 [drain_connections] *)
Definition drain_connections (server : string) (quiet : bool) (events : list Event) :
    M Listener (option (result IoError ())) :=
  drain_connections_with_grace server quiet SERVER_SHUTDOWN_GRACE events.

(** ** Accepting *)

(** What one turn of the accept loop comes to. *)
Inductive Turn := Again | Break | Return (error : IoError).

(** src/src/main.rs, lines 315-350 of [serve_public]: the arm that accepts; a connection is its peer and what went
    wrong with [set_nodelay] *)
Definition accept_public (quiet : bool) (connection : result IoError (string * option string)) : M Listener Turn :=
  match connection with
  | Err error => _ ← abort_connections; mret (Return error)
  | Ok (peer, nodelay) =>
      _ ← match nodelay with
          | Some error => warn quiet ("WARN could not enable TCP_NODELAY for " +:+ peer +:+ ": " +:+ error)
          | None => mret ()
          end;
      _ ← spawn;
      mret Again
  end.

(** src/src/main.rs, lines 379-409 of [serve_control]: the arm that accepts *)
Definition accept_control (connection : result IoError (string * option string)) : M Listener Turn :=
  match connection with
  | Err error => _ ← abort_connections; mret (Return error)
  | Ok _ => _ ← spawn; mret Again
  end.

(** src/src/main.rs, lines 313-359 of [serve_public]: one turn; [accept] is the arm that accepts *)
Definition serve_turn (server : string) (accept : result IoError (string * option string) → M Listener Turn)
    (event : Event) : M Listener Turn :=
  match event with
  | Stopping => s ← get_state; mret (if wait_for_shutdown (shutdown s) [] then Break else Again)
  | Accepted connection => accept connection
  | JoinReady id =>
      joined ← join_next id;
      match joined with
      | Some (Err error) =>
          _ ← abort_connections;
          mret (Return (other_error (server +:+ " connection task failed: " +:+ error)))
      | _ => mret Again
      end
  | _ => _ ← connection_event event; mret Again
  end.

(** The loop of [serve_public] and [serve_control], and the draining after it; [None]: it still runs. *)
Fixpoint serve_loop (server : string) (quiet : bool)
    (accept : result IoError (string * option string) → M Listener Turn) (events : list Event) :
    M Listener (option (result IoError ())) :=
  match events with
  | [] => mret None
  | event :: events =>
      turn ← serve_turn server accept event;
      match turn with
      | Again => serve_loop server quiet accept events
      | Break => drain_connections server quiet events
      | Return error => mret (Some (Err error))
      end
  end.

(** src/src/main.rs:302-363 [serve_public] *)
Definition serve_public (quiet : bool) (events : list Event) : M Listener (option (result IoError ())) :=
  serve_loop "public" quiet (accept_public quiet) events.

(** src/src/main.rs:366-422 [serve_control] *)
Definition serve_control (quiet : bool) (events : list Event) : M Listener (option (result IoError ())) :=
  serve_loop "control" quiet accept_control events.

(** ** The end of [run] *)

(** What the end of the server does, in order. *)
Inductive Action :=
| SentShutdown
| AwaitedServer (name : string)
| AbortedWorker (name : string)
| AwaitedWorker (name : string)
| JoinedLog
| PrintedError (line : string)
| Printed (line : string)
| DroppedGuard.

(** The tasks whose handles were not awaited yet, and what was done. *)
Record Supervisor := mkSupervisor { unawaited : gset string; trace : list Action }.

Definition Supervisor_new : Supervisor :=
  {| unawaited := {[ "public"; "control"; "telemetry"; "readiness" ]}; trace := [] |}.

Definition act (action : Action) : M Supervisor () := modify (λ s, s <| trace := trace s ++ [action] |>).

(** Awaiting a [JoinHandle]; one that has already given its result panics. *)
Definition await (task : string) : M Supervisor () :=
  s ← get_state;
  if bool_decide (task ∈ unawaited s) then modify (λ s, s <| unawaited := unawaited s ∖ {[ task ]} |>) else panic.

(** src/src/main.rs:478-485 [flatten_server_result] *)
Definition flatten_server_result (ended : Joined ()) : result string () :=
  match ended with
  | Ok ended => map_err io_message ended
  | Err error => Err ("server task stopped unexpectedly: " +:+ error)
  end.

(** src/src/main.rs:487-493 [shutdown_server_task]; [ended] is what the task gives *)
Definition shutdown_server_task (name : string) (ended : Joined ()) : M Supervisor (result string ()) :=
  _ ← await name;
  _ ← act (AwaitedServer name);
  mret (flatten_server_result ended).

(** src/src/main.rs:495-504 [unexpected_worker_stop] *)
Definition unexpected_worker_stop (name : string) (ended : result string (result string ())) : result string () :=
  match ended with
  | Ok (Ok _) => Err (name +:+ " worker stopped unexpectedly")
  | Ok (Err error) | Err error => Err (name +:+ " worker failed: " +:+ error)
  end.

(** src/src/main.rs, lines 166-174 of [run]: [Stopped] *)
Inductive Stopped :=
| Signal
| PublicStopped (ended : Joined ())
| ControlStopped (ended : Joined ())
| TelemetryStopped (ended : result string (result string ()))
| ReadinessStopped (ended : result string (result string ()))
| LoggerStopped.

(** What waiting for the writer's thread to finish gave. *)
Inductive Finish := FinishSent | FinishDisconnected | FinishTimeout.

(** src/src/logging.rs:465-469 [LogWorker::join]; [None]: the thread panicked *)
Definition LogWorker_join (thread : option (result IoError ())) : result IoError () :=
  match thread with
  | Some ended => ended
  | None => Err (other_error "JSON log worker panicked")
  end.

(** src/src/logging.rs:473-484 [LogWorker::join_timeout]; [timeout] in seconds, as it is printed *)
Definition join_timeout (timeout : string) (finish : Finish) (thread : option (result IoError ())) : result IoError () :=
  match finish with
  | FinishSent | FinishDisconnected => LogWorker_join thread
  | FinishTimeout =>
      Err {| kind := TimedOut;
             io_message := "audit writer exceeded the " +:+ timeout +:+ "s shutdown grace and was detached" |}
  end.

(** src/src/main.rs:33-33 [AUDIT_SHUTDOWN_GRACE]; in seconds, as printed *)
Definition AUDIT_SHUTDOWN_GRACE : string := "5".

(** What the tasks give when they are awaited, and the writer when it is joined; the outer error is the join task's. *)
Record Ends := mkEnds {
  public_end : Joined ();
  control_end : Joined ();
  log_end : result string (Finish * option (result IoError ()));
}.

(** [Result::and] *)
Definition and_ (r k : result string ()) : result string () := match r with Ok _ => k | Err _ => r end.

(** src/src/main.rs, lines 176-184 of [run]: the handle whose result [select!] took *)
Definition selected (stopped : Stopped) : M Supervisor () :=
  match stopped with
  | PublicStopped _ => await "public"
  | ControlStopped _ => await "control"
  | TelemetryStopped _ => await "telemetry"
  | ReadinessStopped _ => await "readiness"
  | Signal | LoggerStopped => mret ()
  end.

(** src/src/main.rs, lines 200-271 of [run]: the servers' results *)
Definition stop_servers (stopped : Stopped) (ends : Ends) : M Supervisor (result string ()) :=
  let stop_public := shutdown_server_task "public" (public_end ends) in
  let stop_control := shutdown_server_task "control" (control_end ends) in
  match stopped with
  | Signal => public ← stop_public; control ← stop_control; mret (and_ public control)
  | PublicStopped ended =>
      let public := flatten_server_result ended in
      control ← stop_control; mret (and_ public control)
  | ControlStopped ended =>
      let control := flatten_server_result ended in
      public ← stop_public; mret (and_ control public)
  | TelemetryStopped ended =>
      let worker := unexpected_worker_stop "telemetry" ended in
      public ← stop_public; control ← stop_control; mret (and_ (and_ worker public) control)
  | ReadinessStopped ended =>
      let worker := unexpected_worker_stop "readiness" ended in
      public ← stop_public; control ← stop_control; mret (and_ (and_ worker public) control)
  | LoggerStopped =>
      let logger := Err "audit log writer stopped; refusing to continue serving" in
      public ← stop_public; control ← stop_control; mret (and_ (and_ logger public) control)
  end.

(** src/src/main.rs, lines 273-280 of [run]: a worker that still runs *)
Definition stop_worker (name : string) (already : bool) : M Supervisor () :=
  if already then mret () else
  _ ← act (AbortedWorker name);
  _ ← await name;
  act (AwaitedWorker name).

(** src/src/main.rs, lines 284-288 of [run] *)
Definition log_result_of (ends : Ends) : result IoError () :=
  match log_end ends with
  | Err error => Err (other_error ("audit join task failed: " +:+ error))
  | Ok (finish, thread) => join_timeout AUDIT_SHUTDOWN_GRACE finish thread
  end.

(** src/src/main.rs, lines 193-300 of [run]: from the [select!] to its return, which drops the guard *)
Definition wind_down (quiet : bool) (stopped : Stopped) (ends : Ends) : M Supervisor (result string ()) :=
  _ ← selected stopped;
  let telemetry_stopped := match stopped with TelemetryStopped _ => true | _ => false end in
  let readiness_stopped := match stopped with ReadinessStopped _ => true | _ => false end in
  _ ← act SentShutdown;
  serve_result ← stop_servers stopped ends;
  _ ← stop_worker "telemetry" telemetry_stopped;
  _ ← stop_worker "readiness" readiness_stopped;
  let log_result := log_result_of ends in
  _ ← act JoinedLog;
  _ ← match log_result with
      | Err error => act (PrintedError ("WARN audit log did not shut down cleanly: " +:+ io_message error))
      | Ok _ => mret ()
      end;
  let concluded := and_ serve_result (map_err io_message log_result) in
  _ ← match concluded with
      | Ok _ => if quiet then mret () else act (Printed "INFO proxy stopped")
      | Err _ => mret ()
      end;
  _ ← act DroppedGuard;
  mret concluded.

(** src/src/main.rs, lines 48-55 of [main]: the exit status, and what is printed *)
Definition exit_status (ended : result string ()) : N * option string :=
  match ended with
  | Ok _ => (0%N, None)
  | Err error => (1%N, Some ("mistralrs_proxy: " +:+ error))
  end.

(** ** The accounts of the connections *)

(** Every accepted connection is in the set or has its fate, and not both; a connection is asked to close only after
    the shutdown. *)
Record held (s : Listener) : Prop := {
  hd_known : ∀ id, is_Some (connections s !! id) ∨ is_Some (fates s !! id) ↔ (id < accepted s)%N;
  hd_apart : ∀ id, connections s !! id = None ∨ fates s !! id = None;
  hd_closing : ∀ id, connections s !! id = Some Closing → shutdown s = true;
}.

(** No connection was cut off. *)
Definition uncut (s : Listener) : Prop := ∀ id, fates s !! id ≠ Some AbortedTask.

(** No connection task has failed. *)
Definition sane (s : Listener) : Prop := ∀ id error, connections s !! id ≠ Some (Finished (Err error)).

(** Not a failure to accept, nor a connection task's. *)
Definition peaceful (event : Event) : Prop :=
  match event with Accepted (Err _) | ConnectionEnds _ (Err _) => False | _ => True end.

(** A step that keeps the accounts, cuts nothing off and lets the shutdown stand. *)
Record steady (s s' : Listener) : Prop := {
  sd_held : held s → held s';
  sd_uncut : uncut s → uncut s';
  sd_shutdown : shutdown s = true → shutdown s' = true;
}.

#[export] Instance steady_preorder : PreOrder steady.
Proof. split; [by intros s|]. intros s1 s2 s3 [] []. split; auto. Qed.

Lemma steady_warn quiet line s : ∃ s', warn quiet line s = (Done (), s') ∧ steady s s' ∧ connections s' = connections s.
Proof. unfold warn. destruct quiet; eexists; (split; [reflexivity|]); (split; [split|]); try done. by intros []. Qed.

(** Replacing a task by another of the same connection. *)
Lemma steady_task id old new (s : Listener) :
  connections s !! id = Some old → (new = Closing → shutdown s = true) →
  ∃ s', set_task id new s = (Done (), s') ∧ steady s s' ∧ connections s' = <[id := new]> (connections s).
Proof.
  intros Hold Hnew. eexists. split; [reflexivity|]. split; [|done]. split; [|done|done].
  intros [Hk Ha Hc]. split; rsimpl.
  - intros i. rewrite <- Hk. destruct (decide (i = id)) as [->|Hne].
    + rewrite lookup_insert_eq, Hold. naive_solver.
    + by rewrite lookup_insert_ne.
  - intros i. destruct (decide (i = id)) as [->|Hne]; [|by rewrite lookup_insert_ne].
    right. destruct (Ha id); [congruence|done].
  - intros i. destruct (decide (i = id)) as [->|Hne]; [rewrite lookup_insert_eq|rewrite lookup_insert_ne by done; apply Hc].
    intros [= Hn]. by apply Hnew.
Qed.

Lemma event_run event (s : Listener) :
  ∃ s', connection_event event s = (Done (), s') ∧ steady s s'
    ∧ (peaceful event → sane s → sane s') ∧ (event = ShutdownSent → shutdown s' = true).
Proof.
  unfold connection_event, get_state, mbind, M_mbind.
  assert (∃ s', (mret () : M Listener ()) s = (Done (), s') ∧ steady s s' ∧ (peaceful event → sane s → sane s')) as Hidle.
  { exists s. split; [done|]. by split. }
  assert (∀ id old new, connections s !! id = Some old → (new = Closing → shutdown s = true) →
    (∀ error, new = Finished (Err error) → ¬ peaceful event) →
    ∃ s', set_task id new s = (Done (), s') ∧ steady s s' ∧ (peaceful event → sane s → sane s')) as Htask.
  { intros id old new Hold Hnew Herr. destruct (steady_task id old new s Hold Hnew) as (s' & Hrun & Hst & Hc).
    exists s'. split_and!; try done. intros Hp Hs i error. rewrite Hc.
    destruct (decide (i = id)) as [->|Hne]; [rewrite lookup_insert_eq|by rewrite lookup_insert_ne].
    intros [= E]. by eapply Herr. }
  assert (∀ P : Listener → Prop, (∃ s', P s' ∧ steady s s' ∧ (peaceful event → sane s → sane s')) →
    event ≠ ShutdownSent → ∃ s', P s' ∧ steady s s' ∧ (peaceful event → sane s → sane s')
      ∧ (event = ShutdownSent → shutdown s' = true)) as Hother by naive_solver.
  destruct event as [|id ended|id| |c|id| |]; try (by apply (Hother (λ s', _ = (Done (), s')))).
  - eexists. split; [reflexivity|]. split; [split|]; try done. intros []. by split.
  - apply (Hother (λ s', _ = (Done (), s'))); [|done].
    destruct (connections s !! id) as [[| |r]|] eqn:E; try done;
      (eapply Htask; [exact E|done|]); intros error [= ->]; cbn; tauto.
  - apply (Hother (λ s', _ = (Done (), s'))); [|done].
    destruct (connections s !! id) as [[| |r]|] eqn:E; try done. simpl.
    destruct (shutdown s) eqn:Es; [|done]. by eapply Htask.
Qed.

Lemma spawn_run (s : Listener) :
  held s → ∃ s', spawn s = (Done (), s') ∧ held s' ∧ (uncut s → uncut s') ∧ (sane s → sane s')
    ∧ shutdown s' = shutdown s.
Proof.
  intros [Hk Ha Hc]. eexists. split; [reflexivity|].
  assert (connections s !! accepted s = None ∧ fates s !! accepted s = None) as [Hn1 Hn2].
  { split; apply eq_None_not_Some; intros Hs; assert (accepted s < accepted s)%N by (apply Hk; auto); lia. }
  split_and!; [|done| |done].
  - split; rsimpl.
    + intros i. destruct (decide (i = accepted s)) as [->|Hne].
      * rewrite lookup_insert_eq. split; [lia|]. intros _. by left.
      * rewrite lookup_insert_ne by done. rewrite Hk. lia.
    + intros i. destruct (decide (i = accepted s)) as [->|Hne]; [by right|]. by rewrite lookup_insert_ne.
    + intros i. destruct (decide (i = accepted s)) as [->|Hne]; [by rewrite lookup_insert_eq|].
      rewrite lookup_insert_ne by done. apply Hc.
  - intros Hs i error. rsimpl. destruct (decide (i = accepted s)) as [->|Hne]; [by rewrite lookup_insert_eq|].
    by rewrite lookup_insert_ne.
Qed.

Lemma join_run id (s : Listener) :
  ∃ joined s', join_next id s = (Done joined, s') ∧ steady s s' ∧ (sane s → sane s')
    ∧ (∀ error, joined = Some (Err error) → ¬ sane s).
Proof.
  unfold join_next, get_state, mbind, M_mbind.
  destruct (connections s !! id) as [[| |ended]|] eqn:E; try by eexists _, s.
  eexists _, _. split; [reflexivity|]. split; [split|]; [| |done|split].
  - intros [Hk Ha Hc]. split; rsimpl.
    + intros i. rewrite <- Hk. destruct (decide (i = id)) as [->|Hne].
      * rewrite lookup_delete_eq, lookup_insert_eq, E. naive_solver.
      * by rewrite lookup_delete_ne, lookup_insert_ne.
    + intros i. destruct (decide (i = id)) as [->|Hne]; [left; apply lookup_delete_eq|].
      by rewrite lookup_delete_ne, lookup_insert_ne.
    + intros i. rewrite lookup_delete_Some. naive_solver.
  - intros Hu i. rsimpl. destruct (decide (i = id)) as [->|Hne]; [by rewrite lookup_insert_eq|].
    by rewrite lookup_insert_ne.
  - intros Hs i error. rsimpl. rewrite lookup_delete_Some. intros [_ H]. by apply (Hs i error).
  - intros error [= ->] Hs. by apply (Hs id error).
Qed.

Lemma abort_run (s : Listener) :
  ∃ s', abort_connections s = (Done (), s') ∧ (held s → held s') ∧ connections s' = ∅ ∧ shutdown s' = shutdown s.
Proof.
  eexists. split; [reflexivity|]. split; [|done]. intros [Hk Ha Hc]. split; rsimpl.
  - intros i. rewrite <- Hk, lookup_empty, lookup_union, lookup_fmap. specialize (Ha i).
    destruct (connections s !! i), (fates s !! i); simpl; naive_solver.
  - intros i. left. apply lookup_empty.
  - intros i. by rewrite lookup_empty.
Qed.

(** ** The loops *)

(** What a server that ran on some events has come to. *)
Record served (s s' : Listener) (events : list Event) (o : option (result IoError ())) : Prop := {
  sv_held : held s';
  sv_empty : o ≠ None → connections s' = ∅;
  sv_stopped : o = Some (Ok ()) → shutdown s' = true;
  sv_uncut : uncut s → GraceOver ∉ events → (∀ error, o ≠ Some (Err error)) → uncut s';
  sv_peace : sane s → Forall peaceful events → ∀ error, o ≠ Some (Err error);
}.

(** Any number of turns that change nothing but what [steady] allows. *)
Lemma served_step s s1 s2 event events o :
  (uncut s → uncut s1) → (peaceful event → sane s → sane s1) → served s1 s2 events o →
  served s s2 (event :: events) o.
Proof.
  intros Hu Hp [H1 H2 H3 H4 H5]. split; [done|done|done| |].
  - intros Hs Hg. apply H4; [auto|]. intros Hin. apply Hg. by right.
  - intros Hs [Hpe Hpes]%Forall_cons. auto.
Qed.

Lemma served_failed s s1 s2 event events error :
  held s2 → connections s2 = ∅ → (sane s → ¬ peaceful event ∨ ¬ sane s) →
  s1 = s2 → served s s2 (event :: events) (Some (Err error)).
Proof.
  intros Hh Hc Hp ->. split; try done.
  - intros _ _ Hne. by destruct (Hne error).
  - intros Hs [Hpe _]%Forall_cons. destruct (Hp Hs); tauto.
Qed.

Lemma drain_run server quiet grace events (s : Listener) :
  held s → shutdown s = true →
  ∃ o s', drain_loop server quiet grace events s = (Done o, s') ∧ served s s' events o
    ∧ (GraceOver ∈ events → o ≠ None).
Proof.
  revert s. induction events as [|event events IH]; intros s Hh Hs; cbn [drain_loop].
  { eexists None, s. split; [done|]. split; [by split|]. by intros ?%elem_of_nil. }
  assert (∀ s1, steady s s1 → (peaceful event → sane s → sane s1) → event ≠ GraceOver →
    ∃ o s', drain_loop server quiet grace events s1 = (Done o, s') ∧ served s s' (event :: events) o
      ∧ (GraceOver ∈ event :: events → o ≠ None)) as Hagain.
  { intros s1 Hst Hp Hne. destruct (IH s1) as (o & s2 & Hrun & Hsv & Hg); [by apply Hst|by apply Hst|].
    exists o, s2. split; [done|]. split; [by eapply served_step; [apply Hst|..]|].
    intros [He|Hin]%elem_of_cons; [by destruct Hne|auto]. }
  destruct event as [|id ended|id| |c|id| |].
  all: try (match goal with |- context [connection_event ?event] =>
    destruct (event_run event s) as (s1 & Hrun & Hst & Hp & _) end;
    unfold mbind, M_mbind; rewrite Hrun; by apply Hagain).
  - destruct (join_run id s) as (joined & s1 & Hrun & Hst & Hp & Hbad). unfold mbind, M_mbind. rewrite Hrun.
    destruct joined as [[[]|error]|]; try (apply Hagain; [done|by intros _|done]).
    destruct (abort_run s1) as (s2 & Hab & Hh2 & Hc2 & _). rewrite Hab. eexists _, s2. split; [reflexivity|].
    split; [|done]. eapply served_failed; [apply Hh2; by apply Hst|done| |done]. intros _. right. by apply (Hbad error).
  - unfold mbind, M_mbind, get_state. case_bool_decide as He; [|by apply Hagain].
    eexists _, s. split; [reflexivity|]. split; [|done]. by split.
  - unfold mbind, M_mbind, get_state.
    destruct (steady_warn quiet ("WARN " +:+ server +:+ " server exceeded the " +:+ grace
      +:+ "s shutdown grace; aborting " +:+ to_string (N.of_nat (size (connections s))) +:+ " remaining connection"
      +:+ (if (N.of_nat (size (connections s)) =? 1)%N then "" else "s")) s) as (s1 & Hw & Hst & _).
    rewrite Hw. destruct (abort_run s1) as (s2 & Hab & Hh2 & Hc2 & Hs2). rewrite Hab.
    eexists _, s2. split; [reflexivity|]. split; [|done]. split; try done.
    + apply Hh2. by apply Hst.
    + intros _. rewrite Hs2. by apply Hst.
    + intros _ Hg. destruct Hg. left.
Qed.

(** An arm that accepts. *)
Definition accepts (accept : result IoError (string * option string) → M Listener Turn) : Prop :=
  ∀ c s, held s → ∃ turn s', accept c s = (Done turn, s') ∧ held s' ∧ shutdown s' = shutdown s
    ∧ match turn with
      | Again => (uncut s → uncut s') ∧ (sane s → sane s')
      | Break => False
      | Return _ => connections s' = ∅ ∧ ¬ peaceful (Accepted c)
      end.

Lemma accepts_control : accepts accept_control.
Proof.
  intros [c|error] s Hh; unfold accept_control, mbind, M_mbind.
  - destruct (spawn_run s Hh) as (s' & Hrun & ? & ? & ? & ?). rewrite Hrun. eexists Again, s'. by split_and!.
  - destruct (abort_run s) as (s' & Hrun & ? & ? & ?). rewrite Hrun. eexists (Return _), s'.
    split_and!; auto.
Qed.

Lemma accepts_public quiet : accepts (accept_public quiet).
Proof.
  intros [[peer nodelay]|error] s Hh; unfold accept_public; cbv [mbind M_mbind].
  - assert (∃ s1, match nodelay with
      | Some error => warn quiet ("WARN could not enable TCP_NODELAY for " +:+ peer +:+ ": " +:+ error)
      | None => mret ()
      end s = (Done (), s1) ∧ steady s s1 ∧ shutdown s1 = shutdown s ∧ connections s1 = connections s)
      as (s1 & Hw & Hst & Hs1 & Hc1).
    { destruct nodelay as [e|]; [|by exists s]. unfold warn. destruct quiet; [by exists s|].
      eexists. split; [reflexivity|]. split; [|done]. split; try done. by intros []. }
    rewrite Hw. destruct (spawn_run s1) as (s' & Hrun & ? & Hu & Hsane & Hs'); [by apply Hst|]. rewrite Hrun.
    eexists Again, s'. split_and!; [done|done|congruence| |].
    + intros ?. by apply Hu, Hst.
    + intros Hs. apply Hsane. intros i error. rewrite Hc1. apply Hs.
  - destruct (abort_run s) as (s' & Hrun & ? & ? & ?). rewrite Hrun. eexists (Return _), s'.
    split_and!; auto.
Qed.

Lemma turn_run server accept event (s : Listener) :
  accepts accept → held s →
  ∃ turn s', serve_turn server accept event s = (Done turn, s') ∧ held s'
    ∧ (shutdown s = true ∨ event = ShutdownSent → shutdown s' = true)
    ∧ (shutdown s = true → event = Stopping → turn = Break)
    ∧ match turn with
      | Again => (uncut s → uncut s') ∧ (peaceful event → sane s → sane s')
      | Break => s' = s ∧ shutdown s = true
      | Return _ => connections s' = ∅ ∧ (sane s → ¬ peaceful event ∨ ¬ sane s)
      end.
Proof.
  intros Hacc Hh. unfold serve_turn. destruct event as [|id ended|id| |c|id| |].
  all: try (match goal with |- context [connection_event ?event] =>
    destruct (event_run event s) as (s1 & Hrun & Hst & Hp & Hs1) end;
    unfold mbind, M_mbind; rewrite Hrun; eexists Again, s1; split_and!; try done; try apply Hst; try done;
    intros [?|?]; [by apply Hst|by apply Hs1]).
  - unfold get_state, mbind, M_mbind. eexists _, s. split; [reflexivity|]. simpl.
    destruct (shutdown s) eqn:Es; split_and!; try done; by intros [].
  - destruct (Hacc c s Hh) as (turn & s1 & Hrun & Hh1 & Hs1 & Ht). exists turn, s1. split; [done|].
    split; [done|]. split; [rewrite Hs1; by intros [|]|]. split; [done|].
    destruct turn; [|done|]; naive_solver.
  - destruct (join_run id s) as (joined & s1 & Hrun & Hst & Hp & Hbad). unfold mbind, M_mbind. rewrite Hrun.
    assert (shutdown s = true ∨ JoinReady id = ShutdownSent → shutdown s1 = true) as Hs1
      by (intros [?|?]; [by apply Hst|done]).
    destruct joined as [[[]|error]|];
      try (eexists Again, s1; split_and!; try done; by apply Hst).
    destruct (abort_run s1) as (s2 & Hab & Hh2 & Hc2 & Hs2). rewrite Hab. eexists (Return _), s2.
    split_and!; try done.
    + apply Hh2. by apply Hst.
    + rewrite Hs2. done.
    + intros _. right. by apply (Hbad error).
Qed.

(** The events tell the server to stop: the shutdown, its being noticed, the grace running out. *)
Definition stops (events : list Event) : Prop :=
  ∃ l1 l2, events = l1 ++ Stopping :: l2 ∧ GraceOver ∈ l2.
Definition shuts_down (events : list Event) : Prop :=
  ∃ l1 l2, events = l1 ++ ShutdownSent :: l2 ∧ stops l2.

Lemma stops_cons event events : stops (event :: events) → event = Stopping ∧ GraceOver ∈ events ∨ stops events.
Proof. intros ([|e l1] & l2 & [= -> ->] & Hg); [by left|right; by exists l1, l2]. Qed.

Lemma shuts_down_cons event events :
  shuts_down (event :: events) → event = ShutdownSent ∧ stops events ∨ shuts_down events.
Proof. intros ([|e l1] & l2 & [= -> ->] & Hs); [by left|right; by exists l1, l2]. Qed.

Lemma stops_grace events : stops events → GraceOver ∈ events.
Proof. intros (l1 & l2 & -> & Hg). apply elem_of_app. right. by right. Qed.

Lemma shuts_down_stops events : shuts_down events → stops events.
Proof. intros (l1 & l2 & -> & m1 & m2 & -> & Hg). exists (l1 ++ ShutdownSent :: m1), m2. by rewrite <- app_assoc. Qed.

Lemma serve_run server quiet accept events (s : Listener) :
  accepts accept → held s →
  ∃ o s', serve_loop server quiet accept events s = (Done o, s') ∧ served s s' events o
    ∧ (shutdown s = true ∧ stops events ∨ shuts_down events → o ≠ None).
Proof.
  intros Hacc. revert s. induction events as [|event events IH]; intros s Hh; cbn [serve_loop].
  { eexists None, s. split; [done|]. split; [by split|].
    intros [[_ (l1 & l2 & E & _)]|(l1 & l2 & E & _)]; by destruct l1. }
  destruct (turn_run server accept event s Hacc Hh) as (turn & s1 & Hrun & Hh1 & Hs1 & Hstop & Ht).
  unfold mbind, M_mbind. rewrite Hrun. destruct turn as [| |error].
  - destruct (IH s1 Hh1) as (o & s2 & Hrun2 & Hsv & Hret). exists o, s2. split; [done|].
    split; [by eapply served_step; [apply Ht|apply Ht|]|].
    intros [[Hs Hst]|Hsd]; apply Hret.
    + apply stops_cons in Hst as [[-> _]|Hst]; [by specialize (Hstop Hs eq_refl)|]. auto.
    + apply shuts_down_cons in Hsd as [[-> Hst]|Hsd]; auto.
  - destruct Ht as [-> Hs]. unfold drain_connections, drain_connections_with_grace, get_state, mbind, M_mbind.
    case_bool_decide as He.
    + eexists _, s. split; [reflexivity|]. by split.
    + destruct (drain_run server quiet SERVER_SHUTDOWN_GRACE events s Hh Hs) as (o & s2 & Hd & Hsv & Hg).
      exists o, s2. split; [done|]. split; [by eapply served_step|]. intros Hst. apply Hg.
      assert (stops (event :: events)) as [[_ ?]|?%stops_grace]%stops_cons; [|done|done].
      destruct Hst as [[_ ?]|?]; [done|by apply shuts_down_stops].
  - eexists _, s1. split; [reflexivity|]. split; [|done]. by eapply served_failed; [|apply Ht|apply Ht|].
Qed.

Lemma held_new : held Listener_new.
Proof. split; rsimpl; intros id; rewrite ?lookup_empty; [|by left|done]. split; [intros [[]|[]]; done|lia]. Qed.

(** Waiting returns when the value is or becomes [true], or when the sender is gone. *)
Lemma wait_for_shutdown_spec value changes :
  wait_for_shutdown value changes = true ↔ value = true ∨ ∃ change, change ∈ changes ∧ change ≠ Some false.
Proof.
  revert value. induction changes as [|[v|] changes IH]; intros value; destruct value; simpl; try (split; [by left|done]).
  - split; [done|]. intros [|(c & Hc%elem_of_nil & _)]; done.
  - rewrite IH. split.
    + intros [->|(c & ? & ?)]; right; [exists (Some true); split; [left|done]|exists c; split; [by right|done]].
    + intros [|(c & [->|Hc]%elem_of_cons & Hne)]; [done|left; by destruct v|right; by exists c].
  - split; [|done]. intros _. right. exists None. split; [left|done].
Qed.

(** Either of the two servers. *)
Definition serve (control quiet : bool) : list Event → M Listener (option (result IoError ())) :=
  if control then serve_control quiet else serve_public quiet.

Lemma serve_served control quiet events :
  ∃ o s', serve control quiet events Listener_new = (Done o, s') ∧ served Listener_new s' events o
    ∧ (shuts_down events → o ≠ None).
Proof.
  destruct control.
  - destruct (serve_run "control" quiet accept_control events _ accepts_control held_new) as (o & s' & Hr & Hs & He).
    exists o, s'. split; [exact Hr|]. split; [done|]. auto.
  - destruct (serve_run "public" quiet (accept_public quiet) events _ (accepts_public quiet) held_new)
      as (o & s' & Hr & Hs & He).
    exists o, s'. split; [exact Hr|]. split; [done|]. auto.
Qed.

(** C16: no connection is lost by a server.  Whatever becomes ready in whatever order, neither server panics, every
    connection it accepted is held by it or was joined or aborted, and not two of these, and a connection is
    asked to close only after the shutdown.  When the server returns it holds none.  It returns [Ok] only after the
    shutdown, and then nothing was aborted unless the grace ran out; it fails only when accepting failed or a
    connection task did. *)
Theorem serve_accounts (control quiet : bool) (events : list Event) :
  ∃ o s', serve control quiet events Listener_new = (Done o, s')
    ∧ (∀ id, is_Some (connections s' !! id) ∨ is_Some (fates s' !! id) ↔ (id < accepted s')%N)
    ∧ (∀ id, connections s' !! id = None ∨ fates s' !! id = None)
    ∧ (∀ id, connections s' !! id = Some Closing → shutdown s' = true)
    ∧ match o with
      | None => True
      | Some (Ok _) => connections s' = ∅ ∧ shutdown s' = true
                       ∧ (GraceOver ∉ events → ∀ id, (id < accepted s')%N → fates s' !! id = Some JoinedTask)
      | Some (Err _) => connections s' = ∅ ∧ ¬ Forall peaceful events
      end.
Proof.
  destruct (serve_served control quiet events) as (o & s' & Hrun & [[Hk Ha Hc] He Hs Hu Hp] & _).
  exists o, s'. split_and!; try done. destruct o as [[[]|error]|]; [| |done].
  - split_and!; [by apply He|by apply Hs|]. intros Hg id Hid. apply Hk in Hid.
    rewrite He, lookup_empty in Hid by done. destruct Hid as [[? ?]|[[] Hf]]; [done|done|].
    exfalso. eapply Hu; [|exact Hg| |exact Hf]; [|done]. intros i. simpl. by rewrite lookup_empty.
  - split; [by apply He|]. intros Hall. apply (Hp) with (error := error); [|done|done]. intros i e. simpl. by rewrite lookup_empty.
Qed.

(** C18: a shutdown ends.  Once the shutdown was sent, the server has noticed it, and the grace has run out, the server
    has returned, whatever its connections do and whatever else became ready before, between and after. *)
Theorem serve_ends (control quiet : bool) (before noticed draining after : list Event) :
  ∃ r s', serve control quiet
            (before ++ ShutdownSent :: noticed ++ Stopping :: draining ++ GraceOver :: after) Listener_new
          = (Done (Some r), s') ∧ connections s' = ∅.
Proof.
  edestruct (serve_served control quiet) as (o & s' & Hrun & Hsv & Hret). rewrite Hrun.
  destruct o as [r|].
  - exists r, s'. split; [done|]. by apply (sv_empty _ _ _ _ Hsv).
  - exfalso. apply Hret; [|done]. eexists before, _. split; [reflexivity|]. exists noticed, (draining ++ GraceOver :: after).
    split; [done|]. apply elem_of_app. right. left.
Qed.

(** A connection that the kernel reports as aborted while it is accepted ends the server, and with it the
    connections that were being served. *)
Example aborted_accept :
  let events := [Accepted (Ok ("10.0.0.1:4000", None)); Accepted (Ok ("10.0.0.2:4000", None));
                 Accepted (Err (other_error "Software caused connection abort (os error 103)"))] in
  let '(o, s) := serve_public true events Listener_new in
  o = Done (Some (Err (other_error "Software caused connection abort (os error 103)")))
  ∧ fates s = {[ 0%N := AbortedTask; 1%N := AbortedTask ]}.
Proof. vm_compute. split; reflexivity. Qed.

(** ** The order of the end *)

(** The servers and workers that the [select!] left running. *)
Definition servers_left (stopped : Stopped) : list string :=
  match stopped with
  | PublicStopped _ => ["control"]
  | ControlStopped _ => ["public"]
  | _ => ["public"; "control"]
  end.
Definition workers_left (stopped : Stopped) : list string :=
  match stopped with
  | TelemetryStopped _ => ["readiness"]
  | ReadinessStopped _ => ["telemetry"]
  | _ => ["telemetry"; "readiness"]
  end.

(** The results that decide how [run] ends, in the order they take precedence. *)
Definition verdicts (stopped : Stopped) (ends : Ends) : list (result string ()) :=
  let public := flatten_server_result (public_end ends) in
  let control := flatten_server_result (control_end ends) in
  match stopped with
  | Signal => [public; control]
  | PublicStopped ended => [flatten_server_result ended; control]
  | ControlStopped ended => [flatten_server_result ended; public]
  | TelemetryStopped ended => [unexpected_worker_stop "telemetry" ended; public; control]
  | ReadinessStopped ended => [unexpected_worker_stop "readiness" ended; public; control]
  | LoggerStopped => [Err "audit log writer stopped; refusing to continue serving"; public; control]
  end ++ [map_err io_message (log_result_of ends)].

Definition first_error (l : list (result string ())) : result string () := foldr and_ (Ok ()) l.

(** What is done, up to the joining of the log; and what is printed then. *)
Definition ordered (stopped : Stopped) : list Action :=
  SentShutdown :: (AwaitedServer <$> servers_left stopped)
  ++ concat ((λ name, [AbortedWorker name; AwaitedWorker name]) <$> workers_left stopped) ++ [JoinedLog].
Definition last_words (quiet : bool) (log_result : result IoError ()) (concluded : result string ()) : list Action :=
  match log_result with
  | Err error => [PrintedError ("WARN audit log did not shut down cleanly: " +:+ io_message error)]
  | Ok _ => []
  end ++ match concluded with Ok _ => if quiet then [] else [Printed "INFO proxy stopped"] | Err _ => [] end.

Lemma wind_down_run quiet stopped ends :
  wind_down quiet stopped ends Supervisor_new
  = (Done (first_error (verdicts stopped ends)),
     {| unawaited := ∅;
        trace := ordered stopped ++ last_words quiet (log_result_of ends) (first_error (verdicts stopped ends))
                 ++ [DroppedGuard] |}).
Proof.
  unfold wind_down, verdicts, stop_servers, shutdown_server_task. destruct ends as [p c l]. simpl public_end. simpl control_end.
  generalize (log_result_of {| public_end := p; control_end := c; log_end := l |}). intros log.
  generalize (flatten_server_result p). intros rp. generalize (flatten_server_result c). intros rc.
  destruct stopped as [|ended|ended|ended|ended|].
  all: try (generalize (flatten_server_result ended); intros re; destruct re as [[]|]).
  all: try (generalize (unexpected_worker_stop "telemetry" ended); intros rt; destruct rt as [[]|]).
  all: try (generalize (unexpected_worker_stop "readiness" ended); intros rr; destruct rr as [[]|]).
  all: destruct rp as [[]|], rc as [[]|], log as [[]|], quiet; vm_compute; reflexivity.
Qed.

Lemma first_error_Ok l : first_error l = Ok () → Forall (λ r, r = Ok ()) l.
Proof. induction l as [|[[]|e] l IH]; [done|intros H; constructor; auto|done]. Qed.

Lemma first_error_all l : Forall (λ r, r = Ok ()) l → first_error l = Ok ().
Proof. induction 1 as [|r l -> _ IH]; [done|exact IH]. Qed.

Lemma flatten_Ok ended : flatten_server_result ended = Ok () → ended = Ok (Ok ()).
Proof. by destruct ended as [[[]|]|]. Qed.

Lemma worker_stop_Err name ended : unexpected_worker_stop name ended ≠ Ok ().
Proof. by destruct ended as [[]|]. Qed.

(** C19: the server ends in order.  However it was stopped and whatever its tasks give, the end of [run] finishes,
    awaits no handle twice and leaves none unawaited.  It sends the shutdown first, then awaits the servers that
    still run, aborts and awaits the workers that still run, only then joins the audit log, once, and drops the guard of the
    control socket last.  Its result is the first error in that precedence, and it succeeds only when a signal or a server's own
    success stopped it and both servers and the log ended well. *)
Theorem wind_down_order (quiet : bool) (stopped : Stopped) (ends : Ends) :
  ∃ r s', wind_down quiet stopped ends Supervisor_new = (Done r, s')
    ∧ unawaited s' = ∅
    ∧ r = first_error (verdicts stopped ends)
    ∧ trace s' = SentShutdown :: (AwaitedServer <$> servers_left stopped)
        ++ concat ((λ name, [AbortedWorker name; AwaitedWorker name]) <$> workers_left stopped)
        ++ JoinedLog :: last_words quiet (log_result_of ends) r ++ [DroppedGuard]
    ∧ (r = Ok () →
       match stopped with
       | Signal => public_end ends = Ok (Ok ()) ∧ control_end ends = Ok (Ok ())
       | PublicStopped ended => ended = Ok (Ok ()) ∧ control_end ends = Ok (Ok ())
       | ControlStopped ended => ended = Ok (Ok ()) ∧ public_end ends = Ok (Ok ())
       | _ => False
       end ∧ log_result_of ends = Ok ()).
Proof.
  rewrite wind_down_run. eexists _, _. split; [reflexivity|]. split; [done|]. split; [done|]. split.
  { cbn [trace]. unfold ordered. cbn [app]. f_equal. by rewrite <- !app_assoc. }
  intros Hok%first_error_Ok. unfold verdicts in Hok. apply Forall_app in Hok as [Hs [Hl _]%Forall_cons].
  split; [|by destruct (log_result_of ends) as [[]|]].
  destruct stopped; repeat (apply Forall_cons in Hs as [?%flatten_Ok Hs] || apply Forall_cons in Hs as [? Hs]);
    try done; by eapply worker_stop_Err.
Qed.
