(* ===== verification/Main.v ===== *)
(** * The program from its command line to its exit status: [src/src/main.rs], [src/src/config.rs]

    The parsed command line, the dispatch on it, and [serve]: the start of
    [Boot.v], the tasks and the signal that ends them, and the end of
    [Serve.v], put together as [run] does.  [serve_exit] says how it comes
    to its exit status and what it leaves.  What clap does with the
    arguments is not modelled; their types and defaults are. *)

From S2P Require Import Prelude RustStd Float64 Disk Usage Keys Auth Logging BackendCli Socket Telemetry Backend Runtime Routing Selection BackendState Control Fences Drain Boot Serve.

(** ** The command line *)

(** src/src/config.rs:94-103 [ControlSocket] *)
Record ControlSocket := mkControlSocket { socket_path : string }.
Definition ControlSocket_default : ControlSocket := mkControlSocket "control.sock".

(** src/src/config.rs:106-119 [LogsArgs] *)
Record LogsArgs := mkLogsArgs { logs_log_file : string; logs_summary : bool }.
Definition LogsArgs_default : LogsArgs := mkLogsArgs "proxy.jsonl" false.

(** src/src/config.rs:148-157 [KeysFile] *)
Record KeysFile := mkKeysFile { keys_path : string }.
Definition KeysFile_default : KeysFile := mkKeysFile "keys.json".

(** src/src/config.rs:122-145 [KeyCommand] *)
Inductive KeyCommand :=
| KeyCreate (name : string) (admin : bool) (keys : KeysFile)
| KeyManage (log_file : string) (keys : KeysFile).

(** src/src/config.rs:19-30 [Command]; with the socket of the backend commands beside their command *)
Inductive Command :=
| ServeCommand (args : ServeArgs)
| KeyCommands (command : KeyCommand)
| BackendCommands (command : BackendCommand) (control : ControlSocket)
| LogsCommand (args : LogsArgs).

(** src/src/config.rs:13-16 [Cli] *)
Record Cli := mkCli { command : Command }.

(** What the commands run: [serve] below, [Manage.v], [BackendCli.v] and [LogText.v]. *)
Record Commands (S : Type) := mkCommands {
  do_serve : ServeArgs → M S (result string ());
  do_create : string → string → bool → M S (result string ());
  do_manage : string → string → M S (result string ());
  do_backend : string → BackendCommand → M S (result string ());
  do_logs : string → bool → M S (result string ());
}.
Arguments do_serve {S}. Arguments do_create {S}. Arguments do_manage {S}.
Arguments do_backend {S}. Arguments do_logs {S}.

(** src/src/main.rs:35-55 [main]; the exit status and what is printed to standard error *)
Definition main {S} (commands : Commands S) (cli : Cli) : M S (N * option string) :=
  result ← match command cli with
           | ServeCommand args => do_serve commands args
           | KeyCommands (KeyCreate name admin keys) => do_create commands (keys_path keys) name admin
           | KeyCommands (KeyManage log_file keys) => do_manage commands (keys_path keys) log_file
           | BackendCommands command control => do_backend commands (socket_path control) command
           | LogsCommand args => do_logs commands (logs_log_file args) (logs_summary args)
           end;
  mret (exit_status result).

(** ** Signals *)

(** Which of the two is ready first; Control-C may be an error of installing its handler. *)
Inductive SignalEvent := CtrlC (caught : result string ()) | Terminate.

(** src/src/main.rs:549-578 [shutdown_signal]: what is printed until it returns; [installed] is of the SIGTERM handler *)
Definition shutdown_signal (installed : result string ()) (first : SignalEvent) : list string :=
  match installed with
  | Err error => ["could not install SIGTERM handler: " +:+ error]%string
  | Ok _ =>
      match first with
      | CtrlC (Err error) => ["could not install Ctrl-C handler: " +:+ error]%string
      | CtrlC (Ok _) | Terminate => []
      end
  end.

(** ** [serve] *)

Section Main.
Context {Uri : Type} `{UriLaws Uri} `{JsonLaws StateFile} `{KeyCrypto} `{JsonOps KeyFile}
  (toml_from_str : string → result string RuntimeFile).

(** What becomes of the path of the control socket while the server runs, how it is stopped, and how its
    tasks end. *)
Record Course := mkCourse {
  meanwhile : Place → Place;
  course_stopped : Stopped;
  course_ends : Ends;
}.

(** src/src/main.rs, lines 120-164 of [run]: what is between [start] and [wind_down], and the two together; the result, and
    what was done and printed from the banner on *)
Definition run (args : ServeArgs) (env : Startup) (keys : KeyStore) (fresh : string → Uuid) (now : N)
    (course : Course) : M Place (result string () * list Action) :=
  started ← start (Uri:=Uri) toml_from_str args env keys fresh now;
  match started with
  | Err error => mret (Err error, [])
  | Ok sv =>
      _ ← modify (meanwhile course);
      ended ← run_on (wind_down (sv_quiet sv) (course_stopped course) (course_ends course)) Supervisor_new;
      _ ← OwnedControlSocket_drop (socket_world env) (sv_guard sv);
      mret (ended.1, (if sv_quiet sv then [] else [Printed (banner args sv)]) ++ trace ended.2)
  end.

(** src/src/main.rs:57-64 [serve]; [key_disk] holds the key file, [built] is the building of tokio's runtime *)
Definition serve (args : ServeArgs) (env : Startup) (key_disk : Disk) (built : result IoError ())
    (fresh : string → Uuid) (now : N) (course : Course) : M Place (result string () * list Action) :=
  match load_keys (keys_file args) key_disk with
  | Err error => mret (Err error, [])
  | Ok keys =>
      match boxed built with
      | Err error => mret (Err error, [])
      | Ok _ => run args env keys fresh now course
      end
  end.

(** ** How the program ends *)

(** The server of these inputs is up: its keys, its state and the path of its control socket. *)
Definition served_by (args : ServeArgs) (env : Startup) (key_disk : Disk) (built : result IoError ())
    (fresh : string → Uuid) (now : N) (place : Place) (sv : Serving (Uri:=Uri))
    (place1 : Place) : Prop :=
  ∃ keys, load_keys (keys_file args) key_disk = Ok keys ∧ is_ok built = true
    ∧ start toml_from_str args env keys fresh now place = (Done (Ok sv), place1).

Lemma served_run args env key_disk built fresh now course place sv place1 :
  undisturbed (socket_world env) → served_by args env key_disk built fresh now place sv place1 →
  serve args env key_disk built fresh now course place
  = (Done (first_error (verdicts (course_stopped course) (course_ends course)),
       (if sv_quiet sv then [] else [Printed (banner args sv)])
       ++ ordered (course_stopped course)
       ++ last_words (sv_quiet sv) (log_result_of (course_ends course))
            (first_error (verdicts (course_stopped course) (course_ends course))) ++ [DroppedGuard]),
     if is_owned (sv_guard sv) (meanwhile course place1)
        && bool_decide (refuses (socket_world env) StatDropped = None)
        && bool_decide (refuses (socket_world env) RemoveOwned = None)
     then {| entry := None; listening := listening (meanwhile course place1) |}
     else meanwhile course place1).
Proof.
  intros Hw (keys & Hk & Hb & Hst). unfold serve, run. rewrite Hk.
  destruct built as [[]|e]; [simpl|done]. unfold run_on, modify. cbv [mbind M_mbind mret M_mret].
  by rewrite Hst, wind_down_run, drop_run by done.
Qed.

(** C20: how the server's process comes to its exit status, when no other process interferes with the
    path of the control socket and the calls on it (stat, remove) succeed.  Whatever the key file, the
    configuration, the state file, the sockets and the log are, and however the server is stopped and
    its tasks end, [serve] comes to an end.  Its exit status is zero exactly when it had started and
    a signal or a server's own success stopped it and both servers and the log ended well; any
    other end is status one, with a line that names the error.  A server that was up has sent the
    shutdown, awaited its servers, ended its workers and joined the log before it gave up the control
    socket, and it leaves the path of that socket empty when the path still named its own socket,
    and otherwise as it is. *)
Theorem serve_exit args env key_disk built fresh now course (place : Place) :
  undisturbed (socket_world env) → Inj (=) (=) fresh →
  (∀ candidate, configured_as toml_from_str args env candidate →
     (1 + N.of_nat (length (backends candidate)) ≤ U64_MAX)%N) →
  ∃ r actions place', serve args env key_disk built fresh now course place = (Done (r, actions), place')
    ∧ ((exit_status r).1 = 0%N ↔
       (∃ sv place1, served_by args env key_disk built fresh now place sv place1)
       ∧ Forall (λ verdict, verdict = Ok ()) (verdicts (course_stopped course) (course_ends course)))
    ∧ ((exit_status r).1 ≠ 0%N → ∃ error, r = Err error
         ∧ exit_status r = (1%N, Some ("mistralrs_proxy: " +:+ error)))
    ∧ ∀ sv place1, served_by args env key_disk built fresh now place sv place1 →
        (∃ before after, actions = before ++ ordered (course_stopped course) ++ after ++ [DroppedGuard]
           ∧ Forall (λ action, match action with Printed _ | PrintedError _ => True | _ => False end) (before ++ after))
        ∧ (refuses (socket_world env) StatDropped = None → refuses (socket_world env) RemoveOwned = None →
           entry place' = if is_owned (sv_guard sv) (meanwhile course place1) then None
                          else entry (meanwhile course place1)).
Proof.
  intros Hw Hinj Hsize.
  assert (∀ r, (exit_status r).1 ≠ 0%N → ∃ error, r = Err error
    ∧ exit_status r = (1%N, Some ("mistralrs_proxy: " +:+ error))) as Hstatus.
  { intros [[]|e]; [done|]. intros _. by exists e. }
  assert ((∃ sv place1, served_by args env key_disk built fresh now place sv place1)
    ∨ ∃ e place', serve args env key_disk built fresh now course place = (Done (Err e, []), place')
      ∧ ∀ sv place1, ¬ served_by args env key_disk built fresh now place sv place1) as [(sv & p1 & Hs)|(e & p1 & Hrun & Hno)].
  { unfold serve, served_by. destruct (load_keys (keys_file args) key_disk) as [keys|e].
    2:{ right. eexists _, _. split; [done|]. by intros sv p1 (? & ? & _). }
    destruct built as [[]|e]; simpl.
    2:{ right. eexists _, _. split; [done|]. by intros sv p1 (? & _ & ? & _). }
    destruct (start_runs toml_from_str args env keys fresh now place Hinj Hsize) as ([sv|e] & p1 & Hst & _).
    - left. by exists sv, p1, keys.
    - right. unfold run. cbv [mbind M_mbind]. rewrite Hst. eexists _, _. split; [done|].
      intros sv p2 (keys' & [= <-] & _ & Hst'). congruence. }
  - rewrite (served_run _ _ _ _ _ _ _ _ _ _ Hw Hs). eexists _, _, _. split; [done|].
    split; [|split; [apply Hstatus|]].
    + split.
      * intros H0'. split; [by exists sv, p1|]. apply first_error_Ok.
        by destruct (first_error _) as [[]|].
      * intros [_ Hall]. by rewrite (first_error_all _ Hall).
    + intros sv' p1' Hs'. assert (sv' = sv ∧ p1' = p1) as [-> ->].
      { destruct Hs as (k1 & E1 & _ & E2), Hs' as (k2 & E3 & _ & E4). rewrite E1 in E3. injection E3 as <-.
        rewrite E2 in E4. by injection E4. }
      split.
      * eexists _, _. split; [done|]. apply Forall_app. split; [destruct (sv_quiet sv); by repeat constructor|].
        unfold last_words. destruct (log_result_of _), (first_error _), (sv_quiet sv); by repeat constructor.
      * intros E1 E2. rewrite E1, E2, !bool_decide_true, !andb_true_r by done. by destruct (is_owned _ _).
  - rewrite Hrun. eexists _, _, _. split; [done|]. split; [|split; [apply Hstatus|]].
    + simpl. split; [done|]. by intros [(sv & p & Hs) _]; destruct (Hno sv p).
    + intros sv p Hs. by destruct (Hno sv p).
Qed.
End Main.

(** ** A server that is stopped by a signal *)

Definition demo_course : Course :=
  {| meanwhile := λ place, place; course_stopped := Signal;
     course_ends := {| public_end := Ok (Ok ()); control_end := Ok (Ok ());
                       log_end := Ok (FinishSent, Some (Ok ())) |} |}.

Definition demo_serve : outcome (result string () * list Action) * Place :=
  serve (λ _, Ok Runtime.demo_file) ServeArgs_default demo_startup demo_disk (Ok ()) (λ id, id) 50 demo_course stale_socket.

(** It serves, ends with status zero, and its socket is gone. *)
Lemma serve_exit_witness :
  ∃ r actions place', demo_serve = (Done (r, actions), place')
    ∧ (exit_status r).1 = 0%N ∧ entry place' = None.
Proof.
  assert (match demo_serve with
          | (Done (r, _), place') => ((exit_status r).1 =? 0)%N && bool_decide (is_Some (entry place')) | _ => true end
          = false) as Hgone by (vm_compute; reflexivity).
  assert (match demo_serve.1 with Done (r, _) => ((exit_status r).1 =? 0)%N | _ => false end = true) as Hzero
    by (vm_compute; reflexivity).
  destruct (serve_exit (λ _, Ok Runtime.demo_file) ServeArgs_default demo_startup demo_disk (Ok ()) (λ id, id) 50 demo_course
    stale_socket) as (r & actions & place' & Hrun & _).
  - intros call s. reflexivity.
  - intros x y Hxy. exact Hxy.
  - intros c Hc. destruct demo_configured as (Hd & _ & Hn). unfold configured_as in Hc, Hd.
    rewrite Hd in Hc. injection Hc as <-. exact Hn.
  - exists r, actions, place'. change (demo_serve = (Done (r, actions), place')) in Hrun.
    rewrite Hrun in Hgone, Hzero. cbn [fst] in Hzero. split; [exact Hrun|].
    split; [apply N.eqb_eq; exact Hzero|]. rewrite Hzero in Hgone. cbn [andb] in Hgone.
    apply bool_decide_eq_false in Hgone. destruct (entry place'); [|reflexivity].
    exfalso. apply Hgone. eexists. reflexivity.
Defined.
